(** * Course Engine: spreadsheet <-> OLX archive conversion

    A shallow embedding of the conversion engine (archive codec, course
    model, workbook decoder, OLX generators and OLX decoder) together
    with the properties stated for it. *)

From Stdlib Require Import String Ascii.
From Stdlib Require Import ZArith List Bool Lia Arith.
From Stdlib Require Import Permutation.
Import ListNotations.
Open Scope Z_scope.
Set Warnings "-register-all".

(* Integer arithmetic stays folded under [simpl]. *)
Arguments Z.add _ _ : simpl never.
Arguments Z.sub _ _ : simpl never.
Arguments Z.mul _ _ : simpl never.
Arguments Z.div _ _ : simpl never.
Arguments Z.modulo _ _ : simpl never.
Arguments Z.pow _ _ : simpl never.
Arguments Z.opp _ : simpl never.
Arguments Z.eqb _ _ : simpl never.
Arguments Z.ltb _ _ : simpl never.
Arguments Z.leb _ _ : simpl never.
Arguments Z.of_nat _ : simpl never.
Arguments Z.to_nat _ : simpl never.

(** ** JavaScript strings

    A JavaScript string is a sequence of UTF-16 code units.  Code units
    are modelled as integers, a string as the list of its code units. *)

Module JsString.

Definition jsstring := list Z.

(** The code units of a literal (all literals of the program are ASCII,
    with the exception of one dash that is written by its code). *)
Definition str (s : string) : jsstring :=
  List.map (fun a => Z.of_N (N_of_ascii a)) (list_ascii_of_string s).
Arguments str s%_string.

(** The double quote, which a literal cannot hold. *)
Definition dq : jsstring := [34].

Fixpoint eqb (a b : jsstring) : bool :=
  match a, b with
  | [], [] => true
  | x :: a', y :: b' => (x =? y) && eqb a' b'
  | _, _ => false
  end.

(** [s.startsWith(pat)] *)
Fixpoint starts_with (pat s : jsstring) : bool :=
  match pat, s with
  | [], _ => true
  | p :: pat', c :: s' => (p =? c) && starts_with pat' s'
  | _ :: _, [] => false
  end.

(** [s.replace(/pat/g, rep)] for a pattern that is a literal, non-empty
    string: a left-to-right scan; after a match the scan resumes behind
    the matched text ([skip] counts the code units still to pass). *)
Fixpoint replace_all_from (pat rep : jsstring) (skip : nat) (s : jsstring)
  : jsstring :=
  match s with
  | [] => []
  | c :: s' =>
    match skip with
    | S k => replace_all_from pat rep k s'
    | O =>
      if starts_with pat s
      then rep ++ replace_all_from pat rep (length pat - 1) s'
      else c :: replace_all_from pat rep 0 s'
    end
  end.

Definition replaceAll (pat rep s : jsstring) : jsstring :=
  replace_all_from pat rep 0 s.

End JsString.
Import JsString.

(** ** utils.js *)

Module Utils.

(** The argument of [escapeXml]: null, undefined, a string, or any other
    value, of which only the result of [String(v)] matters. *)
Inductive jsval :=
| JsNull
| JsUndefined
| JsStr (s : jsstring)
| JsOther (toString : jsstring).

(** [String(v)] *)
Definition String_ (v : jsval) : jsstring :=
  match v with
  | JsNull => str "null"
  | JsUndefined => str "undefined"
  | JsStr s => s
  | JsOther s => s
  end.

Definition escapeXmlStr (s : jsstring) : jsstring :=
  replaceAll (str "'") (str "&apos;")
    (replaceAll dq (str "&quot;")
      (replaceAll (str ">") (str "&gt;")
        (replaceAll (str "<") (str "&lt;")
          (replaceAll (str "&") (str "&amp;") s)))).

Definition escapeXml (v : jsval) : jsstring :=
  match v with
  | JsNull | JsUndefined => []
  | _ => escapeXmlStr (String_ v)
  end.

(** The five entities that [escapeXml] writes. *)
Definition entities : list jsstring :=
  [str "&amp;"; str "&lt;"; str "&gt;"; str "&quot;"; str "&apos;"].

(** The replacement of one code unit by the five passes together. *)
Definition escape_unit (c : Z) : jsstring :=
  if c =? 38 then str "&amp;"
  else if c =? 60 then str "&lt;"
  else if c =? 62 then str "&gt;"
  else if c =? 34 then str "&quot;"
  else if c =? 39 then str "&apos;"
  else [c].

Definition xml_special (c : Z) : bool :=
  (c =? 60) || (c =? 62) || (c =? 34) || (c =? 39).

Definition begins_entity (s : jsstring) : Prop :=
  exists e, In e entities /\ starts_with e s = true.

End Utils.
Import Utils.

(** ** Byte buffers and number formatting

    A [Uint8Array] is a list of integers in [0, 255]; a store reduces the
    stored number modulo 256, and a store outside the array is ignored. *)

Module Bytes.

Definition u8 (x : Z) : Z := x mod 256.


(** [buf[i] = v] *)
Fixpoint set_at (buf : list Z) (i : nat) (v : Z) : list Z :=
  match buf, i with
  | [], _ => []
  | _ :: r, O => u8 v :: r
  | b :: r, S j => b :: set_at r j v
  end.

(** [for (i = lo; i < lo + n; i++) buf[i] = v] *)
Fixpoint fill (buf : list Z) (lo n : nat) (v : Z) : list Z :=
  match n with
  | O => buf
  | S m => fill (set_at buf lo v) (S lo) m v
  end.

(** [writeString] of tar.js: the first [maxLen] code units of [s] are
    stored from [offset] on. *)
Fixpoint writeString (buf : list Z) (offset : nat) (s : jsstring)
  (maxLen : nat) : list Z :=
  match maxLen, s with
  | S m, c :: s' => writeString (set_at buf offset c) (S offset) s' m
  | _, _ => buf
  end.

(** [for (i = 0; i < 512; i++) checksum += header[i]] *)
Definition byte_sum (h : list Z) : Z := fold_left Z.add h 0.

(** [n.toString(8)] for an integer [n]. *)
Fixpoint octal_digits (fuel : nat) (n : Z) (acc : jsstring) : jsstring :=
  match fuel with
  | O => acc
  | S f =>
    let acc' := (48 + n mod 8) :: acc in
    if n / 8 =? 0 then acc' else octal_digits f (n / 8) acc'
  end.

(** The digits of a non-negative [n]; a number below [2 ^ b] has no more
    than [b] octal digits. *)
Definition octal_of_nonneg (n : Z) : jsstring :=
  octal_digits (S (Z.to_nat (Z.log2 n))) n [].

Definition toString8 (n : Z) : jsstring :=
  if n <? 0 then 45 :: octal_of_nonneg (- n) else octal_of_nonneg n.

(** [s.padStart(w, c)] for a one-character filler. *)
Definition padStart (w : nat) (c : Z) (s : jsstring) : jsstring :=
  repeat c (w - length s) ++ s.

(** The [k] low octal digits of [n], most significant first. *)
Fixpoint fixed_octal (k : nat) (n : Z) : jsstring :=
  match k with
  | O => []
  | S k' => fixed_octal k' (n / 8) ++ [48 + n mod 8]
  end.

End Bytes.
Import Bytes.

(** ** tar.js: the header block *)

Module Tar.

(** [createTarHeader(name, size, isDir)]; [now] is the reading of
    [Date.now()] that the call takes. *)
Definition header_before_checksum (now : Z) (name : jsstring) (size : Z)
  (isDir : bool) : list Z :=
  let header := repeat 0 512 in
  let header := writeString header 0 name 100 in
  let header :=
    writeString header 100 (if isDir then str "0000755" else str "0000644") 8 in
  let header := writeString header 108 (str "0001000") 8 in
  let header := writeString header 116 (str "0001000") 8 in
  let header := writeString header 124 (padStart 11 48 (toString8 size)) 12 in
  let mtime := now / 1000 in
  let header := writeString header 136 (padStart 11 48 (toString8 mtime)) 12 in
  let header := fill header 148 8 32 in
  let header := set_at header 156 (if isDir then 53 else 48) in
  let header := writeString header 257 (str "ustar") 6 in
  let header := set_at header 263 32 in
  set_at header 264 32.

Definition createTarHeader (now : Z) (name : jsstring) (size : Z)
  (isDir : bool) : list Z :=
  let header := header_before_checksum now name size isDir in
  let checksum := byte_sum header in
  writeString header 148 (padStart 6 48 (toString8 checksum) ++ [0; 32]) 8.



(** The number that a text of octal digits denotes. *)
Definition octal_value (ds : jsstring) : Z :=
  fold_left (fun a d => a * 8 + (d - 48)) ds 0.

End Tar.
Import Tar.

(** ** Services of the JavaScript platform and of the libraries

    What the program takes from its environment and from its libraries
    (case mapping of the Unicode tables, the date parser, fflate's gzip
    codec, the JSON parser) is a parameter of the model. *)

(** JSON values, as [JSON.parse] returns them; a number is kept as the
    text that [String] gives for it. *)
Inductive json :=
| JNull
| JBool (b : bool)
| JNum (text : jsstring)
| JString (s : jsstring)
| JArray (items : list json)
| JObject (members : list (jsstring * json)).

Class Platform := {
  (** [s.toLowerCase()] and [s.toUpperCase()] *)
  toLowerCase : jsstring -> jsstring;
  toUpperCase : jsstring -> jsstring;
  (** [new Date(s).toISOString()]; [None] for an invalid date, where
      [getTime()] is NaN. *)
  dateToISOString : jsstring -> option jsstring;
  (** fflate's [gzipSync] and [gunzipSync]; [None] where the latter throws. *)
  gzipSync : list Z -> list Z;
  gunzipSync : list Z -> option (list Z);
  (** [JSON.parse]; [None] where it throws. *)
  JSON_parse : jsstring -> option json
}.

Module JsText.

(** White space and line terminators of ECMAScript: what [trim] removes
    and what [\s] matches. *)
Definition is_ws (c : Z) : bool :=
  ((9 <=? c) && (c <=? 13)) || (c =? 32) || (c =? 160) || (c =? 5760)
  || ((8192 <=? c) && (c <=? 8202)) || (c =? 8232) || (c =? 8233)
  || (c =? 8239) || (c =? 8287) || (c =? 12288) || (c =? 65279).

Fixpoint trimStart (s : jsstring) : jsstring :=
  match s with
  | c :: s' => if is_ws c then trimStart s' else s
  | [] => []
  end.

Definition trimEnd (s : jsstring) : jsstring := rev (trimStart (rev s)).

Definition trim (s : jsstring) : jsstring := trimEnd (trimStart s).

(** Truthiness of a string. *)
Definition nonempty (s : jsstring) : bool :=
  match s with [] => false | _ => true end.

(** [a || b] on strings. *)
Definition or_else (a b : jsstring) : jsstring :=
  if nonempty a then a else b.

(** [parts.join(sep)] *)
Fixpoint join (sep : jsstring) (parts : list jsstring) : jsstring :=
  match parts with
  | [] => []
  | [p] => p
  | p :: rest => p ++ sep ++ join sep rest
  end.

(** [s.split(sep)] for a separator of one code unit. *)
Fixpoint split_at (sep : Z) (s : jsstring) (cur : jsstring) : list jsstring :=
  match s with
  | [] => [rev cur]
  | c :: s' =>
    if c =? sep then rev cur :: split_at sep s' []
    else split_at sep s' (c :: cur)
  end.

Definition split (sep : Z) (s : jsstring) : list jsstring := split_at sep s [].

(** [s.split(/[...]+/)] for a class of code units: the fields between
    the maximal runs of separators. *)
Fixpoint split_runs_at (sep : Z -> bool) (s : jsstring) (cur : jsstring)
  (in_run : bool) : list jsstring :=
  match s with
  | [] => [rev cur]
  | c :: s' =>
    if sep c then
      if in_run then split_runs_at sep s' cur true
      else rev cur :: split_runs_at sep s' [] true
    else split_runs_at sep s' (c :: cur) false
  end.

Definition split_runs (sep : Z -> bool) (s : jsstring) : list jsstring :=
  split_runs_at sep s [] false.

(** [s.replace(/[...]+/g, rep)] for a class of code units: every maximal
    run is replaced. *)
Fixpoint replace_runs_at (cls : Z -> bool) (rep : jsstring) (s : jsstring)
  (in_run : bool) : jsstring :=
  match s with
  | [] => []
  | c :: s' =>
    if cls c then
      if in_run then replace_runs_at cls rep s' true
      else rep ++ replace_runs_at cls rep s' true
    else c :: replace_runs_at cls rep s' false
  end.

Definition replace_runs (cls : Z -> bool) (rep s : jsstring) : jsstring :=
  replace_runs_at cls rep s false.

(** [arr.includes(x)], [set.has(x)] *)
Definition includes (l : list jsstring) (x : jsstring) : bool :=
  existsb (eqb x) l.

(** [n.toString()] for an integer. *)
Fixpoint decimal_digits (fuel : nat) (n : Z) (acc : jsstring) : jsstring :=
  match fuel with
  | O => acc
  | S f =>
    let acc' := (48 + n mod 10) :: acc in
    if n / 10 =? 0 then acc' else decimal_digits f (n / 10) acc'
  end.

Definition toString10 (n : Z) : jsstring :=
  if n <? 0 then 45 :: decimal_digits (S (Z.to_nat (Z.log2 (- n)))) (- n) []
  else decimal_digits (S (Z.to_nat (Z.log2 n))) n [].

Definition is_digit (c : Z) : bool := (48 <=? c) && (c <=? 57).

Definition hex_value (c : Z) : option Z :=
  if is_digit c then Some (c - 48)
  else if (97 <=? c) && (c <=? 102) then Some (c - 87)
  else if (65 <=? c) && (c <=? 70) then Some (c - 55)
  else None.

(** The longest prefix of digits of the radix, read as a number; [None]
    when there is no digit. *)
Fixpoint read_digits (radix : Z) (s : jsstring) (acc : option Z) : option Z :=
  match s with
  | c :: s' =>
    match hex_value c with
    | Some d =>
      if d <? radix
      then read_digits radix s'
             (Some (match acc with Some a => a | None => 0 end * radix + d))
      else acc
    | None => acc
    end
  | [] => acc
  end.

Definition signed_digits (radix : Z) (s : jsstring) : option Z :=
  match s with
  | 45 :: r => option_map Z.opp (read_digits radix r None)
  | 43 :: r => read_digits radix r None
  | _ => read_digits radix s None
  end.

(** [parseInt(s, 8)]; [None] is NaN. *)
Definition parseInt8 (s : jsstring) : option Z :=
  signed_digits 8 (trimStart s).

(** [parseInt(s)]: decimal, or hexadecimal behind [0x]; [None] is NaN. *)
Definition parseInt (s : jsstring) : option Z :=
  match trimStart s with
  | 45 :: 48 :: x :: r =>
    if (x =? 120) || (x =? 88) then option_map Z.opp (read_digits 16 r None)
    else signed_digits 10 (trimStart s)
  | 43 :: 48 :: x :: r =>
    if (x =? 120) || (x =? 88) then read_digits 16 r None
    else signed_digits 10 (trimStart s)
  | 48 :: x :: r =>
    if (x =? 120) || (x =? 88) then read_digits 16 r None
    else signed_digits 10 (trimStart s)
  | _ => signed_digits 10 (trimStart s)
  end.

(** [x || 0] on the result of [parseInt]. *)
Definition or_zero (x : option Z) : Z :=
  match x with Some n => n | None => 0 end.

End JsText.
Import JsText.

(** ** Maps in insertion order

    A JavaScript [Map] keeps its entries in the order of first insertion;
    [set] on a key that is present replaces the value in place. *)

Module JsMap.

Section WithKey.
Context {K V : Type} (keqb : K -> K -> bool).

Fixpoint get_by (m : list (K * V)) (k : K) : option V :=
  match m with
  | [] => None
  | (k', v) :: r => if keqb k' k then Some v else get_by r k
  end.

Fixpoint set_by (m : list (K * V)) (k : K) (v : V) : list (K * V) :=
  match m with
  | [] => [(k, v)]
  | (k', v') :: r =>
    if keqb k' k then (k', v) :: r else (k', v') :: set_by r k v
  end.

End WithKey.

Definition t (V : Type) := list (jsstring * V).

Definition get {V} (m : t V) (k : jsstring) : option V := get_by eqb m k.
Definition set {V} (m : t V) (k : jsstring) (v : V) : t V := set_by eqb m k v.
Definition has {V} (m : t V) (k : jsstring) : bool :=
  match get m k with Some _ => true | None => false end.
Definition keys {V} (m : t V) : list jsstring := List.map fst m.

End JsMap.

(** ** model.js: the course model *)

Module Model.

Record CourseInfo := {
  courseName : jsstring;
  org : jsstring;
  courseId : jsstring;
  run : jsstring;
  language : jsstring;
  startDate : jsstring;
  endDate : jsstring;
  selfPaced : bool
}.

Record TextBlock := {
  tb_blockId : jsstring;
  tb_title : jsstring;
  tb_content : jsstring
}.

Record VideoBlock := {
  vb_blockId : jsstring;
  vb_title : jsstring;
  vb_youtubeId : jsstring;
  vb_html5Url : jsstring;
  vb_startTime : jsstring;
  vb_endTime : jsstring
}.

Record Choice := {
  ch_text : jsstring;
  ch_correct : bool;
  ch_hint : jsstring
}.

Record ProblemBlock := {
  pb_blockId : jsstring;
  pb_title : jsstring;
  pb_questionText : jsstring;
  pb_choices : list Choice;
  pb_explanation : jsstring;
  pb_showAnswer : jsstring
}.

Record CriterionOption := {
  co_label : jsstring;
  co_points : Z
}.

Record Criterion := {
  cr_name : jsstring;
  cr_options : list CriterionOption
}.

Record OpenResponseBlock := {
  ob_blockId : jsstring;
  ob_title : jsstring;
  ob_prompt : jsstring;
  ob_criteria : list Criterion;
  ob_assessmentType : jsstring
}.

Record StructureRow := {
  chapter : jsstring;
  sequential : jsstring;
  vertical : jsstring;
  blockType : jsstring;
  blockId : jsstring
}.

Record CourseData := {
  info : CourseInfo;
  structure : list StructureRow;
  textBlocks : JsMap.t TextBlock;
  videoBlocks : JsMap.t VideoBlock;
  problemBlocks : JsMap.t ProblemBlock;
  openResponseBlocks : JsMap.t OpenResponseBlock
}.

Definition createCourseData : CourseData := {|
  info := {|
    courseName := [];
    org := [];
    courseId := [];
    run := [];
    language := str "en";
    startDate := [];
    endDate := [];
    selfPaced := true
  |};
  structure := [];
  textBlocks := [];
  videoBlocks := [];
  problemBlocks := [];
  openResponseBlocks := []
|}.

Definition with_info (d : CourseData) (i : CourseInfo) : CourseData :=
  {| info := i; structure := structure d; textBlocks := textBlocks d;
     videoBlocks := videoBlocks d; problemBlocks := problemBlocks d;
     openResponseBlocks := openResponseBlocks d |}.

Definition push_structure (d : CourseData) (r : StructureRow) : CourseData :=
  {| info := info d; structure := structure d ++ [r];
     textBlocks := textBlocks d; videoBlocks := videoBlocks d;
     problemBlocks := problemBlocks d;
     openResponseBlocks := openResponseBlocks d |}.

Definition set_textBlock (d : CourseData) (k : jsstring) (b : TextBlock) :=
  {| info := info d; structure := structure d;
     textBlocks := JsMap.set (textBlocks d) k b; videoBlocks := videoBlocks d;
     problemBlocks := problemBlocks d;
     openResponseBlocks := openResponseBlocks d |}.

Definition set_videoBlock (d : CourseData) (k : jsstring) (b : VideoBlock) :=
  {| info := info d; structure := structure d;
     textBlocks := textBlocks d; videoBlocks := JsMap.set (videoBlocks d) k b;
     problemBlocks := problemBlocks d;
     openResponseBlocks := openResponseBlocks d |}.

Definition set_problemBlock (d : CourseData) (k : jsstring) (b : ProblemBlock) :=
  {| info := info d; structure := structure d;
     textBlocks := textBlocks d; videoBlocks := videoBlocks d;
     problemBlocks := JsMap.set (problemBlocks d) k b;
     openResponseBlocks := openResponseBlocks d |}.

Definition set_openResponseBlock (d : CourseData) (k : jsstring)
  (b : OpenResponseBlock) :=
  {| info := info d; structure := structure d;
     textBlocks := textBlocks d; videoBlocks := videoBlocks d;
     problemBlocks := problemBlocks d;
     openResponseBlocks := JsMap.set (openResponseBlocks d) k b |}.

End Model.
Import Model.

(** ** model.js: the hierarchy builder

    The builder keeps, next to every array of nodes, a temporary [Map]
    from the node names to the node objects of that array.  An object
    found through the map is the object in the array: a reference is
    modelled as the index of the object in the array that owns it, and
    a mutation through the reference updates the array in place. *)

Module Hierarchy.

Record BlockRef := {
  br_type : jsstring;
  br_blockId : jsstring
}.

(** The objects under construction, with their temporary maps. *)
Record VerticalObj := {
  vo_name : jsstring;
  vo_id : jsstring;
  vo_blocks : list BlockRef
}.

Record SequentialObj := {
  so_name : jsstring;
  so_id : jsstring;
  so_verticals : list VerticalObj;
  so_vertMap : JsMap.t nat
}.

Record ChapterObj := {
  cho_name : jsstring;
  cho_id : jsstring;
  cho_sequentials : list SequentialObj;
  cho_seqMap : JsMap.t nat
}.

Record BuildState := {
  chapters : list ChapterObj;
  chapterMap : JsMap.t nat
}.

(** The tree that is returned, the temporary maps deleted. *)
Record Vertical := {
  v_name : jsstring;
  v_id : jsstring;
  v_blocks : list BlockRef
}.

Record Sequential := {
  s_name : jsstring;
  s_id : jsstring;
  s_verticals : list Vertical
}.

Record Chapter := {
  c_name : jsstring;
  c_id : jsstring;
  c_sequentials : list Sequential
}.

(** [l[i] = f(l[i])]: the object behind the reference [i] is mutated. *)
Fixpoint update_at {A} (l : list A) (i : nat) (f : A -> A) : list A :=
  match l, i with
  | [], _ => []
  | x :: r, O => f x :: r
  | x :: r, S j => x :: update_at r j f
  end.

(** [idMap.get(key) || name] *)
Definition id_or (idMap : JsMap.t jsstring) (key name : jsstring) : jsstring :=
  match JsMap.get idMap key with
  | Some v => or_else v name
  | None => name
  end.

Definition chapterId idMap (c : jsstring) : jsstring :=
  id_or idMap (str "ch:" ++ c) c.

Definition sequentialId idMap (c s : jsstring) : jsstring :=
  id_or idMap (str "seq:" ++ (c ++ str "|" ++ s)) s.

Definition verticalId idMap (c s v : jsstring) : jsstring :=
  id_or idMap (str "vert:" ++ ((c ++ str "|" ++ s) ++ str "|" ++ v)) v.

Section Builder.
Variable idMap : JsMap.t jsstring.

(** The vertical level and the block reference: what one row does to
    the sequential object that it reaches. *)
Definition stepSequential (row : StructureRow) (sequential : SequentialObj)
  : SequentialObj :=
  let sequential :=
    if negb (JsMap.has (so_vertMap sequential) (vertical row)) then
      let vert := {|
        vo_name := vertical row;
        vo_id := verticalId idMap (chapter row) (Model.sequential row)
                   (vertical row);
        vo_blocks := []
      |} in
      {| so_name := so_name sequential;
         so_id := so_id sequential;
         so_verticals := so_verticals sequential ++ [vert];
         so_vertMap := JsMap.set (so_vertMap sequential) (vertical row)
                         (length (so_verticals sequential)) |}
    else sequential in
  match JsMap.get (so_vertMap sequential) (vertical row) with
  | None => sequential
  | Some vertical =>
    {| so_name := so_name sequential;
       so_id := so_id sequential;
       so_verticals :=
         update_at (so_verticals sequential) vertical
           (fun v =>
              {| vo_name := vo_name v;
                 vo_id := vo_id v;
                 vo_blocks :=
                   vo_blocks v ++ [{| br_type := blockType row;
                                      br_blockId := blockId row |}] |});
       so_vertMap := so_vertMap sequential |}
  end.

(** The sequential level: what one row does to the chapter object that
    it reaches. *)
Definition stepChapter (row : StructureRow) (chapter : ChapterObj)
  : ChapterObj :=
  let chapter :=
    if negb (JsMap.has (cho_seqMap chapter) (sequential row)) then
      let seq := {|
        so_name := sequential row;
        so_id := sequentialId idMap (Model.chapter row) (sequential row);
        so_verticals := [];
        so_vertMap := []
      |} in
      {| cho_name := cho_name chapter;
         cho_id := cho_id chapter;
         cho_sequentials := cho_sequentials chapter ++ [seq];
         cho_seqMap := JsMap.set (cho_seqMap chapter) (sequential row)
                         (length (cho_sequentials chapter)) |}
    else chapter in
  match JsMap.get (cho_seqMap chapter) (sequential row) with
  | None => chapter
  | Some sequential =>
    {| cho_name := cho_name chapter;
       cho_id := cho_id chapter;
       cho_sequentials :=
         update_at (cho_sequentials chapter) sequential (stepSequential row);
       cho_seqMap := cho_seqMap chapter |}
  end.

(** The body of the loop over the rows. *)
Definition step (st : BuildState) (row : StructureRow) : BuildState :=
  let st :=
    if negb (JsMap.has (chapterMap st) (chapter row)) then
      let ch := {|
        cho_name := chapter row;
        cho_id := chapterId idMap (chapter row);
        cho_sequentials := [];
        cho_seqMap := []
      |} in
      {| chapters := chapters st ++ [ch];
         chapterMap := JsMap.set (chapterMap st) (chapter row)
                         (length (chapters st)) |}
    else st in
  match JsMap.get (chapterMap st) (chapter row) with
  | None => st
  | Some chapter =>
    {| chapters := update_at (chapters st) chapter (stepChapter row);
       chapterMap := chapterMap st |}
  end.

(** The clean-up of the temporary maps. *)
Definition cleanVertical (v : VerticalObj) : Vertical :=
  {| v_name := vo_name v; v_id := vo_id v; v_blocks := vo_blocks v |}.

Definition cleanSequential (s : SequentialObj) : Sequential :=
  {| s_name := so_name s; s_id := so_id s;
     s_verticals := List.map cleanVertical (so_verticals s) |}.

Definition cleanChapter (c : ChapterObj) : Chapter :=
  {| c_name := cho_name c; c_id := cho_id c;
     c_sequentials := List.map cleanSequential (cho_sequentials c) |}.

Definition buildHierarchy (structure : list StructureRow) : list Chapter :=
  let st :=
    fold_left step structure {| chapters := []; chapterMap := [] |} in
  List.map cleanChapter (chapters st).

End Builder.

(** *** The hierarchy in the words of the specification

    Node identity is the name tuple; the first occurrence of a tuple in
    the row sequence creates the node, and the rows that share the tuple
    append to it. *)

(** The distinct names of a list, in the order of first occurrence. *)
Definition firstOccurrences (names : list jsstring) : list jsstring :=
  fold_left (fun acc x => if includes acc x then acc else acc ++ [x]) names [].

Definition inChapter (c : jsstring) (row : StructureRow) : bool :=
  eqb (chapter row) c.

Definition inSequential (s : jsstring) (row : StructureRow) : bool :=
  eqb (sequential row) s.

Definition inVertical (v : jsstring) (row : StructureRow) : bool :=
  eqb (vertical row) v.

Definition blockOf (row : StructureRow) : BlockRef :=
  {| br_type := blockType row; br_blockId := blockId row |}.

Section Spec.
Variable idMap : JsMap.t jsstring.

Definition specVertical (c s : jsstring) (rows : list StructureRow)
  (v : jsstring) : Vertical :=
  {| v_name := v; v_id := verticalId idMap c s v;
     v_blocks := List.map blockOf (filter (inVertical v) rows) |}.

Definition specSequential (c : jsstring) (rows : list StructureRow)
  (s : jsstring) : Sequential :=
  let rs := filter (inSequential s) rows in
  {| s_name := s; s_id := sequentialId idMap c s;
     s_verticals :=
       List.map (specVertical c s rs)
         (firstOccurrences (List.map vertical rs)) |}.

Definition specChapter (rows : list StructureRow) (c : jsstring) : Chapter :=
  let rc := filter (inChapter c) rows in
  {| c_name := c; c_id := chapterId idMap c;
     c_sequentials :=
       List.map (specSequential c rc)
         (firstOccurrences (List.map sequential rc)) |}.

Definition specHierarchy (rows : list StructureRow) : list Chapter :=
  List.map (specChapter rows) (firstOccurrences (List.map chapter rows)).

End Spec.

(** The Vertical nodes of a tree under a name tuple. *)
Definition verticalsAt (tree : list Chapter) (c s v : jsstring)
  : list Vertical :=
  flat_map
    (fun ch =>
       if eqb (c_name ch) c then
         flat_map
           (fun sq =>
              if eqb (s_name sq) s
              then filter (fun vt => eqb (v_name vt) v) (s_verticals sq)
              else [])
           (c_sequentials ch)
       else [])
    tree.

(** The rows of a name tuple, in input order. *)
Definition rowsOf (rows : list StructureRow) (c s v : jsstring)
  : list StructureRow :=
  filter (fun row => inChapter c row && inSequential s row && inVertical v row)
         rows.

End Hierarchy.

(** *** The invariant of the builder

    After the rows [rows], every temporary map sends a name to the index
    of the object of that name, the objects of every level are those of
    the names in order of first occurrence, and every object holds what
    the rows of its name tuple gave. *)

Module HierarchyInvariant.
Import Hierarchy.

(** The index of the first occurrence of a name. *)
Fixpoint index_of (k : jsstring) (names : list jsstring) : option nat :=
  match names with
  | [] => None
  | n :: r => if eqb n k then Some O else option_map S (index_of k r)
  end.

Section Level.
Context {A : Type} (name : A -> jsstring).

Definition indexed (m : JsMap.t nat) (objs : list A) : Prop :=
  forall k, JsMap.get m k = index_of k (List.map name objs).

(** One level of the loop body: create the object of the name [k] when
    the map has none, then mutate the object that the map gives. *)
Definition touch (m : JsMap.t nat) (objs : list A) (k : jsstring)
  (create : A) (f : A -> A) : list A * JsMap.t nat :=
  let '(objs, m) :=
    if negb (JsMap.has m k)
    then (objs ++ [create], JsMap.set m k (length objs))
    else (objs, m) in
  match JsMap.get m k with
  | None => (objs, m)
  | Some i => (update_at objs i f, m)
  end.

Definition levelInv (key : StructureRow -> jsstring)
  (good : list StructureRow -> A -> Prop)
  (m : JsMap.t nat) (objs : list A) (rows : list StructureRow) : Prop :=
  indexed m objs /\
  List.map name objs = firstOccurrences (List.map key rows) /\
  Forall (good rows) objs.

End Level.

Section Good.
Variable idMap : JsMap.t jsstring.

(** The objects that the loop body creates, and the mutation of a
    vertical. *)
Definition createVertical (row : StructureRow) : VerticalObj :=
  {| vo_name := vertical row;
     vo_id := verticalId idMap (chapter row) (sequential row) (vertical row);
     vo_blocks := [] |}.

Definition pushBlock (row : StructureRow) (v : VerticalObj) : VerticalObj :=
  {| vo_name := vo_name v; vo_id := vo_id v;
     vo_blocks := vo_blocks v ++ [blockOf row] |}.

Definition createSequential (row : StructureRow) : SequentialObj :=
  {| so_name := sequential row;
     so_id := sequentialId idMap (chapter row) (sequential row);
     so_verticals := []; so_vertMap := [] |}.

Definition createChapter (row : StructureRow) : ChapterObj :=
  {| cho_name := chapter row; cho_id := chapterId idMap (chapter row);
     cho_sequentials := []; cho_seqMap := [] |}.

Definition goodVertical (c s : jsstring) (rows : list StructureRow)
  (v : VerticalObj) : Prop :=
  vo_id v = verticalId idMap c s (vo_name v) /\
  vo_blocks v = List.map blockOf (filter (inVertical (vo_name v)) rows).

Definition goodSequential (c : jsstring) (rows : list StructureRow)
  (s : SequentialObj) : Prop :=
  so_id s = sequentialId idMap c (so_name s) /\
  levelInv vo_name vertical
    (goodVertical c (so_name s)) (so_vertMap s) (so_verticals s)
    (filter (inSequential (so_name s)) rows).

Definition goodChapter (rows : list StructureRow) (c : ChapterObj) : Prop :=
  cho_id c = chapterId idMap (cho_name c) /\
  levelInv so_name sequential
    (goodSequential (cho_name c)) (cho_seqMap c) (cho_sequentials c)
    (filter (inChapter (cho_name c)) rows).

Definition goodState (rows : list StructureRow) (st : BuildState) : Prop :=
  levelInv cho_name chapter goodChapter (chapterMap st) (chapters st) rows.

End Good.

End HierarchyInvariant.

(** ** parser.js: the workbook decoder *)

Module Parser.

(** The value of a cell, as ExcelJS gives it. *)
Inductive cellval :=
| CellNull                               (* null or undefined *)
| CellRichText (runs : list jsstring)    (* an object with richText *)
| CellDate (iso : jsstring)              (* a Date; [iso] is toISOString() *)
| CellResult (result : jsstring)         (* a formula; String(v.result) *)
| CellPlain (text : jsstring).           (* any other value; String(v) *)

Record Row := {
  rowNumber : Z;
  cells : list (Z * cellval)             (* column number, value *)
}.

Record Worksheet := {
  name : jsstring;
  rows : list Row                        (* the rows that eachRow visits *)
}.

Definition Workbook := list Worksheet.

Definition getCell (row : Row) (col : Z) : cellval :=
  match JsMap.get_by Z.eqb (cells row) col with
  | Some v => v
  | None => CellNull
  end.

Definition getRow (sheet : Worksheet) (n : Z) : Row :=
  match find (fun r => rowNumber r =? n) (rows sheet) with
  | Some r => r
  | None => {| rowNumber := n; cells := [] |}
  end.

Definition cellValue (v : cellval) : jsstring :=
  match v with
  | CellNull => []
  | CellRichText runs => trim (join [] runs)
  | CellDate iso => hd [] (split 84 iso)
  | CellResult s => trim s
  | CellPlain s => trim s
  end.

Definition quoted (s : jsstring) : jsstring := dq ++ s ++ dq.

Section WithPlatform.
Context {P : Platform}.

Definition findSheet (wb : Workbook) (name_ : jsstring) : option Worksheet :=
  let target := trim (toLowerCase name_) in
  find (fun ws => eqb (trim (toLowerCase (name ws))) target) wb.

(** Column number to header name. *)
Definition getHeaders (sheet : Worksheet) : list (Z * jsstring) :=
  fold_left
    (fun headers cell =>
       let val := cellValue (snd cell) in
       if nonempty val
       then JsMap.set_by Z.eqb headers (fst cell)
              (replace_runs is_ws (str "_") (toLowerCase val))
       else headers)
    (cells (getRow sheet 1)) [].

Definition rowToObject (row : Row) (headers : list (Z * jsstring))
  : JsMap.t jsstring :=
  fold_left
    (fun obj h => JsMap.set obj (snd h) (cellValue (getCell row (fst h))))
    headers [].

Definition objStr (row : JsMap.t jsstring) (key : jsstring) : jsstring :=
  let lowerKey := replace_runs is_ws (str "_") (toLowerCase key) in
  match JsMap.get row lowerKey with
  | Some v => trim v
  | None =>
    match JsMap.get row key with
    | Some v => trim v
    | None => []
    end
  end.

(** The state of the decoder: the model and the errors so far. *)
Definition state := (CourseData * list jsstring)%type.

Definition push_error (st : state) (e : jsstring) : state :=
  (fst st, snd st ++ [e]).

Definition required (sheet : string) (n : Z) (field : string) : jsstring :=
  str sheet ++ str " row " ++ toString10 n ++ str ": " ++ quoted (str field)
  ++ str " is required.".

(** *** Sheet 1: Course Info *)

Definition readInfo (st : state) (sheet : Worksheet) : state :=
  let infoMap :=
    fold_left
      (fun m row =>
         let key := cellValue (getCell row 1) in
         let value := cellValue (getCell row 2) in
         if nonempty key && nonempty value
         then JsMap.set m (toLowerCase key) value else m)
      (rows sheet) [] in
  let field k := match JsMap.get infoMap k with
                 | Some v => v | None => [] end in
  let i := {|
    courseName := field (str "course name");
    org := field (str "organization");
    courseId := field (str "course id");
    run := field (str "run");
    language := or_else (field (str "language")) (str "en");
    startDate := field (str "start date");
    endDate := field (str "end date");
    selfPaced :=
      eqb (toLowerCase (or_else (field (str "self-paced")) (str "yes")))
          (str "yes")
  |} in
  let st := (with_info (fst st) i, snd st) in
  let missing (v label : jsstring) (st : state) :=
    if nonempty v then st
    else push_error st
           (str "Course Info: " ++ quoted label ++ str " is required.") in
  missing (run i) (str "Run")
    (missing (courseId i) (str "Course ID")
      (missing (org i) (str "Organization")
        (missing (courseName i) (str "Course Name") st))).

(** *** Sheet 2: Structure *)

Definition validTypes : list jsstring :=
  [str "text"; str "video"; str "problem"; str "openresponse"].

Definition structureRow (headers : list (Z * jsstring)) (st : state)
  (row : Row) : state :=
  let n := rowNumber row in
  if n =? 1 then st else
  let r := rowToObject row headers in
  let chapter := objStr r (str "chapter") in
  let sequential := objStr r (str "sequential") in
  let vertical := objStr r (str "vertical") in
  let blockType := toLowerCase (objStr r (str "block_type")) in
  let blockId := objStr r (str "block_id") in
  if negb (nonempty chapter) then push_error st (required "Structure" n "chapter")
  else if negb (nonempty sequential)
  then push_error st (required "Structure" n "sequential")
  else if negb (nonempty vertical)
  then push_error st (required "Structure" n "vertical")
  else if negb (nonempty blockType)
  then push_error st (required "Structure" n "block_type")
  else if negb (nonempty blockId)
  then push_error st (required "Structure" n "block_id")
  else if negb (includes validTypes blockType)
  then push_error st
         (str "Structure row " ++ toString10 n ++ str ": Invalid block_type "
          ++ quoted blockType ++ str ". Must be one of: "
          ++ join (str ", ") validTypes)
  else (push_structure (fst st)
          {| chapter := chapter; sequential := sequential;
             vertical := vertical; blockType := blockType;
             blockId := blockId |},
        snd st).

(** *** Sheet 3: Text Blocks *)

Definition textRow (headers : list (Z * jsstring)) (st : state) (row : Row)
  : state :=
  let n := rowNumber row in
  if n =? 1 then st else
  let r := rowToObject row headers in
  let blockId := objStr r (str "block_id") in
  if negb (nonempty blockId)
  then push_error st (required "Text Blocks" n "block_id")
  else (set_textBlock (fst st) blockId
          {| tb_blockId := blockId;
             tb_title := or_else (objStr r (str "title")) (str "Text");
             tb_content := or_else (objStr r (str "content")) [] |},
        snd st).

(** *** Sheet 4: Videos *)

Definition videoRow (headers : list (Z * jsstring)) (st : state) (row : Row)
  : state :=
  let n := rowNumber row in
  if n =? 1 then st else
  let r := rowToObject row headers in
  let blockId := objStr r (str "block_id") in
  if negb (nonempty blockId)
  then push_error st (required "Videos" n "block_id")
  else (set_videoBlock (fst st) blockId
          {| vb_blockId := blockId;
             vb_title := or_else (objStr r (str "title")) (str "Video");
             vb_youtubeId := objStr r (str "youtube_id");
             vb_html5Url := objStr r (str "html5_url");
             vb_startTime :=
               or_else (objStr r (str "start_time")) (str "00:00:00");
             vb_endTime :=
               or_else (objStr r (str "end_time")) (str "00:00:00") |},
        snd st).

(** *** Sheet 5: Problems *)

Definition choiceLetters : list jsstring :=
  [str "a"; str "b"; str "c"; str "d"; str "e"; str "f"].

(** The separators of the [correct] column: [/[,;\s]+/]. *)
Definition is_list_sep (c : Z) : bool := (c =? 44) || (c =? 59) || is_ws c.

(** [new Set(correctRaw.split(/[,;\s]+/).filter(Boolean))] *)
Definition correctSet (r : JsMap.t jsstring) : list jsstring :=
  let correctRaw := toUpperCase (objStr r (str "correct")) in
  filter nonempty (split_runs is_list_sep correctRaw).

Definition readChoices (r : JsMap.t jsstring) : list Choice :=
  flat_map
    (fun letter =>
       let text := objStr r (str "choice_" ++ letter) in
       if negb (nonempty text) then []
       else [{| ch_text := text;
                ch_correct := includes (correctSet r) (toUpperCase letter);
                ch_hint := objStr r (str "hint_" ++ letter) |}])
    choiceLetters.

Definition problemsRowObject (n : Z) (r : JsMap.t jsstring) (st : state)
  : state :=
  let blockId := objStr r (str "block_id") in
  if negb (nonempty blockId)
  then push_error st (required "Problems" n "block_id")
  else
    let choices := readChoices r in
    if (length choices <? 2)%nat
    then push_error st
           (str "Problems row " ++ toString10 n
            ++ str ": At least 2 choices are required.")
    else if negb (existsb ch_correct choices)
    then push_error st
           (str "Problems row " ++ toString10 n
            ++ str ": No correct answer specified.")
    else (set_problemBlock (fst st) blockId
            {| pb_blockId := blockId;
               pb_title := or_else (objStr r (str "title")) blockId;
               pb_questionText := objStr r (str "question_text");
               pb_choices := choices;
               pb_explanation := objStr r (str "explanation");
               pb_showAnswer :=
                 or_else (objStr r (str "show_answer")) (str "attempted") |},
          snd st).

Definition problemsRow (headers : list (Z * jsstring)) (st : state)
  (row : Row) : state :=
  if rowNumber row =? 1 then st
  else problemsRowObject (rowNumber row) (rowToObject row headers) st.

(** *** Sheet 6: Open Response *)

Definition readOption (pair : jsstring) : CriterionOption :=
  match split 61 pair with
  | label :: pts :: _ =>
    {| co_label := trim label; co_points := or_zero (parseInt pts) |}
  | label :: [] => {| co_label := trim label; co_points := 0 |}
  | [] => {| co_label := []; co_points := 0 |}
  end.

(** The loop over [c = 1 .. 10], left at the first missing pair. *)
Fixpoint readCriteria (r : JsMap.t jsstring) (cs : list Z) : list Criterion :=
  match cs with
  | [] => []
  | c :: rest =>
    let name := objStr r (str "criterion_" ++ toString10 c ++ str "_name") in
    let optStr :=
      objStr r (str "criterion_" ++ toString10 c ++ str "_options") in
    if negb (nonempty name) || negb (nonempty optStr) then []
    else {| cr_name := name;
            cr_options := List.map readOption (split 59 optStr) |}
         :: readCriteria r rest
  end.

Definition openResponseRow (headers : list (Z * jsstring)) (st : state)
  (row : Row) : state :=
  let n := rowNumber row in
  if n =? 1 then st else
  let r := rowToObject row headers in
  let blockId := objStr r (str "block_id") in
  if negb (nonempty blockId)
  then push_error st (required "Open Response" n "block_id")
  else (set_openResponseBlock (fst st) blockId
          {| ob_blockId := blockId;
             ob_title := or_else (objStr r (str "title")) blockId;
             ob_prompt := or_else (objStr r (str "prompt")) [];
             ob_criteria := readCriteria r [1; 2; 3; 4; 5; 6; 7; 8; 9; 10];
             ob_assessmentType :=
               or_else (objStr r (str "assessment_type")) (str "self") |},
        snd st).

(** *** Cross-validation *)

Definition notDefined (kind : string) (blockId : jsstring) (sheet : string)
  : jsstring :=
  str "Structure references " ++ str kind ++ str " block " ++ quoted blockId
  ++ str " but it's not defined in " ++ quoted (str sheet) ++ str " sheet.".

Definition crossValidateRow (data : CourseData) (errors : list jsstring)
  (row : StructureRow) : list jsstring :=
  let bt := blockType row in
  let id := blockId row in
  if eqb bt (str "text") && negb (JsMap.has (textBlocks data) id)
  then errors ++ [notDefined "text" id "Text Blocks"]
  else if eqb bt (str "video") && negb (JsMap.has (videoBlocks data) id)
  then errors ++ [notDefined "video" id "Videos"]
  else if eqb bt (str "problem") && negb (JsMap.has (problemBlocks data) id)
  then errors ++ [notDefined "problem" id "Problems"]
  else if eqb bt (str "openresponse")
          && negb (JsMap.has (openResponseBlocks data) id)
  then errors ++ [notDefined "open response" id "Open Response"]
  else errors.

(** *** The decoder *)

Definition readSheet (wb : Workbook) (name_ : string)
  (handler : list (Z * jsstring) -> state -> Row -> state) (st : state)
  : state :=
  match findSheet wb (str name_) with
  | Some sheet => fold_left (handler (getHeaders sheet)) (rows sheet) st
  | None => st
  end.

(** The six sheets, before the cross-validation. *)
Definition readSheets (wb : Workbook) : state :=
  let st := (createCourseData, []) in
  let st :=
    match findSheet wb (str "Course Info") with
    | Some sheet => readInfo st sheet
    | None => push_error st (str "Missing sheet: " ++ quoted (str "Course Info"))
    end in
  let st :=
    match findSheet wb (str "Structure") with
    | Some sheet =>
      fold_left (structureRow (getHeaders sheet)) (rows sheet) st
    | None => push_error st (str "Missing sheet: " ++ quoted (str "Structure"))
    end in
  let st := readSheet wb "Text Blocks" textRow st in
  let st := readSheet wb "Videos" videoRow st in
  let st := readSheet wb "Problems" problemsRow st in
  readSheet wb "Open Response" openResponseRow st.

(** [parseWorkbook], on the workbook that [wb.xlsx.load] has read. *)
Definition parseWorkbook (wb : Workbook) : state :=
  let st := readSheets wb in
  (fst st, fold_left (crossValidateRow (fst st)) (structure (fst st)) (snd st)).

End WithPlatform.

End Parser.


(** The two rules of the Problems sheet, as the specification words
    them. *)

Module ProblemRules.
Import Parser.

Section WithPlatform.
Context {P : Platform}.

(** The choice columns of a row that are not empty. *)
Definition filledChoices (r : JsMap.t jsstring) : list jsstring :=
  filter (fun letter => nonempty (objStr r (str "choice_" ++ letter)))
         choiceLetters.

(** A letter is marked correct when the letter list of the [correct]
    column, read without regard to case, holds it. *)
Definition markedCorrect (r : JsMap.t jsstring) (letter : jsstring) : bool :=
  includes (correctSet r) (toUpperCase letter).


End WithPlatform.

End ProblemRules.
Import ProblemRules.

(** The cross-reference rule, as the specification words it. *)

Module CrossReference.
Import Parser.

(** The row has one of the four block types. *)
Definition validType (row : StructureRow) : Prop :=
  includes validTypes (blockType row) = true.

(** The row's block is present in the content map of its type. *)
Definition resolves (d : CourseData) (row : StructureRow) : bool :=
  let bt := blockType row in
  let id := blockId row in
  if eqb bt (str "text") then JsMap.has (textBlocks d) id
  else if eqb bt (str "video") then JsMap.has (videoBlocks d) id
  else if eqb bt (str "problem") then JsMap.has (problemBlocks d) id
  else if eqb bt (str "openresponse") then JsMap.has (openResponseBlocks d) id
  else false.

(** The error that names the block of a row. *)
Definition missingBlockError (row : StructureRow) : jsstring :=
  let bt := blockType row in
  let id := blockId row in
  if eqb bt (str "text") then notDefined "text" id "Text Blocks"
  else if eqb bt (str "video") then notDefined "video" id "Videos"
  else if eqb bt (str "problem") then notDefined "problem" id "Problems"
  else notDefined "open response" id "Open Response".

End CrossReference.
Import CrossReference.

(** ** What the model asks of the platform *)

Module Laws.

Definition is_ascii (c : Z) : bool := (0 <=? c) && (c <? 128).

Definition ascii_upper (c : Z) : Z :=
  if (97 <=? c) && (c <=? 122) then c - 32 else c.

Definition ascii_lower (c : Z) : Z :=
  if (65 <=? c) && (c <=? 90) then c + 32 else c.

(** On ASCII text the case mappings are the ASCII ones. *)
Class CaseLaws (P : Platform) : Prop := {
  toUpperCase_ascii : forall s,
    forallb is_ascii s = true -> toUpperCase s = List.map ascii_upper s;
  toLowerCase_ascii : forall s,
    forallb is_ascii s = true -> toLowerCase s = List.map ascii_lower s
}.

(** [gunzipSync] undoes [gzipSync]. *)
Class GzipLaws (P : Platform) : Prop := {
  gunzip_gzip : forall d, gunzipSync (gzipSync d) = Some d
}.

(** A code unit that a JSON string holds as it is: not the double
    quote, not the backslash, not a control character. *)
Definition json_plain (c : Z) : bool :=
  negb ((c =? 34) || (c =? 92) || (c <? 32)).

(** [JSON.parse] on the two texts that the video generator writes for
    [html5_sources]: the empty array, and the array of one string of
    plain code units. *)
Class JsonLaws (P : Platform) : Prop := {
  JSON_parse_empty_array : JSON_parse (str "[]") = Some (JArray []);
  JSON_parse_string_array : forall u,
    forallb json_plain u = true ->
    JSON_parse (str "[" ++ dq ++ u ++ dq ++ str "]")
    = Some (JArray [JString u])
}.

End Laws.
Import Laws.

(** ** A platform for the examples

    ASCII case mapping, dates of the form YYYY-MM-DD, a gzip container
    that stores its data behind the two magic bytes, and a JSON reader
    for arrays of plain strings.  Every property below is proved for an
    arbitrary platform; this one serves where a concrete platform is
    needed to evaluate an example. *)

Module Reference.

Definition days_in_month (y m : Z) : Z :=
  if m =? 2 then
    if (y mod 4 =? 0) && (negb (y mod 100 =? 0) || (y mod 400 =? 0))
    then 29 else 28
  else if (m =? 4) || (m =? 6) || (m =? 9) || (m =? 11) then 30
  else 31.

Definition date_only (s : jsstring) : bool :=
  match s with
  | [y1; y2; y3; y4; 45; m1; m2; 45; d1; d2] =>
    let y := (y1 - 48) * 1000 + (y2 - 48) * 100 + (y3 - 48) * 10 + (y4 - 48) in
    let m := (m1 - 48) * 10 + (m2 - 48) in
    let d := (d1 - 48) * 10 + (d2 - 48) in
    forallb is_digit [y1; y2; y3; y4; m1; m2; d1; d2]
    && (1 <=? m) && (m <=? 12) && (1 <=? d) && (d <=? days_in_month y m)
  | _ => false
  end.

Fixpoint plain_string_array (s : jsstring) (cur : jsstring) : option json :=
  match s with
  | [34; 93] => Some (JArray [JString (rev cur)])
  | c :: s' =>
    if (c =? 34) || (c =? 92) || (c <? 32) then None
    else plain_string_array s' (c :: cur)
  | [] => None
  end.

Definition parse_json (s : jsstring) : option json :=
  match s with
  | [91; 93] => Some (JArray [])
  | 91 :: 34 :: r => plain_string_array r []
  | _ => None
  end.

#[export] Instance platform : Platform := {|
  toLowerCase := List.map ascii_lower;
  toUpperCase := List.map ascii_upper;
  dateToISOString s :=
    if date_only s then Some (s ++ str "T00:00:00.000Z") else None;
  gzipSync d := 31 :: 139 :: d;
  gunzipSync d := match d with 31 :: 139 :: r => Some r | _ => None end;
  JSON_parse := parse_json
|}.

End Reference.

(** ** Example data: rows of the template workbook of main.js *)

Module Examples.
Import Parser.

Definition problemHeaders : list (Z * jsstring) :=
  [(1, str "block_id"); (2, str "title"); (3, str "question_text");
   (4, str "choice_a"); (5, str "choice_b"); (6, str "choice_c");
   (7, str "choice_d"); (8, str "choice_e"); (9, str "choice_f");
   (10, str "correct"); (11, str "hint_a"); (12, str "hint_b");
   (13, str "explanation"); (14, str "show_answer")].

Definition plain (col : Z) (s : string) : Z * cellval :=
  (col, CellPlain (str s)).


(** A row with six choices, of which B and D are correct. *)
Definition six_choices : Row := {|
  rowNumber := 3;
  cells := [plain 1 "quiz_q3"; plain 2 "Q3"; plain 3 "Which are even?";
            plain 4 "1"; plain 5 "2"; plain 6 "3"; plain 7 "4";
            plain 8 "5"; plain 9 "7"; plain 10 "B,D"]
|}.

Definition start : state := (createCourseData, []).

(** A workbook whose Structure sheet names a text block that no sheet
    defines. *)
Definition dangling : Workbook :=
  [ {| name := str "Structure";
       rows := [ {| rowNumber := 1;
                    cells := [plain 1 "chapter"; plain 2 "sequential";
                              plain 3 "vertical"; plain 4 "block_type";
                              plain 5 "block_id"] |};
                 {| rowNumber := 2;
                    cells := [plain 1 "Chapter 1"; plain 2 "1.1 Welcome";
                              plain 3 "Unit 1.1.1"; plain 4 "text";
                              plain 5 "welcome_text"] |} ] |} ].

End Examples.

(** ** utils.js, continued *)

Module Utils2.

(** [s.replace(pat, rep)] for a literal pattern: the first occurrence. *)
Fixpoint replaceFirst (pat rep s : jsstring) : jsstring :=
  if starts_with pat s then rep ++ skipn (length pat) s
  else match s with
       | [] => []
       | c :: s' => c :: replaceFirst pat rep s'
       end.

Definition is_lower (c : Z) : bool := (97 <=? c) && (c <=? 122).
Definition is_upper (c : Z) : bool := (65 <=? c) && (c <=? 90).
Definition is_letter (c : Z) : bool := is_lower c || is_upper c.

(** [\w] *)
Definition is_word (c : Z) : bool := is_letter c || is_digit c || (c =? 95).

Section WithPlatform.
Context {P : Platform}.

(** [formatEdxDate] *)
Definition formatEdxDate (dateStr : jsstring) : jsstring :=
  if negb (nonempty dateStr) then []
  else match dateToISOString dateStr with
       | None => []
       | Some iso => replaceFirst (str ".000Z") (str "Z") iso
       end.

(** [sanitizeUrlName] *)
Definition sanitizeUrlName (s : jsstring) : jsstring :=
  let s := toLowerCase s in
  let s :=
    List.map (fun c => if is_lower c || is_digit c || (c =? 95) || (c =? 45)
                       then c else 95) s in
  let s := replace_runs (fun c => c =? 95) (str "_") s in
  let s := match s with 95 :: r => r | _ => s end in
  let s := match rev s with 95 :: r => rev r | _ => s end in
  firstn 60 s.

End WithPlatform.

(** [/<[a-z][\s\S]*>/i.test(text)]: a [<] with a letter behind it and a
    [>] somewhere after the letter. *)
Fixpoint looks_like_html (s : jsstring) : bool :=
  match s with
  | 60 :: ((c :: r) as s') =>
    (is_letter c && existsb (fun x => x =? 62) r) || looks_like_html s'
  | _ :: s' => looks_like_html s'
  | [] => false
  end.

(** [text.split(/\n\n+/)] *)
Fixpoint split_paragraphs (skipping : bool) (s : jsstring) (cur : jsstring)
  : list jsstring :=
  match s with
  | [] => [rev cur]
  | c :: r =>
    if skipping && (c =? 10) then split_paragraphs true r cur
    else
      match r with
      | d :: r' =>
        if (c =? 10) && (d =? 10)
        then rev cur :: split_paragraphs true r' []
        else split_paragraphs false r (c :: cur)
      | [] => split_paragraphs false r (c :: cur)
      end
  end.

(** [textToHtml] *)
Definition textToHtml (text : jsstring) : jsstring :=
  if negb (nonempty text) then []
  else if looks_like_html text then text
  else
    join [10]
      (List.map
         (fun p => str "<p>" ++ replaceAll [10] (str "<br/>") p ++ str "</p>")
         (split_paragraphs false text [])).

End Utils2.
Import Utils2.

(** ** JSON.stringify(value, null, 4) *)

Module Json.

Definition hex_digit (n : Z) : Z := if n <? 10 then 48 + n else 87 + n.

(** [\uXXXX] with lower-case digits. *)
Definition unicode_escape (c : Z) : jsstring :=
  [92; 117; hex_digit (c / 4096 mod 16); hex_digit (c / 256 mod 16);
   hex_digit (c / 16 mod 16); hex_digit (c mod 16)].

Definition is_high_surrogate (c : Z) : bool := (55296 <=? c) && (c <=? 56319).
Definition is_low_surrogate (c : Z) : bool := (56320 <=? c) && (c <=? 57343).

(** The body of a quoted string. *)
Fixpoint quote_units (s : jsstring) : jsstring :=
  match s with
  | [] => []
  | c :: r =>
    if c =? 34 then [92; 34] ++ quote_units r
    else if c =? 92 then [92; 92] ++ quote_units r
    else if c =? 8 then [92; 98] ++ quote_units r
    else if c =? 12 then [92; 102] ++ quote_units r
    else if c =? 10 then [92; 110] ++ quote_units r
    else if c =? 13 then [92; 114] ++ quote_units r
    else if c =? 9 then [92; 116] ++ quote_units r
    else if c <? 32 then unicode_escape c ++ quote_units r
    else if is_high_surrogate c then
      match r with
      | d :: r' =>
        if is_low_surrogate d then c :: d :: quote_units r'
        else unicode_escape c ++ quote_units r
      | [] => unicode_escape c
      end
    else if is_low_surrogate c then unicode_escape c ++ quote_units r
    else c :: quote_units r
  end.

Definition quote (s : jsstring) : jsstring := dq ++ quote_units s ++ dq.

Definition newline : jsstring := [10].

Definition indent (depth : nat) : jsstring := repeat 32 (4 * depth).

Fixpoint stringify (depth : nat) (v : json) : jsstring :=
  match v with
  | JNull => str "null"
  | JBool true => str "true"
  | JBool false => str "false"
  | JNum text => text
  | JString s => quote s
  | JArray [] => str "[]"
  | JArray items =>
    str "[" ++ newline
    ++ join (str "," ++ newline)
         (List.map (fun i => indent (S depth) ++ stringify (S depth) i) items)
    ++ newline ++ indent depth ++ str "]"
  | JObject [] => str "{}"
  | JObject members =>
    str "{" ++ newline
    ++ join (str "," ++ newline)
         (List.map
            (fun m => indent (S depth) ++ quote (fst m) ++ str ": "
                      ++ stringify (S depth) (snd m))
            members)
    ++ newline ++ indent depth ++ str "}"
  end.

End Json.

(** ** The generators *)

Module Generators.
Import Hierarchy.

Definition esc (s : jsstring) : jsstring := escapeXml (JsStr s).

Definition nl : jsstring := [10].

(** [name="value"], the value escaped. *)
Definition attr (name_ : string) (value : jsstring) : jsstring :=
  str name_ ++ str "=" ++ dq ++ esc value ++ dq.

Section WithPlatform.
Context {P : Platform}.

(** *** generators/course.js *)

Definition tab (name_ type_ : string) : json :=
  JObject [(str "course_staff_only", JBool false);
           (str "name", JString (str name_));
           (str "type", JString (str type_))].

Definition policy (info : CourseInfo) (run_ : jsstring) : json :=
  JObject
    [(str "course/" ++ run_,
      JObject
        ([(str "display_name", JString (courseName info));
          (str "language", JString (language info));
          (str "self_paced", JBool (selfPaced info))]
         ++ (if nonempty (startDate info)
             then [(str "start", JString (formatEdxDate (startDate info)))]
             else [])
         ++ (if nonempty (endDate info)
             then [(str "end", JString (formatEdxDate (endDate info)))]
             else [])
         ++ [(str "tabs",
              JArray [tab "Course" "courseware"; tab "Progress" "progress";
                      tab "Dates" "dates"; tab "Discussion" "discussion"])]))].

Definition grader (short_label type_ : string) : json :=
  JObject [(str "drop_count", JNum (str "0"));
           (str "min_count", JNum (str "1"));
           (str "short_label", JString (str short_label));
           (str "type", JString (str type_));
           (str "weight", JNum (str "0.5"))].

Definition gradingPolicy : json :=
  JObject
    [(str "GRADER",
      JArray [grader "HW" "Homework"; grader "Final" "Final Exam"]);
     (str "GRADE_CUTOFFS", JObject [(str "Pass", JNum (str "0.5"))])].

(** The text of [course/{run}.xml]. *)
Definition courseRunXml (info : CourseInfo) (chapters : list Chapter)
  : jsstring :=
  let selfPaced_ :=
    if selfPaced info then str " self_paced=" ++ dq ++ str "true" ++ dq
    else [] in
  let startAttr :=
    if nonempty (startDate info)
    then str " " ++ attr "start" (formatEdxDate (startDate info)) else [] in
  let endAttr :=
    if nonempty (endDate info)
    then str " " ++ attr "end" (formatEdxDate (endDate info)) else [] in
  str "<course " ++ attr "display_name" (courseName info) ++ str " "
  ++ attr "language" (language info) ++ selfPaced_ ++ startAttr ++ endAttr
  ++ str ">" ++ nl
  ++ flat_map
       (fun ch => str "  <chapter " ++ attr "url_name" (c_id ch) ++ str "/>"
                  ++ nl)
       chapters
  ++ str "</course>" ++ nl.

Definition generateCourse (info : CourseInfo) (chapters : list Chapter)
  : JsMap.t jsstring :=
  let run_ := or_else (run info) (str "course_run") in
  let files := [] in
  let files :=
    JsMap.set files (str "course.xml")
      (str "<course " ++ attr "url_name" run_ ++ str " "
       ++ attr "org" (org info) ++ str " " ++ attr "course" (courseId info)
       ++ str "/>" ++ nl) in
  let files :=
    JsMap.set files (str "course/" ++ run_ ++ str ".xml")
      (courseRunXml info chapters) in
  let files :=
    JsMap.set files (str "policies/" ++ run_ ++ str "/policy.json")
      (Json.stringify 0 (policy info run_) ++ nl) in
  JsMap.set files (str "policies/" ++ run_ ++ str "/grading_policy.json")
    (Json.stringify 0 gradingPolicy ++ nl).

End WithPlatform.

(** *** generators/chapter.js *)

Definition chapterXml (ch : Chapter) : jsstring :=
  str "<chapter " ++ attr "display_name" (c_name ch) ++ str ">" ++ nl
  ++ flat_map
       (fun sq => str "  <sequential " ++ attr "url_name" (s_id sq)
                  ++ str "/>" ++ nl)
       (c_sequentials ch)
  ++ str "</chapter>" ++ nl.

Definition generateChapters (chapters : list Chapter) : JsMap.t jsstring :=
  fold_left
    (fun files ch =>
       JsMap.set files (str "chapter/" ++ c_id ch ++ str ".xml")
         (chapterXml ch))
    chapters [].

(** *** generators/sequential.js *)

Definition sequentialXml (sq : Sequential) : jsstring :=
  str "<sequential " ++ attr "display_name" (s_name sq) ++ str ">" ++ nl
  ++ flat_map
       (fun vt => str "  <vertical " ++ attr "url_name" (v_id vt)
                  ++ str "/>" ++ nl)
       (s_verticals sq)
  ++ str "</sequential>" ++ nl.

Definition generateSequentials (chapters : list Chapter) : JsMap.t jsstring :=
  fold_left
    (fun files ch =>
       fold_left
         (fun files sq =>
            JsMap.set files (str "sequential/" ++ s_id sq ++ str ".xml")
              (sequentialXml sq))
         (c_sequentials ch) files)
    chapters [].

(** *** generators/vertical.js *)

(** [BLOCK_TYPE_TAG[type] || type], for a type that does not name a
    member of [Object.prototype]. *)
Definition blockTag (type_ : jsstring) : jsstring :=
  if eqb type_ (str "text") then str "html"
  else if eqb type_ (str "video") then str "video"
  else if eqb type_ (str "problem") then str "problem"
  else if eqb type_ (str "openresponse") then str "openassessment"
  else type_.

Definition verticalXml (vt : Vertical) : jsstring :=
  str "<vertical " ++ attr "display_name" (v_name vt) ++ str ">" ++ nl
  ++ flat_map
       (fun b => str "  <" ++ blockTag (br_type b) ++ str " "
                 ++ attr "url_name" (br_blockId b) ++ str "/>" ++ nl)
       (v_blocks vt)
  ++ str "</vertical>" ++ nl.

Definition generateVerticals (chapters : list Chapter) : JsMap.t jsstring :=
  fold_left
    (fun files ch =>
       fold_left
         (fun files sq =>
            fold_left
              (fun files vt =>
                 JsMap.set files (str "vertical/" ++ v_id vt ++ str ".xml")
                   (verticalXml vt))
              (s_verticals sq) files)
         (c_sequentials ch) files)
    chapters [].

(** *** generators/html.js *)

Definition htmlXml (blockId : jsstring) (block : TextBlock) : jsstring :=
  str "<html " ++ attr "filename" blockId ++ str " "
  ++ attr "display_name" (tb_title block) ++ str "/>" ++ nl.

Definition htmlFile (block : TextBlock) : jsstring :=
  textToHtml (tb_content block) ++ nl.

Definition generateHtmlBlocks (textBlocks : JsMap.t TextBlock)
  : JsMap.t jsstring :=
  fold_left
    (fun files entry =>
       let blockId := fst entry in
       let block := snd entry in
       let files :=
         JsMap.set files (str "html/" ++ blockId ++ str ".xml")
           (htmlXml blockId block) in
       JsMap.set files (str "html/" ++ blockId ++ str ".html")
         (htmlFile block))
    textBlocks [].

(** *** generators/video.js *)

Definition videoXml (blockId : jsstring) (block : VideoBlock) : jsstring :=
  let attrs :=
    [attr "url_name" blockId; attr "display_name" (vb_title block)]
    ++ (if nonempty (vb_youtubeId block)
        then [str "youtube=" ++ dq ++ str "1.00:"
              ++ esc (vb_youtubeId block) ++ dq;
              attr "youtube_id_1_0" (vb_youtubeId block)]
        else [])
    ++ [if nonempty (vb_html5Url block)
        then str "html5_sources=" ++ dq ++ str "[&quot;"
             ++ esc (vb_html5Url block) ++ str "&quot;]" ++ dq
        else str "html5_sources=" ++ dq ++ str "[]" ++ dq]
    ++ [attr "start_time" (or_else (vb_startTime block) (str "00:00:00"));
        attr "end_time" (or_else (vb_endTime block) (str "00:00:00"));
        str "edx_video_id=" ++ dq ++ dq] in
  str "<video " ++ join (str " ") attrs ++ str "/>" ++ nl.

Definition generateVideoBlocks (videoBlocks : JsMap.t VideoBlock)
  : JsMap.t jsstring :=
  fold_left
    (fun files entry =>
       JsMap.set files (str "video/" ++ fst entry ++ str ".xml")
         (videoXml (fst entry) (snd entry)))
    videoBlocks [].

(** *** generators/problem.js *)

Definition choiceXml (choice : Choice) : jsstring :=
  str "    <choice correct=" ++ dq
  ++ (if ch_correct choice then str "true" else str "false") ++ dq ++ str ">"
  ++ esc (ch_text choice)
  ++ (if nonempty (ch_hint choice)
      then str " <choicehint>" ++ esc (ch_hint choice) ++ str "</choicehint>"
      else [])
  ++ nl ++ str "</choice>" ++ nl.

Definition problemXml (block : ProblemBlock) : jsstring :=
  str "<problem " ++ attr "display_name" (pb_title block) ++ str " "
  ++ attr "showanswer" (pb_showAnswer block) ++ str ">" ++ nl
  ++ str "<multiplechoiceresponse>" ++ nl
  ++ str "  <label>" ++ esc (pb_questionText block) ++ str "</label>" ++ nl
  ++ str "<choicegroup type=" ++ dq ++ str "MultipleChoice" ++ dq ++ str ">"
  ++ nl
  ++ flat_map choiceXml (pb_choices block)
  ++ str "  </choicegroup>" ++ nl
  ++ (if nonempty (pb_explanation block)
      then str "<solution>" ++ nl
           ++ str "<div class=" ++ dq ++ str "detailed-solution" ++ dq
           ++ str ">" ++ nl
           ++ str "<p>Explanation</p>" ++ nl
           ++ str "<p>" ++ esc (pb_explanation block) ++ str "</p>" ++ nl
           ++ str "</div>" ++ nl
           ++ str "</solution>" ++ nl
      else [])
  ++ str "</multiplechoiceresponse>" ++ nl
  ++ str "</problem>" ++ nl.

Definition generateProblemBlocks (problemBlocks : JsMap.t ProblemBlock)
  : JsMap.t jsstring :=
  fold_left
    (fun files entry =>
       JsMap.set files (str "problem/" ++ fst entry ++ str ".xml")
         (problemXml (snd entry)))
    problemBlocks [].

(** *** generators/openresponse.js *)

Definition optionXml (opt : CriterionOption) : jsstring :=
  str "      <option points=" ++ dq ++ toString10 (co_points opt) ++ dq
  ++ str ">" ++ nl
  ++ str "        <name>" ++ esc (co_label opt) ++ str "</name>" ++ nl
  ++ str "        <label>" ++ esc (co_label opt) ++ str "</label>" ++ nl
  ++ str "        <explanation>" ++ esc (co_label opt)
  ++ str " level performance</explanation>" ++ nl
  ++ str "      </option>" ++ nl.

Definition criterionXml (criterion : Criterion) : jsstring :=
  str "    <criterion>" ++ nl
  ++ str "      <name>" ++ esc (cr_name criterion) ++ str "</name>" ++ nl
  ++ str "      <label>" ++ esc (cr_name criterion) ++ str "</label>" ++ nl
  ++ str "      <prompt>" ++ esc (cr_name criterion) ++ str "</prompt>" ++ nl
  ++ flat_map optionXml (cr_options criterion)
  ++ str "    </criterion>" ++ nl.

Definition assessmentsXml (assessmentType : jsstring) : jsstring :=
  (if eqb assessmentType (str "peer")
   then str "    <assessment name=" ++ dq ++ str "peer-assessment" ++ dq
        ++ str " must_grade=" ++ dq ++ str "5" ++ dq
        ++ str " must_be_graded_by=" ++ dq ++ str "3" ++ dq ++ str "/>" ++ nl
   else [])
  ++ (if eqb assessmentType (str "self") || eqb assessmentType (str "peer")
      then str "    <assessment name=" ++ dq ++ str "self-assessment" ++ dq
           ++ str "/>" ++ nl
      else [])
  ++ (if eqb assessmentType (str "staff")
      then str "    <assessment name=" ++ dq ++ str "staff-assessment" ++ dq
           ++ str " required=" ++ dq ++ str "true" ++ dq ++ str "/>" ++ nl
      else []).

Definition openResponseXml (blockId : jsstring) (block : OpenResponseBlock)
  : jsstring :=
  str "<openassessment " ++ attr "url_name" blockId ++ str " "
  ++ attr "display_name" (ob_title block)
  ++ str " submission_due=" ++ dq ++ str "2099-01-01T00:00:00Z" ++ dq
  ++ str " submission_start=" ++ dq ++ str "2000-01-01T00:00:00Z" ++ dq
  ++ str ">" ++ nl
  ++ str "  <title>" ++ esc (ob_title block) ++ str "</title>" ++ nl
  ++ str "  <prompt>" ++ nl
  ++ str "    <description>" ++ esc (ob_prompt block) ++ str "</description>"
  ++ nl
  ++ str "  </prompt>" ++ nl
  ++ str "  <rubric>" ++ nl
  ++ flat_map criterionXml (ob_criteria block)
  ++ str "  </rubric>" ++ nl
  ++ str "  <assessments>" ++ nl
  ++ assessmentsXml (ob_assessmentType block)
  ++ str "  </assessments>" ++ nl
  ++ str "</openassessment>" ++ nl.

Definition generateOpenResponseBlocks
  (oraBlocks : JsMap.t OpenResponseBlock) : JsMap.t jsstring :=
  fold_left
    (fun files entry =>
       JsMap.set files (str "openassessment/" ++ fst entry ++ str ".xml")
         (openResponseXml (fst entry) (snd entry)))
    oraBlocks [].

End Generators.

(** A course whose start date is not a date. *)

Module DateExample.

Definition info : CourseInfo := {|
  courseName := str "My Course Title";
  org := str "MyOrgX";
  courseId := str "COURSE101";
  run := str "2024_T1";
  language := str "en";
  startDate := str "not a date";
  endDate := [];
  selfPaced := true
|}.

End DateExample.

(** ** The text codecs of the platform

    [TextEncoder] and [TextDecoder] follow the Encoding Standard; they
    are written out here. *)

Module TextCodec.
Import Json.

(** [new TextEncoder().encode(s)]: the UTF-8 bytes of the string, a
    lone surrogate encoded as U+FFFD. *)
Fixpoint utf8_encode (s : jsstring) : list Z :=
  match s with
  | [] => []
  | c :: r =>
    if c <? 128 then c :: utf8_encode r
    else if c <? 2048
    then (192 + c / 64) :: (128 + c mod 64) :: utf8_encode r
    else if is_high_surrogate c then
      match r with
      | d :: r' =>
        if is_low_surrogate d then
          let cp := 65536 + (c - 55296) * 1024 + (d - 56320) in
          (240 + cp / 262144) :: (128 + cp / 4096 mod 64)
          :: (128 + cp / 64 mod 64) :: (128 + cp mod 64) :: utf8_encode r'
        else 239 :: 191 :: 189 :: utf8_encode r
      | [] => [239; 191; 189]
      end
    else if is_low_surrogate c then 239 :: 191 :: 189 :: utf8_encode r
    else (224 + c / 4096) :: (128 + c / 64 mod 64) :: (128 + c mod 64)
         :: utf8_encode r
  end.

(** The code units of a code point. *)
Definition emit (cp : Z) : jsstring :=
  if cp <? 65536 then [cp]
  else [55296 + (cp - 65536) / 1024; 56320 + (cp - 65536) mod 1024].

(** The UTF-8 decoder of the Encoding Standard in replacement mode:
    [remaining] bytes of the current sequence are still needed, [cp] is
    the code point read so far, [lower] and [upper] bound the next
    byte.  A byte that cannot continue a sequence gives U+FFFD and is
    read again as the start of a sequence. *)
Fixpoint utf8_decode_from (remaining : nat) (cp lower upper : Z)
  (bs : list Z) : jsstring :=
  match bs with
  | [] => match remaining with O => [] | S _ => [65533] end
  | b :: r =>
    let start :=
      if b <? 128 then b :: utf8_decode_from 0 0 128 191 r
      else if (194 <=? b) && (b <=? 223)
      then utf8_decode_from 1 (b - 192) 128 191 r
      else if (224 <=? b) && (b <=? 239)
      then utf8_decode_from 2 (b - 224)
             (if b =? 224 then 160 else 128) (if b =? 237 then 159 else 191) r
      else if (240 <=? b) && (b <=? 244)
      then utf8_decode_from 3 (b - 240)
             (if b =? 240 then 144 else 128) (if b =? 244 then 143 else 191) r
      else 65533 :: utf8_decode_from 0 0 128 191 r in
    match remaining with
    | O => start
    | S k =>
      if (lower <=? b) && (b <=? upper) then
        let cp' := cp * 64 + (b - 128) in
        match k with
        | O => emit cp' ++ utf8_decode_from 0 0 128 191 r
        | S _ => utf8_decode_from k cp' 128 191 r
        end
      else 65533 :: start
    end
  end.

(** [new TextDecoder('utf-8', { fatal: false }).decode(bytes)]: a
    leading byte-order mark is dropped. *)
Definition utf8_decode (bs : list Z) : jsstring :=
  match bs with
  | 239 :: 187 :: 191 :: r => utf8_decode_from 0 0 128 191 r
  | _ => utf8_decode_from 0 0 128 191 bs
  end.

(** [new TextDecoder('ascii')]: the label names windows-1252. *)
Definition windows1252_high : list Z :=
  [8364; 129; 8218; 402; 8222; 8230; 8224; 8225; 710; 8240; 352; 8249; 338;
   141; 381; 143; 144; 8216; 8217; 8220; 8221; 8226; 8211; 8212; 732; 8482;
   353; 8250; 339; 157; 382; 376].

Definition windows1252 (b : Z) : Z :=
  if (128 <=? b) && (b <? 160)
  then nth (Z.to_nat (b - 128)) windows1252_high b
  else b.

Definition ascii_decode (bs : list Z) : jsstring := List.map windows1252 bs.

(** A string of well-formed UTF-16: code units in range, surrogates in
    pairs. *)
Fixpoint well_formed (s : jsstring) : bool :=
  match s with
  | [] => true
  | c :: r =>
    if is_high_surrogate c then
      match r with
      | d :: r' => is_low_surrogate d && well_formed r'
      | [] => false
      end
    else negb (is_low_surrogate c) && (0 <=? c) && (c <? 65536)
         && well_formed r
  end.

End TextCodec.
Import TextCodec.

(** ** tar.js, archive.js: the encoder *)

Module Archive.

Record Entry := {
  e_name : jsstring;
  e_data : list Z
}.

(** Code-unit order of strings, the order of [Array.prototype.sort]. *)
Fixpoint str_leb (a b : jsstring) : bool :=
  match a, b with
  | [], _ => true
  | _ :: _, [] => false
  | x :: a', y :: b' => (x <? y) || ((x =? y) && str_leb a' b')
  end.

Fixpoint insert_sorted (x : jsstring) (l : list jsstring) : list jsstring :=
  match l with
  | [] => [x]
  | y :: r => if str_leb x y then x :: l else y :: insert_sorted x r
  end.

Definition sort (l : list jsstring) : list jsstring :=
  fold_right insert_sorted [] l.

(** [set.add(x)] *)
Definition set_add (set : list jsstring) (x : jsstring) : list jsstring :=
  if includes set x then set else set ++ [x].

(** The directory paths of a name:
    [parts.slice(0, i).join('/') + '/'] for [1 <= i < parts.length]. *)
Definition dirsOf (name_ : jsstring) : list jsstring :=
  let parts := split 47 name_ in
  List.map (fun i => join (str "/") (firstn i parts) ++ str "/")
           (seq 1 (length parts - 1)).

Definition collectDirs (entries : list Entry) : list jsstring :=
  fold_left (fun dirs entry => fold_left set_add (dirsOf (e_name entry)) dirs)
            entries [].

(** [Math.ceil(size / 512) * 512] *)
Definition paddedSize (size : Z) : Z := - ((- size) / 512) * 512.

Definition padded (data : list Z) : list Z :=
  data ++ repeat 0 (Z.to_nat (paddedSize (Z.of_nat (length data)))
                    - length data).

(** [createTar]; the [n]-th call of [Date.now()] reads [clock n]. *)
Definition createTar (clock : nat -> Z) (entries : list Entry) : list Z :=
  let dirs := sort (collectDirs entries) in
  let dirBlocks :=
    List.map (fun nd => createTarHeader (clock (fst nd)) (snd nd) 0 true)
             (combine (seq 0 (length dirs)) dirs) in
  let fileBlocks :=
    List.map
      (fun ne =>
         createTarHeader (clock (fst ne)) (e_name (snd ne))
           (Z.of_nat (length (e_data (snd ne)))) false
         ++ padded (e_data (snd ne)))
      (combine (seq (length dirs) (length entries)) entries) in
  concat dirBlocks ++ concat fileBlocks ++ repeat 0 1024.

Section WithPlatform.
Context {P : Platform}.

Definition tarGzip (clock : nat -> Z) (entries : list Entry) : list Z :=
  gzipSync (createTar clock entries).

(** [generateTarGz]: the bytes of the Blob. *)
Definition generateTarGz (clock : nat -> Z) (files : JsMap.t jsstring)
  : list Z :=
  tarGzip clock
    (List.map
       (fun f => {| e_name := str "course/" ++ fst f;
                    e_data := utf8_encode (snd f) |})
       files).

End WithPlatform.

End Archive.

(** ** untar.js: the decoder *)

Module Untar.

(** How a call ends: with a value, with an exception, or not at all
    within the steps given. *)
Inductive outcome (A : Type) :=
| Returned (a : A)
| Threw
| OutOfSteps.
Arguments Returned {A} a.
Arguments Threw {A}.
Arguments OutOfSteps {A}.

(** [buf.subarray(b, e)] *)
Definition clamp (len i : Z) : Z :=
  if i <? 0 then Z.max (len + i) 0 else Z.min i len.

Definition subarray (buf : list Z) (b e : Z) : list Z :=
  let len := Z.of_nat (length buf) in
  let b' := clamp len b in
  let e' := clamp len e in
  firstn (Z.to_nat (e' - b')) (skipn (Z.to_nat b') buf).

Fixpoint until_nul (bs : list Z) : list Z :=
  match bs with
  | [] => []
  | b :: r => if b =? 0 then [] else b :: until_nul r
  end.

(** [readString(buf, offset, maxLen)] *)
Definition readString (buf : list Z) (offset maxLen : nat) : jsstring :=
  ascii_decode (until_nul (firstn maxLen (skipn offset buf))).

(** [isZeroBlock] *)
Definition isZeroBlock (block : list Z) : bool :=
  forallb (fun b => b =? 0) (firstn 512 block).

(** [s.indexOf('/')], -1 when there is none. *)
Fixpoint indexOf (c : Z) (s : jsstring) : Z :=
  match s with
  | [] => -1
  | x :: r =>
    if x =? c then 0
    else let i := indexOf c r in if i <? 0 then -1 else i + 1
  end.

(** The body of the loop of [extractTar] at [offset]: the files and the
    next offset, or [None] at a break. *)
Definition extractStep (data : list Z) (offset : Z) (files : JsMap.t jsstring)
  : option (Z * JsMap.t jsstring) :=
  let header := subarray data offset (offset + 512) in
  if isZeroBlock header then None else
  let name_ := readString header 0 100 in
  if negb (nonempty name_) then None else
  let prefix := readString header 345 155 in
  let fullName :=
    if nonempty prefix then prefix ++ str "/" ++ name_ else name_ in
  let sizeStr := trim (replaceAll [0] [] (readString header 124 12)) in
  let size := or_zero (parseInt8 sizeStr) in
  let isFile :=
    match nth_error header 156 with
    | Some typeFlag => (typeFlag =? 48) || (typeFlag =? 0)
    | None => false
    end in
  let offset := offset + 512 in
  let files :=
    if isFile && (0 <? size) then
      let fileData := subarray data offset (offset + size) in
      let text := utf8_decode fileData in
      let slashIdx := indexOf 47 fullName in
      let cleanPath :=
        if 0 <? slashIdx then skipn (Z.to_nat (slashIdx + 1)) fullName
        else fullName in
      if nonempty cleanPath then JsMap.set files cleanPath text else files
    else files in
  Some (offset + Archive.paddedSize size, files).

(** [while (offset + 512 <= data.length) ...], for [steps] rounds. *)
Fixpoint extractLoop (steps : nat) (data : list Z) (offset : Z)
  (files : JsMap.t jsstring) : outcome (JsMap.t jsstring) :=
  match steps with
  | O => OutOfSteps
  | S n =>
    if offset + 512 <=? Z.of_nat (length data) then
      match extractStep data offset files with
      | None => Returned files
      | Some (offset', files') => extractLoop n data offset' files'
      end
    else Returned files
  end.

(** [extractTar]: a round that does not break passes at least one
    block of a well-formed archive, so [length data] rounds and one
    more are enough for it. *)
Definition extractTar (data : list Z) : outcome (JsMap.t jsstring) :=
  extractLoop (S (length data)) data 0 [].

Section WithPlatform.
Context {P : Platform}.

Definition extractTarGz (buffer : list Z) : outcome (JsMap.t jsstring) :=
  match gunzipSync buffer with
  | None => Threw
  | Some tarData => extractTar tarData
  end.

End WithPlatform.

End Untar.

(** ** The entry maps that the archive codec reproduces *)

Module ArchiveDomain.
Import Archive Untar.

(** A code unit that a header name keeps: the byte stored for it is not
    NUL and reads back, through windows-1252, as the code unit. *)
Definition name_unit_ok (c : Z) : bool :=
  negb (u8 c =? 0) && (windows1252 (u8 c) =? c).

(** A path that fits the name field behind the top-level directory. *)
Definition path_ok (p : jsstring) : bool :=
  nonempty p && (length p <=? 93)%nat && forallb name_unit_ok p.

(** A content that is not empty, that the UTF-8 codec reproduces, and
    whose size fits the eleven octal digits of the size field. *)
Definition content_ok (c : jsstring) : bool :=
  nonempty c && eqb (utf8_decode (utf8_encode c)) c
  && (Z.of_nat (length (utf8_encode c)) <? 8 ^ 11).

Definition entry_ok (f : jsstring * jsstring) : bool :=
  path_ok (fst f) && content_ok (snd f).

(** A text of octal digits. *)
Definition octal_text (ds : jsstring) : Prop :=
  Forall (fun d => 48 <= d < 56) ds.

(** The header of a directory whose name begins with a code unit that
    is stored as a byte other than NUL. *)
Definition dir_header (h : list Z) : Prop :=
  exists now c nm, u8 c <> 0 /\ h = createTarHeader now (c :: nm) 0 true.

(** The blocks of a file entry: the header and the padded content. *)
Definition file_block (clock : nat -> Z) (ne : nat * Entry) : list Z :=
  createTarHeader (clock (fst ne)) (e_name (snd ne))
    (Z.of_nat (length (e_data (snd ne)))) false
  ++ padded (e_data (snd ne)).

(** A file entry under the top-level directory that the decoder reads
    back. *)
Definition file_entry_ok (ne : nat * Entry) : Prop :=
  exists path,
    e_name (snd ne) = str "course/" ++ path /\ path_ok path = true /\
    0 < Z.of_nat (length (e_data (snd ne))) < 8 ^ 11.

(** What the decoder does with a file entry. *)
Definition store_entry (m : JsMap.t jsstring) (ne : nat * Entry)
  : JsMap.t jsstring :=
  JsMap.set m (skipn 7 (e_name (snd ne))) (utf8_decode (e_data (snd ne))).

(** The entry of a file of the entry map. *)
Definition entry_of (f : jsstring * jsstring) : Entry :=
  {| e_name := str "course/" ++ fst f; e_data := utf8_encode (snd f) |}.

(** An entry map is a [Map]: its paths are distinct. *)
Definition is_map (files : JsMap.t jsstring) : Prop :=
  NoDup (JsMap.keys files).

(** The entry map with one file of empty content. *)
Definition empty_file : JsMap.t jsstring := [(str "a.txt", [])].

(** An entry map of two files. *)
Definition two_files : JsMap.t jsstring :=
  [(str "course.xml", str "<course/>"); (str "html/b1.html", str "<p>Hi</p>")].

Definition clock0 (n : nat) : Z := 1700000000000.

End ArchiveDomain.

(** ** Regular expressions

    The patterns of the program, with the backtracking semantics of
    ECMAScript: alternatives from left to right, greedy and lazy stars,
    a star iteration that must consume input, capturing groups. *)

Module Regex.

Inductive regex :=
| Eps                                   (* the empty pattern *)
| Chr (p : Z -> bool)                   (* one code unit of a class *)
| Cat (a b : regex)
| Alt (a b : regex)
| Star (greedy : bool) (a : regex)      (* a* and a*? *)
| Group (i : nat) (a : regex).          (* the capturing group number i *)

Definition captures := list (nat * jsstring).

Definition set_capture (caps : captures) (i : nat) (text : jsstring)
  : captures :=
  JsMap.set_by Nat.eqb caps i text.

(** Group [i] of a match; a group that took no part is the empty string
    here (no pattern of the program tells the two apart). *)
Definition capture (caps : captures) (i : nat) : jsstring :=
  match JsMap.get_by Nat.eqb caps i with
  | Some t => t
  | None => []
  end.

Section Matcher.
Context {R : Type}.

Definition continuation := jsstring -> captures -> option R.

(** The iterations of a star whose body matches by [body], at most [n]
    of them: the greedy star tries one more iteration before it
    continues with [k], the lazy one continues with [k] first. *)
Definition star_loop (body : jsstring -> captures -> continuation -> option R)
  (greedy : bool) (k : continuation)
  : nat -> jsstring -> captures -> option R :=
  fix loop (n : nat) (s : jsstring) (caps : captures) : option R :=
    let more :=
      match n with
      | O => None
      | S n' =>
        body s caps
          (fun s1 c1 =>
             if (length s1 <? length s)%nat then loop n' s1 c1 else None)
      end in
    if greedy then
      match more with
      | Some x => Some x
      | None => k s caps
      end
    else
      match k s caps with
      | Some x => Some x
      | None => more
      end.

(** [matcher r s caps k]: match [r] at the start of [s], then continue
    with [k] on the rest; the first success in backtracking order. *)
Fixpoint matcher (r : regex) (s : jsstring) (caps : captures)
  (k : continuation) : option R :=
  match r with
  | Eps => k s caps
  | Chr p =>
    match s with
    | c :: s' => if p c then k s' caps else None
    | [] => None
    end
  | Cat a b => matcher a s caps (fun s1 c1 => matcher b s1 c1 k)
  | Alt a b =>
    match matcher a s caps k with
    | Some x => Some x
    | None => matcher b s caps k
    end
  | Star greedy a => star_loop (matcher a) greedy k (length s) s caps
  | Group i a =>
    matcher a s caps
      (fun s1 c1 =>
         k s1 (set_capture c1 i (firstn (length s - length s1) s)))
  end.

(** The star of a class of code units, written out as a loop over the
    string. *)
Fixpoint star_chr (p : Z -> bool) (greedy : bool) (k : continuation)
  (s : jsstring) (caps : captures) : option R :=
  match s with
  | [] => k [] caps
  | c :: s' =>
    if greedy then
      if p c then
        match star_chr p greedy k s' caps with
        | Some x => Some x
        | None => k s caps
        end
      else k s caps
    else
      match k s caps with
      | Some x => Some x
      | None => if p c then star_chr p greedy k s' caps else None
      end
  end.

End Matcher.

(** The continuation at the end of a pattern. *)
Definition matched_here : jsstring -> captures -> option (jsstring * captures) :=
  fun s1 c1 => Some (s1, c1).

(** The pattern matches at no position inside [a], whatever follows. *)
Definition miss (r : regex) (a : jsstring) : Prop :=
  forall a1 a2 t, a = a1 ++ a2 -> a2 <> [] ->
    matcher r (a2 ++ t) [] matched_here = None.

(** A match: the text before it, the matched text, the text behind it,
    and the groups. *)
Record found := {
  before : jsstring;
  matched : jsstring;
  after : jsstring;
  groups : captures
}.

(** The leftmost match: [s.match(r)] and [r.exec(s)] from the start. *)
Fixpoint search_from (r : regex) (passed : jsstring) (s : jsstring)
  : option found :=
  match matcher r s [] matched_here with
  | Some (s1, c1) =>
    Some {| before := rev passed;
            matched := firstn (length s - length s1) s;
            after := s1; groups := c1 |}
  | None =>
    match s with
    | [] => None
    | c :: s' => search_from r (c :: passed) s'
    end
  end.

Definition search (r : regex) (s : jsstring) : option found :=
  search_from r [] s.

(** [r.test(s)] *)
Definition test (r : regex) (s : jsstring) : bool :=
  match search r s with Some _ => true | None => false end.

(** The matches of the loop [while ((m = r.exec(s)) !== null)] for a
    global pattern, each search starting behind the match before.  No
    global pattern of the program matches the empty string; the loop
    of the model ends at a match that is empty. *)
Fixpoint exec_all_from (steps : nat) (r : regex) (s : jsstring)
  : list found :=
  match steps with
  | O => []
  | S n =>
    match search r s with
    | None => []
    | Some f =>
      f :: (if (length (after f) <? length s)%nat
            then exec_all_from n r (after f) else [])
    end
  end.

Definition exec_all (r : regex) (s : jsstring) : list found :=
  exec_all_from (S (length s)) r s.

(** [s.replace(r, rep)] for a global pattern and a literal replacement. *)
Definition replace_all (r : regex) (rep s : jsstring) : jsstring :=
  let ms := exec_all r s in
  flat_map (fun f => before f ++ rep) ms
  ++ match rev ms with
     | f :: _ => after f
     | [] => s
     end.

(** [s.replace(r, rep)] for a pattern that is not global. *)
Definition replace_first (r : regex) (rep s : jsstring) : jsstring :=
  match search r s with
  | Some f => before f ++ rep ++ after f
  | None => s
  end.

(** *** Writing patterns *)

Definition any : regex := Chr (fun _ => true).            (* [\s\S] *)
Definition chr (c : Z) : regex := Chr (fun x => x =? c).
Definition notchr (c : Z) : regex := Chr (fun x => negb (x =? c)).

Fixpoint lit_units (s : jsstring) : regex :=
  match s with
  | [] => Eps
  | [c] => chr c
  | c :: r => Cat (chr c) (lit_units r)
  end.

Definition lit (s : string) : regex := lit_units (str s).

(** A letter under the flag [i]: both ASCII cases. *)
Definition chr_i (c : Z) : regex :=
  Chr (fun x => (x =? c) || (x =? ascii_upper c) || (x =? ascii_lower c)).

Fixpoint lit_i_units (s : jsstring) : regex :=
  match s with
  | [] => Eps
  | [c] => chr_i c
  | c :: r => Cat (chr_i c) (lit_i_units r)
  end.

Definition plus (greedy : bool) (a : regex) : regex :=
  Cat a (Star greedy a).

Definition opt (a : regex) : regex := Alt a Eps.

Fixpoint seq_of (rs : list regex) : regex :=
  match rs with
  | [] => Eps
  | [r] => r
  | r :: rest => Cat r (seq_of rest)
  end.

Definition ws : regex := Chr is_ws.                        (* [\s] *)
Definition non_ws : regex := Chr (fun c => negb (is_ws c)). (* [\S] *)
Definition word : regex := Chr is_word.                    (* [\w] *)
Definition digit : regex := Chr is_digit.                  (* [\d] *)

End Regex.

(** ** olx-parser.js: the OLX decoder *)

Module OlxParser.
Import Regex.

(** [files.get(path)] where the code tests the result for truth: an
    absent file and an empty file are the same. *)
Definition getFile (files : JsMap.t jsstring) (path : jsstring)
  : option jsstring :=
  match JsMap.get files path with
  | Some content => if nonempty content then Some content else None
  | None => None
  end.

(** [obj.key || fallback] on an object of strings. *)
Definition prop_or (obj : JsMap.t jsstring) (key : string)
  (fallback : jsstring) : jsstring :=
  match JsMap.get obj (str key) with
  | Some v => or_else v fallback
  | None => fallback
  end.

Definition decodeXmlEntities (s : jsstring) : jsstring :=
  replaceAll (str "&apos;") (str "'")
    (replaceAll (str "&quot;") dq
      (replaceAll (str "&gt;") (str ">")
        (replaceAll (str "&lt;") (str "<")
          (replaceAll (str "&amp;") (str "&") s)))).

(** [/<[^>]*>/g] *)
Definition re_tag : regex :=
  seq_of [chr 60; Star true (notchr 62); chr 62].

Definition stripTags (html : jsstring) : jsstring :=
  trim (replace_runs is_ws (str " ") (replace_all re_tag (str " ") html)).

(** [[\w_:-]] *)
Definition attr_name_unit (c : Z) : bool :=
  is_word c || (c =? 58) || (c =? 45).

(** [/([\w_:-]+)\s*=\s*Q([^Q]*?)Q/g], Q the double quote. *)
Definition re_attr : regex :=
  seq_of [Group 1 (plus true (Chr attr_name_unit));
          Star true ws; chr 61; Star true ws; chr 34;
          Group 2 (Star false (notchr 34)); chr 34].

(** The loop over [attrRegex.exec(attrStr)], on an object that holds
    [attrs] already. *)
Definition readAttrs (attrs : JsMap.t jsstring) (attrStr : jsstring)
  : JsMap.t jsstring :=
  fold_left
    (fun attrs m =>
       JsMap.set attrs (capture (groups m) 1)
         (decodeXmlEntities (capture (groups m) 2)))
    (exec_all re_attr attrStr) attrs.

(** [/<\w+\s([^>]*?)\/?>/] *)
Definition re_open_tag : regex :=
  seq_of [chr 60; plus true word; ws; Group 1 (Star false (notchr 62));
          opt (chr 47); chr 62].

Definition parseXmlAttributes (xml : jsstring) : JsMap.t jsstring :=
  match search re_open_tag xml with
  | None => []
  | Some tagMatch => readAttrs [] (capture (groups tagMatch) 1)
  end.

(** The global pattern built for a tag name of letters: [<], the name,
    [\s], a greedy run of [[^>]], [url_name=], and between two double
    quotes the group of a greedy run of code units other than the
    double quote. *)
Definition re_child (tagName : string) : regex :=
  seq_of [chr 60; lit tagName; ws; Star true (notchr 62);
          lit "url_name="; chr 34; Group 1 (Star true (notchr 34)); chr 34].

Definition extractChildIds (xml : jsstring) (tagName : string)
  : list jsstring :=
  List.map (fun m => capture (groups m) 1) (exec_all (re_child tagName) xml).

(** [/<(\w+)\s([^>]*?)\/?\s*>/g] *)
Definition re_element : regex :=
  seq_of [chr 60; Group 1 (plus true word); ws;
          Group 2 (Star false (notchr 62)); opt (chr 47); Star true ws;
          chr 62].

(** The blocks of a vertical: objects with [tag] and the attributes. *)
Definition extractBlocks (xml : jsstring) : list (JsMap.t jsstring) :=
  flat_map
    (fun m =>
       let tag := capture (groups m) 1 in
       if eqb tag (str "vertical") then []
       else
         let attrs := readAttrs [] (capture (groups m) 2) in
         if nonempty (prop_or attrs "url_name" [])
         then [fold_left (fun o a => JsMap.set o (fst a) (snd a)) attrs
                 [(str "tag", tag)]]
         else [])
    (exec_all re_element xml).

(** The decoder's state: the model and the warnings. *)
Definition state := (CourseData * list jsstring)%type.

Definition warn (st : state) (w : jsstring) : state := (fst st, snd st ++ [w]).

(** *** Block parsers *)

Definition parseHtmlBlock (files : JsMap.t jsstring) (blockId : jsstring)
  (st : state) : state :=
  if JsMap.has (textBlocks (fst st)) blockId then st else
  let xmlAttrs :=
    match getFile files (str "html/" ++ blockId ++ str ".xml") with
    | Some xmlFile => parseXmlAttributes xmlFile
    | None => []
    end in
  let title := prop_or xmlAttrs "display_name" blockId in
  let htmlFilename := prop_or xmlAttrs "filename" blockId in
  let htmlContent :=
    match getFile files (str "html/" ++ htmlFilename ++ str ".html") with
    | Some c => c
    | None => []
    end in
  (set_textBlock (fst st) blockId
     {| tb_blockId := blockId; tb_title := title;
        tb_content := trim htmlContent |},
   snd st).

(** [/1\.00:(\S+)/] *)
Definition re_youtube : regex :=
  seq_of [lit "1.00:"; Group 1 (plus true non_ws)].

Section WithPlatform.
Context {P : Platform}.

(** The first source of [html5_sources]: the attribute is parsed as
    JSON, the entity of the double quote decoded; [arr[0] || ''] is
    taken for a string, and the attribute itself where the parser
    throws.  (A first element that is not a string is outside the
    model of the block, whose fields are strings.) *)
Definition firstSource (html5_sources : jsstring) : jsstring :=
  let decoded := replaceAll (str "&quot;") dq html5_sources in
  match JSON_parse decoded with
  | Some (JArray (JString url :: _)) => url
  | Some (JString (c :: _)) => [c]
  | Some (JObject members) =>
    match JsMap.get members (str "0") with
    | Some (JString url) => url
    | _ => []
    end
  | Some JNull => html5_sources
  | Some _ => []
  | None => html5_sources
  end.

Definition parseVideoBlock (files : JsMap.t jsstring) (blockId : jsstring)
  (inlineAttrs : JsMap.t jsstring) (st : state) : state :=
  if JsMap.has (videoBlocks (fst st)) blockId then st else
  let attrs :=
    match getFile files (str "video/" ++ blockId ++ str ".xml") with
    | Some xmlFile => parseXmlAttributes xmlFile
    | None => inlineAttrs
    end in
  let title := prop_or attrs "display_name" blockId in
  let youtubeId := prop_or attrs "youtube_id_1_0" [] in
  let youtubeId :=
    if negb (nonempty youtubeId) && nonempty (prop_or attrs "youtube" [])
    then match search re_youtube (prop_or attrs "youtube" []) with
         | Some m => capture (groups m) 1
         | None => youtubeId
         end
    else youtubeId in
  let html5Url :=
    if nonempty (prop_or attrs "html5_sources" [])
    then firstSource (prop_or attrs "html5_sources" [])
    else [] in
  (set_videoBlock (fst st) blockId
     {| vb_blockId := blockId; vb_title := title; vb_youtubeId := youtubeId;
        vb_html5Url := html5Url;
        vb_startTime := prop_or attrs "start_time" (str "00:00:00");
        vb_endTime := prop_or attrs "end_time" (str "00:00:00") |},
   snd st).

End WithPlatform.

(** [/<x>([\s\S]*?)<\/x>/] *)
Definition re_element_body (tag : string) : regex :=
  seq_of [chr 60; lit tag; chr 62; Group 1 (Star false any);
          chr 60; chr 47; lit tag; chr 62].

(** The text of the first element [tag], its tags stripped. *)
Definition elementText (tag : string) (xml : jsstring) : jsstring :=
  match search (re_element_body tag) xml with
  | Some m => trim (stripTags (capture (groups m) 1))
  | None => []
  end.

(** [/<choice\s+correct=Q(true|false)Q>([\s\S]*?)<\/choice>/g], Q the
    double quote. *)
Definition re_choice : regex :=
  seq_of [lit "<choice"; plus true ws; lit "correct="; chr 34;
          Group 1 (Alt (lit "true") (lit "false")); chr 34; chr 62;
          Group 2 (Star false any); lit "</choice>"].

(** [s.indexOf('<choicehint')], here only where the pattern of the hint
    has matched, so that the text is present. *)
Fixpoint before_text (pat s : jsstring) : jsstring :=
  if starts_with pat s then []
  else match s with
       | [] => []
       | c :: s' => c :: before_text pat s'
       end.

Definition readChoice (m : found) : Choice :=
  let correct := eqb (capture (groups m) 1) (str "true") in
  let choiceContent := capture (groups m) 2 in
  let hintMatch := search (re_element_body "choicehint") choiceContent in
  let hint :=
    match hintMatch with
    | Some h => trim (stripTags (capture (groups h) 1))
    | None => []
    end in
  let text :=
    match hintMatch with
    | Some _ => before_text (str "<choicehint") choiceContent
    | None => choiceContent
    end in
  {| ch_text := trim (stripTags text); ch_correct := correct; ch_hint := hint |}.

(** [/Explanation\s*/i] *)
Definition re_explanation : regex :=
  Cat (lit_i_units (str "Explanation")) (Star true ws).

Definition parseProblemBlock (files : JsMap.t jsstring) (blockId : jsstring)
  (st : state) : state :=
  if JsMap.has (problemBlocks (fst st)) blockId then st else
  match getFile files (str "problem/" ++ blockId ++ str ".xml") with
  | None =>
    warn st (str "Problem file not found: problem/" ++ blockId ++ str ".xml")
  | Some xmlFile =>
    let attrs := parseXmlAttributes xmlFile in
    let explanation :=
      match search (re_element_body "solution") xmlFile with
      | Some m =>
        trim (replace_first re_explanation []
                (stripTags (capture (groups m) 1)))
      | None => []
      end in
    (set_problemBlock (fst st) blockId
       {| pb_blockId := blockId;
          pb_title := prop_or attrs "display_name" blockId;
          pb_questionText := elementText "label" xmlFile;
          pb_choices := List.map readChoice (exec_all re_choice xmlFile);
          pb_explanation := explanation;
          pb_showAnswer := prop_or attrs "showanswer" (str "attempted") |},
     snd st)
  end.

(** [/<option\s+points=Q(\d+)Q>([\s\S]*?)<\/option>/g], Q the double
    quote. *)
Definition re_option : regex :=
  seq_of [lit "<option"; plus true ws; lit "points="; chr 34;
          Group 1 (plus true digit); chr 34; chr 62;
          Group 2 (Star false any); lit "</option>"].

Definition readCriterion (critMatch : found) : list Criterion :=
  let critContent := capture (groups critMatch) 1 in
  let criterionName := elementText "name" critContent in
  let options :=
    List.map
      (fun optMatch =>
         {| co_label := elementText "label" (capture (groups optMatch) 2);
            co_points := or_zero (parseInt (capture (groups optMatch) 1)) |})
      (exec_all re_option critContent) in
  if nonempty criterionName
  then [{| cr_name := criterionName; cr_options := options |}]
  else [].

(** [s.includes(t)] *)
Fixpoint contains (t s : jsstring) : bool :=
  starts_with t s
  || match s with
     | [] => false
     | _ :: s' => contains t s'
     end.

Definition parseOpenResponseBlock (files : JsMap.t jsstring)
  (blockId : jsstring) (st : state) : state :=
  if JsMap.has (openResponseBlocks (fst st)) blockId then st else
  match getFile files (str "openassessment/" ++ blockId ++ str ".xml") with
  | None =>
    warn st (str "Open response file not found: openassessment/" ++ blockId
             ++ str ".xml")
  | Some xmlFile =>
    let attrs := parseXmlAttributes xmlFile in
    let assessmentType :=
      if contains (str "name=" ++ dq ++ str "staff-assessment" ++ dq) xmlFile
      then str "staff"
      else if contains (str "name=" ++ dq ++ str "peer-assessment" ++ dq)
                xmlFile
      then str "peer"
      else str "self" in
    (set_openResponseBlock (fst st) blockId
       {| ob_blockId := blockId;
          ob_title := prop_or attrs "display_name" blockId;
          ob_prompt := elementText "description" xmlFile;
          ob_criteria :=
            flat_map readCriterion
              (exec_all (re_element_body "criterion") xmlFile);
          ob_assessmentType := assessmentType |},
     snd st)
  end.

(** *** The decoder *)

Section WithPlatform2.
Context {P : Platform}.

(** Truth of a JSON value. *)
Definition truthy (v : json) : bool :=
  match v with
  | JNull => false
  | JBool b => b
  | JNum text => negb (eqb text (str "0")) && negb (eqb text (str "-0"))
                 && negb (eqb text (str "NaN"))
  | JString s => nonempty s
  | JArray _ | JObject _ => true
  end.

(** [v[key]], for the member names that the decoder reads. *)
Definition member (v : json) (key : jsstring) : option json :=
  match v with
  | JObject members => JsMap.get members key
  | _ => None
  end.

(** [policy[`course/${run}`] || Object.values(policy)[0] || {}];
    [None] where the property access throws, on null. *)
Definition coursePolicyOf (policy : json) (run_ : jsstring) : option json :=
  match policy with
  | JNull => None
  | _ =>
    let first :=
      match policy with
      | JObject ((_, v) :: _) => Some v
      | JArray (v :: _) => Some v
      | JString (c :: _) => Some (JString [c])
      | _ => None
      end in
    Some
      match member policy (str "course/" ++ run_) with
      | Some v =>
        if truthy v then v
        else match first with
             | Some w => if truthy w then w else JObject []
             | None => JObject []
             end
      | None =>
        match first with
        | Some w => if truthy w then w else JObject []
        | None => JObject []
        end
      end
  end.

(** Step 3: the policy file.  The fields of the course info are strings
    and a boolean; a display name or language of the policy that is
    not a string is left unread, and a self-paced value of another type
    counts by its truth. *)
Definition readPolicy (files : JsMap.t jsstring) (run_ : jsstring)
  (st : state) : state :=
  match getFile files (str "policies/" ++ run_ ++ str "/policy.json") with
  | None => st
  | Some policyFile =>
    match
      match JSON_parse policyFile with
      | Some policy => coursePolicyOf policy run_
      | None => None
      end
    with
    | None =>
      warn st (str "Could not parse policies/" ++ run_ ++ str "/policy.json")
    | Some coursePolicy =>
      let i := info (fst st) in
      let name_ :=
        match member coursePolicy (str "display_name") with
        | Some (JString s) =>
          if negb (nonempty (courseName i)) && nonempty s then s
          else courseName i
        | _ => courseName i
        end in
      let language_ :=
        match member coursePolicy (str "language") with
        | Some (JString s) => if nonempty s then s else language i
        | _ => language i
        end in
      let selfPaced_ :=
        match member coursePolicy (str "self_paced") with
        | Some v => truthy v
        | None => selfPaced i
        end in
      (with_info (fst st)
         {| courseName := name_; org := org i; courseId := courseId i;
            run := run i; language := language_; startDate := startDate i;
            endDate := endDate i; selfPaced := selfPaced_ |},
       snd st)
    end
  end.

(** The body of the loop over the blocks of a vertical. *)
Definition readBlock (files : JsMap.t jsstring)
  (chapterName seqName vertName vertId : jsstring) (st : state)
  (block : JsMap.t jsstring) : state :=
  let tag := prop_or block "tag" [] in
  let blockId := prop_or block "url_name" [] in
  let push (blockType : jsstring) (st : state) : state :=
    (push_structure (fst st)
       {| chapter := chapterName; sequential := seqName;
          vertical := vertName; blockType := blockType;
          blockId := blockId |},
     snd st) in
  if eqb tag (str "html")
  then push (str "text") (parseHtmlBlock files blockId st)
  else if eqb tag (str "video")
  then push (str "video") (parseVideoBlock files blockId block st)
  else if eqb tag (str "problem")
  then push (str "problem") (parseProblemBlock files blockId st)
  else if eqb tag (str "openassessment")
  then push (str "openresponse") (parseOpenResponseBlock files blockId st)
  else if eqb tag (str "library_content") || eqb tag (str "discussion")
          || eqb tag (str "lti") || eqb tag (str "lti_consumer")
  then st
  else warn st (str "Unknown block type " ++ dq ++ tag ++ dq
                ++ str " in vertical " ++ vertId ++ str ", skipping.").

Definition readVertical (files : JsMap.t jsstring)
  (chapterName seqName : jsstring) (st : state) (vertId : jsstring) : state :=
  match getFile files (str "vertical/" ++ vertId ++ str ".xml") with
  | None =>
    warn st (str "Vertical file not found: vertical/" ++ vertId ++ str ".xml")
  | Some vertXml =>
    let vertName := prop_or (parseXmlAttributes vertXml) "display_name" vertId in
    fold_left (readBlock files chapterName seqName vertName vertId)
              (extractBlocks vertXml) st
  end.

Definition readSequential (files : JsMap.t jsstring) (chapterName : jsstring)
  (st : state) (seqId : jsstring) : state :=
  match getFile files (str "sequential/" ++ seqId ++ str ".xml") with
  | None =>
    warn st (str "Sequential file not found: sequential/" ++ seqId
             ++ str ".xml")
  | Some seqXml =>
    let seqName := prop_or (parseXmlAttributes seqXml) "display_name" seqId in
    fold_left (readVertical files chapterName seqName)
              (extractChildIds seqXml "vertical") st
  end.

Definition readChapter (files : JsMap.t jsstring) (st : state)
  (chId : jsstring) : state :=
  match getFile files (str "chapter/" ++ chId ++ str ".xml") with
  | None =>
    warn st (str "Chapter file not found: chapter/" ++ chId ++ str ".xml")
  | Some chXml =>
    let chapterName := prop_or (parseXmlAttributes chXml) "display_name" chId in
    fold_left (readSequential files chapterName)
              (extractChildIds chXml "sequential") st
  end.

(** The warning for a missing [course.xml]; its dash is U+2014. *)
Definition missingCourseXml : jsstring :=
  str "Missing course.xml " ++ [8212] ++ str " cannot determine course structure.".

Definition parseOlx (files : JsMap.t jsstring) : state :=
  let st : state := (createCourseData, []) in
  match getFile files (str "course.xml") with
  | None => warn st missingCourseXml
  | Some courseXml =>
    let courseAttrs := parseXmlAttributes courseXml in
    let run_ := prop_or courseAttrs "url_name" [] in
    let i := info (fst st) in
    let st : state :=
      (with_info (fst st)
         {| courseName := courseName i; org := prop_or courseAttrs "org" [];
            courseId := prop_or courseAttrs "course" []; run := run_;
            language := language i; startDate := startDate i;
            endDate := endDate i; selfPaced := selfPaced i |},
       snd st) in
    let courseRunXml := getFile files (str "course/" ++ run_ ++ str ".xml") in
    let st : state :=
      match courseRunXml with
      | None => st
      | Some xml =>
        let runAttrs := parseXmlAttributes xml in
        let i := info (fst st) in
        (with_info (fst st)
           {| courseName := prop_or runAttrs "display_name" [];
              org := org i; courseId := courseId i; run := run i;
              language := prop_or runAttrs "language" (str "en");
              startDate := prop_or runAttrs "start" (startDate i);
              endDate := prop_or runAttrs "end" (endDate i);
              selfPaced := eqb (prop_or runAttrs "self_paced" []) (str "true") |},
         snd st)
      end in
    let st := readPolicy files run_ st in
    let chapterIds :=
      extractChildIds (match courseRunXml with Some xml => xml | None => [] end)
                      "chapter" in
    fold_left (readChapter files) chapterIds st
  end.

End WithPlatform2.

End OlxParser.

(** An extracted entry map without [course.xml]. *)

Module OlxExample.

Definition no_course_xml : JsMap.t jsstring :=
  [(str "html/b1.xml", str "<html filename=" ++ dq ++ str "b1" ++ dq ++ str "/>");
   (str "html/b1.html", str "<p>Hi</p>")].

End OlxExample.

(** ** main.js: Build and Import *)

Module Main.
Import Hierarchy.

(** [generateId()]: sixteen random bytes in hexadecimal. *)
Definition generateId (bytes : list Z) : jsstring :=
  flat_map (fun b => [Json.hex_digit (b / 16 mod 16); Json.hex_digit (b mod 16)])
           bytes.

Section WithPlatform.
Context {P : Platform}.

(** The source of randomness: the bytes that the [n]-th call of
    [crypto.getRandomValues] gives. *)
Variable entropy : nat -> list Z.

Definition freshId (name_ : jsstring) (n : nat) : jsstring :=
  sanitizeUrlName name_ ++ str "_" ++ firstn 8 (generateId (entropy n)).

(** The loop of [handleFile] that assigns the ids; the state is the
    lookup and the number of calls of [generateId] so far. *)
Definition assignIds (st : JsMap.t jsstring * nat) (row : StructureRow)
  : JsMap.t jsstring * nat :=
  let assign (key name_ : jsstring) (st : JsMap.t jsstring * nat) :=
    if negb (JsMap.has (fst st) key)
    then (JsMap.set (fst st) key (freshId name_ (snd st)), S (snd st))
    else st in
  let st := assign (str "ch:" ++ chapter row) (chapter row) st in
  let st :=
    assign (str "seq:" ++ chapter row ++ str "|" ++ sequential row)
           (sequential row) st in
  assign (str "vert:" ++ chapter row ++ str "|" ++ sequential row ++ str "|"
          ++ vertical row)
         (vertical row) st.

Definition buildIdMap (structure : list StructureRow) : JsMap.t jsstring :=
  fst (fold_left assignIds structure ([], O)).

(** [merge]: the entries of a generator set into the map of all files. *)
Definition merge (allFiles fileMap : JsMap.t jsstring) : JsMap.t jsstring :=
  fold_left (fun all f => JsMap.set all (fst f) (snd f)) fileMap allFiles.

(** The files of the export, from the model and the hierarchy that
    [handleFile] has built. *)
Definition exportFiles (courseData : CourseData) (hierarchy : list Chapter)
  : JsMap.t jsstring :=
  let allFiles := [] in
  let allFiles :=
    merge allFiles (Generators.generateCourse (info courseData) hierarchy) in
  let allFiles := merge allFiles (Generators.generateChapters hierarchy) in
  let allFiles := merge allFiles (Generators.generateSequentials hierarchy) in
  let allFiles := merge allFiles (Generators.generateVerticals hierarchy) in
  let allFiles :=
    merge allFiles (Generators.generateHtmlBlocks (textBlocks courseData)) in
  let allFiles :=
    merge allFiles (Generators.generateVideoBlocks (videoBlocks courseData)) in
  let allFiles :=
    merge allFiles
      (Generators.generateProblemBlocks (problemBlocks courseData)) in
  merge allFiles
    (Generators.generateOpenResponseBlocks (openResponseBlocks courseData)).

(** Build: the bytes of the archive of a course. *)
Definition encode (clock : nat -> Z) (courseData : CourseData) : list Z :=
  let idMap := buildIdMap (structure courseData) in
  let hierarchy := buildHierarchy idMap (structure courseData) in
  Archive.generateTarGz clock (exportFiles courseData hierarchy).

(** Import: the model and the warnings read from the bytes of an
    archive. *)
Definition decode (buffer : list Z) : Untar.outcome OlxParser.state :=
  match Untar.extractTarGz buffer with
  | Untar.Returned files => Untar.Returned (OlxParser.parseOlx files)
  | Untar.Threw => Untar.Threw
  | Untar.OutOfSteps => Untar.OutOfSteps
  end.

End WithPlatform.

End Main.

(** ** The course of the template workbook *)

Module Template.

Definition row (c s v t b : string) : StructureRow :=
  {| chapter := str c; sequential := str s; vertical := str v;
     blockType := str t; blockId := str b |}.

Definition choice (t : string) (c : bool) (h : string) : Choice :=
  {| ch_text := str t; ch_correct := c; ch_hint := str h |}.

Definition option (l : string) (p : Z) : CriterionOption :=
  {| co_label := str l; co_points := p |}.

Definition course : CourseData := {|
  info := {|
    courseName := str "My Course Title"; org := str "MyOrgX";
    courseId := str "COURSE101"; run := str "2024_T1"; language := str "en";
    startDate := str "2024-01-15"; endDate := str "2024-12-31";
    selfPaced := true |};
  structure :=
    [row "Chapter 1: Introduction" "1.1 Welcome" "Unit 1.1.1 Overview"
         "text" "welcome_text";
     row "Chapter 1: Introduction" "1.1 Welcome" "Unit 1.1.1 Overview"
         "video" "welcome_video";
     row "Chapter 1: Introduction" "1.2 Core Concepts" "Unit 1.2.1 Lecture"
         "video" "lecture_1";
     row "Chapter 1: Introduction" "1.2 Core Concepts" "Unit 1.2.1 Lecture"
         "text" "reading_1";
     row "Chapter 1: Introduction" "1.2 Core Concepts" "Unit 1.2.2 Quiz"
         "problem" "quiz_q1";
     row "Chapter 1: Introduction" "1.2 Core Concepts" "Unit 1.2.2 Quiz"
         "problem" "quiz_q2";
     row "Chapter 1: Introduction" "1.2 Core Concepts"
         "Unit 1.2.3 Reflection" "openresponse" "reflection_1"];
  textBlocks :=
    [(str "welcome_text",
      {| tb_blockId := str "welcome_text"; tb_title := str "Welcome";
         tb_content :=
           str "<h1>Welcome to the Course</h1><p>This course introduces you to key concepts.</p>" |});
     (str "reading_1",
      {| tb_blockId := str "reading_1"; tb_title := str "Reading List";
         tb_content :=
           str "<h1>Reading List</h1><p>1. Smith, J. (2024). Intro to the Subject.</p>" |})];
  videoBlocks :=
    [(str "welcome_video",
      {| vb_blockId := str "welcome_video"; vb_title := str "Welcome Video";
         vb_youtubeId := str "dQw4w9WgXcQ"; vb_html5Url := [];
         vb_startTime := str "00:00:00"; vb_endTime := str "00:00:00" |});
     (str "lecture_1",
      {| vb_blockId := str "lecture_1"; vb_title := str "Lecture 1";
         vb_youtubeId := str "cH5tV9gFgHk"; vb_html5Url := [];
         vb_startTime := str "00:00:00"; vb_endTime := str "00:00:00" |})];
  problemBlocks :=
    [(str "quiz_q1",
      {| pb_blockId := str "quiz_q1"; pb_title := str "Q1";
         pb_questionText := str "What is 2 + 2?";
         pb_choices :=
           [choice "3" false "Too low"; choice "4" true "Correct!";
            choice "5" false "Too high"; choice "22" false "Not quite"];
         pb_explanation := str "Basic addition: 2 + 2 = 4";
         pb_showAnswer := str "attempted" |});
     (str "quiz_q2",
      {| pb_blockId := str "quiz_q2"; pb_title := str "Q2";
         pb_questionText := str "Which color is the sky on a clear day?";
         pb_choices :=
           [choice "Red" false "Not red"; choice "Green" false "Not green";
            choice "Blue" true "That's right!";
            choice "Yellow" false "Not yellow"];
         pb_explanation :=
           str "The sky appears blue due to Rayleigh scattering.";
         pb_showAnswer := str "attempted" |})];
  openResponseBlocks :=
    [(str "reflection_1",
      {| ob_blockId := str "reflection_1"; ob_title := str "Chapter Reflection";
         ob_prompt :=
           str "Reflect on what you learned in this chapter. What was the most surprising concept?";
         ob_criteria :=
           [{| cr_name := str "Depth of Reflection";
               cr_options :=
                 [option "Superficial" 0; option "Adequate" 1;
                  option "Thoughtful" 2; option "Exceptional" 3] |};
            {| cr_name := str "Writing Quality";
               cr_options :=
                 [option "Poor" 0; option "Fair" 1; option "Good" 2;
                  option "Excellent" 3] |}];
         ob_assessmentType := str "self" |})]
|}.

(** A source of randomness for the examples: the call number in every
    byte. *)
Definition entropy (n : nat) : list Z := repeat (Z.of_nat n) 16.

End Template.

(** ** The courses that Build and Import reproduce *)

Module RoundTrip.
Import Hierarchy.

(** White space normalised: every run of white space is one space, and
    there is none at the two ends. *)
Definition normalizeSpace (s : jsstring) : jsstring :=
  trim (replace_runs is_ws (str " ") s).

(** *** What Import reads for a block that Build has written *)

Definition normalTextBlock (b : TextBlock) : TextBlock :=
  {| tb_blockId := tb_blockId b; tb_title := tb_title b;
     tb_content := trim (tb_content b) |}.

Definition normalChoice (c : Choice) : Choice :=
  {| ch_text := normalizeSpace (ch_text c); ch_correct := ch_correct c;
     ch_hint := normalizeSpace (ch_hint c) |}.

Definition normalProblemBlock (b : ProblemBlock) : ProblemBlock :=
  {| pb_blockId := pb_blockId b; pb_title := pb_title b;
     pb_questionText := normalizeSpace (pb_questionText b);
     pb_choices := List.map normalChoice (pb_choices b);
     pb_explanation := normalizeSpace (pb_explanation b);
     pb_showAnswer := pb_showAnswer b |}.

Definition normalOption (o : CriterionOption) : CriterionOption :=
  {| co_label := normalizeSpace (co_label o); co_points := co_points o |}.

Definition normalCriterion (c : Criterion) : Criterion :=
  {| cr_name := normalizeSpace (cr_name c);
     cr_options := List.map normalOption (cr_options c) |}.

Definition normalOpenResponseBlock (b : OpenResponseBlock)
  : OpenResponseBlock :=
  {| ob_blockId := ob_blockId b; ob_title := ob_title b;
     ob_prompt := normalizeSpace (ob_prompt b);
     ob_criteria := List.map normalCriterion (ob_criteria b);
     ob_assessmentType := ob_assessmentType b |}.

(** *** The texts that the XML codec reproduces *)

(** A text without the ampersand: written as an attribute value, it is
    read back as it is. *)
Definition no_amp (s : jsstring) : bool :=
  forallb (fun c => negb (c =? 38)) s.

(** A name: an attribute text that is not empty, so that no fallback
    takes its place. *)
Definition name_text (s : jsstring) : bool := nonempty s && no_amp s.

(** A text without the five characters that [escapeXml] replaces:
    written as element content, it is read back white space normalised. *)
Definition element_text (s : jsstring) : bool :=
  forallb (fun c => negb ((c =? 38) || xml_special c)) s.

(** The text of a URL that the JSON array of [html5_sources] holds as
    it is. *)
Definition url_text (s : jsstring) : bool :=
  forallb (fun c => json_plain c && negb (c =? 38)) s.

Fixpoint distinct (l : list jsstring) : bool :=
  match l with
  | [] => true
  | x :: r => negb (includes r x) && distinct r
  end.

(** *** The domain *)

Definition row_ok (d : CourseData) (r : StructureRow) : bool :=
  name_text (chapter r) && name_text (sequential r) && name_text (vertical r)
  && name_text (blockId r) && includes Parser.validTypes (blockType r)
  && resolves d r.

(** The block [k] of the type [t] is in a row of the structure. *)
Definition referenced (d : CourseData) (t : string) (k : jsstring) : bool :=
  existsb (fun r => eqb (blockType r) (str t) && eqb (blockId r) k)
          (structure d).

Definition textBlock_ok (d : CourseData) (e : jsstring * TextBlock) : bool :=
  eqb (tb_blockId (snd e)) (fst e) && referenced d "text" (fst e)
  && name_text (tb_title (snd e))
  && (negb (nonempty (tb_content (snd e)))
      || looks_like_html (tb_content (snd e))).

Definition videoBlock_ok (d : CourseData) (e : jsstring * VideoBlock) : bool :=
  eqb (vb_blockId (snd e)) (fst e) && referenced d "video" (fst e)
  && name_text (vb_title (snd e)) && no_amp (vb_youtubeId (snd e))
  && url_text (vb_html5Url (snd e)) && name_text (vb_startTime (snd e))
  && name_text (vb_endTime (snd e)).

Definition choice_ok (c : Choice) : bool :=
  element_text (ch_text c) && element_text (ch_hint c).

Definition problemBlock_ok (d : CourseData) (e : jsstring * ProblemBlock)
  : bool :=
  eqb (pb_blockId (snd e)) (fst e) && referenced d "problem" (fst e)
  && name_text (pb_title (snd e)) && name_text (pb_showAnswer (snd e))
  && element_text (pb_questionText (snd e))
  && forallb choice_ok (pb_choices (snd e))
  && element_text (pb_explanation (snd e)).

(** The points of an option: an integer that is not negative and that
    a JavaScript number holds exactly. *)
Definition option_ok (o : CriterionOption) : bool :=
  element_text (co_label o) && (0 <=? co_points o)
  && (co_points o <? 2 ^ 53).

Definition criterion_ok (c : Criterion) : bool :=
  element_text (cr_name c) && nonempty (normalizeSpace (cr_name c))
  && forallb option_ok (cr_options c).

(** The names of the assessments that the decoder looks for in the
    whole file: a block whose id or title is one of them would read as
    being of that assessment type. *)
Definition assessment_names : list jsstring :=
  [str "staff-assessment"; str "peer-assessment"].

Definition openResponseBlock_ok (d : CourseData)
  (e : jsstring * OpenResponseBlock) : bool :=
  eqb (ob_blockId (snd e)) (fst e) && referenced d "openresponse" (fst e)
  && name_text (ob_title (snd e)) && element_text (ob_prompt (snd e))
  && forallb criterion_ok (ob_criteria (snd e))
  && includes [str "self"; str "peer"; str "staff"]
       (ob_assessmentType (snd e))
  && negb (includes assessment_names (fst e))
  && negb (includes assessment_names (ob_title (snd e))).

(** The course: its run without ampersand, its rows and blocks as
    above, and every content map a [Map], its keys distinct. *)
Definition course_ok (d : CourseData) : bool :=
  no_amp (run (info d))
  && forallb (row_ok d) (structure d)
  && distinct (JsMap.keys (textBlocks d))
  && forallb (textBlock_ok d) (textBlocks d)
  && distinct (JsMap.keys (videoBlocks d))
  && forallb (videoBlock_ok d) (videoBlocks d)
  && distinct (JsMap.keys (problemBlocks d))
  && forallb (problemBlock_ok d) (problemBlocks d)
  && distinct (JsMap.keys (openResponseBlocks d))
  && forallb (openResponseBlock_ok d) (openResponseBlocks d).

(** The ids of the nodes of a level are distinct: no two chapters, no
    two sequentials and no two verticals were given the same id. *)
Definition ids_distinct (tree : list Chapter) : bool :=
  distinct (List.map c_id tree)
  && distinct (List.map s_id (flat_map c_sequentials tree))
  && distinct
       (List.map v_id (flat_map s_verticals (flat_map c_sequentials tree))).

End RoundTrip.

(** ** The XML texts of the generators *)

Module XmlText.

(** A code unit of the ids that Build gives to the nodes: a lower-case
    letter, a digit, the underscore or the hyphen. *)
Definition id_unit (c : Z) : bool :=
  is_lower c || is_digit c || (c =? 95) || (c =? 45).

(** The line of a child in the file of its parent. *)
Definition child_line (tag : string) (id : jsstring) : jsstring :=
  str "  <" ++ str tag ++ str " url_name=" ++ dq ++ id ++ dq ++ str "/>"
  ++ [10].

(** A boolean as the generators write it. *)
Definition truth (b : bool) : jsstring :=
  if b then str "true" else str "false".

(** The content of a choice element as the generator writes it. *)
Definition choice_content (c : Choice) : jsstring :=
  Generators.esc (ch_text c)
  ++ (if nonempty (ch_hint c)
      then str " <choicehint>" ++ Generators.esc (ch_hint c)
           ++ str "</choicehint>"
      else [])
  ++ [10].

(** The body of the solution element. *)
Definition solution_body (explanation : jsstring) : jsstring :=
  [10] ++ str "<div class=" ++ dq ++ str "detailed-solution" ++ dq ++ str ">"
  ++ [10] ++ str "<p>Explanation</p>" ++ [10]
  ++ str "<p>" ++ Generators.esc explanation ++ str "</p>" ++ [10]
  ++ str "</div>" ++ [10].

(** The content of an option element as the generator writes it. *)
Definition option_content (o : CriterionOption) : jsstring :=
  [10] ++ str "        <name>" ++ Generators.esc (co_label o) ++ str "</name>"
  ++ [10]
  ++ str "        <label>" ++ Generators.esc (co_label o) ++ str "</label>"
  ++ [10]
  ++ str "        <explanation>" ++ Generators.esc (co_label o)
  ++ str " level performance</explanation>" ++ [10]
  ++ str "      ".

(** The content of a criterion element as the generator writes it. *)
Definition criterion_content (c : Criterion) : jsstring :=
  [10] ++ str "      <name>" ++ Generators.esc (cr_name c) ++ str "</name>"
  ++ [10]
  ++ str "      <label>" ++ Generators.esc (cr_name c) ++ str "</label>"
  ++ [10]
  ++ str "      <prompt>" ++ Generators.esc (cr_name c) ++ str "</prompt>"
  ++ [10]
  ++ flat_map Generators.optionXml (cr_options c)
  ++ str "    ".

(** An attribute as it is written: the name, the value between double
    quotes. *)
Definition attr_text (a : jsstring * jsstring) : jsstring :=
  fst a ++ str "=" ++ dq ++ snd a ++ dq.

(** The attributes of a tag, one space between them. *)
Definition attrs_text (l : list (jsstring * jsstring)) : jsstring :=
  match l with
  | [] => []
  | a :: r => attr_text a ++ flat_map (fun b => str " " ++ attr_text b) r
  end.

(** An attribute that the decoder reads: a name of [[\w_:-]], a value
    without the double quote and without [>]. *)
Definition attr_ok (a : jsstring * jsstring) : bool :=
  nonempty (fst a) && forallb OlxParser.attr_name_unit (fst a)
  && forallb (fun c => negb (c =? 34) && negb (c =? 62)) (snd a).

(** The object that the decoder builds from the attributes. *)
Definition attrs_object (l : list (jsstring * jsstring)) : JsMap.t jsstring :=
  fold_left
    (fun m a => JsMap.set m (fst a) (OlxParser.decodeXmlEntities (snd a)))
    l [].

(** The attributes of the video element that Build writes. *)
Definition video_attrs (id : jsstring) (b : VideoBlock)
  : list (jsstring * jsstring) :=
  let esc := Generators.esc in
  [(str "url_name", esc id); (str "display_name", esc (vb_title b))]
  ++ (if nonempty (vb_youtubeId b)
      then [(str "youtube", esc (str "1.00:" ++ vb_youtubeId b));
            (str "youtube_id_1_0", esc (vb_youtubeId b))]
      else [])
  ++ [(str "html5_sources",
       if nonempty (vb_html5Url b)
       then esc (str "[" ++ dq ++ vb_html5Url b ++ dq ++ str "]")
       else esc (str "[]"))]
  ++ [(str "start_time", esc (or_else (vb_startTime b) (str "00:00:00")));
      (str "end_time", esc (or_else (vb_endTime b) (str "00:00:00")));
      (str "edx_video_id", esc [])].

(** The object that the decoder makes of the element of a block. *)
Definition block_object (b : Hierarchy.BlockRef) : JsMap.t jsstring :=
  [(str "tag", Generators.blockTag (Hierarchy.br_type b));
   (str "url_name", Hierarchy.br_blockId b)].

(** A block reference that the vertical file carries: its type one of
    the four, its id a name. *)
Definition block_ok (b : Hierarchy.BlockRef) : bool :=
  includes Parser.validTypes (Hierarchy.br_type b)
  && RoundTrip.name_text (Hierarchy.br_blockId b).

End XmlText.

(** ** Headers that the archive decoder does not get past *)

Module UntarEdge.
Import Untar.

(** The size that [extractTar] reads from a header: the field of 12
    bytes at 124, its NULs removed, trimmed, parsed in radix 8, and 0
    for NaN. *)
Definition headerSize (header : list Z) : Z :=
  or_zero (parseInt8 (trim (replaceAll [0] [] (readString header 124 12)))).

(** A header of the file [a] whose size field reads [-1000] in radix
    8, which is -512. *)
Definition looping_header : list Z :=
  [97] ++ repeat 0 123 ++ str "-1000" ++ repeat 0 383.

(** No block of the data, read as a header, has a size below zero. *)
Definition sizes_nonnegative (data : list Z) : bool :=
  forallb
    (fun k =>
       0 <=? headerSize
               (Untar.subarray data (512 * Z.of_nat k)
                  (512 * Z.of_nat k + 512)))
    (seq 0 (length data / 512)).

End UntarEdge.

(** ** What Import reads from the files of Build *)

Module ReadBack.
Import Hierarchy.

(** The first of two lookups that finds a value. *)
Definition or_found {V : Type} (a b : option V) : option V :=
  match a with
  | Some v => Some v
  | None => b
  end.

(** The rows of a tree, in the order of its traversal. *)
Definition rowOf (ch : Chapter) (sq : Sequential) (vt : Vertical)
  (b : BlockRef) : StructureRow :=
  {| chapter := c_name ch; sequential := s_name sq; vertical := v_name vt;
     blockType := br_type b; blockId := br_blockId b |}.

Definition verticalRows (ch : Chapter) (sq : Sequential) (vt : Vertical)
  : list StructureRow :=
  List.map (rowOf ch sq vt) (v_blocks vt).

Definition sequentialRows (ch : Chapter) (sq : Sequential)
  : list StructureRow :=
  flat_map (verticalRows ch sq) (s_verticals sq).

Definition chapterRows (ch : Chapter) : list StructureRow :=
  flat_map (sequentialRows ch) (c_sequentials ch).

Definition treeRows (tree : list Chapter) : list StructureRow :=
  flat_map chapterRows tree.

(** The block that a map of the source holds under a key, as Import
    reads it, set into a map of the model unless the key is there. *)
Definition readInto {B : Type} (normal : B -> B) (source model : JsMap.t B)
  (k : jsstring) : JsMap.t B :=
  if JsMap.has model k then model
  else match JsMap.get source k with
       | Some b => JsMap.set model k (normal b)
       | None => model
       end.

(** The model after Import has met the row [r] of the tree of the
    course [d]: the block of the row is read unless the model has it,
    and the row is appended. *)
Definition importRow (d : CourseData) (data : CourseData) (r : StructureRow)
  : CourseData :=
  let k := blockId r in
  {| info := info data;
     structure := structure data ++ [r];
     textBlocks :=
       if eqb (blockType r) (str "text")
       then readInto RoundTrip.normalTextBlock (textBlocks d)
              (textBlocks data) k
       else textBlocks data;
     videoBlocks :=
       if eqb (blockType r) (str "video")
       then readInto (fun b => b) (videoBlocks d) (videoBlocks data) k
       else videoBlocks data;
     problemBlocks :=
       if eqb (blockType r) (str "problem")
       then readInto RoundTrip.normalProblemBlock (problemBlocks d)
              (problemBlocks data) k
       else problemBlocks data;
     openResponseBlocks :=
       if eqb (blockType r) (str "openresponse")
       then readInto RoundTrip.normalOpenResponseBlock
              (openResponseBlocks d) (openResponseBlocks data) k
       else openResponseBlocks data |}.

(** A model without rows and blocks. *)
Definition blank (data : CourseData) : Prop :=
  structure data = [] /\ textBlocks data = [] /\ videoBlocks data = []
  /\ problemBlocks data = [] /\ openResponseBlocks data = [].

(** A row of [rows] names the block [k] of the type [t]. *)
Definition named (t : string) (rows : list StructureRow) (k : jsstring)
  : bool :=
  existsb (fun r => eqb (blockType r) (str t) && eqb (blockId r) k) rows.

(** The blocks of a course that Build and Import reproduce: the part of
    [RoundTrip.course_ok] on the four content maps, without the
    condition that a row names each block. *)
Definition textBlock_ok (e : jsstring * TextBlock) : bool :=
  eqb (tb_blockId (snd e)) (fst e)
  && RoundTrip.name_text (tb_title (snd e))
  && (negb (nonempty (tb_content (snd e)))
      || looks_like_html (tb_content (snd e))).

Definition videoBlock_ok (e : jsstring * VideoBlock) : bool :=
  eqb (vb_blockId (snd e)) (fst e)
  && RoundTrip.name_text (vb_title (snd e))
  && RoundTrip.no_amp (vb_youtubeId (snd e))
  && RoundTrip.url_text (vb_html5Url (snd e))
  && RoundTrip.name_text (vb_startTime (snd e))
  && RoundTrip.name_text (vb_endTime (snd e)).

Definition problemBlock_ok (e : jsstring * ProblemBlock) : bool :=
  eqb (pb_blockId (snd e)) (fst e)
  && RoundTrip.name_text (pb_title (snd e))
  && RoundTrip.name_text (pb_showAnswer (snd e))
  && RoundTrip.element_text (pb_questionText (snd e))
  && forallb RoundTrip.choice_ok (pb_choices (snd e))
  && RoundTrip.element_text (pb_explanation (snd e)).

Definition openResponseBlock_ok (e : jsstring * OpenResponseBlock) : bool :=
  eqb (ob_blockId (snd e)) (fst e)
  && RoundTrip.name_text (ob_title (snd e))
  && RoundTrip.element_text (ob_prompt (snd e))
  && forallb RoundTrip.criterion_ok (ob_criteria (snd e))
  && includes [str "self"; str "peer"; str "staff"]
       (ob_assessmentType (snd e))
  && negb (includes RoundTrip.assessment_names (fst e))
  && negb (includes RoundTrip.assessment_names (ob_title (snd e))).

Definition blocks_ok (d : CourseData) : bool :=
  RoundTrip.distinct (JsMap.keys (textBlocks d))
  && forallb textBlock_ok (textBlocks d)
  && RoundTrip.distinct (JsMap.keys (videoBlocks d))
  && forallb videoBlock_ok (videoBlocks d)
  && RoundTrip.distinct (JsMap.keys (problemBlocks d))
  && forallb problemBlock_ok (problemBlocks d)
  && RoundTrip.distinct (JsMap.keys (openResponseBlocks d))
  && forallb openResponseBlock_ok (openResponseBlocks d).

(** The block of a reference is in the content map of its type. *)
Definition block_resolves (d : CourseData) (b : BlockRef) : bool :=
  if eqb (br_type b) (str "text") then JsMap.has (textBlocks d) (br_blockId b)
  else if eqb (br_type b) (str "video")
  then JsMap.has (videoBlocks d) (br_blockId b)
  else if eqb (br_type b) (str "problem")
  then JsMap.has (problemBlocks d) (br_blockId b)
  else if eqb (br_type b) (str "openresponse")
  then JsMap.has (openResponseBlocks d) (br_blockId b)
  else false.

(** The tree of a course that Build and Import reproduce: the names of
    its nodes are not empty and hold no ampersand, its block references
    are of the four types, name a block of the course and have an id
    that is not empty and holds no ampersand. *)
Definition vertical_ok (d : CourseData) (vt : Vertical) : bool :=
  RoundTrip.name_text (v_name vt)
  && forallb (fun b => XmlText.block_ok b && block_resolves d b) (v_blocks vt).

Definition sequential_ok (d : CourseData) (sq : Sequential) : bool :=
  RoundTrip.name_text (s_name sq) && forallb (vertical_ok d) (s_verticals sq).

Definition chapter_ok (d : CourseData) (ch : Chapter) : bool :=
  RoundTrip.name_text (c_name ch)
  && forallb (sequential_ok d) (c_sequentials ch).

Definition tree_ok (d : CourseData) (tree : list Chapter) : bool :=
  forallb (chapter_ok d) tree.

(** The ids of the nodes: of lower-case letters, digits, underscores
    and hyphens, and distinct on every level. *)
Definition ids_ok (tree : list Chapter) : bool :=
  forallb (forallb XmlText.id_unit) (List.map c_id tree)
  && forallb (forallb XmlText.id_unit)
       (List.map s_id (flat_map c_sequentials tree))
  && forallb (forallb XmlText.id_unit)
       (List.map v_id (flat_map s_verticals (flat_map c_sequentials tree)))
  && RoundTrip.ids_distinct tree.

End ReadBack.

(** ** Example data: blocks and nodes that Build writes and Import reads *)

Module Written.
Import Hierarchy.

(** The state in which the decoder starts. *)
Definition start : OlxParser.state := (createCourseData, []).

Definition text_block : TextBlock :=
  {| tb_blockId := str "welcome_text"; tb_title := str "Welcome <all>";
     tb_content := str "  <h1>Welcome</h1><p>Key concepts.</p> " |}.

Definition video_block : VideoBlock :=
  {| vb_blockId := str "lecture_1"; vb_title := str "Lecture 1";
     vb_youtubeId := str "cH5tV9gFgHk";
     vb_html5Url := str "https://example.org/l1.mp4?a=1";
     vb_startTime := str "00:00:05"; vb_endTime := str "00:10:00" |}.

Definition problem_block : ProblemBlock :=
  {| pb_blockId := str "quiz_q1"; pb_title := str "Q1";
     pb_questionText := str "What is  2 + 2? ";
     pb_choices :=
       [Template.choice "3" false "Too low";
        Template.choice "4" true "Correct!";
        Template.choice " 5" false ""];
     pb_explanation := str "Basic addition: 2 + 2 = 4";
     pb_showAnswer := str "attempted" |}.

Definition open_response_block : OpenResponseBlock :=
  {| ob_blockId := str "reflection_1"; ob_title := str "Chapter Reflection";
     ob_prompt := str "Reflect on  what you learned.";
     ob_criteria :=
       [{| cr_name := str "Depth of Reflection";
           cr_options :=
             [Template.option "Superficial" 0; Template.option "Adequate" 1;
              Template.option "Thoughtful" 12] |};
        {| cr_name := str "Writing Quality";
           cr_options :=
             [Template.option "Poor" 0; Template.option "Good" 2] |}];
     ob_assessmentType := str "peer" |}.

Definition vertical_node : Vertical :=
  {| v_name := str "Unit 1.1.1 Overview"; v_id := str "unit_1_1_1_0a0a0a0a";
     v_blocks :=
       [{| br_type := str "text"; br_blockId := str "welcome_text" |};
        {| br_type := str "video"; br_blockId := str "lecture_1" |};
        {| br_type := str "problem"; br_blockId := str "quiz_q1" |};
        {| br_type := str "openresponse"; br_blockId := str "reflection_1" |}]
  |}.

Definition sequential_node : Sequential :=
  {| s_name := str "1.1 Welcome"; s_id := str "1_1_welcome_01010101";
     s_verticals :=
       [vertical_node;
        {| v_name := str "Unit 1.1.2 Quiz"; v_id := str "unit_1_1_2_02020202";
           v_blocks := [] |}] |}.

Definition chapter_node : Chapter :=
  {| c_name := str "Chapter 1: " ++ dq ++ str "Alice's <start>" ++ dq;
     c_id := str "chapter_1_00000000";
     c_sequentials := [sequential_node] |}.

(** A course whose rows are not in the order of the tree, with a block
    that two rows name. *)
Definition course : CourseData := {|
  info := info Template.course;
  structure :=
    [Template.row "Chapter 1" "1.1 Welcome" "Unit A" "text" "welcome_text";
     Template.row "Chapter 2" "2.1 Work" "Unit B" "problem" "quiz_q1";
     Template.row "Chapter 1" "1.1 Welcome" "Unit A" "video" "lecture_1";
     Template.row "Chapter 2" "2.1 Work" "Unit C" "openresponse"
       "reflection_1";
     Template.row "Chapter 1" "1.2 More" "Unit A" "text" "welcome_text"];
  textBlocks := [(str "welcome_text", text_block)];
  videoBlocks := [(str "lecture_1", video_block)];
  problemBlocks := [(str "quiz_q1", problem_block)];
  openResponseBlocks := [(str "reflection_1", open_response_block)]
|}.

(** The tree of the course, with the ids that [handleFile] assigns. *)
Definition tree : list Chapter :=
  buildHierarchy
    (Main.buildIdMap (P := Reference.platform) Template.entropy
       (structure course))
    (structure course).

End Written.

(** ** What the workbook decoder stores *)

Module Decoded.
Import Parser.

(** A Structure row with its five fields filled and one of the four
    block types. *)
Definition row_complete (row : StructureRow) : bool :=
  nonempty (chapter row) && nonempty (sequential row)
  && nonempty (vertical row) && nonempty (blockId row)
  && includes validTypes (blockType row).

(** An entry of a content map: the key is the id of the block, and the
    fields that the decoder fills with a default are not empty. *)
Definition text_entry (e : jsstring * TextBlock) : bool :=
  eqb (fst e) (tb_blockId (snd e)) && nonempty (fst e)
  && nonempty (tb_title (snd e)).

Definition video_entry (e : jsstring * VideoBlock) : bool :=
  eqb (fst e) (vb_blockId (snd e)) && nonempty (fst e)
  && nonempty (vb_title (snd e)) && nonempty (vb_startTime (snd e))
  && nonempty (vb_endTime (snd e)).

Definition problem_entry (e : jsstring * ProblemBlock) : bool :=
  eqb (fst e) (pb_blockId (snd e)) && nonempty (fst e)
  && nonempty (pb_title (snd e)) && nonempty (pb_showAnswer (snd e))
  && (2 <=? length (pb_choices (snd e)))%nat
  && (length (pb_choices (snd e)) <=? 6)%nat
  && existsb ch_correct (pb_choices (snd e))
  && forallb (fun c => nonempty (ch_text c)) (pb_choices (snd e)).

Definition criterion_read (c : Criterion) : bool :=
  nonempty (cr_name c) && (1 <=? length (cr_options c))%nat.

Definition open_response_entry (e : jsstring * OpenResponseBlock) : bool :=
  eqb (fst e) (ob_blockId (snd e)) && nonempty (fst e)
  && nonempty (ob_title (snd e)) && nonempty (ob_assessmentType (snd e))
  && (length (ob_criteria (snd e)) <=? 10)%nat
  && forallb criterion_read (ob_criteria (snd e)).

(** The state of the decoder holds complete rows and well-formed
    entries. *)
Definition stored (st : CourseData * list jsstring) : Prop :=
  forallb row_complete (structure (fst st)) = true
  /\ forallb text_entry (textBlocks (fst st)) = true
  /\ forallb video_entry (videoBlocks (fst st)) = true
  /\ forallb problem_entry (problemBlocks (fst st)) = true
  /\ forallb open_response_entry (openResponseBlocks (fst st)) = true.

(** The four fields of the Course Info sheet that the decoder asks
    for. *)
Definition info_complete (i : CourseInfo) : bool :=
  nonempty (courseName i) && nonempty (org i) && nonempty (courseId i)
  && nonempty (run i).

(** A workbook with a course, two units and a block of every type. *)
Definition sheet (name_ : string) (table : list (list string)) : Worksheet :=
  {| name := str name_;
     rows :=
       List.map
         (fun nr =>
            {| rowNumber := Z.of_nat (fst nr);
               cells :=
                 List.map (fun ct => (Z.of_nat (fst ct), CellPlain (str (snd ct))))
                   (combine (seq 1 (length (snd nr))) (snd nr)) |})
         (combine (seq 1 (length table)) table) |}.

Local Open Scope string_scope.

Definition complete : Workbook :=
  [ sheet "Course Info"
      [ ["Course Name"; "Rivers"]; ["Organization"; "CTL"];
        ["Course ID"; "RIV101"]; ["Run"; "2026_T1"] ];
    sheet "Structure"
      [ ["chapter"; "sequential"; "vertical"; "block_type"; "block_id"];
        ["Sources"; "Springs"; "Unit 1"; "text"; "intro"];
        ["Sources"; "Springs"; "Unit 1"; "Video"; "film"];
        ["Sources"; "Springs"; "Unit 2"; "problem"; "quiz"];
        ["Mouths"; "Deltas"; "Unit 1"; "openresponse"; "essay"] ];
    sheet "Text Blocks"
      [ ["block_id"; "title"; "content"];
        ["intro"; "Welcome"; "<p>Where rivers begin.</p>"] ];
    sheet "Videos"
      [ ["block_id"; "title"; "youtube_id"];
        ["film"; "A spring"; "dQw4w9WgXcQ"] ];
    sheet "Problems"
      [ ["block_id"; "question_text"; "choice_a"; "choice_b"; "correct"];
        ["quiz"; "Which is a source?"; "A spring"; "A delta"; "a"] ];
    sheet "Open Response"
      [ ["block_id"; "prompt"; "criterion_1_name"; "criterion_1_options"];
        ["essay"; "Describe a delta."; "Clarity"; "Poor=0;Good=2"] ] ].

Local Close Scope string_scope.

End Decoded.

(** ** The rows and the random bytes for which the node ids differ *)

Module IdDomain.

(** A name without the vertical bar, the separator of the keys of the
    id lookup. *)
Definition no_bar (s : jsstring) : bool :=
  forallb (fun c => negb (c =? 124)) s.

Definition keys_unambiguous (rows : list StructureRow) : bool :=
  forallb (fun r => no_bar (chapter r) && no_bar (sequential r)) rows.

(** The first [n] calls of [generateId] differ in their first eight
    digits. *)
Definition suffixes_distinct (entropy : nat -> list Z) (n : nat) : bool :=
  RoundTrip.distinct
    (List.map (fun i => firstn 8 (Main.generateId (entropy i))) (seq 0 n)).

Section WithPlatform.
Context {P : Platform}.
Variable entropy : nat -> list Z.

(** The ids of a lookup were made by calls of [generateId] before the
    [n]-th, and no two keys hold the same id. *)
Definition fresh (m : JsMap.t jsstring) (n : nat) : Prop :=
  (forall k v, JsMap.get m k = Some v ->
     exists name_ i, (i < n)%nat /\ v = Main.freshId entropy name_ i)
  /\ (forall k1 k2 v,
        JsMap.get m k1 = Some v -> JsMap.get m k2 = Some v -> k1 = k2).

End WithPlatform.

End IdDomain.

(** ** Example data: a question with characters that are escaped *)

Module Escaped.

Definition question_block : ProblemBlock :=
  {| pb_blockId := str "order"; pb_title := str "Order";
     pb_questionText := str "Is 2 < 3 & 4 > 1?";
     pb_choices := [Template.choice "Yes" true ""; Template.choice "No" false ""];
     pb_explanation := [];
     pb_showAnswer := str "attempted" |}.

Definition files : JsMap.t jsstring :=
  [(str "problem/order.xml", Generators.problemXml question_block)].

End Escaped.

(** ** main.js: the statistics of a course *)

Module Stats.
Import Hierarchy.

(** [new Set(values).size] *)
Definition setSize (values : list jsstring) : nat :=
  length (firstOccurrences values).

Definition chapterCount (s : list StructureRow) : nat :=
  setSize (List.map (fun r => chapter r) s).

Definition sequentialCount (s : list StructureRow) : nat :=
  setSize (List.map (fun r => chapter r ++ str "|" ++ sequential r) s).

Definition verticalCount (s : list StructureRow) : nat :=
  setSize
    (List.map
       (fun r => chapter r ++ str "|" ++ sequential r ++ str "|" ++ vertical r)
       s).

Definition stat (value : nat) (label : string) : jsstring :=
  str "<div class=" ++ dq ++ str "stat" ++ dq ++ str "><span class=" ++ dq
  ++ str "stat-value" ++ dq ++ str ">" ++ toString10 (Z.of_nat value)
  ++ str "</span><span class=" ++ dq ++ str "stat-label" ++ dq ++ str ">"
  ++ str label ++ str "</span></div>".

Definition statLine (value : nat) (label : string) : jsstring :=
  [10] ++ str "    " ++ stat value label.

(** [updateStats]: the markup that the container is given. *)
Definition updateStats (data : CourseData) : jsstring :=
  let s := structure data in
  statLine (chapterCount s) "Chapters"
  ++ statLine (sequentialCount s) "Subsections"
  ++ statLine (verticalCount s) "Units"
  ++ statLine (length (textBlocks data)) "Text Blocks"
  ++ statLine (length (videoBlocks data)) "Videos"
  ++ statLine (length (problemBlocks data)) "Problems"
  ++ statLine (length (openResponseBlocks data)) "Open Response"
  ++ [10] ++ str "  ".

End Stats.

(** ** Texts without tags *)

Module Stripped.

(** No [<] of the text has a [>] behind it: the pattern of a tag,
    [<[^>]*>], matches nowhere. *)
Fixpoint no_tag (s : jsstring) : bool :=
  match s with
  | [] => true
  | c :: r =>
    (negb (c =? 60) || negb (existsb (fun x => x =? 62) r)) && no_tag r
  end.

End Stripped.

(** ** preview.js: the text of a content preview *)

Module Preview.

(** [stripHtml]: the tags and the runs of white space become one space
    each. *)
Definition stripHtml (html : jsstring) : jsstring :=
  trim (replace_runs is_ws (str " ")
          (Regex.replace_all OlxParser.re_tag (str " ") html)).

(** [truncate]; the ellipsis is the code unit 8230. *)
Definition truncate (s : jsstring) (max : Z) : jsstring :=
  if negb (nonempty s) then []
  else if Z.of_nat (length s) <=? max then s
  else firstn (Z.to_nat max) s ++ [8230].

End Preview.

(** ** The course information that Import reads back *)

Module InfoDomain.

Section WithPlatform.
Context {P : Platform}.

(** No ampersand in the fields that Build writes as attributes; the
    dates as [formatEdxDate] writes them. *)
Definition info_ok (i : CourseInfo) : bool :=
  RoundTrip.no_amp (run i) && RoundTrip.no_amp (org i)
  && RoundTrip.no_amp (courseId i) && RoundTrip.no_amp (courseName i)
  && RoundTrip.no_amp (language i)
  && RoundTrip.no_amp (formatEdxDate (startDate i))
  && RoundTrip.no_amp (formatEdxDate (endDate i)).

(** The attributes of the opening tag of [course/{run}.xml]. *)
Definition run_attrs (i : CourseInfo) : list (jsstring * jsstring) :=
  let esc := Generators.esc in
  [(str "display_name", esc (courseName i));
   (str "language", esc (language i))]
  ++ (if selfPaced i then [(str "self_paced", str "true")] else [])
  ++ (if nonempty (startDate i)
      then [(str "start", esc (formatEdxDate (startDate i)))] else [])
  ++ (if nonempty (endDate i)
      then [(str "end", esc (formatEdxDate (endDate i)))] else []).

End WithPlatform.

End InfoDomain.

(** ** The rows that Import returns *)

Module Imported.

(** The warning of Import for the file of a problem or of an open
    response that the archive does not hold. *)
Definition missingWarning (row : StructureRow) : jsstring :=
  if eqb (blockType row) (str "problem")
  then str "Problem file not found: problem/" ++ blockId row ++ str ".xml"
  else str "Open response file not found: openassessment/" ++ blockId row
       ++ str ".xml".

(** A row of one of the four types whose block the model holds, or for
    whose file there is a warning; the block of a text or video row is
    always held. *)
Definition accounted (st : OlxParser.state) (row : StructureRow) : bool :=
  includes Parser.validTypes (blockType row)
  && (resolves (fst st) row || includes (snd st) (missingWarning row))
  && (if eqb (blockType row) (str "text") || eqb (blockType row) (str "video")
      then resolves (fst st) row else true).

(** The model and the warnings of [st'] hold those of [st]. *)
Definition grows (st st' : OlxParser.state) : Prop :=
  (forall k, JsMap.has (textBlocks (fst st)) k = true ->
             JsMap.has (textBlocks (fst st')) k = true)
  /\ (forall k, JsMap.has (videoBlocks (fst st)) k = true ->
                JsMap.has (videoBlocks (fst st')) k = true)
  /\ (forall k, JsMap.has (problemBlocks (fst st)) k = true ->
                JsMap.has (problemBlocks (fst st')) k = true)
  /\ (forall k, JsMap.has (openResponseBlocks (fst st)) k = true ->
                JsMap.has (openResponseBlocks (fst st')) k = true)
  /\ (forall w, includes (snd st) w = true -> includes (snd st') w = true).

End Imported.
(** * Properties *)

Section StringFacts.

Lemma eqb_spec (a b : jsstring) : reflect (a = b) (eqb a b).
Proof.
  revert b; induction a as [|x a IH]; intros [|y b]; simpl;
    try (constructor; congruence).
  destruct (Z.eqb_spec x y) as [->|N]; simpl.
  - destruct (IH b) as [->|N]; constructor; congruence.
  - constructor; congruence.
Qed.

Lemma eqb_refl (a : jsstring) : eqb a a = true.
Proof. destruct (eqb_spec a a); congruence. Qed.

Lemma eqb_eq (a b : jsstring) : eqb a b = true <-> a = b.
Proof. destruct (eqb_spec a b); split; congruence. Qed.

Lemma eqb_neq (a b : jsstring) : eqb a b = false <-> a <> b.
Proof. destruct (eqb_spec a b); split; congruence. Qed.

Lemma starts_with_app (pat s : jsstring) : starts_with pat (pat ++ s) = true.
Proof. induction pat; simpl; auto. rewrite Z.eqb_refl; auto. Qed.

Lemma starts_with_spec (pat s : jsstring) :
  starts_with pat s = true <-> exists r, s = pat ++ r.
Proof.
  split.
  - revert s; induction pat as [|p pat IH]; intros s H.
    + exists s; reflexivity.
    + destruct s as [|c s]; simpl in H; [discriminate|].
      apply andb_true_iff in H as [H1 H2]. apply Z.eqb_eq in H1; subst c.
      destruct (IH _ H2) as [r ->]. exists r; reflexivity.
  - intros [r ->]. apply starts_with_app.
Qed.

Lemma replaceAll_char (c : Z) (rep s : jsstring) :
  replaceAll [c] rep s = flat_map (fun x => if c =? x then rep else [x]) s.
Proof.
  unfold replaceAll. induction s as [|x s IH]; simpl; auto.
  destruct (c =? x); simpl; rewrite IH; reflexivity.
Qed.

End StringFacts.

Lemma flat_map_flat_map {A B C} (f : A -> list B) (g : B -> list C) l :
  flat_map g (flat_map f l) = flat_map (fun x => flat_map g (f x)) l.
Proof.
  induction l; simpl; auto. rewrite flat_map_app, IHl. reflexivity.
Qed.

Lemma escapeXmlStr_units (s : jsstring) :
  escapeXmlStr s = flat_map escape_unit s.
Proof.
  unfold escapeXmlStr, dq.
  change (str "'") with [39]. change (str ">") with [62].
  change (str "<") with [60]. change (str "&") with [38].
  rewrite !replaceAll_char, !flat_map_flat_map.
  apply flat_map_ext. intros c. unfold escape_unit.
  destruct (Z.eqb_spec c 38) as [->|N1]; [reflexivity|].
  destruct (Z.eqb_spec c 60) as [->|N2]; [reflexivity|].
  destruct (Z.eqb_spec c 62) as [->|N3]; [reflexivity|].
  destruct (Z.eqb_spec c 34) as [->|N4]; [reflexivity|].
  destruct (Z.eqb_spec c 39) as [->|N5]; [reflexivity|].
  destruct (Z.eqb_spec 38 c); [congruence|]; cbn [flat_map app].
  destruct (Z.eqb_spec 60 c); [congruence|]; cbn [flat_map app].
  destruct (Z.eqb_spec 62 c); [congruence|]; cbn [flat_map app].
  destruct (Z.eqb_spec 34 c); [congruence|]; cbn [flat_map app].
  destruct (Z.eqb_spec 39 c); [congruence|]; reflexivity.
Qed.

Lemma escape_unit_cases (c : Z) :
  (In (escape_unit c) entities) \/
  (escape_unit c = [c] /\ c <> 38 /\ xml_special c = false).
Proof.
  unfold escape_unit, entities, xml_special.
  destruct (Z.eqb_spec c 38); [left; simpl; tauto|].
  destruct (Z.eqb_spec c 60); [left; simpl; tauto|].
  destruct (Z.eqb_spec c 62); [left; simpl; tauto|].
  destruct (Z.eqb_spec c 34); [left; simpl; tauto|].
  destruct (Z.eqb_spec c 39); [left; simpl; tauto|].
  right; auto.
Qed.

Lemma entity_shape (e : jsstring) :
  In e entities ->
  exists t, e = 38 :: t /\ Forall (fun c => c <> 38 /\ xml_special c = false) t.
Proof.
  unfold entities; simpl.
  intros [<-|[<-|[<-|[<-|[<-|[]]]]]]; eexists; (split; [reflexivity|]);
    repeat constructor; discriminate.
Qed.

Lemma starts_with_app_l (e a b : jsstring) :
  starts_with e a = true -> starts_with e (a ++ b) = true.
Proof.
  intros H. apply starts_with_spec in H as [r ->].
  rewrite <- app_assoc. apply starts_with_app.
Qed.

Lemma escaped_no_special (s : jsstring) :
  Forall (fun c => xml_special c = false) (flat_map escape_unit s).
Proof.
  induction s as [|c s IH]; simpl; [constructor|].
  apply Forall_app; split; auto.
  destruct (escape_unit_cases c) as [H|[-> [_ H]]].
  - destruct (entity_shape _ H) as [t [-> Ht]].
    constructor; [reflexivity|].
    eapply Forall_impl; [|exact Ht]. simpl; tauto.
  - repeat constructor; auto.
Qed.

Lemma escaped_amp (s : jsstring) (i : nat) :
  nth_error (flat_map escape_unit s) i = Some 38 ->
  begins_entity (skipn i (flat_map escape_unit s)).
Proof.
  revert i; induction s as [|c s IH]; intros i H; simpl in *.
  - destruct i; discriminate.
  - destruct (escape_unit_cases c) as [He|[Hc [N _]]].
    + destruct (entity_shape _ He) as [t [Et Ht]].
      destruct (Nat.lt_ge_cases i (length (escape_unit c))) as [L|L].
      * rewrite nth_error_app1 in H by assumption.
        destruct i as [|i].
        -- simpl. exists (escape_unit c); split; auto.
           apply starts_with_app.
        -- rewrite Et in H; simpl in H. apply nth_error_In in H.
           rewrite Forall_forall in Ht. apply Ht in H. tauto.
      * rewrite nth_error_app2 in H by assumption.
        rewrite skipn_app.
        rewrite (skipn_all2 (escape_unit c)) by assumption. simpl.
        apply IH; assumption.
    + rewrite Hc in *. destruct i as [|i]; simpl in *.
      * congruence.
      * apply IH; assumption.
Qed.

(** C10. For every input, [escapeXml] returns a string, the empty string
    for null and undefined, in which none of the characters [<], [>],
    double quote and single quote occurs, and in which every [&] is the
    first character of one of the five entities [&amp;], [&lt;], [&gt;],
    [&quot;], [&apos;]. *)
Theorem escapeXml_output_escaped : forall v : jsval,
  (escapeXml JsNull = [] /\ escapeXml JsUndefined = []) /\
  Forall (fun c => xml_special c = false) (escapeXml v) /\
  (forall i, nth_error (escapeXml v) i = Some 38 ->
             begins_entity (skipn i (escapeXml v))).
Proof.
  intros v. split; [split; reflexivity|].
  destruct v; simpl;
    try (split; [constructor | intros [|i]; discriminate]);
    rewrite escapeXmlStr_units; split;
      auto using escaped_no_special, escaped_amp.
Qed.


Section BufferFacts.

Lemma set_at_length buf i v : length (set_at buf i v) = length buf.
Proof.
  revert i; induction buf as [|b r IH]; intros [|j]; simpl; auto.
Qed.

Lemma nth_set_at buf i v j :
  nth j (set_at buf i v) 0 =
  if ((j =? i)%nat && (i <? length buf)%nat)%bool then u8 v else nth j buf 0.
Proof.
  revert i j; induction buf as [|b r IH]; intros i j.
  - simpl. destruct j; rewrite andb_false_r; reflexivity.
  - destruct i as [|i], j as [|j]; simpl; auto.
Qed.

Lemma fill_length buf lo n v : length (fill buf lo n v) = length buf.
Proof.
  revert buf lo; induction n as [|n IH]; intros; simpl; auto.
  rewrite IH, set_at_length. reflexivity.
Qed.

Lemma nth_fill buf lo n v j :
  (lo + n <= length buf)%nat ->
  nth j (fill buf lo n v) 0 =
  if ((lo <=? j)%nat && (j <? lo + n)%nat)%bool then u8 v else nth j buf 0.
Proof.
  revert buf lo; induction n as [|n IH]; intros buf lo L; simpl.
  - replace (lo <=? j)%nat with (negb (j <? lo + 0)%nat).
    + destruct (j <? lo + 0)%nat; reflexivity.
    + rewrite Nat.add_0_r, Nat.ltb_antisym, negb_involutive. reflexivity.
  - rewrite IH by (rewrite set_at_length; lia).
    rewrite nth_set_at.
    destruct (Nat.leb_spec (S lo) j), (Nat.leb_spec lo j),
      (Nat.ltb_spec j (S lo + n)), (Nat.ltb_spec j (lo + S n)),
      (Nat.eqb_spec j lo), (Nat.ltb_spec lo (length buf));
      simpl; try lia; reflexivity.
Qed.

Lemma writeString_length buf off s m :
  length (writeString buf off s m) = length buf.
Proof.
  revert buf off s; induction m as [|m IH]; intros buf off [|c s]; simpl; auto.
  rewrite IH, set_at_length. reflexivity.
Qed.

Lemma nth_writeString buf off s m j :
  (off + Nat.min (length s) m <= length buf)%nat ->
  nth j (writeString buf off s m) 0 =
  if ((off <=? j)%nat && (j <? off + Nat.min (length s) m)%nat)%bool
  then u8 (nth (j - off) s 0) else nth j buf 0.
Proof.
  revert buf off s; induction m as [|m IH]; intros buf off [|c s] L;
    simpl in *.
  - destruct (Nat.leb_spec off j), (Nat.ltb_spec j (off + 0)); simpl;
      try lia; reflexivity.
  - destruct (Nat.leb_spec off j), (Nat.ltb_spec j (off + 0)); simpl;
      try lia; reflexivity.
  - destruct (Nat.leb_spec off j), (Nat.ltb_spec j (off + 0)); simpl;
      try lia; reflexivity.
  - rewrite IH by (rewrite set_at_length; lia).
    rewrite nth_set_at.
    destruct (Nat.leb_spec (S off) j), (Nat.leb_spec off j),
      (Nat.ltb_spec j (S off + Nat.min (length s) m)),
      (Nat.ltb_spec j (off + S (Nat.min (length s) m))),
      (Nat.eqb_spec j off), (Nat.ltb_spec off (length buf));
      simpl; try lia; try reflexivity.
    + replace (j - off)%nat with (S (j - S off)) by lia. reflexivity.
    + subst j. rewrite Nat.sub_diag. reflexivity.
Qed.






End BufferFacts.

Section OctalFacts.

Lemma fixed_octal_length k n : length (fixed_octal k n) = k.
Proof.
  revert n; induction k as [|k IH]; intros n; simpl; auto.
  rewrite length_app, IH. simpl. lia.
Qed.

Lemma fixed_octal_zero k : fixed_octal k 0 = repeat 48 k.
Proof.
  induction k as [|k IH]; simpl; auto.
  rewrite Zdiv_0_l, IH. change (48 + 0 mod 8) with 48.
  change [48] with (repeat 48 1). rewrite <- repeat_app.
  rewrite Nat.add_1_r. reflexivity.
Qed.

Lemma pow8_succ k : 8 ^ Z.of_nat (S k) = 8 * 8 ^ Z.of_nat k.
Proof. rewrite Nat2Z.inj_succ, Z.pow_succ_r by lia. reflexivity. Qed.

Lemma octal_digits_fixed fuel : forall n acc K,
  0 <= n < 8 ^ Z.of_nat fuel -> n < 8 ^ Z.of_nat K -> (1 <= K)%nat ->
  exists z,
    repeat 48 z ++ octal_digits fuel n acc = fixed_octal K n ++ acc /\
    (z + length (octal_digits fuel n acc) = K + length acc)%nat.
Proof.
  induction fuel as [|f IH]; intros n acc K Hn HK K1.
  - assert (n = 0) as -> by (simpl in Hn; lia).
    exists K. rewrite fixed_octal_zero. simpl. split; [reflexivity | lia].
  - destruct K as [|K]; [lia|]. simpl.
    destruct (Z.eqb_spec (n / 8) 0) as [E|E].
    + exists K. rewrite E, fixed_octal_zero, <- app_assoc. simpl.
      split; [reflexivity | lia].
    + rewrite pow8_succ in Hn, HK.
      assert (8 <= n).
      { destruct (Z.lt_ge_cases n 8); [|assumption].
        rewrite Z.div_small in E by lia. congruence. }
      assert (0 <= n / 8 < 8 ^ Z.of_nat f).
      { split; [apply Z.div_pos; lia|].
        apply Z.div_lt_upper_bound; lia. }
      assert (n / 8 < 8 ^ Z.of_nat K) by (apply Z.div_lt_upper_bound; lia).
      assert (1 <= K)%nat.
      { destruct K; [simpl in HK; lia | lia]. }
      destruct (IH (n / 8) ((48 + n mod 8) :: acc) K) as [z [Hz Lz]]; auto.
      exists z. rewrite Hz, <- app_assoc. simpl in *. split; [reflexivity|lia].
Qed.

Lemma log2_fuel n : 0 <= n -> n < 8 ^ Z.of_nat (S (Z.to_nat (Z.log2 n))).
Proof.
  intros Hn. destruct (Z.eq_dec n 0) as [->|N]; [reflexivity|].
  pose proof (Z.log2_spec n ltac:(lia)) as [_ H].
  pose proof (Z.log2_nonneg n).
  rewrite Nat2Z.inj_succ, Z2Nat.id by assumption.
  eapply Z.lt_le_trans; [exact H|].
  apply Z.pow_le_mono_l. lia.
Qed.

(** Below [8 ^ K], padding the octal text to [K] digits gives the [K]
    fixed digits. *)
Lemma padStart_toString8 K n :
  (1 <= K)%nat -> 0 <= n < 8 ^ Z.of_nat K ->
  padStart K 48 (toString8 n) = fixed_octal K n.
Proof.
  intros K1 [Hn HK]. unfold toString8, padStart, octal_of_nonneg.
  destruct (Z.ltb_spec n 0); [lia|].
  destruct (octal_digits_fixed (S (Z.to_nat (Z.log2 n))) n [] K)
    as [z [Hz Lz]]; auto using log2_fuel.
  rewrite app_nil_r in Hz. change (length (@nil Z)) with 0%nat in Lz.
  replace (K - _)%nat with z by lia. exact Hz.
Qed.

End OctalFacts.


Section HeaderFacts.

Variables (now : Z) (name : jsstring) (size : Z) (isDir : bool).

Let h0 := header_before_checksum now name size isDir.

Lemma header_before_checksum_length : length h0 = 512%nat.
Proof.
  unfold h0, header_before_checksum.
  repeat first [rewrite set_at_length | rewrite writeString_length
               | rewrite fill_length].
  apply repeat_length.
Qed.




Lemma createTarHeader_length :
  length (createTarHeader now name size isDir) = 512%nat.
Proof.
  unfold createTarHeader. rewrite writeString_length.
  apply header_before_checksum_length.
Qed.


End HeaderFacts.

Lemma u8_small x : 0 <= x < 256 -> u8 x = x.
Proof. intros H. unfold u8. apply Z.mod_small; assumption. Qed.


Lemma fixed_octal_digits k : forall n,
  Forall (fun d => 48 <= d < 56) (fixed_octal k n).
Proof.
  induction k as [|k IH]; intros n; simpl; [constructor|].
  apply Forall_app; split; [apply IH|].
  repeat constructor; pose proof (Z.mod_pos_bound n 8 ltac:(lia)); lia.
Qed.

Lemma octal_value_app ds d :
  octal_value (ds ++ [d]) = octal_value ds * 8 + (d - 48).
Proof. unfold octal_value. rewrite fold_left_app. reflexivity. Qed.

Lemma octal_value_fixed k : forall n,
  0 <= n < 8 ^ Z.of_nat k -> octal_value (fixed_octal k n) = n.
Proof.
  induction k as [|k IH]; intros n Hn.
  - simpl in *. change (8 ^ Z.of_nat 0) with 1 in Hn.
    unfold octal_value; simpl. lia.
  - simpl fixed_octal. rewrite octal_value_app, IH.
    + pose proof (Z.div_mod n 8 ltac:(lia)). lia.
    + rewrite pow8_succ in Hn.
      split; [apply Z.div_pos; lia | apply Z.div_lt_upper_bound; lia].
Qed.




(** ** Maps *)

Section MapFacts.
Context {V : Type}.

Lemma get_set_same (m : JsMap.t V) k v : JsMap.get (JsMap.set m k v) k = Some v.
Proof.
  unfold JsMap.get, JsMap.set.
  induction m as [|[k' v'] m IH]; simpl.
  - rewrite eqb_refl. reflexivity.
  - destruct (eqb k' k) eqn:E; simpl; rewrite E; auto.
Qed.

Lemma get_set_other (m : JsMap.t V) k v k' :
  k <> k' -> JsMap.get (JsMap.set m k v) k' = JsMap.get m k'.
Proof.
  unfold JsMap.get, JsMap.set. intros N.
  induction m as [|[k0 v0] m IH]; simpl.
  - destruct (eqb_spec k k'); [contradiction | reflexivity].
  - destruct (eqb_spec k0 k) as [->|N0]; simpl.
    + destruct (eqb_spec k k'); [contradiction | reflexivity].
    + destruct (eqb_spec k0 k'); auto.
Qed.

Lemma has_set_same (m : JsMap.t V) k v : JsMap.has (JsMap.set m k v) k = true.
Proof. unfold JsMap.has. rewrite get_set_same. reflexivity. Qed.

End MapFacts.

(** ** The workbook decoder *)

Section ProblemsFacts.
Context {P : Platform}.
Import Parser.

Lemma readChoices_correct (r : JsMap.t jsstring) :
  List.map ch_correct (readChoices r)
  = List.map (markedCorrect r) (filledChoices r).
Proof.
  unfold readChoices, filledChoices.
  generalize choiceLetters as ls.
  induction ls as [|l ls IH]; cbn [flat_map filter]; auto.
  destruct (nonempty (objStr r (str "choice_" ++ l)));
    cbn [negb app List.map ch_correct]; [|exact IH].
  f_equal. exact IH.
Qed.


Lemma existsb_as_map {A} (f : A -> bool) (l : list A) :
  existsb f l = existsb (fun b => b) (List.map f l).
Proof. induction l; simpl; congruence. Qed.


End ProblemsFacts.


(** The platform of the examples obeys the laws. *)

Module ReferenceFacts.

Lemma case_laws : CaseLaws Reference.platform.
Proof. split; reflexivity. Qed.

Lemma gzip_laws : GzipLaws Reference.platform.
Proof. split; reflexivity. Qed.

End ReferenceFacts.


Section CorrectLetters.
Context {P : Platform} {L : CaseLaws P}.
Import Parser.

Lemma toUpperCase_letter (l : jsstring) :
  forallb is_ascii l = true -> toUpperCase l = List.map ascii_upper l.
Proof. apply toUpperCase_ascii. Qed.

Lemma correctSet_B_D (r : JsMap.t jsstring) :
  objStr r (str "correct") = str "B,D" -> correctSet r = [str "B"; str "D"].
Proof.
  intros H. unfold correctSet. rewrite H.
  rewrite toUpperCase_ascii by reflexivity. reflexivity.
Qed.

End CorrectLetters.

(** C6. A Problems row whose [correct] column is B,D and whose six
    choice columns a to f are all filled decodes to a block with six
    choices, of which exactly those at the indices 1 and 3 (counted from
    0) are marked correct. *)
Theorem problemsRow_correct_B_D :
  forall (P : Platform) (L : CaseLaws P) (headers : list (Z * jsstring))
         (st : Parser.state) (row : Parser.Row),
    let r := Parser.rowToObject row headers in
    let id := Parser.objStr r (str "block_id") in
    Parser.rowNumber row <> 1 ->
    nonempty id = true ->
    Parser.objStr r (str "correct") = str "B,D" ->
    (forall letter, In letter Parser.choiceLetters ->
       nonempty (Parser.objStr r (str "choice_" ++ letter)) = true) ->
    exists b,
      JsMap.get (problemBlocks (fst (Parser.problemsRow headers st row))) id
      = Some b /\
      List.map ch_correct (pb_choices b)
      = [false; true; false; true; false; false].
Proof.
  intros P L headers st row r id Hn Hid Hc Hfill.
  assert (Hch : List.map ch_correct (Parser.readChoices r)
                = [false; true; false; true; false; false]).
  { rewrite readChoices_correct. unfold filledChoices.
    replace (filter _ Parser.choiceLetters) with Parser.choiceLetters.
    - unfold markedCorrect, Parser.choiceLetters.
      rewrite (correctSet_B_D r Hc). cbn [List.map].
      rewrite !toUpperCase_letter by reflexivity. reflexivity.
    - symmetry. apply forallb_filter_id. apply forallb_forall.
      intros l Hl. apply Hfill; exact Hl. }
  unfold Parser.problemsRow, Parser.problemsRowObject.
  destruct (Z.eqb_spec (Parser.rowNumber row) 1) as [E|_]; [contradiction|].
  fold r. fold id. rewrite Hid. cbn [negb].
  assert (Hlen : length (Parser.readChoices r) = 6%nat).
  { rewrite <- (length_map ch_correct), Hch. reflexivity. }
  assert (Hsome : existsb ch_correct (Parser.readChoices r) = true).
  { rewrite (existsb_as_map ch_correct), Hch. reflexivity. }
  rewrite Hlen, Hsome. cbn [Nat.ltb Nat.leb negb fst snd].
  eexists. split.
  - cbn [problemBlocks set_problemBlock]. apply get_set_same.
  - exact Hch.
Qed.

Lemma problemsRow_correct_B_D_witness :
  exists b,
    JsMap.get
      (problemBlocks
         (fst (Parser.problemsRow (P := Reference.platform)
                 Examples.problemHeaders Examples.start Examples.six_choices)))
      (str "quiz_q3") = Some b /\
    List.map ch_correct (pb_choices b)
    = [false; true; false; true; false; false].
Proof.
  apply (problemsRow_correct_B_D Reference.platform
           ReferenceFacts.case_laws
           Examples.problemHeaders Examples.start Examples.six_choices).
  - vm_compute; discriminate.
  - reflexivity.
  - reflexivity.
  - intros letter H. simpl in H.
    repeat (destruct H as [<-|H]; [reflexivity|]). destruct H.
Defined.

(** ** The cross-validation pass *)

Section CrossValidation.
Context {P : Platform}.
Import Parser.

Lemma fold_left_invariant {A B} (I : A -> Prop) (f : A -> B -> A) l :
  (forall a b, I a -> I (f a b)) -> forall a, I a -> I (fold_left f l a).
Proof. intros H. induction l; simpl; auto. Qed.

Lemma push_error_structure st e :
  structure (fst (push_error st e)) = structure (fst st).
Proof. reflexivity. Qed.

Lemma readInfo_structure st sheet :
  structure (fst (readInfo st sheet)) = structure (fst st).
Proof.
  unfold readInfo. cbv zeta.
  repeat match goal with
         | |- context [if ?c then _ else _] => destruct c
         end; reflexivity.
Qed.

Lemma structureRow_valid headers st row :
  Forall validType (structure (fst st)) ->
  Forall validType (structure (fst (structureRow headers st row))).
Proof.
  intros H. unfold structureRow. cbv zeta.
  repeat match goal with
         | |- context [if ?c then _ else _] => destruct c eqn:?
         end; try exact H.
  cbn [fst structure push_structure]. apply Forall_app; split; [exact H|].
  constructor; [|constructor]. unfold validType. cbn [blockType].
  apply negb_false_iff. assumption.
Qed.

Lemma textRow_structure headers st row :
  structure (fst (textRow headers st row)) = structure (fst st).
Proof.
  unfold textRow. cbv zeta.
  repeat match goal with
         | |- context [if ?c then _ else _] => destruct c
         end; reflexivity.
Qed.

Lemma videoRow_structure headers st row :
  structure (fst (videoRow headers st row)) = structure (fst st).
Proof.
  unfold videoRow. cbv zeta.
  repeat match goal with
         | |- context [if ?c then _ else _] => destruct c
         end; reflexivity.
Qed.

Lemma problemsRow_structure headers st row :
  structure (fst (problemsRow headers st row)) = structure (fst st).
Proof.
  unfold problemsRow, problemsRowObject. cbv zeta.
  repeat match goal with
         | |- context [if ?c then _ else _] => destruct c
         end; reflexivity.
Qed.

Lemma openResponseRow_structure headers st row :
  structure (fst (openResponseRow headers st row)) = structure (fst st).
Proof.
  unfold openResponseRow. cbv zeta.
  repeat match goal with
         | |- context [if ?c then _ else _] => destruct c
         end; reflexivity.
Qed.

Lemma readSheet_valid wb name_ handler st :
  (forall headers st row,
     structure (fst (handler headers st row)) = structure (fst st)) ->
  Forall validType (structure (fst st)) ->
  Forall validType (structure (fst (readSheet wb name_ handler st))).
Proof.
  intros H Hst. unfold readSheet.
  destruct (findSheet wb (str name_)) as [sheet|]; [|exact Hst].
  apply (fold_left_invariant
           (fun st => Forall validType (structure (fst st)))); [|exact Hst].
  intros a b Ha. rewrite H. exact Ha.
Qed.

Lemma readSheets_valid wb :
  Forall validType (structure (fst (readSheets wb))).
Proof.
  unfold readSheets. cbv zeta.
  apply readSheet_valid; [apply openResponseRow_structure|].
  apply readSheet_valid; [apply problemsRow_structure|].
  apply readSheet_valid; [apply videoRow_structure|].
  apply readSheet_valid; [apply textRow_structure|].
  assert (H0 : forall st0 : state,
            structure (fst st0) = [] ->
            Forall validType (structure (fst
              match findSheet wb (str "Structure") with
              | Some sheet =>
                fold_left (structureRow (getHeaders sheet)) (rows sheet) st0
              | None =>
                push_error st0
                  (str "Missing sheet: " ++ quoted (str "Structure"))
              end))).
  { intros st0 E. destruct (findSheet wb (str "Structure")) as [sheet|].
    - apply (fold_left_invariant
               (fun st => Forall validType (structure (fst st)))).
      + intros a b. apply structureRow_valid.
      + rewrite E. constructor.
    - rewrite push_error_structure, E. constructor. }
  apply H0. destruct (findSheet wb (str "Course Info")).
  - rewrite readInfo_structure. reflexivity.
  - reflexivity.
Qed.

Lemma crossValidateRow_valid data errors row :
  validType row ->
  crossValidateRow data errors row
  = errors ++ (if resolves data row then [] else [missingBlockError row]).
Proof.
  unfold validType, validTypes, includes, crossValidateRow, resolves,
    missingBlockError. cbn [existsb]. cbv zeta.
  intros H.
  destruct (eqb_spec (blockType row) (str "text")) as [E|N1].
  { rewrite E.
    destruct (JsMap.has (textBlocks data) (blockId row));
      [rewrite app_nil_r|]; reflexivity. }
  destruct (eqb_spec (blockType row) (str "video")) as [E|N2].
  { rewrite E.
    destruct (JsMap.has (videoBlocks data) (blockId row));
      [rewrite app_nil_r|]; reflexivity. }
  destruct (eqb_spec (blockType row) (str "problem")) as [E|N3].
  { rewrite E.
    destruct (JsMap.has (problemBlocks data) (blockId row));
      [rewrite app_nil_r|]; reflexivity. }
  destruct (eqb_spec (blockType row) (str "openresponse")) as [E|N4].
  { destruct (JsMap.has (openResponseBlocks data) (blockId row));
      [rewrite app_nil_r|]; reflexivity. }
  exfalso. cbn [orb] in H. discriminate.
Qed.

Lemma crossValidate_valid data rows : forall errors,
  Forall validType rows ->
  fold_left (crossValidateRow data) rows errors
  = errors ++ List.map missingBlockError
                (filter (fun row => negb (resolves data row)) rows).
Proof.
  induction rows as [|row rows IH]; intros errors H; simpl.
  - rewrite app_nil_r. reflexivity.
  - inversion H as [|? ? Hrow Hrows]; subst.
    rewrite IH by assumption. rewrite crossValidateRow_valid by assumption.
    destruct (resolves data row); cbn [negb]; rewrite <- app_assoc; reflexivity.
Qed.

End CrossValidation.


(** ** The hierarchy builder *)

Section FirstOccurrences.
Import Hierarchy HierarchyInvariant.

Lemma includes_In (l : list jsstring) (x : jsstring) :
  includes l x = true <-> In x l.
Proof.
  unfold includes. rewrite existsb_exists. split.
  - intros [y [Hy E]]. apply eqb_eq in E. subst; assumption.
  - intros H. exists x. split; [assumption | apply eqb_refl].
Qed.

Lemma firstOccurrences_snoc (l : list jsstring) (x : jsstring) :
  firstOccurrences (l ++ [x])
  = if includes (firstOccurrences l) x then firstOccurrences l
    else firstOccurrences l ++ [x].
Proof. unfold firstOccurrences. rewrite fold_left_app. reflexivity. Qed.

Lemma firstOccurrences_In (l : list jsstring) (x : jsstring) :
  In x (firstOccurrences l) <-> In x l.
Proof.
  induction l as [|y l IH] using rev_ind.
  - simpl. tauto.
  - rewrite firstOccurrences_snoc, in_app_iff.
    destruct (includes (firstOccurrences l) y) eqn:E.
    + apply includes_In in E. rewrite IH in *. simpl.
      split; [tauto|]. intros [H|[<-|[]]]; tauto.
    + rewrite in_app_iff, IH. tauto.
Qed.

Lemma firstOccurrences_NoDup (l : list jsstring) : NoDup (firstOccurrences l).
Proof.
  induction l as [|y l IH] using rev_ind.
  - constructor.
  - rewrite firstOccurrences_snoc.
    destruct (includes (firstOccurrences l) y) eqn:E; [assumption|].
    apply NoDup_app; [assumption | repeat constructor; simpl; tauto |].
    intros a Ha [<-|[]].
    apply includes_In in Ha. congruence.
Qed.

Lemma index_of_None (k : jsstring) (names : list jsstring) :
  index_of k names = None <-> ~ In k names.
Proof.
  induction names as [|n r IH]; simpl; [tauto|].
  destruct (eqb_spec n k) as [->|N].
  - split; [discriminate | tauto].
  - destruct (index_of k r); simpl in *.
    + split; [discriminate|]. intros H. exfalso.
      assert (C : ~ In k r) by tauto. apply IH in C. discriminate.
    + split; [|reflexivity]. intros _ [H|H]; [contradiction|].
      apply (proj1 IH); auto.
Qed.

Lemma index_of_snoc_other (k k' : jsstring) (names : list jsstring) :
  k <> k' -> index_of k' (names ++ [k]) = index_of k' names.
Proof.
  intros N. induction names as [|n r IH]; simpl.
  - destruct (eqb_spec k k'); [contradiction | reflexivity].
  - destruct (eqb n k'); [reflexivity|]. rewrite IH. reflexivity.
Qed.

Lemma index_of_snoc_new (k : jsstring) (names : list jsstring) :
  ~ In k names -> index_of k (names ++ [k]) = Some (length names).
Proof.
  induction names as [|n r IH]; simpl; intros H.
  - rewrite eqb_refl. reflexivity.
  - destruct (eqb_spec n k) as [->|N]; [tauto|].
    rewrite IH by tauto. reflexivity.
Qed.

End FirstOccurrences.

Section LevelFacts.
Import Hierarchy HierarchyInvariant.
Context {A : Type} (name : A -> jsstring) (key : StructureRow -> jsstring)
  (good : list StructureRow -> A -> Prop).
Variables (rows : list StructureRow) (r : StructureRow) (create : A)
  (f : A -> A).
Hypothesis create_name : name create = key r.
Hypothesis create_good :
  ~ In (key r) (List.map key rows) -> good rows create.
Hypothesis touched : forall o,
  good rows o -> name o = key r ->
  good (rows ++ [r]) (f o) /\ name (f o) = name o.
Hypothesis untouched : forall o,
  good rows o -> name o <> key r -> good (rows ++ [r]) o.

Lemma update_at_snoc (objs : list A) (o : A) :
  update_at (objs ++ [o]) (length objs) f = objs ++ [f o].
Proof. induction objs; simpl; congruence. Qed.

Lemma untouched_all (objs : list A) :
  Forall (good rows) objs -> ~ In (key r) (List.map name objs) ->
  Forall (good (rows ++ [r])) objs.
Proof.
  induction 1 as [|o os Ho Hos IH]; simpl; intros N; constructor.
  - apply untouched; [assumption | tauto].
  - apply IH. tauto.
Qed.

Lemma update_found (objs : list A) : forall i,
  index_of (key r) (List.map name objs) = Some i ->
  NoDup (List.map name objs) ->
  Forall (good rows) objs ->
  List.map name (update_at objs i f) = List.map name objs /\
  Forall (good (rows ++ [r])) (update_at objs i f).
Proof.
  induction objs as [|o os IH]; intros i Hi Hnd Hg; simpl in *.
  - discriminate.
  - inversion Hnd as [|? ? Hnotin Hnd']; subst.
    inversion Hg as [|? ? Ho Hos]; subst.
    destruct (eqb_spec (name o) (key r)) as [E|N].
    + injection Hi as <-. simpl.
      destruct (touched o Ho E) as [G Nm].
      split; [rewrite Nm; reflexivity|].
      constructor; [assumption|].
      apply untouched_all; [assumption|]. rewrite <- E. assumption.
    + destruct (index_of (key r) (List.map name os)) as [j|] eqn:Ej;
        [|discriminate].
      injection Hi as <-. simpl.
      destruct (IH j eq_refl Hnd' Hos) as [Nm G].
      split; [rewrite Nm; reflexivity|].
      constructor; [apply untouched; assumption | assumption].
Qed.

Lemma touch_inv (m : JsMap.t nat) (objs : list A) :
  levelInv name key good m objs rows ->
  levelInv name key good
    (snd (touch m objs (key r) create f))
    (fst (touch m objs (key r) create f)) (rows ++ [r]).
Proof.
  intros [Hidx [Hnames Hgood]]. unfold levelInv, touch, JsMap.has.
  rewrite map_app. cbn [List.map]. rewrite firstOccurrences_snoc.
  rewrite (Hidx (key r)).
  destruct (index_of (key r) (List.map name objs)) as [i|] eqn:Ei;
    cbn [negb].
  - rewrite (Hidx (key r)), Ei. cbn [fst snd].
    assert (Hin : In (key r) (firstOccurrences (List.map key rows))).
    { rewrite <- Hnames. destruct (in_dec (list_eq_dec Z.eq_dec) (key r)
        (List.map name objs)) as [H|H]; [assumption|].
      apply index_of_None in H. congruence. }
    apply includes_In in Hin. rewrite Hin.
    destruct (update_found objs i Ei) as [Nm G]; auto.
    { rewrite Hnames. apply firstOccurrences_NoDup. }
    split; [|split; [congruence | assumption]].
    intros k. rewrite Nm. apply Hidx.
  - apply index_of_None in Ei.
    assert (Hnin : ~ In (key r) (firstOccurrences (List.map key rows)))
      by (rewrite <- Hnames; assumption).
    assert (Hinc : includes (firstOccurrences (List.map key rows)) (key r)
                   = false).
    { destruct (includes _ (key r)) eqn:E; [|reflexivity].
      apply includes_In in E. contradiction. }
    rewrite Hinc, get_set_same, update_at_snoc. cbn [fst snd].
    rewrite firstOccurrences_In in Hnin.
    destruct (touched create (create_good Hnin) create_name) as [G Nm].
    assert (Hn' : List.map name (objs ++ [f create])
                  = List.map name objs ++ [key r]).
    { rewrite map_app. cbn [List.map]. rewrite Nm, create_name. reflexivity. }
    split; [|split].
    + intros k. rewrite Hn'.
      destruct (eqb_spec (key r) k) as [<-|N].
      * rewrite get_set_same, index_of_snoc_new by assumption.
        rewrite length_map. reflexivity.
      * rewrite get_set_other, index_of_snoc_other by assumption.
        apply Hidx.
    + rewrite Hn', Hnames. reflexivity.
    + apply Forall_app; split.
      * apply untouched_all; assumption.
      * constructor; [assumption | constructor].
Qed.

End LevelFacts.

Section BuilderFacts.
Import Hierarchy HierarchyInvariant.
Variable idMap : JsMap.t jsstring.

Lemma filter_snoc {A} (p : A -> bool) (l : list A) (x : A) :
  filter p (l ++ [x]) = if p x then filter p l ++ [x] else filter p l.
Proof.
  rewrite filter_app. simpl. destruct (p x); [reflexivity|].
  apply app_nil_r.
Qed.

Lemma filter_none {A} (key : A -> jsstring) (k : jsstring) (l : list A) :
  ~ In k (List.map key l) -> filter (fun x => eqb (key x) k) l = [].
Proof.
  induction l as [|x l IH]; simpl; intros H; [reflexivity|].
  destruct (eqb_spec (key x) k); [tauto|]. apply IH. tauto.
Qed.

Lemma indexed_nil {A} (name : A -> jsstring) : indexed name [] [].
Proof. intros k. reflexivity. Qed.

(** *** The vertical level *)

Lemma stepSequential_touch (row : StructureRow) (sq : SequentialObj) :
  let t := touch (so_vertMap sq) (so_verticals sq) (vertical row)
             (createVertical idMap row) (pushBlock row) in
  stepSequential idMap row sq
  = {| so_name := so_name sq; so_id := so_id sq;
       so_verticals := fst t; so_vertMap := snd t |}.
Proof.
  unfold stepSequential, touch, JsMap.has.
  destruct (JsMap.get (so_vertMap sq) (vertical row)) as [i|] eqn:E;
    cbn [negb].
  - rewrite E. reflexivity.
  - cbn [so_vertMap so_verticals so_name so_id].
    rewrite get_set_same. reflexivity.
Qed.

Lemma stepSequential_good (c : jsstring) (rows : list StructureRow)
  (row : StructureRow) (sq : SequentialObj) :
  chapter row = c ->
  goodSequential idMap c rows sq -> so_name sq = sequential row ->
  goodSequential idMap c (rows ++ [row]) (stepSequential idMap row sq)
  /\ so_name (stepSequential idMap row sq) = so_name sq.
Proof.
  intros Hc [Hid Hinv] Hs. rewrite stepSequential_touch. cbv zeta.
  split; [|reflexivity].
  unfold goodSequential. cbn [so_name so_id so_verticals so_vertMap].
  split; [assumption|].
  rewrite filter_snoc. unfold inSequential at 1.
  rewrite Hs, eqb_refl. rewrite <- Hs.
  apply touch_inv; auto.
  - intros Hnin. split; [cbn; congruence|]. cbn [vo_blocks createVertical vo_name].
    unfold inVertical. rewrite filter_none by assumption. reflexivity.
  - intros o [Ho1 Ho2] Hn. split; [|reflexivity].
    split; [assumption|]. cbn [pushBlock vo_blocks vo_name].
    rewrite filter_snoc. unfold inVertical at 1. rewrite <- Hn, eqb_refl.
    rewrite map_app, Ho2. reflexivity.
  - intros o [Ho1 Ho2] Hn. split; [assumption|].
    rewrite filter_snoc. unfold inVertical at 1.
    destruct (eqb_spec (vertical row) (vo_name o)); [congruence | assumption].
Qed.

Lemma goodSequential_other (c : jsstring) (rows : list StructureRow)
  (row : StructureRow) (sq : SequentialObj) :
  goodSequential idMap c rows sq -> so_name sq <> sequential row ->
  goodSequential idMap c (rows ++ [row]) sq.
Proof.
  intros [Hid Hinv] Hs. split; [assumption|].
  rewrite filter_snoc. unfold inSequential at 1.
  destruct (eqb_spec (sequential row) (so_name sq)); [congruence | assumption].
Qed.

(** *** The sequential level *)

Lemma stepChapter_touch (row : StructureRow) (ch : ChapterObj) :
  let t := touch (cho_seqMap ch) (cho_sequentials ch) (sequential row)
             (createSequential idMap row) (stepSequential idMap row) in
  stepChapter idMap row ch
  = {| cho_name := cho_name ch; cho_id := cho_id ch;
       cho_sequentials := fst t; cho_seqMap := snd t |}.
Proof.
  unfold stepChapter, touch, JsMap.has.
  destruct (JsMap.get (cho_seqMap ch) (sequential row)) as [i|] eqn:E;
    cbn [negb].
  - rewrite E. reflexivity.
  - cbn [cho_seqMap cho_sequentials cho_name cho_id].
    rewrite get_set_same. reflexivity.
Qed.

Lemma createSequential_good (c : jsstring) (rows : list StructureRow)
  (row : StructureRow) :
  chapter row = c -> ~ In (sequential row) (List.map sequential rows) ->
  goodSequential idMap c rows (createSequential idMap row).
Proof.
  intros Hc Hnin. split; [cbn; congruence|].
  cbn [createSequential so_name so_verticals so_vertMap].
  unfold inSequential. rewrite filter_none by assumption.
  split; [apply indexed_nil | split; [reflexivity | constructor]].
Qed.

Lemma stepChapter_good (rows : list StructureRow) (row : StructureRow)
  (ch : ChapterObj) :
  goodChapter idMap rows ch -> cho_name ch = chapter row ->
  goodChapter idMap (rows ++ [row]) (stepChapter idMap row ch)
  /\ cho_name (stepChapter idMap row ch) = cho_name ch.
Proof.
  intros [Hid Hinv] Hc. rewrite stepChapter_touch. cbv zeta.
  split; [|reflexivity].
  unfold goodChapter. cbn [cho_name cho_id cho_sequentials cho_seqMap].
  split; [assumption|].
  rewrite filter_snoc. unfold inChapter at 1. rewrite Hc, eqb_refl.
  rewrite <- Hc.
  apply touch_inv; auto.
  - intros Hnin. apply createSequential_good; auto.
  - intros o Ho Hn. apply stepSequential_good; auto.
  - intros o Ho Hn. apply goodSequential_other; assumption.
Qed.

Lemma goodChapter_other (rows : list StructureRow) (row : StructureRow)
  (ch : ChapterObj) :
  goodChapter idMap rows ch -> cho_name ch <> chapter row ->
  goodChapter idMap (rows ++ [row]) ch.
Proof.
  intros [Hid Hinv] Hc. split; [assumption|].
  rewrite filter_snoc. unfold inChapter at 1.
  destruct (eqb_spec (chapter row) (cho_name ch)); [congruence | assumption].
Qed.

(** *** The chapter level and the loop *)

Lemma step_touch (row : StructureRow) (st : BuildState) :
  let t := touch (chapterMap st) (chapters st) (chapter row)
             (createChapter idMap row) (stepChapter idMap row) in
  step idMap st row = {| chapters := fst t; chapterMap := snd t |}.
Proof.
  unfold step, touch, JsMap.has.
  destruct (JsMap.get (chapterMap st) (chapter row)) as [i|] eqn:E;
    cbn [negb].
  - rewrite E. reflexivity.
  - cbn [chapterMap chapters]. rewrite get_set_same. reflexivity.
Qed.

Lemma createChapter_good (rows : list StructureRow) (row : StructureRow) :
  ~ In (chapter row) (List.map chapter rows) ->
  goodChapter idMap rows (createChapter idMap row).
Proof.
  intros Hnin. split; [reflexivity|].
  cbn [createChapter cho_name cho_sequentials cho_seqMap].
  unfold inChapter. rewrite filter_none by assumption.
  split; [apply indexed_nil | split; [reflexivity | constructor]].
Qed.

Lemma step_good (rows : list StructureRow) (row : StructureRow)
  (st : BuildState) :
  goodState idMap rows st -> goodState idMap (rows ++ [row]) (step idMap st row).
Proof.
  intros H. rewrite step_touch. cbv zeta. unfold goodState.
  cbn [chapters chapterMap].
  apply touch_inv; auto.
  - apply createChapter_good.
  - intros o Ho Hn. apply stepChapter_good; assumption.
  - intros o Ho Hn. apply goodChapter_other; assumption.
Qed.

Lemma loop_good (rows : list StructureRow) :
  goodState idMap rows
    (fold_left (step idMap) rows {| chapters := []; chapterMap := [] |}).
Proof.
  induction rows as [|row rows IH] using rev_ind.
  - split; [apply indexed_nil | split; [reflexivity | constructor]].
  - rewrite fold_left_app. simpl. apply step_good. assumption.
Qed.

(** *** The tree that is returned *)

Lemma level_clean {A C} (name : A -> jsstring) key good m objs rows
  (clean : A -> C) (spec : jsstring -> C) :
  levelInv name key good m objs rows ->
  (forall o, good rows o -> clean o = spec (name o)) ->
  List.map clean objs = List.map spec (firstOccurrences (List.map key rows)).
Proof.
  intros [_ [Hn Hg]] H. rewrite <- Hn, map_map.
  apply map_ext_in. intros o Ho. apply H.
  rewrite Forall_forall in Hg. auto.
Qed.

Lemma cleanVertical_spec c s rows v :
  goodVertical idMap c s rows v ->
  cleanVertical v = specVertical idMap c s rows (vo_name v).
Proof.
  intros [H1 H2]. unfold cleanVertical, specVertical. congruence.
Qed.

Lemma cleanSequential_spec c rows s :
  goodSequential idMap c rows s ->
  cleanSequential s = specSequential idMap c rows (so_name s).
Proof.
  intros [H1 H2]. unfold cleanSequential, specSequential. cbv zeta.
  f_equal; [assumption|].
  eapply level_clean; [exact H2|]. apply cleanVertical_spec.
Qed.

Lemma cleanChapter_spec rows c :
  goodChapter idMap rows c ->
  cleanChapter c = specChapter idMap rows (cho_name c).
Proof.
  intros [H1 H2]. unfold cleanChapter, specChapter. cbv zeta.
  f_equal; [assumption|].
  eapply level_clean; [exact H2|]. apply cleanSequential_spec.
Qed.

Lemma buildHierarchy_spec (rows : list StructureRow) :
  buildHierarchy idMap rows = specHierarchy idMap rows.
Proof.
  unfold buildHierarchy, specHierarchy. cbv zeta.
  eapply level_clean; [apply loop_good|]. apply cleanChapter_spec.
Qed.

End BuilderFacts.

Section OneVerticalPerTuple.
Import Hierarchy HierarchyInvariant.
Variable idMap : JsMap.t jsstring.

Lemma flat_map_map {A B C} (f : B -> list C) (g : A -> B) (l : list A) :
  flat_map f (List.map g l) = flat_map (fun x => f (g x)) l.
Proof. induction l; simpl; congruence. Qed.

Lemma includes_cons (a : jsstring) (l : list jsstring) (c : jsstring) :
  includes (a :: l) c = eqb c a || includes l c.
Proof. reflexivity. Qed.

Lemma eqb_sym (a b : jsstring) : eqb a b = eqb b a.
Proof.
  destruct (eqb_spec a b), (eqb_spec b a); congruence.
Qed.

Lemma flat_map_pick {B} (l : list jsstring) (c : jsstring)
  (F : jsstring -> list B) :
  NoDup l ->
  flat_map (fun x => if eqb x c then F x else []) l
  = if includes l c then F c else [].
Proof.
  induction 1 as [|a l Ha Hl IH]; [reflexivity|].
  cbn [flat_map]. rewrite includes_cons, IH, (eqb_sym c a).
  destruct (eqb_spec a c) as [->|N]; cbn [orb].
  - destruct (includes l c) eqn:E.
    + apply includes_In in E. contradiction.
    + apply app_nil_r.
  - reflexivity.
Qed.

Lemma filter_pick (l : list jsstring) (v : jsstring) :
  NoDup l ->
  filter (fun x => eqb x v) l = if includes l v then [v] else [].
Proof.
  intros H. rewrite <- (flat_map_pick l v (fun x => [x]) H).
  induction l as [|a l IH]; [reflexivity|].
  inversion H; subst. simpl. destruct (eqb a v); simpl; rewrite IH; auto.
Qed.

Lemma filter_map_comm {A B} (p : B -> bool) (g : A -> B) (l : list A) :
  filter p (List.map g l) = List.map g (filter (fun x => p (g x)) l).
Proof.
  induction l as [|a l IH]; simpl; [reflexivity|].
  destruct (p (g a)); simpl; congruence.
Qed.

Lemma filter_filter {A} (p q : A -> bool) (l : list A) :
  filter p (filter q l) = filter (fun x => q x && p x) l.
Proof.
  induction l as [|a l IH]; simpl; [reflexivity|].
  destruct (q a); simpl; [destruct (p a)|]; simpl; congruence.
Qed.

Lemma rowsOf_nested (rows : list StructureRow) (c s v : jsstring) :
  filter (inVertical v) (filter (inSequential s) (filter (inChapter c) rows))
  = rowsOf rows c s v.
Proof.
  unfold rowsOf. rewrite !filter_filter.
  apply filter_ext. intros row. apply andb_assoc.
Qed.

Lemma verticalsAt_spec (rows : list StructureRow) (c s v : jsstring) :
  let rc := filter (inChapter c) rows in
  let rs := filter (inSequential s) rc in
  verticalsAt (specHierarchy idMap rows) c s v
  = if includes (firstOccurrences (List.map chapter rows)) c
    then if includes (firstOccurrences (List.map sequential rc)) s
         then if includes (firstOccurrences (List.map vertical rs)) v
              then [specVertical idMap c s rs v]
              else []
         else []
    else [].
Proof.
  intros rc rs. unfold verticalsAt, specHierarchy.
  rewrite flat_map_map. cbn [c_name specChapter c_sequentials].
  rewrite (flat_map_pick _ c
    (fun x => flat_map
       (fun sq => if eqb (s_name sq) s
                  then filter (fun vt => eqb (v_name vt) v) (s_verticals sq)
                  else [])
       (List.map (specSequential idMap x (filter (inChapter x) rows))
          (firstOccurrences
             (List.map sequential (filter (inChapter x) rows))))))
    by apply firstOccurrences_NoDup.
  destruct (includes (firstOccurrences (List.map chapter rows)) c);
    [|reflexivity].
  fold rc. rewrite flat_map_map. cbn [s_name specSequential s_verticals].
  rewrite (flat_map_pick _ s
    (fun x => filter (fun vt => eqb (v_name vt) v)
       (List.map (specVertical idMap c x (filter (inSequential x) rc))
          (firstOccurrences
             (List.map vertical (filter (inSequential x) rc))))))
    by apply firstOccurrences_NoDup.
  destruct (includes (firstOccurrences (List.map sequential rc)) s);
    [|reflexivity].
  fold rs. rewrite filter_map_comm. cbn [v_name specVertical].
  rewrite filter_pick by apply firstOccurrences_NoDup.
  destruct (includes (firstOccurrences (List.map vertical rs)) v);
    reflexivity.
Qed.

Lemma includes_first (key : StructureRow -> jsstring)
  (rows : list StructureRow) (row : StructureRow) :
  In row rows ->
  includes (firstOccurrences (List.map key rows)) (key row) = true.
Proof.
  intros H. apply includes_In, firstOccurrences_In, in_map. assumption.
Qed.

Lemma includes_first_none (key : StructureRow -> jsstring)
  (rows : list StructureRow) (k : jsstring) :
  filter (fun row => eqb (key row) k) rows = [] ->
  includes (firstOccurrences (List.map key rows)) k = false.
Proof.
  intros H. destruct (includes _ k) eqn:E; [|reflexivity].
  apply includes_In, firstOccurrences_In, in_map_iff in E
    as [row [Hk Hin]].
  assert (In row (filter (fun row => eqb (key row) k) rows)).
  { apply filter_In. split; [assumption|]. rewrite Hk. apply eqb_refl. }
  rewrite H in *. contradiction.
Qed.

End OneVerticalPerTuple.

(** C8. The hierarchy builder gives the tree of the specification: at
    every level the nodes are those of the distinct names in the order
    of their first occurrence, and a Vertical holds the blocks of the
    rows of its name tuple in input order.  Hence the rows that share a
    (chapter, sequential, vertical) tuple map to exactly one Vertical
    node, with their blocks in input order; a tuple of no row has no
    node; and two calls on the same rows and id lookup return equal
    trees. *)
Theorem buildHierarchy_one_vertical_per_tuple :
  forall (idMap : JsMap.t jsstring) (rows : list StructureRow),
    Hierarchy.buildHierarchy idMap rows = Hierarchy.specHierarchy idMap rows /\
    (forall c s v,
       Hierarchy.rowsOf rows c s v <> [] ->
       exists node,
         Hierarchy.verticalsAt (Hierarchy.buildHierarchy idMap rows) c s v
         = [node] /\
         Hierarchy.v_name node = v /\
         Hierarchy.v_blocks node
         = List.map Hierarchy.blockOf (Hierarchy.rowsOf rows c s v)) /\
    (forall c s v,
       Hierarchy.rowsOf rows c s v = [] ->
       Hierarchy.verticalsAt (Hierarchy.buildHierarchy idMap rows) c s v = [])
    /\
    (forall t1 t2,
       t1 = Hierarchy.buildHierarchy idMap rows ->
       t2 = Hierarchy.buildHierarchy idMap rows -> t1 = t2).
Proof.
  intros idMap rows. split; [apply buildHierarchy_spec|].
  rewrite buildHierarchy_spec. split; [|split].
  - intros c s v Hne.
    destruct (Hierarchy.rowsOf rows c s v) as [|row rest] eqn:E;
      [congruence|].
    assert (Hin : In row (Hierarchy.rowsOf rows c s v))
      by (rewrite E; left; reflexivity).
    rewrite <- E. clear E Hne rest.
    rewrite <- rowsOf_nested in Hin.
    apply filter_In in Hin as [Hin Hv].
    pose proof Hin as Hin2. apply filter_In in Hin2 as [Hin2 Hs].
    pose proof Hin2 as Hin3. apply filter_In in Hin3 as [Hin3 Hc].
    apply eqb_eq in Hv, Hs, Hc.
    rewrite verticalsAt_spec. cbv zeta.
    pose proof (includes_first chapter rows row Hin3) as I1.
    pose proof (includes_first sequential _ row Hin2) as I2.
    pose proof (includes_first vertical _ row Hin) as I3.
    rewrite Hc in I1. rewrite Hs in I2. rewrite Hv in I3.
    rewrite I1, I2, I3.
    eexists. split; [reflexivity|]. split; [reflexivity|].
    cbn [Hierarchy.v_blocks Hierarchy.specVertical].
    rewrite rowsOf_nested. reflexivity.
  - intros c s v E. rewrite verticalsAt_spec. cbv zeta.
    destruct (includes _ c); [|reflexivity].
    destruct (includes _ s); [|reflexivity].
    rewrite <- rowsOf_nested in E.
    unfold Hierarchy.inVertical in E at 1.
    rewrite (includes_first_none vertical _ v E). reflexivity.
  - intros t1 t2 -> ->. reflexivity.
Qed.

(** ** The course generator and dates *)

(** C4 (the code departs from the claim). A start date that is not
    empty and that the date formatter cannot parse does not make the
    course generator drop the attribute: the run file carries the
    attribute [start] with the empty value.  The generator is a total
    function, so an unparseable date is never fatal. *)
Theorem generateCourse_unparseable_start_emitted :
  forall (P : Platform) (info : CourseInfo) (chapters : list Hierarchy.Chapter),
    nonempty (startDate info) = true ->
    dateToISOString (startDate info) = None ->
    formatEdxDate (startDate info) = [] /\
    exists rest,
      Generators.courseRunXml info chapters
      = str "<course " ++ Generators.attr "display_name" (courseName info)
        ++ str " " ++ Generators.attr "language" (language info)
        ++ (if selfPaced info
            then str " self_paced=" ++ dq ++ str "true" ++ dq else [])
        ++ str " start=" ++ dq ++ dq ++ rest.
Proof.
  intros P info chapters Hne Hbad.
  assert (F : formatEdxDate (startDate info) = []).
  { unfold formatEdxDate. rewrite Hne, Hbad. reflexivity. }
  split; [exact F|].
  unfold Generators.courseRunXml. cbv zeta. rewrite Hne, F.
  eexists. rewrite <- !app_assoc. do 5 f_equal. reflexivity.
Qed.

Lemma generateCourse_unparseable_start_emitted_witness :
  formatEdxDate (P := Reference.platform) (startDate DateExample.info) = [] /\
  exists rest,
    Generators.courseRunXml (P := Reference.platform) DateExample.info []
    = str "<course "
      ++ Generators.attr "display_name" (courseName DateExample.info)
      ++ str " " ++ Generators.attr "language" (language DateExample.info)
      ++ (if selfPaced DateExample.info
          then str " self_paced=" ++ dq ++ str "true" ++ dq else [])
      ++ str " start=" ++ dq ++ dq ++ rest.
Proof.
  apply (generateCourse_unparseable_start_emitted Reference.platform
           DateExample.info []); reflexivity.
Defined.

(** ** The archive codec *)

Section HeaderFields.
Import Archive Untar.

Lemma nth_writeString_outside buf off s m j :
  (off + m <= length buf)%nat -> (j < off \/ off + m <= j)%nat ->
  nth j (writeString buf off s m) 0 = nth j buf 0.
Proof.
  intros L H. pose proof (Nat.le_min_r (length s) m).
  rewrite nth_writeString by lia.
  destruct (Nat.leb_spec off j), (Nat.ltb_spec j (off + Nat.min (length s) m));
    cbn [andb]; try reflexivity; lia.
Qed.

Lemma nth_set_at_other buf i v j :
  j <> i -> nth j (set_at buf i v) 0 = nth j buf 0.
Proof.
  intros N. rewrite nth_set_at.
  destruct (Nat.eqb_spec j i); [contradiction | reflexivity].
Qed.

Lemma nth_fill_outside buf lo n v j :
  (lo + n <= length buf)%nat -> (j < lo \/ lo + n <= j)%nat ->
  nth j (fill buf lo n v) 0 = nth j buf 0.
Proof.
  intros L H. rewrite nth_fill by assumption.
  destruct (Nat.leb_spec lo j), (Nat.ltb_spec j (lo + n)); cbn [andb];
    try reflexivity; lia.
Qed.

Lemma nth_repeat_zero n j : nth j (repeat 0 n) 0 = 0.
Proof.
  revert j; induction n; intros [|j]; simpl; auto.
Qed.

End HeaderFields.

(** Passing the writes of [createTarHeader] that leave the byte [j]
    alone. *)
Ltac header_lengths :=
  repeat first [rewrite set_at_length | rewrite writeString_length
               | rewrite fill_length | rewrite repeat_length].

Ltac pass_write :=
  first
    [ rewrite nth_set_at_other by lia
    | rewrite nth_fill_outside by (header_lengths; lia)
    | rewrite nth_writeString_outside by (header_lengths; lia) ].

Section HeaderFields2.
Import Archive Untar.
Variables (now : Z) (name : jsstring) (size : Z) (isDir : bool).

Let h := createTarHeader now name size isDir.

Lemma header_name_byte j :
  (j < 100)%nat ->
  nth j h 0 = if (j <? length name)%nat then u8 (nth j name 0) else 0.
Proof.
  intros Hj. unfold h, createTarHeader, header_before_checksum.
  do 11 pass_write.
  rewrite nth_writeString by (header_lengths;
    pose proof (Nat.le_min_r (length name) 100); lia).
  rewrite nth_repeat_zero, Nat.sub_0_r. cbn [Nat.leb andb].
  destruct (Nat.ltb_spec j (0 + Nat.min (length name) 100)),
    (Nat.ltb_spec j (length name)); try reflexivity; lia.
Qed.

Lemma header_size_byte j :
  (124 <= j < 136)%nat ->
  let text := padStart 11 48 (toString8 size) in
  nth j h 0
  = if (j - 124 <? length text)%nat then u8 (nth (j - 124) text 0) else 0.
Proof.
  intros Hj text. unfold h, createTarHeader, header_before_checksum.
  do 7 pass_write. fold text.
  rewrite nth_writeString by (header_lengths;
    pose proof (Nat.le_min_r (length text) 12); lia).
  do 4 pass_write. rewrite nth_repeat_zero.
  destruct (Nat.leb_spec 124 j); [|lia]. cbn [andb].
  destruct (Nat.ltb_spec j (124 + Nat.min (length text) 12)),
    (Nat.ltb_spec (j - 124) (length text)); try reflexivity; lia.
Qed.

Lemma header_typeflag : nth 156 h 0 = if isDir then 53 else 48.
Proof.
  unfold h, createTarHeader, header_before_checksum.
  do 4 pass_write. rewrite nth_set_at.
  header_lengths. destruct isDir; reflexivity.
Qed.

Lemma header_prefix_byte j : (345 <= j < 500)%nat -> nth j h 0 = 0.
Proof.
  intros Hj. unfold h, createTarHeader, header_before_checksum.
  do 12 pass_write. apply nth_repeat_zero.
Qed.

End HeaderFields2.

Section ReadingFields.
Import Archive Untar ArchiveDomain.

Lemma field_ext (h l : list Z) (a n : nat) :
  (a + n <= length h)%nat -> length l = n ->
  (forall i, (i < n)%nat -> nth (a + i) h 0 = nth i l 0) ->
  firstn n (skipn a h) = l.
Proof.
  intros Hh Hl H. apply nth_ext with (d := 0) (d' := 0).
  - rewrite length_firstn, length_skipn. lia.
  - intros i Hi. rewrite length_firstn, length_skipn in Hi.
    rewrite nth_firstn.
    destruct (Nat.ltb_spec i n); [|lia].
    rewrite nth_skipn. apply H. assumption.
Qed.

Lemma until_nul_app (bs rest : list Z) :
  Forall (fun b => b <> 0) bs -> until_nul (bs ++ 0 :: rest) = bs.
Proof.
  induction 1 as [|b bs Hb Hbs IH]; simpl; [reflexivity|].
  destruct (Z.eqb_spec b 0); [contradiction|]. rewrite IH. reflexivity.
Qed.

Lemma until_nul_all (bs : list Z) :
  Forall (fun b => b <> 0) bs -> until_nul bs = bs.
Proof.
  induction 1 as [|b bs Hb Hbs IH]; simpl; [reflexivity|].
  destruct (Z.eqb_spec b 0); [contradiction|]. rewrite IH. reflexivity.
Qed.

Lemma until_nul_zeros n : until_nul (repeat 0 n) = [].
Proof. destruct n; reflexivity. Qed.

Lemma name_units (name : jsstring) :
  forallb name_unit_ok name = true ->
  Forall (fun b => b <> 0) (List.map u8 name) /\
  ascii_decode (List.map u8 name) = name.
Proof.
  induction name as [|c name IH]; simpl; intros H.
  - split; [constructor | reflexivity].
  - apply andb_true_iff in H as [Hc H]. destruct (IH H) as [IH1 IH2].
    unfold name_unit_ok in Hc. apply andb_true_iff in Hc as [Hc1 Hc2].
    apply negb_true_iff, Z.eqb_neq in Hc1. apply Z.eqb_eq in Hc2.
    split; [constructor; assumption|].
    unfold ascii_decode in *. simpl. rewrite Hc2, IH2. reflexivity.
Qed.

Variables (now : Z) (name : jsstring) (size : Z) (isDir : bool).
Let h := createTarHeader now name size isDir.

Lemma header_name_field :
  (length name <= 100)%nat ->
  firstn 100 (skipn 0 h)
  = List.map u8 name ++ repeat 0 (100 - length name).
Proof.
  intros L. apply field_ext.
  - unfold h. rewrite createTarHeader_length. lia.
  - rewrite length_app, length_map, repeat_length. lia.
  - intros i Hi. cbn [Nat.add]. unfold h. rewrite header_name_byte by assumption.
    destruct (Nat.ltb_spec i (length name)).
    + rewrite app_nth1 by (rewrite length_map; assumption).
      rewrite (nth_indep (List.map u8 name) 0 (u8 0))
        by (rewrite length_map; assumption).
      rewrite map_nth. reflexivity.
    + rewrite app_nth2 by (rewrite length_map; assumption).
      rewrite nth_repeat_zero. reflexivity.
Qed.

Lemma readString_name :
  (length name <= 100)%nat -> forallb name_unit_ok name = true ->
  readString h 0 100 = name.
Proof.
  intros L Hn. unfold readString. rewrite header_name_field by assumption.
  destruct (name_units name Hn) as [Hnz Hdec].
  destruct (100 - length name)%nat as [|k] eqn:E.
  - simpl. rewrite app_nil_r, until_nul_all by assumption. exact Hdec.
  - cbn [repeat]. rewrite until_nul_app by assumption. exact Hdec.
Qed.

Lemma readString_name_nonempty c rest :
  name = c :: rest -> u8 c <> 0 -> nonempty (readString h 0 100) = true.
Proof.
  intros -> Hc. unfold readString.
  assert (E : exists t, firstn 100 (skipn 0 h) = u8 c :: t).
  { pose proof (createTarHeader_length now (c :: rest) size isDir) as Lh.
    pose proof (header_name_byte now (c :: rest) size isDir 0 ltac:(lia)) as B.
    fold h in Lh, B. cbn [skipn]. destruct h as [|b t]; [discriminate|].
    simpl in B. subst b. eexists. reflexivity. }
  destruct E as [t ->]. simpl.
  destruct (Z.eqb_spec (u8 c) 0); [contradiction|]. reflexivity.
Qed.

Lemma readString_prefix : readString h 345 155 = [].
Proof.
  unfold readString.
  rewrite (field_ext h (repeat 0 155) 345 155).
  - reflexivity.
  - unfold h. rewrite createTarHeader_length. lia.
  - apply repeat_length.
  - intros i Hi. unfold h. rewrite header_prefix_byte by lia.
    rewrite nth_repeat_zero. reflexivity.
Qed.

Lemma header_not_zero : isZeroBlock h = false.
Proof.
  unfold isZeroBlock.
  destruct (forallb (fun b => b =? 0) (firstn 512 h)) eqn:E; [|reflexivity].
  rewrite forallb_forall in E.
  assert (In (nth 156 h 0) (firstn 512 h)).
  { rewrite firstn_all2 by (unfold h; rewrite createTarHeader_length; lia).
    apply nth_In. unfold h. rewrite createTarHeader_length. lia. }
  apply E in H. unfold h in H. rewrite header_typeflag in H.
  destruct isDir; discriminate.
Qed.

Lemma header_typeflag_error :
  nth_error h 156 = Some (if isDir then 53 else 48).
Proof.
  rewrite <- (header_typeflag now name size isDir). fold h.
  apply nth_error_nth'. unfold h. rewrite createTarHeader_length. lia.
Qed.

End ReadingFields.

Section OctalText.
Import Archive Untar ArchiveDomain.

Lemma octal_text_nonzero ds : octal_text ds -> Forall (fun b => b <> 0) ds.
Proof. apply Forall_impl. intros; lia. Qed.

Lemma octal_text_decode ds : octal_text ds -> ascii_decode ds = ds.
Proof.
  unfold ascii_decode. induction 1 as [|d ds Hd Hds IH]; simpl; [reflexivity|].
  rewrite IH. unfold windows1252.
  destruct (Z.leb_spec 128 d); [lia|]. reflexivity.
Qed.

Lemma octal_text_no_nul ds : octal_text ds -> replaceAll [0] [] ds = ds.
Proof.
  intros H. rewrite replaceAll_char.
  induction H as [|d ds Hd Hds IH]; simpl; [reflexivity|].
  destruct (Z.eqb_spec 0 d); [lia|]. simpl. rewrite IH. reflexivity.
Qed.

Lemma is_ws_digit d : 48 <= d < 56 -> is_ws d = false.
Proof.
  intros H. unfold is_ws.
  repeat match goal with
         | |- context [?a <=? ?b] => destruct (Z.leb_spec a b); try lia
         | |- context [?a =? ?b] => destruct (Z.eqb_spec a b); try lia
         end; reflexivity.
Qed.

Lemma trimStart_octal ds : octal_text ds -> trimStart ds = ds.
Proof.
  destruct 1 as [|d ds Hd Hds]; simpl; [reflexivity|].
  rewrite is_ws_digit by assumption. reflexivity.
Qed.

Lemma trim_octal ds : octal_text ds -> trim ds = ds.
Proof.
  intros H. unfold trim, trimEnd. rewrite (trimStart_octal ds) by assumption.
  rewrite trimStart_octal by (apply Forall_rev; assumption).
  apply rev_involutive.
Qed.

Lemma read_digits_octal ds : forall acc,
  octal_text ds ->
  read_digits 8 ds (Some acc)
  = Some (fold_left (fun a d => a * 8 + (d - 48)) ds acc).
Proof.
  induction ds as [|d ds IH]; intros acc H; [reflexivity|].
  inversion H as [|? ? Hd Hds]; subst. cbn [read_digits fold_left].
  unfold hex_value, is_digit.
  destruct (Z.leb_spec 48 d); [|lia]. destruct (Z.leb_spec d 57); [|lia].
  cbn [andb]. destruct (Z.ltb_spec (d - 48) 8); [|lia].
  apply IH. assumption.
Qed.

Lemma parseInt8_octal ds :
  octal_text ds -> ds <> [] -> parseInt8 ds = Some (octal_value ds).
Proof.
  intros H Hne. unfold parseInt8. rewrite trimStart_octal by assumption.
  destruct ds as [|d ds]; [contradiction|].
  inversion H as [|? ? Hd Hds]; subst.
  unfold signed_digits.
  assert (E : read_digits 8 (d :: ds) None = Some (octal_value (d :: ds))).
  { cbn [read_digits]. unfold hex_value, is_digit.
    destruct (Z.leb_spec 48 d); [|lia]. destruct (Z.leb_spec d 57); [|lia].
    cbn [andb]. destruct (Z.ltb_spec (d - 48) 8); [|lia].
    rewrite read_digits_octal by assumption. reflexivity. }
  destruct (Z.eq_dec d 45); [lia|]. destruct (Z.eq_dec d 43); [lia|].
  destruct d as [|p|p]; try lia.
  repeat (destruct p as [p|p|]; try lia; try exact E).
Qed.

End OctalText.

Section SizeField.
Import Archive Untar ArchiveDomain.
Variables (now : Z) (name : jsstring) (size : Z) (isDir : bool).
Hypothesis size_range : 0 <= size < 8 ^ 11.
Let h := createTarHeader now name size isDir.

Lemma header_size_field :
  firstn 12 (skipn 124 h) = fixed_octal 11 size ++ [0].
Proof.
  assert (T : padStart 11 48 (toString8 size) = fixed_octal 11 size)
    by (apply padStart_toString8; [lia | exact size_range]).
  apply field_ext.
  - unfold h. rewrite createTarHeader_length. lia.
  - rewrite length_app, fixed_octal_length. reflexivity.
  - intros i Hi. unfold h. rewrite header_size_byte by lia. cbv zeta.
    rewrite T, fixed_octal_length.
    replace (124 + i - 124)%nat with i by lia.
    destruct (Nat.ltb_spec i 11).
    + rewrite app_nth1 by (rewrite fixed_octal_length; assumption).
      apply u8_small.
      pose proof (fixed_octal_digits 11 size) as D.
      rewrite Forall_forall in D.
      assert (In (nth i (fixed_octal 11 size) 0) (fixed_octal 11 size))
        by (apply nth_In; rewrite fixed_octal_length; assumption).
      apply D in H0. lia.
    + rewrite app_nth2 by (rewrite fixed_octal_length; assumption).
      rewrite fixed_octal_length.
      replace (i - 11)%nat with 0%nat by lia. reflexivity.
Qed.

Lemma header_size_parsed :
  or_zero (parseInt8 (trim (replaceAll [0] [] (readString h 124 12)))) = size.
Proof.
  unfold readString. rewrite header_size_field.
  pose proof (fixed_octal_digits 11 size) as D. fold (octal_text (fixed_octal 11 size)) in D.
  rewrite until_nul_app by (apply octal_text_nonzero; assumption).
  rewrite octal_text_decode, octal_text_no_nul, trim_octal by assumption.
  rewrite parseInt8_octal; [|assumption|].
  - cbn [or_zero]. apply octal_value_fixed. exact size_range.
  - intros E. apply (f_equal (@length Z)) in E.
    rewrite fixed_octal_length in E. discriminate.
Qed.

End SizeField.

Section ExtractSteps.
Import Archive Untar ArchiveDomain.

Lemma subarray_at (data blk rest : list Z) (o : Z) :
  0 <= o -> skipn (Z.to_nat o) data = blk ++ rest ->
  subarray data o (o + Z.of_nat (length blk)) = blk.
Proof.
  intros Ho E. unfold subarray, clamp.
  pose proof (f_equal (@length Z) E) as L.
  rewrite length_skipn, length_app in L.
  destruct (Z.ltb_spec o 0); [lia|].
  destruct (Z.ltb_spec (o + Z.of_nat (length blk)) 0); [lia|].
  destruct (Nat.le_gt_cases (Z.to_nat o) (length data)) as [Hle|Hgt].
  - rewrite Z.min_l by lia. rewrite Z.min_l by lia.
    replace (Z.to_nat (o + Z.of_nat (length blk) - o)) with (length blk) by lia.
    rewrite E, firstn_app, Nat.sub_diag, firstn_all. simpl.
    apply app_nil_r.
  - assert (length blk = 0%nat) by lia.
    destruct blk; [|discriminate]. simpl.
    rewrite Z.add_0_r. rewrite Z.min_r by lia.
    rewrite Z.sub_diag. reflexivity.
Qed.

Lemma skipn_past (data blk rest : list Z) (o : Z) :
  0 <= o -> skipn (Z.to_nat o) data = blk ++ rest ->
  skipn (Z.to_nat (o + Z.of_nat (length blk))) data = rest.
Proof.
  intros Ho E.
  replace (Z.to_nat (o + Z.of_nat (length blk)))
    with (length blk + Z.to_nat o)%nat by lia.
  rewrite <- skipn_skipn, E, skipn_app, Nat.sub_diag, skipn_all. reflexivity.
Qed.

Lemma room_at (data blk rest : list Z) (o : Z) :
  0 <= o -> skipn (Z.to_nat o) data = blk ++ rest ->
  blk <> [] -> o + Z.of_nat (length blk) <= Z.of_nat (length data).
Proof.
  intros Ho E Hne.
  pose proof (f_equal (@length Z) E) as L.
  rewrite length_skipn, length_app in L.
  destruct blk; [contradiction|]. simpl in *. lia.
Qed.

Lemma paddedSize_zero : paddedSize 0 = 0.
Proof. reflexivity. Qed.

Lemma paddedSize_bounds n :
  0 <= n -> n <= paddedSize n < n + 512.
Proof.
  intros H. unfold paddedSize.
  pose proof (Z.div_mod (- n) 512 ltac:(lia)).
  pose proof (Z.mod_pos_bound (- n) 512 ltac:(lia)). lia.
Qed.

Lemma padded_length (bytes : list Z) :
  Z.of_nat (length (padded bytes)) = paddedSize (Z.of_nat (length bytes)).
Proof.
  unfold padded. rewrite length_app, repeat_length.
  pose proof (paddedSize_bounds (Z.of_nat (length bytes)) ltac:(lia)). lia.
Qed.

Lemma extractStep_dir (data rest : list Z) (o now : Z) (c : Z)
  (nm : jsstring) (files : JsMap.t jsstring) :
  0 <= o -> u8 c <> 0 ->
  skipn (Z.to_nat o) data = createTarHeader now (c :: nm) 0 true ++ rest ->
  extractStep data o files = Some (o + 512, files).
Proof.
  intros Ho Hc E. unfold extractStep.
  pose proof (subarray_at data _ rest o Ho E) as S.
  rewrite createTarHeader_length in S. change (Z.of_nat 512) with 512 in S.
  rewrite S, header_not_zero.
  rewrite (readString_name_nonempty now (c :: nm) 0 true c nm eq_refl Hc).
  cbn [negb]. rewrite header_typeflag_error.
  rewrite header_size_parsed by (cbn; lia).
  change ((53 =? 48) || (53 =? 0)) with false. cbn [andb].
  rewrite paddedSize_zero, Z.add_0_r. reflexivity.
Qed.

Lemma indexOf_course (path : jsstring) :
  indexOf 47 (str "course/" ++ path) = 6.
Proof. reflexivity. Qed.

Lemma extractStep_file (data rest : list Z) (o now : Z) (path : jsstring)
  (bytes : list Z) (files : JsMap.t jsstring) :
  0 <= o -> path_ok path = true ->
  0 < Z.of_nat (length bytes) < 8 ^ 11 ->
  skipn (Z.to_nat o) data
  = (createTarHeader now (str "course/" ++ path)
       (Z.of_nat (length bytes)) false ++ padded bytes) ++ rest ->
  extractStep data o files
  = Some (o + 512 + paddedSize (Z.of_nat (length bytes)),
          JsMap.set files path (utf8_decode bytes)).
Proof.
  intros Ho Hp Hsize E. unfold extractStep.
  rewrite <- app_assoc in E.
  pose proof (subarray_at data _ _ o Ho E) as S.
  pose proof (skipn_past data _ _ o Ho E) as K.
  rewrite createTarHeader_length in S, K.
  change (Z.of_nat 512) with 512 in S, K.
  unfold padded in K. rewrite <- app_assoc in K.
  pose proof (subarray_at data _ _ (o + 512) ltac:(lia) K) as S2.
  rewrite S, header_not_zero.
  unfold path_ok in Hp. apply andb_true_iff in Hp as [Hp Hunits].
  apply andb_true_iff in Hp as [Hne Hlen]. apply Nat.leb_le in Hlen.
  rewrite readString_name.
  2:{ rewrite length_app. change (length (str "course/")) with 7%nat. lia. }
  2:{ rewrite forallb_app, Hunits. reflexivity. }
  rewrite readString_prefix. cbn [nonempty negb].
  replace (nonempty (str "course/" ++ path)) with true by reflexivity.
  cbn [negb]. rewrite header_typeflag_error.
  rewrite header_size_parsed by lia.
  change ((48 =? 48) || (48 =? 0)) with true. cbn [andb].
  destruct (Z.ltb_spec 0 (Z.of_nat (length bytes))); [|lia].
  rewrite S2, indexOf_course. change (0 <? 6) with true. cbv iota.
  change (skipn (Z.to_nat (6 + 1)) (str "course/" ++ path)) with path.
  rewrite Hne. reflexivity.
Qed.

End ExtractSteps.

Section ExtractLoop.
Import Archive Untar ArchiveDomain.
Variable data : list Z.

Lemma extractLoop_dirs (hs : list (list Z)) :
  Forall dir_header hs ->
  forall (rest : list Z) (o : Z) (files : JsMap.t jsstring) (n : nat),
    0 <= o -> skipn (Z.to_nat o) data = concat hs ++ rest ->
    extractLoop (length hs + n) data o files
    = extractLoop n data (o + Z.of_nat (length (concat hs))) files.
Proof.
  induction 1 as [|h hs Hh Hhs IH]; intros rest o files n Ho E.
  - simpl. rewrite Z.add_0_r. reflexivity.
  - destruct Hh as [now [c [nm [Hc ->]]]].
    cbn [concat] in E. rewrite <- app_assoc in E.
    pose proof (room_at data _ _ o Ho E) as R.
    rewrite createTarHeader_length in R. change (Z.of_nat 512) with 512 in R.
    specialize (R ltac:(intros C; apply (f_equal (@length Z)) in C;
                        rewrite createTarHeader_length in C; discriminate)).
    cbn [length Nat.add extractLoop].
    destruct (Z.leb_spec (o + 512) (Z.of_nat (length data))); [|lia].
    rewrite (extractStep_dir data _ o now c nm files Ho Hc E).
    pose proof (skipn_past data _ _ o Ho E) as K.
    rewrite createTarHeader_length in K. change (Z.of_nat 512) with 512 in K.
    rewrite (IH rest (o + 512) files n ltac:(lia) K).
    f_equal. cbn [concat]. rewrite length_app, createTarHeader_length. lia.
Qed.

Variable clock : nat -> Z.

Lemma file_block_length (ne : nat * Entry) :
  Z.of_nat (length (file_block clock ne))
  = 512 + paddedSize (Z.of_nat (length (e_data (snd ne)))).
Proof.
  unfold file_block. rewrite length_app, createTarHeader_length.
  rewrite Nat2Z.inj_add, padded_length. reflexivity.
Qed.

Lemma extractLoop_files (l : list (nat * Entry)) :
  Forall file_entry_ok l ->
  forall (rest : list Z) (o : Z) (files : JsMap.t jsstring) (n : nat),
    0 <= o ->
    skipn (Z.to_nat o) data = concat (List.map (file_block clock) l) ++ rest ->
    extractLoop (length l + n) data o files
    = extractLoop n data
        (o + Z.of_nat (length (concat (List.map (file_block clock) l))))
        (fold_left store_entry l files).
Proof.
  induction 1 as [|ne l Hne Hl IH]; intros rest o files n Ho E.
  - simpl. rewrite Z.add_0_r. reflexivity.
  - destruct Hne as [path [Hname [Hpath Hsize]]].
    cbn [List.map concat] in E. rewrite <- app_assoc in E.
    assert (Hnonempty : file_block clock ne <> []).
    { intros C. apply (f_equal (@length Z)) in C.
      unfold file_block in C. rewrite length_app, createTarHeader_length in C.
      discriminate. }
    pose proof (room_at data _ _ o Ho E Hnonempty) as R.
    rewrite file_block_length in R.
    pose proof (paddedSize_bounds (Z.of_nat (length (e_data (snd ne))))
                  ltac:(lia)) as B.
    cbn [length Nat.add extractLoop].
    destruct (Z.leb_spec (o + 512) (Z.of_nat (length data))); [|lia].
    pose proof E as E'. unfold file_block in E' at 1. rewrite Hname in E'.
    rewrite (extractStep_file data _ o _ path _ files Ho Hpath Hsize E').
    pose proof (skipn_past data _ _ o Ho E) as K.
    rewrite file_block_length in K.
    rewrite Z.add_assoc in K.
    assert (Hpos : 0 <= o + 512
                   + paddedSize (Z.of_nat (length (e_data (snd ne)))))
      by lia.
    rewrite (IH rest _ (JsMap.set files path (utf8_decode (e_data (snd ne))))
               n Hpos K).
    f_equal.
    + cbn [List.map concat]. rewrite length_app, Nat2Z.inj_add.
      rewrite file_block_length. lia.
    + cbn [fold_left]. f_equal. unfold store_entry. rewrite Hname.
      reflexivity.
Qed.

Lemma extractLoop_end (o : Z) (files : JsMap.t jsstring) (n : nat) :
  0 <= o -> skipn (Z.to_nat o) data = repeat 0 1024 ->
  extractLoop (S n) data o files = Returned files.
Proof.
  intros Ho E. cbn [extractLoop].
  change (repeat 0 1024) with (repeat 0 512 ++ repeat 0 512) in E.
  pose proof (room_at data _ _ o Ho E ltac:(discriminate)) as R.
  rewrite repeat_length in R. change (Z.of_nat 512) with 512 in R.
  destruct (Z.leb_spec (o + 512) (Z.of_nat (length data))); [|lia].
  unfold extractStep.
  pose proof (subarray_at data _ _ o Ho E) as S.
  rewrite repeat_length in S. change (Z.of_nat 512) with 512 in S.
  rewrite S. reflexivity.
Qed.

End ExtractLoop.

Section Directories.
Import Archive Untar ArchiveDomain.

Lemma split_at_first (sep : Z) (s cur : jsstring) :
  exists t ps, split_at sep s cur = (rev cur ++ t) :: ps.
Proof.
  revert cur; induction s as [|c s IH]; intros cur; simpl.
  - exists [], []. rewrite app_nil_r. reflexivity.
  - destruct (c =? sep).
    + exists [], (split_at sep s []). rewrite app_nil_r. reflexivity.
    + destruct (IH (c :: cur)) as [t [ps E]]. rewrite E. simpl.
      exists (c :: t), ps. rewrite <- app_assoc. reflexivity.
Qed.

Lemma join_first (sep p : jsstring) (ps : list jsstring) :
  exists t, join sep (p :: ps) = p ++ t.
Proof.
  destruct ps as [|q ps]; simpl.
  - exists []. rewrite app_nil_r. reflexivity.
  - eexists. reflexivity.
Qed.

Lemma dirsOf_first (c : Z) (r d : jsstring) :
  c <> 47 -> In d (dirsOf (c :: r)) -> exists t, d = c :: t.
Proof.
  intros Hc Hin. unfold dirsOf, split in Hin. simpl in Hin.
  destruct (Z.eqb_spec c 47); [contradiction|].
  destruct (split_at_first 47 r [c]) as [t [ps E]]. rewrite E in Hin.
  apply in_map_iff in Hin as [i [Hd Hi]]. apply in_seq in Hi.
  destruct i as [|i]; [lia|]. cbn [firstn] in Hd.
  destruct (join_first (str "/") (rev [c] ++ t) (firstn i ps)) as [u Hu].
  assert (X : d = ((rev [c] ++ t) ++ u) ++ str "/")
    by (rewrite <- Hd; f_equal; exact Hu).
  rewrite X. simpl. eexists. reflexivity.
Qed.

Lemma set_add_In (set : list jsstring) (x d : jsstring) :
  In d (set_add set x) -> In d set \/ d = x.
Proof.
  unfold set_add. destruct (includes set x); [tauto|].
  rewrite in_app_iff. simpl. intuition.
Qed.

Lemma collectDirs_In (entries : list Entry) (d : jsstring) :
  In d (collectDirs entries) ->
  exists e, In e entries /\ In d (dirsOf (e_name e)).
Proof.
  unfold collectDirs.
  assert (G : forall acc,
            In d (fold_left
                    (fun dirs entry =>
                       fold_left set_add (dirsOf (e_name entry)) dirs)
                    entries acc) ->
            In d acc \/ exists e, In e entries /\ In d (dirsOf (e_name e))).
  { induction entries as [|e es IH]; intros acc H; simpl in H; [tauto|].
    apply IH in H as [H|[e' [H1 H2]]].
    - assert (F : forall l acc', In d (fold_left set_add l acc') ->
                                 In d acc' \/ In d l).
      { induction l as [|x l IHl]; intros acc' H'; simpl in *; [tauto|].
        apply IHl in H' as [H'|H']; [|tauto].
        apply set_add_In in H' as [H'|H']; [tauto | subst; tauto]. }
      apply F in H as [H|H]; [tauto|]. right. exists e. simpl. tauto.
    - right. exists e'. simpl. tauto. }
  intros H. apply G in H as [[]|H]. exact H.
Qed.

Lemma insert_sorted_In (x d : jsstring) (l : list jsstring) :
  In d (insert_sorted x l) -> d = x \/ In d l.
Proof.
  induction l as [|y l IH]; simpl; [intuition|].
  destruct (str_leb x y); simpl; intuition.
Qed.

Lemma sort_In (l : list jsstring) (d : jsstring) : In d (sort l) -> In d l.
Proof.
  unfold sort. induction l as [|x l IH]; simpl; [tauto|].
  intros H. apply insert_sorted_In in H as [H|H]; [subst; tauto | tauto].
Qed.

Lemma dir_blocks_headers (clock : nat -> Z) (entries : list Entry) (a : nat) :
  Forall (fun e => exists p, e_name e = str "course/" ++ p) entries ->
  let dirs := sort (collectDirs entries) in
  Forall dir_header
    (List.map (fun nd => createTarHeader (clock (fst nd)) (snd nd) 0 true)
              (combine (seq a (length dirs)) dirs)).
Proof.
  intros H dirs. apply Forall_forall. intros h Hh.
  apply in_map_iff in Hh as [[i d] [Hh Hin]]. apply in_combine_r in Hin.
  apply sort_In, collectDirs_In in Hin as [e [He Hd]].
  rewrite Forall_forall in H. destruct (H e He) as [p Hp].
  rewrite Hp in Hd. apply (dirsOf_first 99) in Hd as [t Ht]; [|lia].
  subst d h. exists (clock i), 99, t. split; [discriminate | reflexivity].
Qed.

End Directories.

Section RoundTrip.
Import Archive Untar ArchiveDomain.

Lemma utf8_encode_nonempty (s : jsstring) :
  nonempty s = true -> utf8_encode s <> [].
Proof.
  destruct s as [|c r]; [discriminate|]. intros _. cbn [utf8_encode].
  repeat match goal with
         | |- context [if ?b then _ else _] => destruct b
         | |- context [match ?l with [] => _ | _ :: _ => _ end] => destruct l
         end; discriminate.
Qed.

Lemma entry_ok_parts (f : jsstring * jsstring) :
  entry_ok f = true ->
  path_ok (fst f) = true /\ nonempty (snd f) = true /\
  utf8_decode (utf8_encode (snd f)) = snd f /\
  Z.of_nat (length (utf8_encode (snd f))) < 8 ^ 11.
Proof.
  unfold entry_ok, content_ok. intros H.
  apply andb_true_iff in H as [H1 H2].
  apply andb_true_iff in H2 as [H2 H4].
  apply andb_true_iff in H2 as [H2 H3].
  apply eqb_eq in H3. apply Z.ltb_lt in H4. auto.
Qed.

Lemma set_fresh {V} (m : JsMap.t V) (k : jsstring) (v : V) :
  ~ In k (JsMap.keys m) -> JsMap.set m k v = m ++ [(k, v)].
Proof.
  unfold JsMap.set, JsMap.keys.
  induction m as [|[k' v'] m IH]; simpl; intros H; [reflexivity|].
  destruct (eqb_spec k' k); [tauto|]. rewrite IH by tauto. reflexivity.
Qed.

Lemma fold_set_fresh (files : JsMap.t jsstring) : forall acc,
  NoDup (JsMap.keys (acc ++ files)) ->
  fold_left (fun m f => JsMap.set m (fst f) (snd f)) files acc = acc ++ files.
Proof.
  induction files as [|[k v] files IH]; intros acc H; simpl.
  - rewrite app_nil_r. reflexivity.
  - unfold JsMap.keys in H. rewrite map_app in H. simpl in H.
    pose proof (NoDup_remove_2 _ _ _ H) as Hk.
    rewrite set_fresh.
    + rewrite IH.
      * rewrite <- app_assoc. reflexivity.
      * unfold JsMap.keys. rewrite <- app_assoc, map_app. simpl. exact H.
    + intros C. apply Hk. apply in_or_app. left. exact C.
Qed.

Lemma fold_store (files : JsMap.t jsstring) : forall a acc,
  forallb entry_ok files = true ->
  fold_left store_entry
    (combine (seq a (length files)) (List.map entry_of files)) acc
  = fold_left (fun m f => JsMap.set m (fst f) (snd f)) files acc.
Proof.
  induction files as [|f files IH]; intros a acc H; [reflexivity|].
  cbn [forallb] in H. apply andb_true_iff in H as [Hf H].
  cbn [length seq List.map combine fold_left]. rewrite IH by assumption.
  f_equal. unfold store_entry, entry_of. cbn [snd e_name e_data].
  change (skipn 7 (str "course/" ++ fst f)) with (fst f).
  destruct (entry_ok_parts f Hf) as [_ [_ [E _]]]. rewrite E.
  reflexivity.
Qed.

Lemma entries_ok (files : JsMap.t jsstring) (a : nat) :
  forallb entry_ok files = true ->
  Forall file_entry_ok
    (combine (seq a (length files)) (List.map entry_of files)).
Proof.
  revert a; induction files as [|f files IH]; intros a H; [constructor|].
  cbn [forallb] in H. apply andb_true_iff in H as [Hf H].
  cbn [length seq List.map combine]. constructor; [|apply IH; assumption].
  destruct (entry_ok_parts f Hf) as [Hp [Hne [_ Hsz]]].
  exists (fst f). cbn [snd entry_of e_name e_data].
  split; [reflexivity|]. split; [assumption|].
  split; [|assumption].
  pose proof (utf8_encode_nonempty _ Hne).
  destruct (utf8_encode (snd f)); [contradiction | simpl; lia].
Qed.

Lemma concat_length_ge (blocks : list (list Z)) :
  Forall (fun b => b <> []) blocks ->
  (length blocks <= length (concat blocks))%nat.
Proof.
  induction 1 as [|b bs Hb Hbs IH]; simpl; [lia|].
  rewrite length_app. destruct b; [contradiction | simpl; lia].
Qed.

Lemma extractTar_createTar (clock : nat -> Z) (files : JsMap.t jsstring) :
  is_map files -> forallb entry_ok files = true ->
  extractTar (createTar clock (List.map entry_of files)) = Returned files.
Proof.
  intros Hmap Hok. unfold extractTar, createTar. cbv zeta.
  set (entries := List.map entry_of files).
  set (dirs := sort (collectDirs entries)).
  set (hs := List.map _ (combine (seq 0 (length dirs)) dirs)).
  assert (Hhs : Forall dir_header hs).
  { apply dir_blocks_headers. apply Forall_forall. intros e He.
    apply in_map_iff in He as [f [<- _]]. eexists. reflexivity. }
  set (l := combine (seq (length dirs) (length entries)) entries).
  change (List.map _ l) with (List.map (file_block clock) l).
  assert (Hl : Forall file_entry_ok l).
  { unfold l, entries. rewrite length_map. apply entries_ok. assumption. }
  set (data := concat hs ++ concat (List.map (file_block clock) l)
               ++ repeat 0 1024).
  assert (Lhs : (length hs <= length (concat hs))%nat).
  { apply concat_length_ge. eapply Forall_impl; [|exact Hhs].
    intros h [now [c [nm [_ ->]]]] C. apply (f_equal (@length Z)) in C.
    rewrite createTarHeader_length in C. discriminate. }
  assert (Ll : (length l <= length (concat (List.map (file_block clock) l)))%nat).
  { rewrite <- (length_map (file_block clock)). apply concat_length_ge.
    apply Forall_forall. intros b Hb C.
    apply in_map_iff in Hb as [ne [<- _]]. apply (f_equal (@length Z)) in C.
    unfold file_block in C. rewrite length_app, createTarHeader_length in C.
    discriminate. }
  assert (Ld : length data
               = (length (concat hs)
                  + (length (concat (List.map (file_block clock) l)) + 1024))%nat).
  { unfold data. rewrite !length_app, repeat_length. reflexivity. }
  replace (S (length data))
    with (length hs
          + (length l + S (length data - length hs - length l)))%nat by lia.
  rewrite (extractLoop_dirs data hs Hhs
             (concat (List.map (file_block clock) l) ++ repeat 0 1024) 0)
    by (auto; lia).
  assert (K1 : skipn (Z.to_nat (0 + Z.of_nat (length (concat hs)))) data
               = concat (List.map (file_block clock) l) ++ repeat 0 1024).
  { apply (skipn_past data (concat hs)); [lia | reflexivity]. }
  assert (Hpos : 0 <= 0 + Z.of_nat (length (concat hs))) by lia.
  rewrite (extractLoop_files data clock l Hl (repeat 0 1024) _ [] _ Hpos K1).
  rewrite extractLoop_end.
  - f_equal. unfold l, entries. rewrite length_map, fold_store by assumption.
    apply (fold_set_fresh files []). exact Hmap.
  - lia.
  - apply (skipn_past data (concat (List.map (file_block clock) l)) _ _ Hpos).
    exact K1.
Qed.

End RoundTrip.

(** C2, amended. Packing an entry map and unpacking the result
    reproduces the map exactly, paths and contents in the same order,
    for every entry map whose paths are distinct, not empty, of at most
    93 code units, each of them stored in the header as a byte other
    than NUL that reads back as the code unit (ASCII without NUL, and
    the part of Latin-1 that windows-1252 keeps), and whose contents are
    not empty, are texts that the UTF-8 codec reproduces, and are below
    8^11 bytes. *)
Theorem archive_round_trip :
  forall (P : Platform) (L : GzipLaws P) (clock : nat -> Z)
         (files : JsMap.t jsstring),
    ArchiveDomain.is_map files ->
    forallb ArchiveDomain.entry_ok files = true ->
    Untar.extractTarGz (Archive.generateTarGz clock files)
    = Untar.Returned files.
Proof.
  intros P L clock files Hmap Hok.
  unfold Untar.extractTarGz, Archive.generateTarGz, Archive.tarGzip.
  rewrite gunzip_gzip.
  apply (extractTar_createTar clock files Hmap Hok).
Qed.

Lemma archive_round_trip_witness :
  Untar.extractTarGz (P := Reference.platform)
    (Archive.generateTarGz (P := Reference.platform)
       ArchiveDomain.clock0 ArchiveDomain.two_files)
  = Untar.Returned ArchiveDomain.two_files.
Proof.
  apply (archive_round_trip Reference.platform ReferenceFacts.gzip_laws
           ArchiveDomain.clock0 ArchiveDomain.two_files).
  - unfold ArchiveDomain.is_map. simpl.
    constructor; [simpl; intros [H|[]]; discriminate|].
    constructor; [simpl; tauto | constructor].
  - vm_compute. reflexivity.
Defined.

(** C2 as stated fails: a file of empty content is not in the unpacked
    map, because the decoder keeps a file entry only when its size is
    positive. *)
Lemma archive_round_trip_fails_on_empty_content :
  ~ (forall (P : Platform) (L : GzipLaws P) (clock : nat -> Z)
            (files : JsMap.t jsstring),
       ArchiveDomain.is_map files ->
       Untar.extractTarGz (Archive.generateTarGz clock files)
       = Untar.Returned files).
Proof.
  intros H.
  specialize (H Reference.platform ReferenceFacts.gzip_laws
                ArchiveDomain.clock0 ArchiveDomain.empty_file).
  assert (M : ArchiveDomain.is_map ArchiveDomain.empty_file).
  { unfold ArchiveDomain.is_map. simpl. constructor; [simpl; tauto|].
    constructor. }
  specialize (H M). vm_compute in H. discriminate.
Qed.

(** ** The OLX decoder *)

(** C7. For every extracted entry map without an entry at the path
    course.xml the OLX decoder returns the empty course data (the
    default info, no structure row, four empty block maps) and exactly
    one warning; the decoder is a total function and does not throw. *)
Theorem parseOlx_without_course_xml :
  forall (P : Platform) (files : JsMap.t jsstring),
    JsMap.get files (str "course.xml") = None ->
    OlxParser.parseOlx files
    = (createCourseData, [OlxParser.missingCourseXml]).
Proof.
  intros P files H. unfold OlxParser.parseOlx, OlxParser.getFile.
  rewrite H. reflexivity.
Qed.

Lemma parseOlx_without_course_xml_witness :
  OlxParser.parseOlx (P := Reference.platform) OlxExample.no_course_xml
  = (createCourseData, [OlxParser.missingCourseXml]).
Proof.
  apply (parseOlx_without_course_xml Reference.platform
           OlxExample.no_course_xml).
  reflexivity.
Defined.

(** * The round trip of Build and Import *)

(** ** The regular expression engine *)

Section MatcherFacts.
Import Regex.
Context {R : Type}.
Implicit Types (k : @continuation R) (s : jsstring) (caps : captures).

Lemma matcher_chr_cons p c s caps k :
  matcher (Chr p) (c :: s) caps k = if p c then k s caps else None.
Proof. reflexivity. Qed.

Lemma matcher_cat a b s caps k :
  matcher (Cat a b) s caps k
  = matcher a s caps (fun s1 c1 => matcher b s1 c1 k).
Proof. reflexivity. Qed.

Lemma matcher_group i a s caps k :
  matcher (Group i a) s caps k
  = matcher a s caps
      (fun s1 c1 => k s1 (set_capture c1 i (firstn (length s - length s1) s))).
Proof. reflexivity. Qed.

(** With fuel for every code unit, the star of a class is the loop
    over the string. *)
Lemma star_loop_chr p greedy k : forall s n caps,
  (length s <= n)%nat ->
  star_loop (matcher (Chr p)) greedy k n s caps = star_chr p greedy k s caps.
Proof.
  induction s as [|c s IH]; intros n caps Hn.
  - destruct n, greedy; cbn; try reflexivity; destruct (k [] caps); reflexivity.
  - destruct n as [|n]; [simpl in Hn; lia|].
    assert (Hs : (length s <= n)%nat) by (simpl in Hn; lia).
    cbn [star_loop star_chr matcher].
    assert (L : (length s <? length (c :: s))%nat = true)
      by (apply Nat.ltb_lt; simpl; lia).
    destruct (p c); rewrite ?L, ?IH by assumption; reflexivity.
Qed.

Lemma matcher_star_chr p greedy s caps k :
  matcher (Star greedy (Chr p)) s caps k = star_chr p greedy k s caps.
Proof. apply star_loop_chr. lia. Qed.

(** The greedy star takes a whole run when the continuation succeeds
    behind it. *)
Lemma star_greedy_run p k a s caps x :
  forallb p a = true ->
  match s with c :: _ => p c = false | [] => True end ->
  k s caps = Some x ->
  star_chr p true k (a ++ s) caps = Some x.
Proof.
  intros Ha Hs Hk. induction a as [|c a IH]; simpl.
  - destruct s as [|c s]; simpl; [assumption|]. rewrite Hs. assumption.
  - simpl in Ha. apply andb_true_iff in Ha as [Hc Ha].
    rewrite Hc, IH by assumption. reflexivity.
Qed.

(** The greedy star gives back what the continuation refuses. *)
Lemma star_greedy_back p k a s caps :
  forallb p a = true ->
  (forall a1 a2, a = a1 ++ a2 -> a2 <> [] -> k (a2 ++ s) caps = None) ->
  star_chr p true k s caps = None ->
  star_chr p true k (a ++ s) caps = None.
Proof.
  intros Ha Hk Hs. induction a as [|c a IH]; simpl; [assumption|].
  simpl in Ha. apply andb_true_iff in Ha as [Hc Ha].
  rewrite Hc, IH.
  - apply (Hk [] (c :: a)); [reflexivity | discriminate].
  - assumption.
  - intros a1 a2 E N. apply (Hk (c :: a1) a2); [rewrite E; reflexivity | exact N].
Qed.

(** The lazy star passes what the continuation refuses. *)
Lemma star_lazy_pass p k a s caps :
  forallb p a = true ->
  (forall a1 a2, a = a1 ++ a2 -> a2 <> [] -> k (a2 ++ s) caps = None) ->
  star_chr p false k (a ++ s) caps = star_chr p false k s caps.
Proof.
  intros Ha Hk. induction a as [|c a IH]; simpl; [reflexivity|].
  simpl in Ha. apply andb_true_iff in Ha as [Hc Ha].
  assert (E0 : k (c :: a ++ s) caps = None)
    by (apply (Hk [] (c :: a)); [reflexivity | discriminate]).
  rewrite E0, Hc. apply IH; [assumption|].
  intros a1 a2 E N. apply (Hk (c :: a1) a2); [rewrite E; reflexivity | exact N].
Qed.

Lemma star_greedy_stop p k c s caps :
  p c = false -> star_chr p true k (c :: s) caps = k (c :: s) caps.
Proof. intros H. simpl. rewrite H. reflexivity. Qed.

Lemma star_greedy_cons_none p k c s caps :
  p c = true -> star_chr p true k s caps = None -> k (c :: s) caps = None ->
  star_chr p true k (c :: s) caps = None.
Proof. intros H1 H2 H3. simpl. rewrite H1, H2. exact H3. Qed.

Lemma star_greedy_cons_back p k c s caps :
  p c = true -> star_chr p true k s caps = None ->
  star_chr p true k (c :: s) caps = k (c :: s) caps.
Proof. intros H1 H2. simpl. rewrite H1, H2. reflexivity. Qed.

Lemma star_greedy_halt p k s caps :
  match s with c :: _ => p c = false | [] => True end ->
  star_chr p true k s caps = k s caps.
Proof. destruct s as [|c s]; [reflexivity|]. apply star_greedy_stop. Qed.

Lemma star_lazy_stop p k s caps x :
  k s caps = Some x -> star_chr p false k s caps = Some x.
Proof. intros H. destruct s; simpl; rewrite H; reflexivity. Qed.

Lemma star_lazy_none p k a caps :
  forallb p a = true ->
  (forall a1 a2, a = a1 ++ a2 -> k a2 caps = None) ->
  star_chr p false k a caps = None.
Proof.
  intros Ha Hk. induction a as [|c a IH]; simpl.
  - apply (Hk [] []). reflexivity.
  - rewrite (Hk [] (c :: a)) by reflexivity.
    simpl in Ha. apply andb_true_iff in Ha as [Hc Ha]. rewrite Hc.
    apply IH; [assumption|]. intros a1 a2 E. apply (Hk (c :: a1) a2).
    rewrite E. reflexivity.
Qed.

(** A literal matches where the string starts with it. *)
Lemma matcher_lit l : forall s caps k,
  matcher (lit_units l) s caps k
  = if starts_with l s then k (skipn (length l) s) caps else None.
Proof.
  induction l as [|c l IH]; intros s caps k; [reflexivity|].
  destruct l as [|d l].
  - destruct s as [|x s]; simpl; [reflexivity|].
    rewrite Z.eqb_sym. destruct (c =? x); reflexivity.
  - change (lit_units (c :: d :: l)) with (Cat (chr c) (lit_units (d :: l))).
    rewrite matcher_cat. destruct s as [|x s]; [reflexivity|].
    unfold chr at 1. rewrite matcher_chr_cons.
    cbn [starts_with length skipn]. rewrite Z.eqb_sym.
    destruct (c =? x); [apply IH | reflexivity].
Qed.

Lemma matcher_lit_app l s caps k :
  matcher (lit_units l) (l ++ s) caps k = k s caps.
Proof.
  rewrite matcher_lit, starts_with_app, skipn_app, skipn_all, Nat.sub_diag.
  reflexivity.
Qed.

End MatcherFacts.

(** Decide the closed tests of a goal. *)
Ltac decide_tests :=
  cbv beta;
  repeat match goal with
         | |- context [if ?b then _ else _] =>
           let v := eval vm_compute in b in
           match v with
           | true => change b with true
           | false => change b with false
           end; cbv iota
         end.

Ltac chr_step := rewrite matcher_chr_cons; decide_tests.
Ltac cat_step := rewrite matcher_cat.

Section SearchFacts.
Import Regex.
Implicit Types (r : regex) (s a : jsstring).

Lemma miss_nil r : miss r [].
Proof.
  intros a1 a2 t E N. symmetry in E. apply app_eq_nil in E as [_ E].
  contradiction.
Qed.

Lemma miss_app r a b : miss r a -> miss r b -> miss r (a ++ b).
Proof.
  intros Ha Hb a1 a2 t E N.
  apply app_eq_app in E as [l [[E1 E2]|[E1 E2]]].
  - destruct l as [|c l].
    + simpl in E2. subst a2. apply (Hb [] b); [reflexivity | exact N].
    + subst a2. rewrite <- app_assoc.
      apply (Ha a1 (c :: l)); [exact E1 | discriminate].
  - apply (Hb l a2); [exact E2 | exact N].
Qed.

Lemma miss_cons r c a :
  (forall t, matcher r (c :: a ++ t) [] matched_here = None) ->
  miss r a -> miss r (c :: a).
Proof.
  intros Hc Ha a1 a2 t E N. destruct a1 as [|x a1]; simpl in E.
  - subst a2. apply Hc.
  - injection E as _ E. apply (Ha a1 a2); assumption.
Qed.

(** A pattern that no code unit of a class can begin matches nowhere
    inside a text of the class. *)
Lemma miss_class r (q : Z -> bool) a :
  (forall c t, q c = true -> matcher r (c :: t) [] matched_here = None) ->
  forallb q a = true -> miss r a.
Proof.
  intros Hq Ha a1 a2 t E N. destruct a2 as [|c a2]; [contradiction|].
  apply Hq. subst a. rewrite forallb_app in Ha.
  apply andb_true_iff in Ha as [_ Ha]. simpl in Ha.
  apply andb_true_iff in Ha as [Ha _]. exact Ha.
Qed.

Lemma miss_flat_map {A} r (f : A -> jsstring) (l : list A) :
  (forall x, In x l -> miss r (f x)) -> miss r (flat_map f l).
Proof.
  induction l as [|x l IH]; intros H; simpl; [apply miss_nil|].
  apply miss_app; [apply H; left; reflexivity|].
  apply IH. intros y Hy. apply H. right. exact Hy.
Qed.

Lemma search_from_miss r a : forall passed s,
  miss r a -> search_from r passed (a ++ s) = search_from r (rev a ++ passed) s.
Proof.
  induction a as [|c a IH]; intros passed s H; [reflexivity|].
  assert (E0 : matcher r (c :: a ++ s) [] matched_here = None)
    by (apply (H [] (c :: a) s); [reflexivity | discriminate]).
  cbn [app search_from]. rewrite E0, IH.
  - cbn [rev]. rewrite <- app_assoc. reflexivity.
  - intros a1 a2 t E N. apply (H (c :: a1) a2); [rewrite E; reflexivity | exact N].
Qed.

Lemma search_from_here r passed s s1 c1 :
  matcher r s [] matched_here = Some (s1, c1) ->
  search_from r passed s
  = Some {| before := rev passed;
            matched := firstn (length s - length s1) s;
            after := s1; groups := c1 |}.
Proof. intros H. destruct s; cbn [search_from]; rewrite H; reflexivity. Qed.

(** The leftmost match: behind a text where the pattern matches
    nowhere, at the first position where it matches. *)
Lemma search_hit r a s s1 c1 :
  miss r a ->
  matcher r s [] matched_here = Some (s1, c1) ->
  search r (a ++ s)
  = Some {| before := a; matched := firstn (length s - length s1) s;
            after := s1; groups := c1 |}.
Proof.
  intros Ha Hs. unfold search. rewrite search_from_miss by assumption.
  rewrite (search_from_here _ _ _ _ _ Hs), app_nil_r, rev_involutive.
  reflexivity.
Qed.

Lemma search_none r a :
  miss r a -> matcher r [] [] matched_here = None -> search r a = None.
Proof.
  intros Ha He. unfold search. rewrite <- (app_nil_r a).
  rewrite search_from_miss by assumption. cbn [search_from].
  rewrite He. reflexivity.
Qed.

Lemma exec_all_from_fuel r : forall n m s,
  (length s < n)%nat -> (length s < m)%nat ->
  exec_all_from n r s = exec_all_from m r s.
Proof.
  induction n as [|n IH]; intros m s Hn Hm; [lia|].
  destruct m as [|m]; [lia|]. cbn [exec_all_from].
  destruct (search r s) as [f|]; [|reflexivity]. f_equal.
  destruct (Nat.ltb_spec (length (after f)) (length s)); [|reflexivity].
  apply IH; lia.
Qed.

Lemma exec_all_step r s f :
  search r s = Some f -> (length (after f) < length s)%nat ->
  exec_all r s = f :: exec_all r (after f).
Proof.
  intros Hf Hl. unfold exec_all at 1.
  change (exec_all_from (S (length s)) r s)
    with (match search r s with
          | None => []
          | Some f =>
            f :: (if (length (after f) <? length s)%nat
                  then exec_all_from (length s) r (after f) else [])
          end).
  rewrite Hf. apply Nat.ltb_lt in Hl as Hb. rewrite Hb. f_equal.
  apply exec_all_from_fuel; lia.
Qed.

Lemma exec_all_hit r a s s1 c1 :
  miss r a ->
  matcher r s [] matched_here = Some (s1, c1) ->
  (length s1 < length s)%nat ->
  exec_all r (a ++ s)
  = {| before := a; matched := firstn (length s - length s1) s;
       after := s1; groups := c1 |} :: exec_all r s1.
Proof.
  intros Ha Hs Hl.
  rewrite (exec_all_step r _ _ (search_hit r a s s1 c1 Ha Hs)).
  - reflexivity.
  - cbn [after]. rewrite length_app. lia.
Qed.

Lemma exec_all_here r s s1 c1 :
  matcher r s [] matched_here = Some (s1, c1) ->
  (length s1 < length s)%nat ->
  exec_all r s
  = {| before := []; matched := firstn (length s - length s1) s;
       after := s1; groups := c1 |} :: exec_all r s1.
Proof. apply (exec_all_hit r []), miss_nil. Qed.

Lemma search_here r s s1 c1 :
  matcher r s [] matched_here = Some (s1, c1) ->
  search r s
  = Some {| before := []; matched := firstn (length s - length s1) s;
            after := s1; groups := c1 |}.
Proof. apply (search_hit r []), miss_nil. Qed.

Lemma exec_all_none r a :
  miss r a -> matcher r [] [] matched_here = None -> exec_all r a = [].
Proof.
  intros Ha He. unfold exec_all.
  change (exec_all_from (S (length a)) r a)
    with (match search r a with
          | None => []
          | Some f =>
            f :: (if (length (after f) <? length a)%nat
                  then exec_all_from (length a) r (after f) else [])
          end).
  rewrite (search_none r a Ha He). reflexivity.
Qed.

Lemma replace_all_hit r rep a s s1 c1 :
  miss r a ->
  matcher r s [] matched_here = Some (s1, c1) ->
  (length s1 < length s)%nat ->
  replace_all r rep (a ++ s) = a ++ rep ++ replace_all r rep s1.
Proof.
  intros Ha Hs Hl. unfold replace_all.
  rewrite (exec_all_hit r a s s1 c1 Ha Hs Hl).
  cbn [flat_map before rev]. rewrite <- !app_assoc. do 2 f_equal.
  f_equal. destruct (rev (exec_all r s1)); reflexivity.
Qed.

Lemma replace_all_none r rep a :
  miss r a -> matcher r [] [] matched_here = None -> replace_all r rep a = a.
Proof.
  intros Ha He. unfold replace_all. rewrite (exec_all_none r a Ha He).
  reflexivity.
Qed.

Lemma replace_first_hit r rep a s s1 c1 :
  miss r a ->
  matcher r s [] matched_here = Some (s1, c1) ->
  replace_first r rep (a ++ s) = a ++ rep ++ s1.
Proof.
  intros Ha Hs. unfold replace_first.
  rewrite (search_hit r a s s1 c1 Ha Hs). reflexivity.
Qed.

End SearchFacts.

Section AttributeFacts.
Import Regex OlxParser.

Lemma firstn_consumed (a s w : jsstring) :
  w = a ++ s -> firstn (length w - length s) w = a.
Proof.
  intros ->.
  rewrite length_app, Nat.add_sub, firstn_app, Nat.sub_diag, firstn_all.
  cbn [firstn]. apply app_nil_r.
Qed.

Lemma attr_hit (name value rest : jsstring) :
  name <> [] -> forallb attr_name_unit name = true ->
  forallb (fun c => negb (c =? 34)) value = true ->
  matcher re_attr (name ++ 61 :: 34 :: value ++ 34 :: rest) [] matched_here
  = Some (rest, [(1%nat, name); (2%nat, value)]).
Proof.
  intros Hne Hname Hvalue. destruct name as [|c name]; [contradiction|].
  cbn [forallb] in Hname. apply andb_true_iff in Hname as [Hc Hname].
  unfold re_attr, seq_of, plus, ws, chr, notchr.
  rewrite matcher_cat, matcher_group, matcher_cat.
  cbn [app]. rewrite matcher_chr_cons.
  rewrite Hc. rewrite matcher_star_chr.
  erewrite star_greedy_run; [reflexivity | exact Hname | reflexivity |].
  cbv beta. rewrite (firstn_consumed (c :: name)) by reflexivity.
  rewrite matcher_cat, matcher_star_chr, star_greedy_stop by reflexivity.
  cat_step. chr_step.
  rewrite matcher_cat, matcher_star_chr, star_greedy_stop by reflexivity.
  cat_step. chr_step.
  rewrite matcher_cat, matcher_group, matcher_star_chr.
  rewrite star_lazy_pass.
  - erewrite star_lazy_stop; [reflexivity|].
    rewrite (firstn_consumed value) by reflexivity.
    chr_step. reflexivity.
  - exact Hvalue.
  - intros a1 a2 E N. destruct a2 as [|x a2]; [contradiction|].
    cbn [app]. rewrite matcher_chr_cons. cbv beta.
    subst value. rewrite forallb_app in Hvalue.
    apply andb_true_iff in Hvalue as [_ Hv]. cbn [forallb] in Hv.
    apply andb_true_iff in Hv as [Hx _].
    apply negb_true_iff in Hx. rewrite Hx. reflexivity.
Qed.

End AttributeFacts.

Section OpenTagFacts.
Import Regex OlxParser.

Lemma forallb_suffix {A} (p : A -> bool) (a a1 a2 : list A) :
  a = a1 ++ a2 -> forallb p a = true -> forallb p a2 = true.
Proof.
  intros -> H. rewrite forallb_app in H. apply andb_true_iff in H. tauto.
Qed.

Lemma suffix_last {A} (a a1 a2 : list A) (z : A) :
  a ++ [z] = a1 ++ a2 -> a2 <> [] -> exists a3, a2 = a3 ++ [z].
Proof.
  intros E N. destruct (exists_last N) as [a3 [y ->]].
  rewrite app_assoc in E. apply app_inj_tail in E as [_ ->].
  exists a3. reflexivity.
Qed.

(** Behind the tag name and one white space, the lazy group of the
    pattern of the opening tag takes the attributes up to the end of
    the tag. *)
Lemma open_tag_attributes (inner close rest : jsstring) (caps : captures)
  (w : jsstring) :
  forallb (fun c => negb (c =? 62)) inner = true ->
  close = [62] \/ close = [47; 62] ->
  w = (inner ++ [34]) ++ close ++ rest ->
  matcher (Cat (Group 1 (Star false (notchr 62))) (Cat (opt (chr 47)) (chr 62)))
    w caps matched_here
  = Some (rest, set_capture caps 1 (inner ++ [34])).
Proof.
  intros Hinner Hclose ->.
  assert (Hall : forallb (fun c => negb (c =? 62)) (inner ++ [34]) = true).
  { rewrite forallb_app, Hinner. reflexivity. }
  unfold opt, chr, notchr.
  rewrite matcher_cat, matcher_group, matcher_star_chr, star_lazy_pass.
  - erewrite star_lazy_stop; [reflexivity|].
    rewrite (firstn_consumed (inner ++ [34])) by reflexivity.
    rewrite matcher_cat. cbn [matcher].
    destruct Hclose as [-> | ->]; cbn [app]; decide_tests; reflexivity.
  - exact Hall.
  - intros a1 a2 E N.
    destruct (suffix_last _ _ _ _ E N) as [a3 ->].
    pose proof (forallb_suffix _ _ _ _ E Hall) as H2.
    rewrite matcher_cat. cbn [matcher].
    destruct a3 as [|x a3]; cbn [app]; [decide_tests; reflexivity|].
    cbn [app forallb] in H2. apply andb_true_iff in H2 as [Hx H2].
    apply negb_true_iff in Hx. cbv beta. rewrite Hx.
    destruct (x =? 47); [|reflexivity].
    destruct a3 as [|y a3]; cbn [app]; [decide_tests; reflexivity|].
    cbn [app forallb] in H2. apply andb_true_iff in H2 as [Hy H2].
    apply negb_true_iff in Hy. rewrite Hy. reflexivity.
Qed.

Lemma open_tag_hit (tag inner close rest : jsstring) :
  tag <> [] -> forallb is_word tag = true ->
  forallb (fun c => negb (c =? 62)) inner = true ->
  close = [62] \/ close = [47; 62] ->
  matcher re_open_tag (60 :: tag ++ 32 :: (inner ++ [34]) ++ close ++ rest)
    [] matched_here
  = Some (rest, [(1%nat, inner ++ [34])]).
Proof.
  intros Hne Htag Hinner Hclose. destruct tag as [|c tag]; [contradiction|].
  cbn [forallb] in Htag. apply andb_true_iff in Htag as [Hc Htag].
  unfold re_open_tag. cbn [seq_of]. unfold plus, word, ws.
  cat_step. unfold chr at 1. chr_step.
  rewrite !matcher_cat. cbn [app]. rewrite matcher_chr_cons, Hc.
  rewrite matcher_star_chr.
  erewrite star_greedy_run; [reflexivity | exact Htag | reflexivity |].
  cbv beta. cat_step. chr_step.
  apply (open_tag_attributes inner close rest []); auto.
Qed.

End OpenTagFacts.

Section AttributeLists.
Import Regex OlxParser XmlText.

Lemma fold_left_map {A B C} (f : A -> C -> A) (g : B -> C) (l : list B) :
  forall a, fold_left f (List.map g l) a = fold_left (fun a x => f a (g x)) l a.
Proof. induction l as [|x l IH]; intros a; simpl; auto. Qed.

Lemma forallb_weaken {A} (p q : A -> bool) (l : list A) :
  (forall x, p x = true -> q x = true) ->
  forallb p l = true -> forallb q l = true.
Proof.
  intros Hpq. induction l as [|x l IH]; simpl; [reflexivity|].
  intros H. apply andb_true_iff in H as [Hx H].
  rewrite (Hpq x Hx), IH by assumption. reflexivity.
Qed.

Lemma attr_ok_parts (a : jsstring * jsstring) :
  attr_ok a = true ->
  fst a <> [] /\ forallb attr_name_unit (fst a) = true
  /\ forallb (fun c => negb (c =? 34)) (snd a) = true
  /\ forallb (fun c => negb (c =? 62)) (snd a) = true.
Proof.
  unfold attr_ok. intros H.
  apply andb_true_iff in H as [H H3]. apply andb_true_iff in H as [H1 H2].
  split; [destruct (fst a); [discriminate H1 | discriminate]|].
  split; [exact H2|].
  split; (eapply forallb_weaken; [|exact H3]); cbv beta; intros c Hc;
    apply andb_true_iff in Hc; tauto.
Qed.

Lemma attr_text_hit (a : jsstring * jsstring) (rest : jsstring) :
  attr_ok a = true ->
  matcher re_attr (attr_text a ++ rest) [] matched_here
  = Some (rest, [(1%nat, fst a); (2%nat, snd a)]).
Proof.
  intros H. destruct (attr_ok_parts a H) as [H1 [H2 [H3 _]]].
  unfold attr_text. rewrite <- !app_assoc.
  apply (attr_hit (fst a) (snd a) rest); assumption.
Qed.

Lemma attr_text_length (a : jsstring * jsstring) (rest : jsstring) :
  (length rest < length (attr_text a ++ rest))%nat.
Proof. unfold attr_text. rewrite !length_app. simpl. lia. Qed.

Lemma miss_attr_space : miss re_attr [32].
Proof. apply miss_cons; [reflexivity | apply miss_nil]. Qed.

Lemma exec_all_attrs (l : list (jsstring * jsstring)) :
  forallb attr_ok l = true ->
  List.map groups
    (exec_all re_attr (flat_map (fun b => str " " ++ attr_text b) l))
  = List.map (fun b => [(1%nat, fst b); (2%nat, snd b)]) l.
Proof.
  induction l as [|a l IH]; intros H.
  - rewrite exec_all_none; [reflexivity | apply miss_nil | reflexivity].
  - cbn [forallb] in H. apply andb_true_iff in H as [Ha H].
    cbn [flat_map]. rewrite <- !app_assoc.
    rewrite (exec_all_hit re_attr (str " ") _ _ _ miss_attr_space
               (attr_text_hit a _ Ha) (attr_text_length a _)).
    cbn [List.map groups]. rewrite IH by assumption. reflexivity.
Qed.

Lemma readAttrs_text (l : list (jsstring * jsstring)) :
  forallb attr_ok l = true ->
  readAttrs [] (attrs_text l) = attrs_object l.
Proof.
  intros H. unfold readAttrs, attrs_object.
  rewrite <- (fold_left_map
                (fun m g => JsMap.set m (capture g 1)
                              (decodeXmlEntities (capture g 2))) groups).
  destruct l as [|a l].
  - rewrite exec_all_none; [reflexivity | apply miss_nil | reflexivity].
  - cbn [forallb] in H. apply andb_true_iff in H as [Ha H].
    cbn [attrs_text].
    rewrite (exec_all_here re_attr _ _ _
               (attr_text_hit a _ Ha) (attr_text_length a _)).
    cbn [List.map groups]. rewrite exec_all_attrs by assumption.
    cbn [fold_left]. rewrite fold_left_map. reflexivity.
Qed.

End AttributeLists.

Section TagFacts.
Import Regex OlxParser XmlText.

Lemma attr_name_unit_not_gt (c : Z) :
  attr_name_unit c = true -> negb (c =? 62) = true.
Proof.
  unfold attr_name_unit, is_word, is_letter, is_lower, is_upper, is_digit.
  intros H. apply negb_true_iff, Z.eqb_neq. intros ->. discriminate H.
Qed.

Lemma attr_text_no_gt (a : jsstring * jsstring) :
  attr_ok a = true -> forallb (fun c => negb (c =? 62)) (attr_text a) = true.
Proof.
  intros H. destruct (attr_ok_parts a H) as [_ [H2 [_ H4]]].
  unfold attr_text. rewrite !forallb_app, H4.
  rewrite (forallb_weaken _ _ _ attr_name_unit_not_gt H2). reflexivity.
Qed.

Lemma attrs_text_no_gt (l : list (jsstring * jsstring)) :
  forallb attr_ok l = true ->
  forallb (fun c => negb (c =? 62)) (attrs_text l) = true.
Proof.
  destruct l as [|a l]; [reflexivity|]. cbn [forallb attrs_text]. intros H.
  apply andb_true_iff in H as [Ha H].
  rewrite forallb_app, (attr_text_no_gt a Ha). cbn [andb].
  induction l as [|b l IH]; [reflexivity|].
  cbn [forallb] in H. apply andb_true_iff in H as [Hb H].
  cbn [flat_map]. rewrite !forallb_app, (attr_text_no_gt b Hb), IH by assumption.
  reflexivity.
Qed.

Lemma attrs_text_last (l : list (jsstring * jsstring)) :
  l <> [] -> exists inner, attrs_text l = inner ++ [34].
Proof.
  destruct l as [|a l]; [contradiction|]. intros _. cbn [attrs_text].
  revert a. induction l as [|b l IH]; intros a.
  - exists (fst a ++ str "=" ++ dq ++ snd a). unfold attr_text.
    rewrite app_nil_r, <- !app_assoc. reflexivity.
  - cbn [flat_map]. destruct (IH b) as [inner E].
    exists (attr_text a ++ str " " ++ inner).
    rewrite <- !app_assoc. rewrite E. reflexivity.
Qed.

(** The attributes of the first tag of a text that begins with the
    tag. *)
Lemma parseXmlAttributes_tag (tag : jsstring) (l : list (jsstring * jsstring))
  (close rest : jsstring) :
  tag <> [] -> forallb is_word tag = true ->
  l <> [] -> forallb attr_ok l = true ->
  close = str ">" \/ close = str "/>" ->
  parseXmlAttributes (str "<" ++ tag ++ str " " ++ attrs_text l ++ close ++ rest)
  = attrs_object l.
Proof.
  intros Ht1 Ht2 Hl1 Hl2 Hclose.
  destruct (attrs_text_last l Hl1) as [inner E].
  pose proof (attrs_text_no_gt l Hl2) as Hgt. rewrite E in Hgt.
  rewrite forallb_app in Hgt. apply andb_true_iff in Hgt as [Hgt _].
  unfold parseXmlAttributes.
  assert (M : matcher re_open_tag
                (str "<" ++ tag ++ str " " ++ attrs_text l ++ close ++ rest)
                [] matched_here
              = Some (rest, [(1%nat, attrs_text l)])).
  { rewrite E. apply (open_tag_hit tag inner close rest); assumption. }
  rewrite (search_here _ _ _ _ M). cbn [groups].
  apply readAttrs_text. assumption.
Qed.

End TagFacts.

Section EscapeFacts.
Import OlxParser Generators RoundTrip.

Lemma esc_units (s : jsstring) : esc s = flat_map escape_unit s.
Proof. apply escapeXmlStr_units. Qed.

Lemma esc_app (a b : jsstring) : esc (a ++ b) = esc a ++ esc b.
Proof. rewrite !esc_units. apply flat_map_app. Qed.

Lemma esc_no_special (s : jsstring) :
  forallb (fun c => negb (xml_special c)) (esc s) = true.
Proof.
  rewrite esc_units. apply forallb_forall. intros c Hc.
  pose proof (escaped_no_special s) as H. rewrite Forall_forall in H.
  rewrite (H c Hc). reflexivity.
Qed.

(** A text without the five characters is written as it is. *)
Lemma esc_element_text (s : jsstring) : element_text s = true -> esc s = s.
Proof.
  rewrite esc_units. unfold element_text.
  induction s as [|c s IH]; [reflexivity|]. cbn [forallb flat_map].
  intros H. apply andb_true_iff in H as [Hc H]. rewrite IH by assumption.
  apply negb_true_iff, orb_false_iff in Hc as [H1 H2].
  unfold xml_special in H2.
  repeat (apply orb_false_iff in H2 as [H2 ?]).
  unfold escape_unit.
  repeat match goal with E : (_ =? _) = false |- _ => rewrite E; clear E end.
  reflexivity.
Qed.

Lemma replaceAll_cons_miss (pat rep : jsstring) (c : Z) (s : jsstring) :
  starts_with pat (c :: s) = false ->
  replaceAll pat rep (c :: s) = c :: replaceAll pat rep s.
Proof. unfold replaceAll. cbn [replace_all_from]. intros ->. reflexivity. Qed.

Lemma replace_all_from_skip (pat rep : jsstring) : forall a s,
  replace_all_from pat rep (length a) (a ++ s) = replaceAll pat rep s.
Proof. induction a as [|x a IH]; intros s; [reflexivity|]. apply IH. Qed.

Lemma replaceAll_hit (pat rep s : jsstring) :
  pat <> [] -> replaceAll pat rep (pat ++ s) = rep ++ replaceAll pat rep s.
Proof.
  destruct pat as [|p pat]; [contradiction|]. intros _.
  unfold replaceAll at 1. cbn [app replace_all_from].
  change (p :: pat ++ s) with ((p :: pat) ++ s). rewrite starts_with_app.
  cbn [length]. rewrite Nat.sub_succ, Nat.sub_0_r, replace_all_from_skip.
  reflexivity.
Qed.

Lemma replaceAll_nil (pat rep : jsstring) : replaceAll pat rep [] = [].
Proof. reflexivity. Qed.

Ltac pass_units :=
  repeat first
    [ rewrite replaceAll_cons_miss by reflexivity
    | match goal with
      | |- context [replaceAll ?p ?r (38 :: ?t)] =>
        match p with
        | [38; 97; 109; 112; 59] =>
          match t with 97 :: 109 :: 112 :: 59 :: ?u =>
            change (38 :: t) with (p ++ u) end
        | [38; 108; 116; 59] =>
          match t with 108 :: 116 :: 59 :: ?u =>
            change (38 :: t) with (p ++ u) end
        | [38; 103; 116; 59] =>
          match t with 103 :: 116 :: 59 :: ?u =>
            change (38 :: t) with (p ++ u) end
        | [38; 113; 117; 111; 116; 59] =>
          match t with 113 :: 117 :: 111 :: 116 :: 59 :: ?u =>
            change (38 :: t) with (p ++ u) end
        | [38; 97; 112; 111; 115; 59] =>
          match t with 97 :: 112 :: 111 :: 115 :: 59 :: ?u =>
            change (38 :: t) with (p ++ u) end
        end; rewrite replaceAll_hit by discriminate; cbn [app]
      end ].

(** Reading undoes writing, one code unit at a time, for a code unit
    other than the ampersand. *)
Lemma decode_escape_unit (c : Z) (t : jsstring) :
  c <> 38 ->
  decodeXmlEntities (escape_unit c ++ t) = c :: decodeXmlEntities t.
Proof.
  intros N. unfold decodeXmlEntities, escape_unit, dq.
  change (str "&apos;") with [38; 97; 112; 111; 115; 59].
  change (str "&quot;") with [38; 113; 117; 111; 116; 59].
  change (str "&gt;") with [38; 103; 116; 59].
  change (str "&lt;") with [38; 108; 116; 59].
  change (str "&amp;") with [38; 97; 109; 112; 59].
  change (str "'") with [39]. change (str ">") with [62].
  change (str "<") with [60]. change (str "&") with [38].
  apply Z.eqb_neq in N as N'. rewrite N'.
  destruct (Z.eqb_spec c 60) as [->|N2]; [cbn [app]; pass_units; reflexivity|].
  destruct (Z.eqb_spec c 62) as [->|N3]; [cbn [app]; pass_units; reflexivity|].
  destruct (Z.eqb_spec c 34) as [->|N4]; [cbn [app]; pass_units; reflexivity|].
  destruct (Z.eqb_spec c 39) as [->|N5]; [cbn [app]; pass_units; reflexivity|].
  cbn [app].
  assert (M : forall p r u, starts_with (38 :: p) (c :: u) = false
                            -> replaceAll (38 :: p) r (c :: u)
                               = c :: replaceAll (38 :: p) r u)
    by (intros; apply replaceAll_cons_miss; assumption).
  assert (S : forall p u, starts_with (38 :: p) (c :: u) = false).
  { intros p u. cbn [starts_with]. rewrite Z.eqb_sym, N'. reflexivity. }
  rewrite !M by apply S. reflexivity.
Qed.

Lemma decode_esc_app (s t : jsstring) :
  no_amp s = true ->
  decodeXmlEntities (esc s ++ t) = s ++ decodeXmlEntities t.
Proof.
  rewrite esc_units. unfold no_amp.
  induction s as [|c s IH]; intros H; [reflexivity|].
  cbn [forallb] in H. apply andb_true_iff in H as [Hc H].
  cbn [flat_map]. rewrite <- app_assoc, decode_escape_unit.
  - rewrite IH by assumption. reflexivity.
  - apply negb_true_iff, Z.eqb_neq in Hc. exact Hc.
Qed.

(** An attribute value without the ampersand is read back as it was
    written. *)
Lemma decode_esc (s : jsstring) :
  no_amp s = true -> decodeXmlEntities (esc s) = s.
Proof.
  intros H. rewrite <- (app_nil_r (esc s)), decode_esc_app by assumption.
  apply app_nil_r.
Qed.

End EscapeFacts.

Section ChildFacts.
Import Regex OlxParser XmlText.

(** A literal whose last code unit is outside a class, and in which a
    stopper does not occur, does not begin a text of the class that
    the stopper ends. *)
Lemma starts_with_blocked (q : Z -> bool) (z e : Z) (t : jsstring) :
  (forall c, q c = true -> (e =? c) = false) ->
  forall (w p0 : jsstring),
    forallb (fun x => negb (x =? z)) (p0 ++ [e]) = true ->
    forallb q w = true ->
    starts_with (p0 ++ [e]) (w ++ z :: t) = false.
Proof.
  intros He. induction w as [|c w IH]; intros p0 Hp Hw.
  - destruct p0 as [|h p0]; cbn [app starts_with forallb] in *;
      apply andb_true_iff in Hp as [Hh _]; apply negb_true_iff in Hh;
      rewrite Hh; reflexivity.
  - cbn [forallb] in Hw. apply andb_true_iff in Hw as [Hc Hw].
    destruct p0 as [|h p0]; cbn [app starts_with].
    + rewrite (He c Hc). reflexivity.
    + cbn [app forallb] in Hp. apply andb_true_iff in Hp as [_ Hp].
      rewrite (IH p0 Hp Hw). apply andb_false_r.
Qed.

Lemma id_unit_plain (c : Z) :
  id_unit c = true ->
  (c =? 34) = false /\ (c =? 62) = false /\ (c =? 61) = false
  /\ (c =? 60) = false /\ (c =? 38) = false /\ (c =? 39) = false.
Proof.
  unfold id_unit, is_lower, is_digit. intros H.
  repeat split; apply Z.eqb_neq; intros ->; discriminate H.
Qed.

Lemma child_tail_none (k : @continuation (jsstring * captures))
  (id t : jsstring) (caps : captures) :
  forallb id_unit id = true ->
  (forall s c, starts_with (str "url_name=") s = false -> k s c = None) ->
  star_chr (fun x => negb (x =? 62)) true k (id ++ 34 :: 47 :: 62 :: t) caps
  = None.
Proof.
  intros Hid Hk. apply star_greedy_back.
  - eapply forallb_weaken; [|exact Hid]. intros c Hc.
    destruct (id_unit_plain c Hc) as [_ [-> _]]. reflexivity.
  - intros a1 a2 E N. apply Hk.
    apply (starts_with_blocked id_unit 34 61 (47 :: 62 :: t)
             (fun c Hc => eq_trans (Z.eqb_sym 61 c)
                            (proj1 (proj2 (proj2 (id_unit_plain c Hc)))))
             a2 (str "url_name")); [reflexivity|].
    exact (forallb_suffix _ _ _ _ E Hid).
  - repeat (apply star_greedy_cons_none;
            [reflexivity | | apply Hk; reflexivity]).
    rewrite star_greedy_stop by reflexivity. apply Hk. reflexivity.
Qed.

Lemma child_hit (tag : string) (id rest : jsstring) :
  forallb id_unit id = true ->
  matcher (re_child tag)
    (str "<" ++ str tag ++ str " url_name=" ++ dq ++ id ++ dq ++ str "/>"
     ++ rest) [] matched_here
  = Some (str "/>" ++ rest, [(1%nat, id)]).
Proof.
  intros Hid. unfold re_child, lit. cbn [seq_of]. unfold ws, chr, notchr.
  change (str "<" ++ ?x) with (60 :: x).
  cat_step. chr_step. cat_step. rewrite matcher_lit_app.
  change (str " url_name=" ++ ?x) with (32 :: str "url_name=" ++ x).
  cat_step. chr_step. cat_step. rewrite matcher_star_chr.
  change (str "url_name=" ++ dq ++ id ++ dq ++ str "/>" ++ rest)
    with (117 :: 114 :: 108 :: 95 :: 110 :: 97 :: 109 :: 101 :: 61 :: 34
          :: (id ++ 34 :: 47 :: 62 :: rest)).
  assert (Hk : forall s c,
             starts_with (str "url_name=") s = false ->
             matcher
               (Cat (lit_units (str "url_name="))
                  (Cat (Chr (fun x : Z => x =? 34))
                     (Cat (Group 1 (Star true (Chr (fun x : Z => negb (x =? 34)))))
                        (Chr (fun x : Z => x =? 34)))))
               s c matched_here = None).
  { intros s c H. rewrite matcher_cat, matcher_lit, H. reflexivity. }
  rewrite star_greedy_cons_back.
  - cat_step.
    change (117 :: 114 :: 108 :: 95 :: 110 :: 97 :: 109 :: 101 :: 61 :: ?x)
      with (str "url_name=" ++ x).
    rewrite matcher_lit_app. cat_step. chr_step.
    cat_step. rewrite matcher_group, matcher_star_chr.
    erewrite star_greedy_run; [reflexivity | | reflexivity |].
    + eapply forallb_weaken; [|exact Hid]. intros c Hc.
      destruct (id_unit_plain c Hc) as [-> _]. reflexivity.
    + cbv beta. chr_step.
      rewrite (firstn_consumed id) by reflexivity. reflexivity.
  - reflexivity.
  - repeat (apply star_greedy_cons_none;
            [reflexivity | | apply Hk; reflexivity]).
    apply child_tail_none; assumption.
Qed.

End ChildFacts.

(** The pattern matches nowhere inside a text: the proof follows the
    text, part by part. *)
Ltac solve_miss_with plain unfolder :=
  let rec go :=
    lazymatch goal with
    | |- Regex.miss _ [] => apply miss_nil
    | |- Regex.miss _ (_ :: _) =>
      apply miss_cons; [intro; reflexivity | go]
    | |- Regex.miss _ (_ ++ _) => apply miss_app; go
    | |- Regex.miss _ (str ?s) =>
      let v := eval vm_compute in (str s) in change (str s) with v; go
    | |- Regex.miss _ dq => unfold dq; go
    | |- Regex.miss _ (flat_map _ _) =>
      apply miss_flat_map; intros ? ?; go
    | |- Regex.miss _ (if ?b then _ else _) => destruct b; go
    | |- Regex.miss _ _ => first [ plain | progress unfolder; go ]
    end in
  go.

Section PlainFacts.
Import Regex OlxParser XmlText.

Lemma miss_plain r a :
  (forall c t, (c =? 60) = false ->
               matcher r (c :: t) [] matched_here = None) ->
  forallb (fun c => negb (c =? 60)) a = true -> miss r a.
Proof.
  intros Hr Ha. apply (miss_class r (fun c => negb (c =? 60))); [|exact Ha].
  intros c t Hc. apply Hr. apply negb_true_iff. exact Hc.
Qed.

Lemma begins_lt_child tag c t :
  (c =? 60) = false -> matcher (re_child tag) (c :: t) [] matched_here = None.
Proof.
  intros H. unfold re_child, chr. cbn [seq_of]. rewrite matcher_cat.
  rewrite matcher_chr_cons. cbv beta. rewrite H. reflexivity.
Qed.

Lemma exec_all_children (tag : string) (footer : jsstring) :
  miss (re_child tag) footer ->
  forall (ids : list jsstring) (pre : jsstring),
    miss (re_child tag) pre ->
    forallb (forallb id_unit) ids = true ->
    List.map groups
      (exec_all (re_child tag)
         (pre ++ flat_map (child_line tag) ids ++ footer))
    = List.map (fun id => [(1%nat, id)]) ids.
Proof.
  intros Hf. induction ids as [|id ids IH]; intros pre Hpre Hids.
  - rewrite exec_all_none; [reflexivity | | reflexivity].
    apply miss_app; assumption.
  - cbn [forallb] in Hids. apply andb_true_iff in Hids as [Hid Hids].
    cbn [flat_map]. unfold child_line at 1. rewrite <- !app_assoc.
    change (str "  <" ++ ?x) with (str "  " ++ str "<" ++ x).
    rewrite (app_assoc pre (str "  ")).
    erewrite exec_all_hit; cycle 1.
    + apply miss_app; [assumption | solve_miss_with fail idtac].
    + apply (child_hit tag id ([10] ++ flat_map (child_line tag) ids ++ footer)).
      assumption.
    + rewrite !length_app. simpl. lia.
    + cbn [List.map groups]. f_equal.
      change (str "/>" ++ [10] ++ ?x) with ((str "/>" ++ [10]) ++ x).
      apply IH; [|assumption]. solve_miss_with fail idtac.
Qed.

Lemma extractChildIds_lines (tag : string) (header footer : jsstring)
  (ids : list jsstring) :
  miss (re_child tag) header -> miss (re_child tag) footer ->
  forallb (forallb id_unit) ids = true ->
  extractChildIds (header ++ flat_map (child_line tag) ids ++ footer) tag
  = ids.
Proof.
  intros Hh Hf Hids. unfold extractChildIds.
  rewrite <- (map_map groups (fun g => capture g 1)).
  rewrite exec_all_children by assumption.
  rewrite map_map. cbn [capture]. apply map_id.
Qed.

End PlainFacts.

Section ElementFacts.
Import Regex OlxParser XmlText.

(** A greedy star of a class and then one code unit [z] fail on a text
    without [z] that a code unit outside the class ends. *)
Lemma star_then_chr_none (p : Z -> bool) (z y : Z) (t : jsstring)
  (caps : captures) (k : @continuation (jsstring * captures)) :
  (y =? z) = false -> p y = false ->
  forall u, forallb (fun c => negb (c =? z)) u = true ->
    star_chr p true (fun s1 c1 => matcher (Chr (fun x => x =? z)) s1 c1 k)
      (u ++ y :: t) caps = None.
Proof.
  intros Hy Hp. induction u as [|c u IH]; intros Hu.
  - cbn [app]. rewrite star_greedy_stop by assumption.
    rewrite matcher_chr_cons. cbv beta. rewrite Hy. reflexivity.
  - cbn [forallb] in Hu. apply andb_true_iff in Hu as [Hc Hu].
    apply negb_true_iff in Hc. cbn [app star_chr].
    rewrite (IH Hu), matcher_chr_cons. cbv beta. rewrite Hc.
    destruct (p c); reflexivity.
Qed.

Lemma element_attributes (inner close rest : jsstring) (caps : captures)
  (w : jsstring) :
  forallb (fun c => negb (c =? 62)) inner = true ->
  close = [62] \/ close = [47; 62] ->
  w = (inner ++ [34]) ++ close ++ rest ->
  matcher
    (Cat (Group 2 (Star false (notchr 62)))
       (Cat (opt (chr 47)) (Cat (Star true ws) (chr 62))))
    w caps matched_here
  = Some (rest, set_capture caps 2 (inner ++ [34])).
Proof.
  intros Hinner Hclose ->.
  assert (Hall : forallb (fun c => negb (c =? 62)) (inner ++ [34]) = true).
  { rewrite forallb_app, Hinner. reflexivity. }
  unfold opt, chr, notchr, ws.
  rewrite matcher_cat, matcher_group, matcher_star_chr, star_lazy_pass.
  - erewrite star_lazy_stop; [reflexivity|].
    rewrite (firstn_consumed (inner ++ [34])) by reflexivity.
    rewrite matcher_cat.
    destruct Hclose as [-> | ->]; reflexivity.
  - exact Hall.
  - intros a1 a2 E N.
    destruct (suffix_last _ _ _ _ E N) as [a3 ->].
    pose proof (forallb_suffix _ _ _ _ E Hall) as H2.
    rewrite forallb_app in H2. apply andb_true_iff in H2 as [H2 _].
    rewrite matcher_cat.
    change (matcher (Alt ?a ?b) ?s ?c ?k)
      with (match matcher a s c k with
            | Some x => Some x
            | None => matcher b s c k
            end).
    assert (B : forall u cc,
               forallb (fun c => negb (c =? 62)) u = true ->
               matcher (Cat (Star true (Chr is_ws)) (Chr (fun x => x =? 62)))
                 ((u ++ [34]) ++ close ++ rest) cc matched_here = None).
    { intros u cc Hu. rewrite matcher_cat, matcher_star_chr, <- app_assoc.
      apply (star_then_chr_none is_ws 62 34); auto. }
    change (matcher Eps ?s ?c ?k) with (k s c). cbv beta.
    rewrite (B a3) by exact H2.
    destruct a3 as [|x a3]; [reflexivity|].
    cbn [app]. rewrite matcher_chr_cons. cbv beta.
    destruct (x =? 47); [|reflexivity].
    cbn [forallb] in H2. apply andb_true_iff in H2 as [_ H2].
    rewrite (B a3) by exact H2. reflexivity.
Qed.

Lemma element_hit (tag inner close rest : jsstring) :
  tag <> [] -> forallb is_word tag = true ->
  forallb (fun c => negb (c =? 62)) inner = true ->
  close = [62] \/ close = [47; 62] ->
  matcher re_element (60 :: tag ++ 32 :: (inner ++ [34]) ++ close ++ rest)
    [] matched_here
  = Some (rest, [(1%nat, tag); (2%nat, inner ++ [34])]).
Proof.
  intros Hne Htag Hinner Hclose. destruct tag as [|c tag]; [contradiction|].
  cbn [forallb] in Htag. apply andb_true_iff in Htag as [Hc Htag].
  unfold re_element. cbn [seq_of]. unfold plus, word, ws.
  cat_step. unfold chr at 1. chr_step.
  rewrite matcher_cat, matcher_group, matcher_cat. cbn [app].
  rewrite matcher_chr_cons, Hc, matcher_star_chr.
  erewrite star_greedy_run; [reflexivity | exact Htag | reflexivity |].
  cbv beta. rewrite (firstn_consumed (c :: tag)) by reflexivity.
  cat_step. chr_step. fold ws.
  rewrite (element_attributes inner close rest _ _ Hinner Hclose eq_refl).
  reflexivity.
Qed.

End ElementFacts.

Section TrimFacts.
Import RoundTrip.

Lemma trimStart_app_ws (w s : jsstring) :
  forallb is_ws w = true -> trimStart (w ++ s) = trimStart s.
Proof.
  induction w as [|c w IH]; [reflexivity|]. cbn [forallb app trimStart].
  intros H. apply andb_true_iff in H as [Hc H]. rewrite Hc. auto.
Qed.

Lemma trimStart_ws (w : jsstring) : forallb is_ws w = true -> trimStart w = [].
Proof.
  intros H. rewrite <- (app_nil_r w), trimStart_app_ws by assumption.
  reflexivity.
Qed.

Lemma trimStart_app (s t : jsstring) :
  trimStart s <> [] -> trimStart (s ++ t) = trimStart s ++ t.
Proof.
  induction s as [|c s IH]; [contradiction|]. cbn [app trimStart].
  destruct (is_ws c); [exact IH | reflexivity].
Qed.

(** [trimEnd], read from the left. *)
Lemma trimEnd_cons (c : Z) (t : jsstring) :
  trimEnd (c :: t)
  = match trimEnd t with
    | [] => if is_ws c then [] else [c]
    | r => c :: r
    end.
Proof.
  unfold trimEnd. cbn [rev].
  destruct (trimStart (rev t)) as [|x r] eqn:E.
  - cbn [rev].
    assert (W : forallb is_ws (rev t) = true).
    { clear -E. induction (rev t) as [|y l IH]; [reflexivity|].
      cbn [trimStart] in E. cbn [forallb].
      destruct (is_ws y); [auto | discriminate]. }
    rewrite trimStart_app_ws by assumption. cbn [trimStart].
    destruct (is_ws c); reflexivity.
  - rewrite trimStart_app by (rewrite E; discriminate).
    rewrite E, rev_app_distr. cbn [rev app].
    destruct (rev r ++ [x]) eqn:E2; [|reflexivity].
    apply app_eq_nil in E2 as [_ E2]. discriminate.
Qed.

Lemma trimEnd_nil : trimEnd [] = [].
Proof. reflexivity. Qed.

Lemma trimEnd_ws (w : jsstring) : forallb is_ws w = true -> trimEnd w = [].
Proof.
  induction w as [|c w IH]; [reflexivity|]. cbn [forallb]. intros H.
  apply andb_true_iff in H as [Hc H]. rewrite trimEnd_cons, IH, Hc by assumption.
  reflexivity.
Qed.

Lemma trimEnd_app_ws (s w : jsstring) :
  forallb is_ws w = true -> trimEnd (s ++ w) = trimEnd s.
Proof.
  intros H. induction s as [|c s IH]; cbn [app].
  - apply trimEnd_ws. assumption.
  - rewrite !trimEnd_cons, IH. reflexivity.
Qed.

Lemma trimEnd_app (s t : jsstring) :
  trimEnd t <> [] -> trimEnd (s ++ t) = s ++ trimEnd t.
Proof.
  intros H. induction s as [|c s IH]; [reflexivity|]. cbn [app].
  rewrite trimEnd_cons, IH. destruct (s ++ trimEnd t) eqn:E; [|reflexivity].
  apply app_eq_nil in E as [_ E]. contradiction.
Qed.

Lemma trimEnd_idem (s : jsstring) : trimEnd (trimEnd s) = trimEnd s.
Proof.
  induction s as [|c s IH]; [reflexivity|]. rewrite trimEnd_cons.
  destruct (trimEnd s) as [|x r] eqn:E.
  - destruct (is_ws c) eqn:Hc; [reflexivity|].
    rewrite trimEnd_cons, Hc. reflexivity.
  - rewrite trimEnd_cons, IH. reflexivity.
Qed.

Lemma trimStart_head (s : jsstring) :
  match trimStart s with c :: _ => is_ws c = false | [] => True end.
Proof.
  induction s as [|c s IH]; [exact I|]. cbn [trimStart].
  destruct (is_ws c) eqn:E; [exact IH | exact E].
Qed.

Lemma trimStart_fixed (s : jsstring) :
  match s with c :: _ => is_ws c = false | [] => True end -> trimStart s = s.
Proof. destruct s as [|c s]; [reflexivity|]. cbn. intros ->. reflexivity. Qed.

Lemma trimEnd_head (s : jsstring) :
  match s with c :: _ => is_ws c = false | [] => True end ->
  match trimEnd s with c :: _ => is_ws c = false | [] => True end.
Proof.
  destruct s as [|c s]; [intros _; exact I|]. intros H.
  rewrite trimEnd_cons. destruct (trimEnd s); [rewrite H|]; exact H.
Qed.

Lemma trim_head (s : jsstring) :
  match trim s with c :: _ => is_ws c = false | [] => True end.
Proof. apply trimEnd_head, trimStart_head. Qed.

Lemma trim_idem (s : jsstring) : trim (trim s) = trim s.
Proof.
  unfold trim at 1. rewrite (trimStart_fixed (trim s)) by apply trim_head.
  unfold trim. apply trimEnd_idem.
Qed.

Lemma trim_app_ws (s w : jsstring) :
  forallb is_ws w = true -> trim (s ++ w) = trim s.
Proof.
  intros H. unfold trim. destruct (trimStart s) as [|c r] eqn:E.
  - assert (W : forallb is_ws s = true).
    { clear -E. induction s as [|y l IH]; [reflexivity|].
      cbn [trimStart] in E. cbn [forallb].
      destruct (is_ws y); [auto | discriminate]. }
    rewrite trimStart_app_ws, (trimStart_ws w) by assumption. reflexivity.
  - rewrite trimStart_app by (rewrite E; discriminate).
    rewrite E. apply trimEnd_app_ws. assumption.
Qed.

Lemma trim_ws_app (w s : jsstring) :
  forallb is_ws w = true -> trim (w ++ s) = trim s.
Proof. intros H. unfold trim. rewrite trimStart_app_ws by assumption. reflexivity. Qed.

End TrimFacts.

Section NormalizeFacts.
Import RoundTrip.

Local Abbreviation runs := (replace_runs_at is_ws (str " ")).

Lemma runs_true_ws (w s : jsstring) :
  forallb is_ws w = true -> runs (w ++ s) true = runs s true.
Proof.
  induction w as [|c w IH]; [reflexivity|]. cbn [forallb app replace_runs_at].
  intros H. apply andb_true_iff in H as [Hc H]. rewrite Hc. auto.
Qed.

Lemma runs_true_trimStart (s : jsstring) : runs s true = runs (trimStart s) false.
Proof.
  induction s as [|c s IH]; [reflexivity|]. cbn [replace_runs_at trimStart].
  destruct (is_ws c) eqn:E; [exact IH|]. cbn [replace_runs_at]. rewrite E.
  reflexivity.
Qed.

Lemma runs_false_head (s : jsstring) :
  match s with c :: _ => is_ws c = false | [] => True end ->
  match runs s false with c :: _ => is_ws c = false | [] => True end.
Proof.
  destruct s as [|c s]; [intros _; exact I|]. cbn [replace_runs_at].
  intros H. rewrite H. exact H.
Qed.

Lemma trimStart_runs (s : jsstring) : trimStart (runs s false) = runs s true.
Proof.
  destruct s as [|c s]; [reflexivity|]. cbn [replace_runs_at].
  destruct (is_ws c) eqn:E.
  - change (str " ") with [32]. cbn [app trimStart].
    change (is_ws 32) with true. cbv iota.
    rewrite runs_true_trimStart. apply trimStart_fixed, runs_false_head.
    apply trimStart_head.
  - cbn [trimStart]. rewrite E. reflexivity.
Qed.

(** White space normalised, without the leading space. *)
Lemma normalizeSpace_runs (s : jsstring) :
  normalizeSpace s = trimEnd (runs s true).
Proof.
  unfold normalizeSpace, trim, replace_runs. rewrite trimStart_runs.
  reflexivity.
Qed.

Lemma runs_app_ws (w : jsstring) :
  forallb is_ws w = true ->
  forall s b, exists e,
    forallb is_ws e = true /\ runs (s ++ w) b = runs s b ++ e.
Proof.
  intros Hw. induction s as [|c s IH]; intros b.
  - cbn [app]. induction w as [|x w IHw] in b, Hw |- *.
    + exists []. split; reflexivity.
    + cbn [forallb] in Hw. apply andb_true_iff in Hw as [Hx Hw].
      cbn [replace_runs_at]. rewrite Hx.
      destruct (IHw Hw true) as [e [He Ee]]. rewrite Ee.
      destruct b; [exists e | exists (str " " ++ e)]; split; auto.
  - cbn [app replace_runs_at]. destruct (is_ws c).
    + destruct (IH true) as [e [He Ee]]. rewrite Ee.
      destruct b; exists e; split; auto.
    + destruct (IH false) as [e [He Ee]]. rewrite Ee.
      exists e; split; auto.
Qed.

Lemma normalizeSpace_ws_app (w s : jsstring) :
  forallb is_ws w = true -> normalizeSpace (w ++ s) = normalizeSpace s.
Proof.
  intros H. rewrite !normalizeSpace_runs, runs_true_ws by assumption.
  reflexivity.
Qed.

Lemma normalizeSpace_app_ws (s w : jsstring) :
  forallb is_ws w = true -> normalizeSpace (s ++ w) = normalizeSpace s.
Proof.
  intros H. rewrite !normalizeSpace_runs.
  destruct (runs_app_ws w H s true) as [e [He ->]].
  apply trimEnd_app_ws. assumption.
Qed.

Lemma trimEnd_text_cons (c : Z) (t : jsstring) :
  is_ws c = false -> trimEnd (c :: t) = c :: trimEnd t.
Proof. intros H. rewrite trimEnd_cons, H. destruct (trimEnd t); reflexivity. Qed.

(** A word, white space, and a text: the word, and behind one space
    the text normalised, when there is any. *)
Lemma normalizeSpace_word (x w s : jsstring) :
  forallb (fun c => negb (is_ws c)) x = true -> x <> [] ->
  forallb is_ws w = true -> w <> [] ->
  normalizeSpace (x ++ w ++ s)
  = x ++ match normalizeSpace s with [] => [] | r => 32 :: r end.
Proof.
  intros Hx Nx Hw Nw. rewrite !normalizeSpace_runs.
  destruct x as [|c x]; [contradiction|]. clear Nx.
  cbn [forallb] in Hx. apply andb_true_iff in Hx as [Hc Hx].
  apply negb_true_iff in Hc. cbn [app replace_runs_at]. rewrite Hc.
  rewrite trimEnd_text_cons by assumption. f_equal.
  induction x as [|d x IH].
  - cbn [app]. destruct w as [|y w]; [contradiction|].
    cbn [forallb] in Hw. apply andb_true_iff in Hw as [Hy Hw].
    cbn [app replace_runs_at]. rewrite Hy, runs_true_ws by assumption.
    change (str " " ++ ?u) with (32 :: u). rewrite trimEnd_cons. reflexivity.
  - cbn [forallb] in Hx. apply andb_true_iff in Hx as [Hd Hx].
    apply negb_true_iff in Hd. cbn [app replace_runs_at]. rewrite Hd.
    rewrite trimEnd_text_cons by assumption. f_equal. apply IH. assumption.
Qed.

Lemma normalizeSpace_head (s : jsstring) :
  match normalizeSpace s with c :: _ => is_ws c = false | [] => True end.
Proof. apply trim_head. Qed.

Lemma trim_normalizeSpace (s : jsstring) :
  trim (normalizeSpace s) = normalizeSpace s.
Proof. apply trim_idem. Qed.

End NormalizeFacts.

Section ElementBodyFacts.
Import Regex OlxParser XmlText RoundTrip.

Lemma miss_lit_starts (l a1 a2 t a : jsstring) :
  miss (lit_units l) a -> a = a1 ++ a2 -> a2 <> [] ->
  starts_with l (a2 ++ t) = false.
Proof.
  intros H E N. specialize (H a1 a2 t E N). rewrite matcher_lit in H.
  destruct (starts_with l (a2 ++ t)); [discriminate | reflexivity].
Qed.

(** A lazy group of any code units before a literal: the text up to
    the first occurrence of the literal. *)
Lemma lazy_group_until (i : nat) (tail : regex) (l body rest : jsstring)
  (caps : captures) :
  (forall s c (k : @continuation (jsstring * captures)),
      matcher tail s c k
      = if starts_with l s then k (skipn (length l) s) c else None) ->
  miss (lit_units l) body ->
  matcher (Cat (Group i (Star false any)) tail) (body ++ l ++ rest) caps
    matched_here
  = Some (rest, set_capture caps i body).
Proof.
  intros Htail Hbody. unfold any.
  rewrite matcher_cat, matcher_group, matcher_star_chr, star_lazy_pass.
  - erewrite star_lazy_stop; [reflexivity|].
    rewrite Htail, starts_with_app, skipn_app, skipn_all, Nat.sub_diag.
    cbn [skipn app]. rewrite (firstn_consumed body) by reflexivity.
    reflexivity.
  - apply forallb_forall. reflexivity.
  - intros a1 a2 E N. rewrite Htail.
    rewrite (miss_lit_starts l a1 a2 _ body Hbody E N). reflexivity.
Qed.

Lemma starts_with_app_split (a b s : jsstring) :
  starts_with (a ++ b) s
  = starts_with a s && starts_with b (skipn (length a) s).
Proof.
  revert s. induction a as [|x a IH]; intros s; [reflexivity|].
  destruct s as [|c s]; [reflexivity|]. cbn [app starts_with length skipn].
  rewrite IH, andb_assoc. reflexivity.
Qed.

Lemma skipn_next {A} (n : nat) : forall (s u : list A) (z : A),
  skipn n s = z :: u -> skipn (S n) s = u.
Proof.
  induction n as [|n IH]; intros s u z E.
  - cbn in E. subst s. reflexivity.
  - destruct s as [|x s]; [discriminate|]. cbn [skipn] in E.
    change (skipn (S (S n)) (x :: s)) with (skipn (S n) s). eauto.
Qed.

(** The closing tag of an element, as the pattern of the element body
    writes it. *)
Lemma closing_tag_lit (tag : string) s c (k : @continuation (jsstring * captures)) :
  matcher (Cat (chr 60) (Cat (chr 47) (Cat (lit tag) (chr 62)))) s c k
  = if starts_with (str "</" ++ str tag ++ str ">") s
    then k (skipn (length (str "</" ++ str tag ++ str ">")) s) c else None.
Proof.
  unfold lit, chr. rewrite matcher_cat.
  destruct s as [|x s]; [reflexivity|]. rewrite matcher_chr_cons. cbv beta.
  change (str "</" ++ ?u) with (60 :: 47 :: u). cbn [starts_with].
  rewrite (Z.eqb_sym 60 x). destruct (x =? 60); [|reflexivity]. cbn [andb].
  rewrite matcher_cat.
  destruct s as [|y s]; [reflexivity|]. rewrite matcher_chr_cons. cbv beta.
  rewrite (Z.eqb_sym 47 y). destruct (y =? 47); [|reflexivity]. cbn [andb].
  rewrite matcher_cat, matcher_lit, starts_with_app_split.
  destruct (starts_with (str tag) s); [|reflexivity]. cbn [andb].
  cbn [length skipn]. change (str ">") with [62].
  destruct (skipn (length (str tag)) s) as [|z u] eqn:E; [reflexivity|].
  rewrite matcher_chr_cons. cbv beta. cbn [starts_with].
  rewrite (Z.eqb_sym 62 z), andb_true_r. destruct (z =? 62); [|reflexivity].
  rewrite length_app, Nat.add_1_r, (skipn_next _ _ _ _ E). reflexivity.
Qed.

End ElementBodyFacts.

Section ElementTextFacts.
Import Regex OlxParser XmlText RoundTrip.

Lemma element_body_hit (tag : string) (body rest : jsstring) :
  miss (lit_units (str "</" ++ str tag ++ str ">")) body ->
  matcher (re_element_body tag)
    (str "<" ++ str tag ++ str ">" ++ body
     ++ (str "</" ++ str tag ++ str ">") ++ rest) [] matched_here
  = Some (rest, [(1%nat, body)]).
Proof.
  intros Hbody. unfold re_element_body. cbn [seq_of].
  change (str "<" ++ ?u) with (60 :: u).
  cat_step. unfold chr at 1. chr_step.
  cat_step. unfold lit at 1. rewrite matcher_lit_app.
  change (str ">" ++ ?u) with (62 :: u).
  cat_step. unfold chr at 1. chr_step.
  apply (lazy_group_until 1 _ (str "</" ++ str tag ++ str ">") body rest []);
    [apply closing_tag_lit | exact Hbody].
Qed.

Lemma begins_lt_element_body tag c t :
  (c =? 60) = false ->
  matcher (re_element_body tag) (c :: t) [] matched_here = None.
Proof.
  intros H. unfold re_element_body, chr. cbn [seq_of].
  rewrite matcher_cat, matcher_chr_cons. cbv beta. rewrite H. reflexivity.
Qed.

Lemma begins_lt_tag c t :
  (c =? 60) = false -> matcher re_tag (c :: t) [] matched_here = None.
Proof.
  intros H. unfold re_tag, chr. cbn [seq_of].
  rewrite matcher_cat, matcher_chr_cons. cbv beta. rewrite H. reflexivity.
Qed.

Lemma begins_lt_lit l c t :
  (c =? 60) = false ->
  matcher (lit_units (60 :: l)) (c :: t) [] matched_here = None.
Proof.
  intros H. rewrite matcher_lit. cbn [starts_with].
  rewrite Z.eqb_sym, H. reflexivity.
Qed.

(** A text without [<] has no tags to strip. *)
Lemma stripTags_plain (s : jsstring) :
  forallb (fun c => negb (c =? 60)) s = true -> stripTags s = normalizeSpace s.
Proof.
  intros H. unfold stripTags, normalizeSpace.
  rewrite replace_all_none; [reflexivity | | reflexivity].
  apply miss_plain; [apply begins_lt_tag | exact H].
Qed.

(** The text of an element whose body has no tags. *)
Lemma elementText_found (tag : string) (pre body rest : jsstring) :
  miss (re_element_body tag) pre ->
  forallb (fun c => negb (c =? 60)) body = true ->
  elementText tag
    (pre ++ str "<" ++ str tag ++ str ">" ++ body
     ++ (str "</" ++ str tag ++ str ">") ++ rest)
  = normalizeSpace body.
Proof.
  intros Hpre Hbody. unfold elementText.
  erewrite search_hit; [| exact Hpre | apply element_body_hit ].
  - cbn [groups capture JsMap.get_by Nat.eqb]. rewrite stripTags_plain by assumption.
    apply trim_normalizeSpace.
  - apply miss_plain; [|exact Hbody].
    intros c t Hc. change (str "</" ++ ?u) with (60 :: 47 :: u).
    apply begins_lt_lit. exact Hc.
Qed.

End ElementTextFacts.

Section ChoiceFacts.
Import Regex OlxParser XmlText RoundTrip Generators.

Lemma matcher_alt a b s caps (k : @continuation (jsstring * captures)) :
  matcher (Alt a b) s caps k
  = match matcher a s caps k with
    | Some x => Some x
    | None => matcher b s caps k
    end.
Proof. reflexivity. Qed.

Lemma choice_hit (b : bool) (content rest : jsstring) :
  miss (lit_units (str "</choice>")) content ->
  matcher re_choice
    (str "<choice correct=" ++ dq ++ truth b ++ dq ++ str ">" ++ content
     ++ str "</choice>" ++ rest) [] matched_here
  = Some (rest, [(1%nat, truth b); (2%nat, content)]).
Proof.
  intros Hc. unfold re_choice, lit, plus, ws, chr. cbn [seq_of].
  change (str "<choice correct=" ++ ?u)
    with (str "<choice" ++ 32 :: str "correct=" ++ u).
  cat_step. rewrite matcher_lit_app. rewrite !matcher_cat. chr_step.
  rewrite matcher_star_chr, star_greedy_halt by reflexivity.
  cat_step. rewrite matcher_lit_app. unfold dq. cbn [app].
  cat_step. chr_step. cat_step.
  rewrite matcher_group, matcher_alt.
  destruct b; unfold truth.
  - rewrite matcher_lit_app. cbn [app]. cat_step. chr_step.
    change (str ">" ++ ?u) with (62 :: u). cat_step. chr_step.
    rewrite (lazy_group_until 2 _ (str "</choice>") content rest _
               (matcher_lit _) Hc).
    rewrite (firstn_consumed (str "true")) by reflexivity.
    reflexivity.
  - rewrite (matcher_lit (str "true")). decide_tests.
    rewrite matcher_lit_app. cbn [app]. cat_step. chr_step.
    change (str ">" ++ ?u) with (62 :: u). cat_step. chr_step.
    rewrite (lazy_group_until 2 _ (str "</choice>") content rest _
               (matcher_lit _) Hc).
    rewrite (firstn_consumed (str "false")) by reflexivity.
    reflexivity.
Qed.

End ChoiceFacts.

Section PlainTexts.
Import Regex OlxParser XmlText RoundTrip Generators.

Lemma begins_lt_literal l c t :
  starts_with [60] l = true -> (c =? 60) = false ->
  matcher (lit_units l) (c :: t) [] matched_here = None.
Proof.
  intros Hl H. destruct l as [|x l]; [discriminate|].
  cbn [starts_with] in Hl. rewrite andb_true_r in Hl.
  apply Z.eqb_eq in Hl. subst x. apply begins_lt_lit. exact H.
Qed.

Lemma begins_lt_choice c t :
  (c =? 60) = false -> matcher re_choice (c :: t) [] matched_here = None.
Proof.
  intros H. unfold re_choice, lit. cbn [seq_of].
  rewrite matcher_cat, matcher_lit.
  change (str "<choice") with (60 :: str "choice"). cbn [starts_with].
  rewrite Z.eqb_sym, H. reflexivity.
Qed.

Lemma begins_lt_option c t :
  (c =? 60) = false -> matcher re_option (c :: t) [] matched_here = None.
Proof.
  intros H. unfold re_option, lit. cbn [seq_of].
  rewrite matcher_cat, matcher_lit.
  change (str "<option") with (60 :: str "option"). cbn [starts_with].
  rewrite Z.eqb_sym, H. reflexivity.
Qed.

Lemma begins_lt_element c t :
  (c =? 60) = false -> matcher re_element (c :: t) [] matched_here = None.
Proof.
  intros H. unfold re_element, chr. cbn [seq_of].
  rewrite matcher_cat, matcher_chr_cons. cbv beta. rewrite H. reflexivity.
Qed.

Lemma esc_no_lt (s : jsstring) :
  forallb (fun c => negb (c =? 60)) (esc s) = true.
Proof.
  eapply forallb_weaken; [|apply esc_no_special]. intros c H.
  apply negb_true_iff in H. unfold xml_special in H.
  repeat (apply orb_false_iff in H as [H ?]). rewrite H. reflexivity.
Qed.

Lemma element_text_no_lt (s : jsstring) :
  element_text s = true -> forallb (fun c => negb (c =? 60)) s = true.
Proof.
  intros H. rewrite <- (esc_element_text s H). apply esc_no_lt.
Qed.

Lemma id_no_lt (s : jsstring) :
  forallb id_unit s = true -> forallb (fun c => negb (c =? 60)) s = true.
Proof.
  apply forallb_weaken. intros c H.
  destruct (id_unit_plain c H) as [_ [_ [_ [-> _]]]]. reflexivity.
Qed.

End PlainTexts.

Create HintDb plain.
#[export] Hint Resolve esc_no_lt element_text_no_lt id_no_lt : plain.

Ltac begins_lt :=
  lazymatch goal with
  | |- Regex.matcher (OlxParser.re_element_body _) _ _ _ = None =>
    apply begins_lt_element_body
  | |- Regex.matcher OlxParser.re_tag _ _ _ = None => apply begins_lt_tag
  | |- Regex.matcher (OlxParser.re_child _) _ _ _ = None =>
    apply begins_lt_child
  | |- Regex.matcher OlxParser.re_choice _ _ _ = None =>
    apply begins_lt_choice
  | |- Regex.matcher OlxParser.re_option _ _ _ = None =>
    apply begins_lt_option
  | |- Regex.matcher OlxParser.re_element _ _ _ = None =>
    apply begins_lt_element
  | |- Regex.matcher (Regex.lit_units _) _ _ _ = None =>
    apply begins_lt_literal; [reflexivity|]
  end;
  assumption.

Ltac plain_miss :=
  apply miss_plain; [intros ? ? ?; begins_lt | solve [auto with plain]].

Ltac solve_miss := solve_miss_with plain_miss idtac.

Section ChoiceLists.
Import Regex OlxParser XmlText RoundTrip Generators.

Lemma before_text_plain (l pre rest : jsstring) :
  forallb (fun c => negb (c =? 60)) pre = true ->
  before_text (60 :: l) (pre ++ (60 :: l) ++ rest) = pre.
Proof.
  induction pre as [|c pre IH]; intros H.
  - pose proof (starts_with_app (60 :: l) rest) as S.
    cbn [app] in *. cbn [before_text]. rewrite S. reflexivity.
  - cbn [forallb] in H. apply andb_true_iff in H as [Hc H].
    apply negb_true_iff in Hc. cbn [app before_text].
    assert (S : starts_with (60 :: l) (c :: pre ++ 60 :: l ++ rest) = false).
    { cbn [starts_with]. rewrite Z.eqb_sym, Hc. reflexivity. }
    rewrite S. cbn [app] in IH. rewrite IH by assumption. reflexivity.
Qed.

Lemma readChoice_content (m : found) (c : Choice) :
  choice_ok c = true ->
  groups m = [(1%nat, truth (ch_correct c)); (2%nat, choice_content c)] ->
  readChoice m = normalChoice c.
Proof.
  intros Hok Hm. unfold choice_ok in Hok.
  apply andb_true_iff in Hok as [Ht Hh].
  pose proof (element_text_no_lt _ Ht) as Pt.
  pose proof (element_text_no_lt _ Hh) as Ph.
  unfold readChoice, normalChoice. rewrite Hm.
  cbn [capture JsMap.get_by Nat.eqb]. unfold choice_content.
  rewrite (esc_element_text _ Ht), (esc_element_text _ Hh).
  destruct (ch_hint c) as [|h hint] eqn:Eh.
  - cbn [nonempty app].
    rewrite (search_none (re_element_body "choicehint"));
      [| solve_miss | reflexivity].
    f_equal.
    + rewrite stripTags_plain, normalizeSpace_app_ws, trim_normalizeSpace;
        [reflexivity | reflexivity |].
      rewrite forallb_app, Pt. reflexivity.
    + destruct (ch_correct c); reflexivity.
  - cbn [nonempty]. rewrite <- Eh in *. clear Eh.
    change (str " <choicehint>" ++ ?u ++ str "</choicehint>")
      with (str " " ++ str "<" ++ str "choicehint" ++ str ">" ++ u
            ++ str "</choicehint>").
    rewrite <- !app_assoc. rewrite (app_assoc (ch_text c) (str " ")).
    change (str "</choicehint>" ++ [10])
      with ((str "</" ++ str "choicehint" ++ str ">") ++ [10]).
    erewrite search_hit;
      [| solve_miss | apply element_body_hit; solve_miss ].
    cbn [groups capture JsMap.get_by Nat.eqb].
    f_equal.
    + change (str "<" ++ str "choicehint" ++ ?u)
        with ((60 :: str "choicehint") ++ u).
      rewrite (before_text_plain (str "choicehint")).
      * rewrite stripTags_plain, normalizeSpace_app_ws, trim_normalizeSpace;
          [reflexivity | reflexivity |].
        rewrite forallb_app, Pt. reflexivity.
      * rewrite forallb_app, Pt. reflexivity.
    + destruct (ch_correct c); reflexivity.
    + rewrite stripTags_plain by assumption. apply trim_normalizeSpace.
Qed.

End ChoiceLists.

Section ProblemChoices.
Import Regex OlxParser XmlText RoundTrip Generators.

Lemma choiceXml_form (c : Choice) :
  choiceXml c
  = str "    "
    ++ (str "<choice correct=" ++ dq ++ truth (ch_correct c) ++ dq ++ str ">"
        ++ choice_content c ++ str "</choice>" ++ [10]).
Proof.
  unfold choiceXml, choice_content, truth, nl. rewrite <- !app_assoc.
  reflexivity.
Qed.

Lemma choice_content_closed (c : Choice) :
  choice_ok c = true -> miss (lit_units (str "</choice>")) (choice_content c).
Proof.
  intros Hok. unfold choice_ok in Hok.
  apply andb_true_iff in Hok as [Ht Hh]. unfold choice_content.
  solve_miss.
Qed.

Lemma exec_all_choices (post : jsstring) :
  miss re_choice post ->
  forall (cs : list Choice) (pre : jsstring),
    miss re_choice pre ->
    forallb choice_ok cs = true ->
    List.map readChoice
      (exec_all re_choice (pre ++ flat_map choiceXml cs ++ post))
    = List.map normalChoice cs.
Proof.
  intros Hpost. induction cs as [|c cs IH]; intros pre Hpre Hcs.
  - rewrite exec_all_none; [reflexivity | | reflexivity].
    apply miss_app; assumption.
  - cbn [forallb] in Hcs. apply andb_true_iff in Hcs as [Hc Hcs].
    cbn [flat_map]. rewrite choiceXml_form, <- !app_assoc.
    rewrite (app_assoc pre (str "    ")).
    erewrite exec_all_hit; cycle 1.
    + apply miss_app; [assumption | solve_miss].
    + apply choice_hit. apply choice_content_closed. assumption.
    + rewrite !length_app. simpl. lia.
    + cbn [List.map]. f_equal.
      * apply readChoice_content; [assumption | reflexivity].
      * apply IH; [solve_miss | assumption].
Qed.

End ProblemChoices.

Section ExplanationFacts.
Import Regex OlxParser XmlText RoundTrip Generators.

Lemma tag_hit (inner rest : jsstring) :
  forallb (fun c => negb (c =? 62)) inner = true ->
  matcher re_tag (60 :: inner ++ 62 :: rest) [] matched_here = Some (rest, []).
Proof.
  intros H. unfold re_tag, chr, notchr. cbn [seq_of].
  cat_step. chr_step. cat_step. rewrite matcher_star_chr.
  erewrite star_greedy_run; [reflexivity | exact H | reflexivity |].
  chr_step. reflexivity.
Qed.

Lemma replace_tag (rep a inner rest : jsstring) :
  miss re_tag a -> forallb (fun c => negb (c =? 62)) inner = true ->
  replace_all re_tag rep (a ++ 60 :: inner ++ 62 :: rest)
  = a ++ rep ++ replace_all re_tag rep rest.
Proof.
  intros Ha Hi. apply (replace_all_hit re_tag rep a _ rest []).
  - exact Ha.
  - apply tag_hit. exact Hi.
  - cbn [length]. rewrite length_app. cbn [length]. lia.
Qed.

Lemma replace_first_here r rep s s1 c1 :
  matcher r s [] matched_here = Some (s1, c1) ->
  replace_first r rep s = rep ++ s1.
Proof. apply (replace_first_hit r rep []), miss_nil. Qed.

Lemma stripTags_solution (explanation : jsstring) :
  element_text explanation = true ->
  stripTags (solution_body explanation)
  = str "Explanation"
    ++ match normalizeSpace explanation with
       | [] => []
       | c :: r => 32 :: c :: r
       end.
Proof.
  intros He. pose proof (element_text_no_lt _ He) as Pe.
  unfold stripTags, solution_body. rewrite (esc_element_text _ He).
  change ([10] ++ str "<div class=" ++ dq ++ str "detailed-solution" ++ dq
          ++ str ">" ++ [10] ++ str "<p>Explanation</p>" ++ [10]
          ++ str "<p>" ++ explanation ++ str "</p>" ++ [10]
          ++ str "</div>" ++ [10])
    with ([10] ++ 60 :: (str "div class=" ++ dq ++ str "detailed-solution" ++ dq)
          ++ 62 :: [10] ++ 60 :: str "p" ++ 62 :: str "Explanation"
          ++ 60 :: str "/p" ++ 62 :: [10] ++ 60 :: str "p" ++ 62 :: explanation
          ++ 60 :: str "/p" ++ 62 :: [10] ++ 60 :: str "/div" ++ 62 :: [10]).
  rewrite !replace_tag by (reflexivity || solve_miss).
  rewrite replace_all_none by (reflexivity || solve_miss).
  change (normalizeSpace
            (str (String.String "010" " " ++ String.String "010" " ")
             ++ str "Explanation"
             ++ str (" " ++ String.String "010" " ")
             ++ explanation ++ str (" " ++ String.String "010" " "
                                    ++ String.String "010" ""))
          = str "Explanation"
            ++ match normalizeSpace explanation with
               | [] => []
               | c :: r => 32 :: c :: r
               end).
  rewrite normalizeSpace_ws_app by reflexivity.
  rewrite normalizeSpace_word by (reflexivity || discriminate).
  rewrite normalizeSpace_app_ws by reflexivity. reflexivity.
Qed.

Lemma explanation_hit (x : jsstring) :
  match x with c :: _ => is_ws c = false | [] => True end ->
  matcher re_explanation
    (str "Explanation" ++ match x with [] => [] | c :: r => 32 :: c :: r end)
    [] matched_here
  = Some (x, []).
Proof.
  intros Hx. unfold re_explanation.
  change (lit_i_units (str "Explanation"))
    with (lit_i_units [69; 120; 112; 108; 97; 110; 97; 116; 105; 111; 110]).
  change (str "Explanation" ++ ?u)
    with (69 :: 120 :: 112 :: 108 :: 97 :: 110 :: 97 :: 116 :: 105 :: 111
          :: 110 :: u).
  cbn [lit_i_units]. unfold chr_i, ws.
  cat_step. repeat (cat_step; chr_step). chr_step.
  rewrite matcher_star_chr. destruct x as [|c r]; [reflexivity|].
  change (32 :: c :: r) with ([32] ++ c :: r).
  erewrite star_greedy_run; reflexivity || exact Hx.
Qed.

Lemma explanation_read (explanation : jsstring) :
  element_text explanation = true ->
  trim (replace_first re_explanation []
          (stripTags (solution_body explanation)))
  = normalizeSpace explanation.
Proof.
  intros He. rewrite stripTags_solution by assumption.
  rewrite (replace_first_here _ _ _ _ _
             (explanation_hit (normalizeSpace explanation)
                (normalizeSpace_head explanation))).
  apply trim_normalizeSpace.
Qed.

End ExplanationFacts.

Ltac solve_miss_xml :=
  solve_miss_with plain_miss
    ltac:(unfold Generators.attr, Generators.nl, Generators.choiceXml,
            XmlText.truth, XmlText.solution_body, XmlText.choice_content).

(** Read a property of an object whose keys are literals. *)
Ltac read_object :=
  unfold XmlText.attrs_object, OlxParser.prop_or;
  cbn [fold_left fst snd];
  repeat match goal with
         | |- context [OlxParser.decodeXmlEntities ?x] =>
           let v := fresh "v" in
           generalize (OlxParser.decodeXmlEntities x); intro v
         end;
  repeat (cbn [JsMap.set JsMap.set_by JsMap.get JsMap.get_by];
          decide_tests).

Section ProblemFacts.
Import Regex OlxParser XmlText RoundTrip Generators.

Lemma or_else_nonempty (a b : jsstring) : nonempty a = true -> or_else a b = a.
Proof. unfold or_else. intros ->. reflexivity. Qed.

Lemma name_text_parts (s : jsstring) :
  name_text s = true -> nonempty s = true /\ no_amp s = true.
Proof. unfold name_text. intros H. apply andb_true_iff in H. exact H. Qed.

Lemma esc_attr_ok (name_ : string) (v : jsstring) :
  nonempty (str name_) = true ->
  forallb attr_name_unit (str name_) = true ->
  attr_ok (str name_, esc v) = true.
Proof.
  intros H1 H2. unfold attr_ok. cbn [fst snd]. rewrite H1, H2. cbn [andb].
  eapply forallb_weaken; [|apply esc_no_special]. intros c H.
  apply negb_true_iff in H. unfold xml_special in H.
  repeat (apply orb_false_iff in H as [H ?]).
  repeat match goal with E : (_ =? _) = false |- _ => rewrite E; clear E end.
  reflexivity.
Qed.

Section Block.
Variable b : ProblemBlock.
Hypothesis Htitle : name_text (pb_title b) = true.
Hypothesis Hshow : name_text (pb_showAnswer b) = true.
Hypothesis Hquestion : element_text (pb_questionText b) = true.
Hypothesis Hchoices : forallb choice_ok (pb_choices b) = true.
Hypothesis Hexplanation : element_text (pb_explanation b) = true.

Lemma problem_attributes :
  parseXmlAttributes (problemXml b)
  = attrs_object [(str "display_name", esc (pb_title b));
                  (str "showanswer", esc (pb_showAnswer b))].
Proof.
  unfold problemXml.
  match goal with
  | |- parseXmlAttributes (str "<problem " ++ ?a1 ++ str " " ++ ?a2 ++ str ">" ++ ?r) = _ =>
    replace (str "<problem " ++ a1 ++ str " " ++ a2 ++ str ">" ++ r)
      with (str "<" ++ str "problem" ++ str " "
            ++ attrs_text [(str "display_name", esc (pb_title b));
                           (str "showanswer", esc (pb_showAnswer b))]
            ++ str ">" ++ r)
  end.
  - apply parseXmlAttributes_tag; try reflexivity; try discriminate.
    + cbn [forallb]. rewrite !esc_attr_ok by reflexivity. reflexivity.
    + left. reflexivity.
  - unfold attr, attrs_text, attr_text. cbn [flat_map fst snd].
    rewrite <- !app_assoc. reflexivity.
Qed.

Lemma problem_label :
  elementText "label" (problemXml b) = normalizeSpace (pb_questionText b).
Proof.
  unfold problemXml. rewrite (esc_element_text _ Hquestion).
  match goal with
  | |- elementText _ (?h1 ++ ?a1 ++ ?sp ++ ?a2 ++ ?gt ++ ?n1 ++ ?m ++ ?n2
                      ++ str "  <label>" ++ ?q ++ str "</label>" ++ ?r) = _ =>
    replace (h1 ++ a1 ++ sp ++ a2 ++ gt ++ n1 ++ m ++ n2
             ++ str "  <label>" ++ q ++ str "</label>" ++ r)
      with ((h1 ++ a1 ++ sp ++ a2 ++ gt ++ n1 ++ m ++ n2 ++ str "  ")
            ++ str "<" ++ str "label" ++ str ">" ++ q
            ++ (str "</" ++ str "label" ++ str ">") ++ r)
      by (rewrite <- !app_assoc; reflexivity)
  end.
  apply elementText_found; [solve_miss_xml | auto with plain].
Qed.

Lemma problem_choices :
  List.map readChoice (exec_all re_choice (problemXml b))
  = List.map normalChoice (pb_choices b).
Proof.
  unfold problemXml.
  match goal with
  | |- List.map _ (exec_all _ (?h1 ++ ?a1 ++ ?sp ++ ?a2 ++ ?gt ++ ?n1 ++ ?m
                             ++ ?n2 ++ ?l1 ++ ?q ++ ?l2 ++ ?n3 ++ ?g1 ++ ?d1
                             ++ ?g2 ++ ?d2 ++ ?g3 ++ ?n4
                             ++ flat_map choiceXml ?cs ++ ?r)) = _ =>
    replace (h1 ++ a1 ++ sp ++ a2 ++ gt ++ n1 ++ m ++ n2 ++ l1 ++ q ++ l2
             ++ n3 ++ g1 ++ d1 ++ g2 ++ d2 ++ g3 ++ n4
             ++ flat_map choiceXml cs ++ r)
      with ((h1 ++ a1 ++ sp ++ a2 ++ gt ++ n1 ++ m ++ n2 ++ l1 ++ q ++ l2
             ++ n3 ++ (g1 ++ d1 ++ g2 ++ d2 ++ g3) ++ n4)
            ++ flat_map choiceXml cs ++ r)
      by (rewrite <- !app_assoc; reflexivity)
  end.
  apply exec_all_choices; [solve_miss_xml | solve_miss_xml | exact Hchoices].
Qed.

Lemma problem_explanation :
  match search (re_element_body "solution") (problemXml b) with
  | Some m =>
    trim (replace_first re_explanation [] (stripTags (capture (groups m) 1)))
  | None => []
  end
  = normalizeSpace (pb_explanation b).
Proof.
  unfold problemXml. destruct (pb_explanation b) as [|e expl] eqn:E.
  - cbn [nonempty]. rewrite search_none; [reflexivity | | reflexivity].
    solve_miss_xml.
  - cbn [nonempty]. rewrite <- E in *. clear E e expl.
    match goal with
    | |- match search _ (?h1 ++ ?a1 ++ ?sp ++ ?a2 ++ ?gt ++ ?n1 ++ ?m
                         ++ ?n2 ++ ?l1 ++ ?q ++ ?l2 ++ ?n3 ++ ?g1 ++ ?d1
                         ++ ?g2 ++ ?d2 ++ ?g3 ++ ?n4 ++ ?cs ++ ?g4 ++ ?n5
                         ++ ?sol ++ ?r) with _ => _ end = _ =>
      replace (h1 ++ a1 ++ sp ++ a2 ++ gt ++ n1 ++ m ++ n2 ++ l1 ++ q ++ l2
               ++ n3 ++ g1 ++ d1 ++ g2 ++ d2 ++ g3 ++ n4 ++ cs ++ g4 ++ n5
               ++ sol ++ r)
        with ((h1 ++ a1 ++ sp ++ a2 ++ gt ++ n1 ++ m ++ n2 ++ l1 ++ q ++ l2
               ++ n3 ++ (g1 ++ d1 ++ g2 ++ d2 ++ g3) ++ n4 ++ cs ++ g4 ++ n5)
              ++ str "<" ++ str "solution" ++ str ">"
              ++ solution_body (pb_explanation b)
              ++ (str "</" ++ str "solution" ++ str ">") ++ nl ++ r)
        by (unfold solution_body, nl; rewrite <- !app_assoc; reflexivity)
    end.
    erewrite search_hit;
      [| solve_miss_xml | apply element_body_hit; solve_miss_xml ].
    cbn [groups capture JsMap.get_by Nat.eqb].
    apply explanation_read. exact Hexplanation.
Qed.

(** Import reads the problem that Build has written. *)
Lemma parseProblemBlock_written (files : JsMap.t jsstring) (id : jsstring)
  (st : OlxParser.state) :
  JsMap.has (problemBlocks (fst st)) id = false ->
  getFile files (str "problem/" ++ id ++ str ".xml") = Some (problemXml b) ->
  pb_blockId b = id ->
  parseProblemBlock files id st
  = (set_problemBlock (fst st) id (normalProblemBlock b), snd st).
Proof.
  intros Hhas Hfile Hid. unfold parseProblemBlock. rewrite Hhas, Hfile.
  rewrite problem_attributes, problem_label, problem_choices,
    problem_explanation.
  destruct (name_text_parts _ Htitle) as [T1 T2].
  destruct (name_text_parts _ Hshow) as [S1 S2].
  unfold attrs_object. cbn [fold_left fst snd].
  rewrite !decode_esc by assumption. read_object.
  rewrite !or_else_nonempty by assumption.
  unfold normalProblemBlock. rewrite Hid. reflexivity.
Qed.

End Block.
End ProblemFacts.

Section DecimalFacts.

(** The value of a text of decimal digits, read from the left. *)
Lemma read_digits_app (ds rest : jsstring) : forall acc,
  forallb is_digit ds = true ->
  read_digits 10 (ds ++ rest) acc
  = match ds with
    | [] => read_digits 10 rest acc
    | _ =>
      read_digits 10 rest
        (Some (fold_left (fun v d => v * 10 + (d - 48)) ds
                 (match acc with Some a => a | None => 0 end)))
    end.
Proof.
  induction ds as [|d ds IH]; intros acc H; [reflexivity|].
  cbn [forallb] in H. apply andb_true_iff in H as [Hd H].
  cbn [app read_digits fold_left]. unfold hex_value. rewrite Hd.
  unfold is_digit in Hd. apply andb_true_iff in Hd as [L U].
  apply Z.leb_le in L, U.
  assert (T : (d - 48 <? 10) = true) by (apply Z.ltb_lt; lia).
  rewrite T, IH by assumption. destruct ds; reflexivity.
Qed.

Lemma decimal_digits_spec (fuel : nat) : forall n acc,
  0 <= n < 10 ^ Z.of_nat (S fuel) ->
  exists ds,
    decimal_digits (S fuel) n acc = ds ++ acc /\ ds <> [] /\
    forallb is_digit ds = true /\
    fold_left (fun v d => v * 10 + (d - 48)) ds 0 = n.
Proof.
  induction fuel as [|fuel IH]; intros n acc Hn;
    change (decimal_digits (S ?f) n acc)
      with (if n / 10 =? 0 then (48 + n mod 10) :: acc
            else decimal_digits f (n / 10) ((48 + n mod 10) :: acc));
    assert (D : is_digit (48 + n mod 10) = true)
      by (unfold is_digit; pose proof (Z.mod_pos_bound n 10 ltac:(lia));
          apply andb_true_iff; split; apply Z.leb_le; lia);
    pose proof (Z.div_mod n 10 ltac:(lia)) as DM;
    destruct (Z.eqb_spec (n / 10) 0) as [E|E];
    try (exists [48 + n mod 10]; split; [reflexivity|];
         split; [discriminate|];
         split; [cbn [forallb]; rewrite D; reflexivity|];
         cbn [fold_left]; lia).
  - exfalso. apply E. apply Z.div_small.
    change (10 ^ Z.of_nat 1) with 10 in Hn. lia.
  - assert (Hq : 0 <= n / 10 < 10 ^ Z.of_nat (S fuel)).
    { split; [apply Z.div_pos; lia|].
      apply Z.div_lt_upper_bound; [lia|].
      replace (10 * 10 ^ Z.of_nat (S fuel)) with (10 ^ Z.of_nat (S (S fuel)));
        [lia|].
      rewrite (Nat2Z.inj_succ (S fuel)), Z.pow_succ_r by lia. reflexivity. }
    destruct (IH (n / 10) ((48 + n mod 10) :: acc) Hq)
      as [ds [E1 [E2 [E3 E4]]]].
    exists (ds ++ [48 + n mod 10]). rewrite E1, <- app_assoc.
    split; [reflexivity|].
    split; [intros C; apply app_eq_nil in C as [_ C]; discriminate|].
    split; [rewrite forallb_app, E3; cbn [forallb]; rewrite D; reflexivity|].
    rewrite fold_left_app, E4. cbn [fold_left]. lia.
Qed.

Lemma decimal_fuel (n : Z) :
  0 <= n -> n < 10 ^ Z.of_nat (S (Z.to_nat (Z.log2 n))).
Proof.
  intros Hn. destruct (Z.eq_dec n 0) as [->|N]; [reflexivity|].
  pose proof (Z.log2_nonneg n).
  rewrite Nat2Z.inj_succ, Z2Nat.id by assumption.
  apply Z.lt_le_trans with (2 ^ Z.succ (Z.log2 n)).
  - apply Z.log2_spec. lia.
  - apply Z.pow_le_mono_l. lia.
Qed.

(** The decimal text of a number that is not negative: digits, whose
    value is the number. *)
Lemma toString10_digits (n : Z) :
  0 <= n ->
  toString10 n <> [] /\ forallb is_digit (toString10 n) = true /\
  fold_left (fun v d => v * 10 + (d - 48)) (toString10 n) 0 = n.
Proof.
  intros Hn. unfold toString10.
  assert (L : (n <? 0) = false) by (apply Z.ltb_ge; lia). rewrite L.
  destruct (decimal_digits_spec _ n [] (conj Hn (decimal_fuel n Hn)))
    as [ds [E1 [E2 [E3 E4]]]].
  rewrite E1, app_nil_r. auto.
Qed.

Lemma is_digit_cases (d : Z) :
  is_digit d = true ->
  d = 48 \/ d = 49 \/ d = 50 \/ d = 51 \/ d = 52 \/ d = 53 \/ d = 54
  \/ d = 55 \/ d = 56 \/ d = 57.
Proof.
  unfold is_digit. intros H. apply andb_true_iff in H as [L U].
  apply Z.leb_le in L, U. lia.
Qed.

Lemma parseInt_digits (ds : jsstring) :
  ds <> [] -> forallb is_digit ds = true ->
  parseInt ds = read_digits 10 ds None.
Proof.
  intros N H. destruct ds as [|d ds]; [contradiction|].
  cbn [forallb] in H. apply andb_true_iff in H as [Hd H].
  assert (W : trimStart (d :: ds) = d :: ds).
  { cbn [trimStart].
    destruct (is_digit_cases d Hd) as [->|[->|[->|[->|[->|[->|[->|[->|[->| ->]]]]]]]]];
      reflexivity. }
  unfold parseInt. rewrite W.
  destruct (is_digit_cases d Hd) as [->|[->|[->|[->|[->|[->|[->|[->|[->| ->]]]]]]]]];
    try reflexivity.
  destruct ds as [|x ds]; [reflexivity|].
  cbn [forallb] in H. apply andb_true_iff in H as [Hx H].
  destruct (is_digit_cases x Hx) as [->|[->|[->|[->|[->|[->|[->|[->|[->| ->]]]]]]]]];
    reflexivity.
Qed.

Lemma parseInt_toString10 (n : Z) : 0 <= n -> parseInt (toString10 n) = Some n.
Proof.
  intros Hn. destruct (toString10_digits n Hn) as [E1 [E2 E3]].
  rewrite parseInt_digits by assumption.
  rewrite <- (app_nil_r (toString10 n)), read_digits_app by assumption.
  destruct (toString10 n); [contradiction|]. cbn [read_digits].
  rewrite E3. reflexivity.
Qed.

End DecimalFacts.

Section OptionFacts.
Import Regex OlxParser XmlText RoundTrip Generators.

Lemma option_hit (ds content rest : jsstring) :
  ds <> [] -> forallb is_digit ds = true ->
  miss (lit_units (str "</option>")) content ->
  matcher re_option
    (str "<option points=" ++ dq ++ ds ++ dq ++ str ">" ++ content
     ++ str "</option>" ++ rest) [] matched_here
  = Some (rest, [(1%nat, ds); (2%nat, content)]).
Proof.
  intros N Hd Hc. destruct ds as [|d ds]; [contradiction|].
  cbn [forallb] in Hd. apply andb_true_iff in Hd as [Hd Hds].
  unfold re_option, lit, plus, ws, digit, chr. cbn [seq_of].
  change (str "<option points=" ++ ?u)
    with (str "<option" ++ 32 :: str "points=" ++ u).
  cat_step. rewrite matcher_lit_app. rewrite !matcher_cat. chr_step.
  rewrite matcher_star_chr, star_greedy_halt by reflexivity.
  cat_step. rewrite matcher_lit_app. unfold dq. cbn [app].
  cat_step. chr_step. cat_step.
  rewrite matcher_group, matcher_cat, matcher_chr_cons, Hd, matcher_star_chr.
  erewrite star_greedy_run; [reflexivity | exact Hds | reflexivity |].
  cbv beta. cat_step. chr_step.
  change (str ">" ++ ?u) with (62 :: u). cat_step. chr_step.
  rewrite (lazy_group_until 2 _ (str "</option>") content rest _
             (matcher_lit _) Hc).
  rewrite (firstn_consumed (d :: ds)) by reflexivity.
  reflexivity.
Qed.

End OptionFacts.

Ltac solve_miss_ora :=
  solve_miss_with plain_miss
    ltac:(unfold Generators.attr, Generators.nl, Generators.optionXml,
            Generators.criterionXml, XmlText.option_content,
            XmlText.criterion_content).

Section CriterionFacts.
Import Regex OlxParser XmlText RoundTrip Generators.

Lemma toString10_no_lt (n : Z) :
  0 <= n -> forallb (fun c => negb (c =? 60)) (toString10 n) = true.
Proof.
  intros Hn. destruct (toString10_digits n Hn) as [_ [H _]].
  eapply forallb_weaken; [|exact H]. intros c Hc.
  destruct (is_digit_cases c Hc) as [->|[->|[->|[->|[->|[->|[->|[->|[->| ->]]]]]]]]];
    reflexivity.
Qed.

Lemma option_ok_parts (o : CriterionOption) :
  option_ok o = true -> element_text (co_label o) = true /\ 0 <= co_points o.
Proof.
  unfold option_ok. intros H. apply andb_true_iff in H as [H _].
  apply andb_true_iff in H as [H1 H2]. apply Z.leb_le in H2. auto.
Qed.

Lemma optionXml_form (o : CriterionOption) :
  optionXml o
  = str "      "
    ++ (str "<option points=" ++ dq ++ toString10 (co_points o) ++ dq
        ++ str ">" ++ option_content o ++ str "</option>" ++ [10]).
Proof.
  unfold optionXml, option_content, nl. rewrite <- !app_assoc. reflexivity.
Qed.

Lemma option_label (o : CriterionOption) :
  element_text (co_label o) = true ->
  elementText "label" (option_content o) = normalizeSpace (co_label o).
Proof.
  intros Hl. unfold option_content. rewrite (esc_element_text _ Hl).
  match goal with
  | |- elementText _ (?n1 ++ ?a ++ ?l1 ++ ?b ++ ?n2
                      ++ str "        <label>" ++ ?q ++ str "</label>" ++ ?r)
       = _ =>
    replace (n1 ++ a ++ l1 ++ b ++ n2
             ++ str "        <label>" ++ q ++ str "</label>" ++ r)
      with ((n1 ++ a ++ l1 ++ b ++ n2 ++ str "        ")
            ++ str "<" ++ str "label" ++ str ">" ++ q
            ++ (str "</" ++ str "label" ++ str ">") ++ r)
      by (rewrite <- !app_assoc; reflexivity)
  end.
  apply elementText_found; [solve_miss_ora | auto with plain].
Qed.

Lemma exec_all_options (post : jsstring) :
  miss re_option post ->
  forall (os : list CriterionOption) (pre : jsstring),
    miss re_option pre ->
    forallb option_ok os = true ->
    List.map
      (fun optMatch =>
         {| co_label := elementText "label" (capture (groups optMatch) 2);
            co_points := or_zero (parseInt (capture (groups optMatch) 1)) |})
      (exec_all re_option (pre ++ flat_map optionXml os ++ post))
    = List.map normalOption os.
Proof.
  intros Hpost. induction os as [|o os IH]; intros pre Hpre Hos.
  - rewrite exec_all_none; [reflexivity | | reflexivity].
    apply miss_app; assumption.
  - cbn [forallb] in Hos. apply andb_true_iff in Hos as [Ho Hos].
    destruct (option_ok_parts o Ho) as [Hl Hp].
    destruct (toString10_digits _ Hp) as [D1 [D2 _]].
    pose proof (element_text_no_lt _ Hl) as Pl.
    cbn [flat_map]. rewrite optionXml_form, <- !app_assoc.
    rewrite (app_assoc pre (str "      ")).
    erewrite exec_all_hit; cycle 1.
    + apply miss_app; [assumption | solve_miss].
    + apply option_hit; [assumption | assumption |].
      unfold option_content. solve_miss.
    + rewrite !length_app. simpl. lia.
    + cbn [List.map groups capture JsMap.get_by Nat.eqb]. f_equal.
      * unfold normalOption. rewrite option_label by assumption.
        rewrite parseInt_toString10 by assumption. reflexivity.
      * apply IH; [solve_miss | assumption].
Qed.

End CriterionFacts.

Section CriteriaFacts.
Import Regex OlxParser XmlText RoundTrip Generators.

Lemma criterionXml_form (c : Criterion) :
  criterionXml c
  = str "    "
    ++ (str "<" ++ str "criterion" ++ str ">" ++ criterion_content c
        ++ (str "</" ++ str "criterion" ++ str ">") ++ [10]).
Proof.
  unfold criterionXml, criterion_content, nl. rewrite <- !app_assoc.
  reflexivity.
Qed.

Lemma criterion_ok_parts (c : Criterion) :
  criterion_ok c = true ->
  element_text (cr_name c) = true
  /\ nonempty (normalizeSpace (cr_name c)) = true
  /\ forallb option_ok (cr_options c) = true.
Proof.
  unfold criterion_ok. intros H.
  apply andb_true_iff in H as [H H3]. apply andb_true_iff in H as [H1 H2].
  auto.
Qed.

Lemma options_no_lt_points (os : list CriterionOption) :
  forallb option_ok os = true ->
  forall o, In o os ->
    element_text (co_label o) = true /\ 0 <= co_points o.
Proof.
  intros H o Ho. rewrite forallb_forall in H. apply option_ok_parts. auto.
Qed.

Lemma readCriterion_content (m : found) (c : Criterion) :
  criterion_ok c = true ->
  groups m = [(1%nat, criterion_content c)] ->
  readCriterion m = [normalCriterion c].
Proof.
  intros Hok Hm. destruct (criterion_ok_parts c Hok) as [Hn [Hne Hos]].
  pose proof (element_text_no_lt _ Hn) as Pn.
  unfold readCriterion. rewrite Hm. cbn [capture JsMap.get_by Nat.eqb].
  assert (N : elementText "name" (criterion_content c)
              = normalizeSpace (cr_name c)).
  { unfold criterion_content. rewrite (esc_element_text _ Hn).
    match goal with
    | |- elementText _ (?n1 ++ str "      <name>" ++ ?q ++ str "</name>" ++ ?r)
         = _ =>
      replace (n1 ++ str "      <name>" ++ q ++ str "</name>" ++ r)
        with ((n1 ++ str "      ")
              ++ str "<" ++ str "name" ++ str ">" ++ q
              ++ (str "</" ++ str "name" ++ str ">") ++ r)
        by (rewrite <- !app_assoc; reflexivity)
    end.
    apply elementText_found; [solve_miss | auto with plain]. }
  assert (O : List.map
                (fun optMatch =>
                   {| co_label :=
                        elementText "label" (capture (groups optMatch) 2);
                      co_points :=
                        or_zero (parseInt (capture (groups optMatch) 1)) |})
                (exec_all re_option (criterion_content c))
              = List.map normalOption (cr_options c)).
  { unfold criterion_content.
    match goal with
    | |- List.map _ (exec_all _ (?n1 ++ ?a1 ++ ?x1 ++ ?a2 ++ ?n2 ++ ?b1 ++ ?x2
                                 ++ ?b2 ++ ?n3 ++ ?c1 ++ ?x3 ++ ?c2 ++ ?n4
                                 ++ flat_map optionXml ?os ++ ?r)) = _ =>
      replace (n1 ++ a1 ++ x1 ++ a2 ++ n2 ++ b1 ++ x2 ++ b2 ++ n3 ++ c1 ++ x3
               ++ c2 ++ n4 ++ flat_map optionXml os ++ r)
        with ((n1 ++ a1 ++ x1 ++ a2 ++ n2 ++ b1 ++ x2 ++ b2 ++ n3 ++ c1 ++ x3
               ++ c2 ++ n4) ++ flat_map optionXml os ++ r)
        by (rewrite <- !app_assoc; reflexivity)
    end.
    apply exec_all_options; [solve_miss | solve_miss | assumption]. }
  rewrite N, O, Hne. reflexivity.
Qed.

Lemma criterion_content_closed (c : Criterion) :
  criterion_ok c = true ->
  miss (lit_units (str "</" ++ str "criterion" ++ str ">"))
       (criterion_content c).
Proof.
  intros Hok. destruct (criterion_ok_parts c Hok) as [Hn [_ Hos]].
  pose proof (options_no_lt_points _ Hos) as Ho.
  unfold criterion_content.
  solve_miss_with
    ltac:(first [ plain_miss
                | apply miss_plain;
                  [ intros ? ? ?; begins_lt
                  | first [ apply esc_no_lt
                          | apply toString10_no_lt;
                            match goal with
                            | H : In ?o _ |- _ => apply (Ho o H)
                            end ] ] ])
    ltac:(unfold Generators.optionXml, Generators.nl).
Qed.

Lemma exec_all_criteria (post : jsstring) :
  miss (re_element_body "criterion") post ->
  forall (cs : list Criterion) (pre : jsstring),
    miss (re_element_body "criterion") pre ->
    forallb criterion_ok cs = true ->
    flat_map readCriterion
      (exec_all (re_element_body "criterion")
         (pre ++ flat_map criterionXml cs ++ post))
    = List.map normalCriterion cs.
Proof.
  intros Hpost. induction cs as [|c cs IH]; intros pre Hpre Hcs.
  - rewrite exec_all_none; [reflexivity | | reflexivity].
    apply miss_app; assumption.
  - cbn [forallb] in Hcs. apply andb_true_iff in Hcs as [Hc Hcs].
    cbn [flat_map]. rewrite criterionXml_form, <- !app_assoc.
    rewrite (app_assoc pre (str "    ")).
    erewrite exec_all_hit; cycle 1.
    + apply miss_app; [assumption | solve_miss].
    + apply (element_body_hit "criterion" (criterion_content c)
               ([10] ++ flat_map criterionXml cs ++ post)).
      apply criterion_content_closed. assumption.
    + rewrite !length_app. simpl. lia.
    + cbn [flat_map].
      erewrite (readCriterion_content _ c Hc) by reflexivity.
      cbn [app List.map]. f_equal.
      apply (IH [10]); [solve_miss | assumption].
Qed.

End CriteriaFacts.

Section ContainsFacts.
Import Regex OlxParser XmlText RoundTrip Generators.

Lemma contains_miss (t a s : jsstring) :
  miss (lit_units t) a -> contains t (a ++ s) = contains t s.
Proof.
  induction a as [|c a IH]; intros H; [reflexivity|].
  pose proof (miss_lit_starts t [] (c :: a) s (c :: a) H eq_refl
                ltac:(discriminate)) as S.
  cbn [app] in S. cbn [app contains]. rewrite S.
  apply IH. intros a1 a2 u E N.
  apply (H (c :: a1) a2); [rewrite E; reflexivity | exact N].
Qed.

Lemma contains_absent (t a : jsstring) :
  t <> [] -> miss (lit_units t) a -> contains t a = false.
Proof.
  intros Nt H. rewrite <- (app_nil_r a), contains_miss by assumption.
  destruct t; [contradiction | reflexivity].
Qed.

Lemma contains_behind (t a s : jsstring) :
  contains t s = true -> contains t (a ++ s) = true.
Proof.
  intros H. induction a as [|c a IH]; [exact H|].
  cbn [app contains]. rewrite IH. apply orb_true_r.
Qed.

Lemma contains_here (t s : jsstring) :
  starts_with t s = true -> contains t s = true.
Proof. intros H. destruct s; cbn [contains]; rewrite H; reflexivity. Qed.

(** A text between double quotes begins with a literal and the
    closing quote when it is the literal. *)
Lemma starts_with_quoted (m : jsstring) : forall (x t : jsstring),
  forallb (fun c => negb (c =? 34)) m = true ->
  forallb (fun c => negb (c =? 34)) x = true ->
  starts_with (m ++ [34]) (x ++ 34 :: t) = true -> x = m.
Proof.
  induction m as [|c m IH]; intros x t Hm Hx H.
  - destruct x as [|y x]; [reflexivity|]. cbn [app starts_with forallb] in *.
    apply andb_true_iff in Hx as [Hy _]. apply negb_true_iff in Hy.
    rewrite Z.eqb_sym, Hy in H. discriminate.
  - cbn [forallb] in Hm. apply andb_true_iff in Hm as [Hc Hm].
    destruct x as [|y x]; cbn [app starts_with] in H.
    + apply negb_true_iff in Hc. rewrite Hc in H. discriminate.
    + apply andb_true_iff in H as [E H]. apply Z.eqb_eq in E. subst y.
      cbn [forallb] in Hx. apply andb_true_iff in Hx as [_ Hx].
      f_equal. eapply IH; eassumption.
Qed.

Section Needle.
Variables (m0 : Z) (m : jsstring).
Hypothesis Hm : forallb (fun c => negb (c =? 34)) (m0 :: m) = true.

Let needle : jsstring := str "name=" ++ dq ++ (m0 :: m) ++ dq.

Lemma needle_prefix (s : jsstring) :
  starts_with needle s = true ->
  starts_with (str "name=" ++ dq ++ [m0]) s = true.
Proof.
  unfold needle, dq.
  change (str "name=" ++ [34] ++ (m0 :: m) ++ [34])
    with ((str "name=" ++ [34] ++ [m0]) ++ m ++ [34]).
  rewrite starts_with_app_split. intros H. apply andb_true_iff in H. tauto.
Qed.

(** The needle does not begin inside a text without double quotes
    that a code unit outside the head of the needle follows. *)
Lemma miss_needle_text (x : jsstring) (z : Z) :
  forallb (fun c => negb (c =? 34)) x = true ->
  forallb (fun c => negb (c =? z)) (str "name=" ++ dq) = true ->
  miss (lit_units needle) (x ++ [z]).
Proof.
  intros Hx Hz a1 a2 t E N. rewrite matcher_lit.
  destruct (starts_with needle (a2 ++ t)) eqn:S; [|reflexivity].
  exfalso. apply needle_prefix in S.
  destruct (suffix_last _ _ _ _ E N) as [x2 ->].
  assert (Hx2 : forallb (fun c => negb (c =? 34)) x2 = true).
  { rewrite app_assoc in E. apply app_inj_tail in E as [E _].
    exact (forallb_suffix _ _ _ _ E Hx). }
  change (str "name=" ++ dq ++ [m0]) with ((str "name=" ++ [34]) ++ [m0]) in S.
  rewrite starts_with_app_split in S. apply andb_true_iff in S as [S _].
  rewrite <- app_assoc in S. cbn [app] in S.
  rewrite (starts_with_blocked (fun c => negb (c =? 34)) z 34 t) in S.
  - discriminate.
  - intros c Hc. apply negb_true_iff in Hc. rewrite Z.eqb_sym. exact Hc.
  - exact Hz.
  - exact Hx2.
Qed.

(** The needle does not begin inside the value of an attribute [name]
    whose value is not the one of the needle. *)
Lemma miss_needle_value (x : jsstring) (c : Z) :
  forallb (fun c => negb (c =? 34)) x = true ->
  x <> m0 :: m -> (m0 =? c) = false -> (110 =? c) = false ->
  miss (lit_units needle) (str "name=" ++ dq ++ x ++ dq ++ [c]).
Proof.
  intros Hx Nx Hc Hn.
  assert (Inside : forall x2 t,
             forallb (fun c => negb (c =? 34)) x2 = true ->
             starts_with (str "name=" ++ dq ++ [m0]) (x2 ++ 34 :: c :: t)
             = false).
  { intros x2 t H2. unfold dq.
    change (str "name=" ++ [34] ++ [m0]) with [110; 97; 109; 101; 61; 34; m0].
    destruct x2 as [|y1 [|y2 [|y3 [|y4 [|y5 [|y6 x2]]]]]];
      cbn [app starts_with forallb] in *;
      repeat match goal with
             | H : _ && _ = true |- _ => apply andb_true_iff in H as [? H]
             | H : negb _ = true |- _ => apply negb_true_iff in H
             end;
      rewrite ?Hc;
      repeat match goal with
             | H : (?y =? 34) = false |- context [34 =? ?y] =>
               rewrite (Z.eqb_sym 34 y), H
             end;
      try change (110 =? 34) with false; try change (97 =? 34) with false;
      try change (109 =? 34) with false; try change (101 =? 34) with false;
      try change (61 =? 34) with false;
      rewrite ?andb_false_r; reflexivity. }
  assert (Tail : forall x2,
             forallb (fun c => negb (c =? 34)) x2 = true ->
             miss (lit_units needle) (x2 ++ [34; c])).
  { induction x2 as [|y x2 IH]; intros H2.
    - apply miss_cons; [|apply miss_cons; [|apply miss_nil]]; intros t;
        rewrite matcher_lit; unfold needle, dq; cbn [app starts_with str];
        [reflexivity|]. change (str "name=") with (110 :: str "ame=").
      cbn [app starts_with]. rewrite Hn. reflexivity.
    - cbn [forallb] in H2. apply andb_true_iff in H2 as [Hy H2].
      cbn [app]. apply miss_cons; [|apply IH; assumption].
      intros t. rewrite matcher_lit.
      match goal with
      | |- (if ?b then _ else _) = _ => destruct b eqn:S
      end; [|reflexivity].
      apply needle_prefix in S. rewrite <- app_assoc in S.
      change (y :: x2 ++ [34; c] ++ t) with ((y :: x2) ++ 34 :: c :: t) in S.
      rewrite Inside in S; [discriminate|].
      cbn [forallb]. rewrite Hy, H2. reflexivity. }
  unfold dq. change (str "name=" ++ [34] ++ x ++ [34] ++ [c])
    with (110 :: 97 :: 109 :: 101 :: 61 :: 34 :: x ++ [34; c]).
  apply miss_cons.
  { intros t. rewrite matcher_lit.
    match goal with
    | |- (if ?b then _ else _) = _ => destruct b eqn:S
    end; [|reflexivity].
    exfalso. apply Nx.
    assert (S' : starts_with ((m0 :: m) ++ [34]) ((x ++ [34; c]) ++ t) = true)
      by exact S.
    rewrite <- app_assoc in S'.
    apply (starts_with_quoted (m0 :: m) x (c :: t) Hm Hx S'). }
  repeat (apply miss_cons; [intros t; reflexivity|]).
  apply Tail. exact Hx.
Qed.

End Needle.
End ContainsFacts.

Section NeedleInRubric.
Import Regex OlxParser XmlText RoundTrip Generators.
Variables (m0 : Z) (m : jsstring).
Hypothesis Hm : forallb (fun c => negb (c =? 34)) (m0 :: m) = true.

Let needle : jsstring := str "name=" ++ dq ++ (m0 :: m) ++ dq.

Lemma esc_no_quote (s : jsstring) :
  forallb (fun c => negb (c =? 34)) (esc s) = true.
Proof.
  eapply forallb_weaken; [|apply esc_no_special]. intros c H.
  apply negb_true_iff in H. unfold xml_special in H.
  repeat (apply orb_false_iff in H as [H ?]).
  repeat match goal with E : (_ =? _) = false |- _ => rewrite E; clear E end.
  reflexivity.
Qed.

Lemma miss_needle_digits (ds : jsstring) :
  forallb is_digit ds = true -> miss (lit_units needle) ds.
Proof.
  apply miss_class. intros c t Hc. rewrite matcher_lit.
  unfold needle. change (str "name=") with (110 :: str "ame=").
  cbn [app starts_with].
  destruct (is_digit_cases c Hc) as [->|[->|[->|[->|[->|[->|[->|[->|[->| ->]]]]]]]]];
    reflexivity.
Qed.

Lemma miss_needle_option (o : CriterionOption) :
  0 <= co_points o -> miss (lit_units needle) (optionXml o).
Proof.
  intros Hp. destruct (toString10_digits _ Hp) as [_ [D _]].
  unfold optionXml, nl.
  match goal with
  | |- miss _ (?a ++ ?q1 ++ ?ds ++ ?q2 ++ ?b ++ ?n1 ++ str "        <name>"
               ++ ?l1 ++ str "</name>" ++ ?n2 ++ str "        <label>"
               ++ ?l2 ++ str "</label>" ++ ?n3 ++ str "        <explanation>"
               ++ ?l3 ++ str " level performance</explanation>" ++ ?r) =>
    replace (a ++ q1 ++ ds ++ q2 ++ b ++ n1 ++ str "        <name>"
             ++ l1 ++ str "</name>" ++ n2 ++ str "        <label>"
             ++ l2 ++ str "</label>" ++ n3 ++ str "        <explanation>"
             ++ l3 ++ str " level performance</explanation>" ++ r)
      with ((a ++ q1) ++ ds ++ (q2 ++ b ++ n1 ++ str "        <name>")
            ++ (l1 ++ [60]) ++ (str "/name>" ++ n2 ++ str "        <label>")
            ++ (l2 ++ [60])
            ++ (str "/label>" ++ n3 ++ str "        <explanation>")
            ++ (l3 ++ [32]) ++ (str "level performance</explanation>" ++ r))
      by (rewrite <- !app_assoc; reflexivity)
  end.
  repeat first
    [ apply miss_needle_digits; assumption
    | apply miss_needle_text; [apply esc_no_quote | reflexivity]
    | apply miss_app
    | solve_miss_with fail idtac ].
Qed.

Lemma miss_needle_criterion (c : Criterion) :
  forallb option_ok (cr_options c) = true ->
  miss (lit_units needle) (criterionXml c).
Proof.
  intros Hos. pose proof (options_no_lt_points _ Hos) as Ho.
  unfold criterionXml, nl.
  match goal with
  | |- miss _ (str "    <criterion>" ++ ?n0 ++ str "      <name>" ++ ?l1
               ++ str "</name>" ++ ?n1 ++ str "      <label>" ++ ?l2
               ++ str "</label>" ++ ?n2 ++ str "      <prompt>" ++ ?l3
               ++ str "</prompt>" ++ ?n3 ++ ?os ++ ?r) =>
    replace (str "    <criterion>" ++ n0 ++ str "      <name>" ++ l1
             ++ str "</name>" ++ n1 ++ str "      <label>" ++ l2
             ++ str "</label>" ++ n2 ++ str "      <prompt>" ++ l3
             ++ str "</prompt>" ++ n3 ++ os ++ r)
      with ((str "    <criterion>" ++ n0 ++ str "      <name>")
            ++ (l1 ++ [60]) ++ (str "/name>" ++ n1 ++ str "      <label>")
            ++ (l2 ++ [60]) ++ (str "/label>" ++ n2 ++ str "      <prompt>")
            ++ (l3 ++ [60]) ++ (str "/prompt>" ++ n3) ++ os ++ r)
      by (rewrite <- !app_assoc; reflexivity)
  end.
  repeat first
    [ apply miss_needle_text; [apply esc_no_quote | reflexivity]
    | apply miss_flat_map; intros o Hin; apply miss_needle_option;
      apply (Ho o Hin)
    | apply miss_app
    | solve_miss_with fail idtac ].
Qed.

End NeedleInRubric.

Section OpenResponseFacts.
Import Regex OlxParser XmlText RoundTrip Generators.

Variable id : jsstring.
Variable b : OpenResponseBlock.
Hypothesis Hid : no_amp id = true.
Hypothesis Htitle : name_text (ob_title b) = true.
Hypothesis Hprompt : element_text (ob_prompt b) = true.
Hypothesis Hcriteria : forallb criterion_ok (ob_criteria b) = true.
Hypothesis Htype :
  includes [str "self"; str "peer"; str "staff"] (ob_assessmentType b) = true.
Hypothesis Hid_name : includes assessment_names id = false.
Hypothesis Htitle_name : includes assessment_names (ob_title b) = false.

Lemma ora_attributes :
  parseXmlAttributes (openResponseXml id b)
  = attrs_object [(str "url_name", esc id);
                  (str "display_name", esc (ob_title b));
                  (str "submission_due", str "2099-01-01T00:00:00Z");
                  (str "submission_start", str "2000-01-01T00:00:00Z")].
Proof.
  unfold openResponseXml.
  match goal with
  | |- parseXmlAttributes (str "<openassessment " ++ ?a1 ++ str " " ++ ?a2
                           ++ ?s1 ++ ?q1 ++ ?v1 ++ ?q2 ++ ?s2 ++ ?q3 ++ ?v2
                           ++ ?q4 ++ str ">" ++ ?r) = _ =>
    replace (str "<openassessment " ++ a1 ++ str " " ++ a2
             ++ s1 ++ q1 ++ v1 ++ q2 ++ s2 ++ q3 ++ v2 ++ q4 ++ str ">" ++ r)
      with (str "<" ++ str "openassessment" ++ str " "
            ++ attrs_text
                 [(str "url_name", esc id);
                  (str "display_name", esc (ob_title b));
                  (str "submission_due", str "2099-01-01T00:00:00Z");
                  (str "submission_start", str "2000-01-01T00:00:00Z")]
            ++ str ">" ++ r)
  end.
  - apply parseXmlAttributes_tag; try reflexivity; try discriminate.
    + cbn [forallb]. rewrite !esc_attr_ok by reflexivity. reflexivity.
    + left. reflexivity.
  - unfold attr, attrs_text, attr_text. cbn [flat_map fst snd].
    rewrite <- !app_assoc. reflexivity.
Qed.

Lemma ora_description :
  elementText "description" (openResponseXml id b)
  = normalizeSpace (ob_prompt b).
Proof.
  unfold openResponseXml. rewrite (esc_element_text _ Hprompt).
  match goal with
  | |- elementText _ (?h ++ ?a1 ++ ?sp ++ ?a2 ++ ?s1 ++ ?q1 ++ ?v1 ++ ?q2
                      ++ ?s2 ++ ?q3 ++ ?v2 ++ ?q4 ++ ?gt ++ ?n1 ++ ?t1 ++ ?t
                      ++ ?t2 ++ ?n2 ++ ?p1 ++ ?n3
                      ++ str "    <description>" ++ ?q
                      ++ str "</description>" ++ ?r) = _ =>
    replace (h ++ a1 ++ sp ++ a2 ++ s1 ++ q1 ++ v1 ++ q2 ++ s2 ++ q3 ++ v2
             ++ q4 ++ gt ++ n1 ++ t1 ++ t ++ t2 ++ n2 ++ p1 ++ n3
             ++ str "    <description>" ++ q ++ str "</description>" ++ r)
      with ((h ++ a1 ++ sp ++ a2 ++ (s1 ++ q1 ++ v1 ++ q2 ++ s2 ++ q3 ++ v2
                                     ++ q4 ++ gt) ++ n1 ++ t1 ++ t
             ++ t2 ++ n2 ++ p1 ++ n3 ++ str "    ")
            ++ str "<" ++ str "description" ++ str ">" ++ q
            ++ (str "</" ++ str "description" ++ str ">") ++ r)
      by (rewrite <- !app_assoc; reflexivity)
  end.
  apply elementText_found; [solve_miss_xml | auto with plain].
Qed.

Lemma ora_criteria :
  flat_map readCriterion
    (exec_all (re_element_body "criterion") (openResponseXml id b))
  = List.map normalCriterion (ob_criteria b).
Proof.
  unfold openResponseXml.
  match goal with
  | |- flat_map _ (exec_all _ (?h ++ ?a1 ++ ?sp ++ ?a2 ++ ?s1 ++ ?q1 ++ ?v1
                             ++ ?q2 ++ ?s2 ++ ?q3 ++ ?v2 ++ ?q4 ++ ?gt ++ ?n1
                             ++ ?t1 ++ ?t ++ ?t2 ++ ?n2 ++ ?p1 ++ ?n3 ++ ?d1
                             ++ ?q ++ ?d2 ++ ?n4 ++ ?p2 ++ ?n5 ++ ?r1 ++ ?n6
                             ++ flat_map criterionXml ?cs ++ ?r)) = _ =>
    replace (h ++ a1 ++ sp ++ a2 ++ s1 ++ q1 ++ v1 ++ q2 ++ s2 ++ q3 ++ v2
             ++ q4 ++ gt ++ n1 ++ t1 ++ t ++ t2 ++ n2 ++ p1 ++ n3 ++ d1 ++ q
             ++ d2 ++ n4 ++ p2 ++ n5 ++ r1 ++ n6
             ++ flat_map criterionXml cs ++ r)
      with ((h ++ a1 ++ sp ++ a2 ++ (s1 ++ q1 ++ v1 ++ q2 ++ s2 ++ q3 ++ v2
                                     ++ q4 ++ gt) ++ n1 ++ t1 ++ t
             ++ t2 ++ n2 ++ p1 ++ n3 ++ d1 ++ q ++ d2 ++ n4 ++ p2 ++ n5 ++ r1
             ++ n6)
            ++ flat_map criterionXml cs ++ r)
      by (rewrite <- !app_assoc; reflexivity)
  end.
  apply exec_all_criteria; [| solve_miss_xml | exact Hcriteria].
  unfold assessmentsXml.
  solve_miss_xml.
Qed.

Lemma esc_not_name (v : jsstring) (n : string) :
  no_amp v = true -> decodeXmlEntities (str n) = str n ->
  eqb v (str n) = false -> esc v <> str n.
Proof.
  intros Hv Hn Hne E. apply eqb_neq in Hne. apply Hne.
  rewrite <- (decode_esc v Hv), E. exact Hn.
Qed.

Lemma includes_two (a c x : jsstring) :
  includes [a; c] x = false -> eqb x a = false /\ eqb x c = false.
Proof.
  unfold includes. cbn [existsb]. intros H.
  apply orb_false_iff in H as [H1 H]. apply orb_false_iff in H as [H2 _].
  auto.
Qed.

(** The name of an assessment is in the file only where the generator
    writes the assessment. *)
Lemma miss_needle_ora (m0 : Z) (m : jsstring) (n : string) :
  str n = m0 :: m ->
  forallb (fun c => negb (c =? 34)) (m0 :: m) = true ->
  decodeXmlEntities (str n) = str n ->
  (m0 =? 32) = false ->
  eqb id (str n) = false -> eqb (ob_title b) (str n) = false ->
  miss (lit_units (str "name=" ++ dq ++ str n ++ dq))
       (assessmentsXml (ob_assessmentType b)) ->
  miss (lit_units (str "name=" ++ dq ++ str n ++ dq)) (openResponseXml id b).
Proof.
  intros En Hm Hd H32 Ni Nt Ha.
  pose proof (esc_not_name id n Hid Hd Ni) as Ei.
  pose proof (esc_not_name (ob_title b) n
                (proj2 (name_text_parts _ Htitle)) Hd Nt) as Et.
  rewrite En in *.
  unfold openResponseXml, attr, nl.
  match goal with
  | |- miss _ (str "<openassessment " ++ (str "url_name" ++ ?e1 ++ ?q1 ++ ?vi
                                         ++ ?q2)
               ++ str " " ++ (str "display_name" ++ ?e2 ++ ?q3 ++ ?vt ++ ?q4)
               ++ str " submission_due=" ++ ?q5 ++ ?v1 ++ ?q6
               ++ ?s2 ++ ?q7 ++ ?v2 ++ ?q8 ++ ?gt ++ ?n1
               ++ str "  <title>" ++ ?t ++ str "</title>" ++ ?n2 ++ ?p1 ++ ?n3
               ++ str "    <description>" ++ ?q ++ str "</description>" ++ ?n4
               ++ ?p2 ++ ?n5 ++ ?r1 ++ ?n6 ++ ?cs ++ ?r2 ++ ?n7 ++ ?a1 ++ ?n8
               ++ ?as_ ++ ?rest) =>
    replace (str "<openassessment " ++ (str "url_name" ++ e1 ++ q1 ++ vi ++ q2)
             ++ str " " ++ (str "display_name" ++ e2 ++ q3 ++ vt ++ q4)
             ++ str " submission_due=" ++ q5 ++ v1 ++ q6
             ++ s2 ++ q7 ++ v2 ++ q8 ++ gt ++ n1
             ++ str "  <title>" ++ t ++ str "</title>" ++ n2 ++ p1 ++ n3
             ++ str "    <description>" ++ q ++ str "</description>" ++ n4
             ++ p2 ++ n5 ++ r1 ++ n6 ++ cs ++ r2 ++ n7 ++ a1 ++ n8
             ++ as_ ++ rest)
      with (str "<openassessment url_"
            ++ (str "name=" ++ dq ++ vi ++ dq ++ [32])
            ++ str "display_"
            ++ (str "name=" ++ dq ++ vt ++ dq ++ [32])
            ++ (str "submission_due=" ++ q5 ++ v1 ++ q6 ++ s2 ++ q7 ++ v2
                ++ q8 ++ gt ++ n1 ++ str "  <title>")
            ++ (t ++ [60])
            ++ (str "/title>" ++ n2 ++ p1 ++ n3 ++ str "    <description>")
            ++ (q ++ [60])
            ++ (str "/description>" ++ n4 ++ p2 ++ n5 ++ r1 ++ n6)
            ++ cs ++ (r2 ++ n7 ++ a1 ++ n8) ++ as_ ++ rest)
      by (unfold dq; rewrite <- !app_assoc; reflexivity)
  end.
  repeat first
    [ exact Ha
    | apply (miss_needle_value m0 m Hm);
      [apply esc_no_quote | assumption | exact H32 | reflexivity]
    | apply (miss_needle_text m0 m); [apply esc_no_quote | reflexivity]
    | apply miss_flat_map; intros c Hin;
      apply (miss_needle_criterion m0 m);
      apply (proj2 (proj2 (criterion_ok_parts c
               (proj1 (forallb_forall _ _) Hcriteria c Hin))))
    | apply miss_app
    | solve_miss_with fail idtac ].
Qed.

Ltac behind_rubric :=
  unfold openResponseXml;
  repeat match goal with
         | |- contains _ (?a ++ _) = true =>
           lazymatch a with
           | assessmentsXml _ => fail
           | _ => apply contains_behind
           end
         end;
  reflexivity.

Lemma ora_assessment_type :
  (if contains (str "name=" ++ dq ++ str "staff-assessment" ++ dq)
        (openResponseXml id b)
   then str "staff"
   else if contains (str "name=" ++ dq ++ str "peer-assessment" ++ dq)
             (openResponseXml id b)
   then str "peer"
   else str "self")
  = ob_assessmentType b.
Proof.
  destruct (includes_two _ _ _ Hid_name) as [Is Ip].
  destruct (includes_two _ _ _ Htitle_name) as [Ts Tp].
  assert (Staff : ob_assessmentType b <> str "staff" ->
                  contains (str "name=" ++ dq ++ str "staff-assessment" ++ dq)
                    (openResponseXml id b) = false).
  { intros N. apply contains_absent; [discriminate|].
    apply (miss_needle_ora 115 (str "taff-assessment") "staff-assessment");
      try reflexivity; try assumption.
    unfold assessmentsXml.
    destruct (eqb_spec (ob_assessmentType b) (str "staff")); [contradiction|].
    repeat match goal with
           | |- context [if ?c then _ else _] => destruct c
           end;
      match goal with
      | |- miss _ ?s => let v := eval vm_compute in s in change s with v
      end; solve_miss_with fail idtac. }
  assert (Peer : ob_assessmentType b <> str "peer" ->
                 contains (str "name=" ++ dq ++ str "peer-assessment" ++ dq)
                   (openResponseXml id b) = false).
  { intros N. apply contains_absent; [discriminate|].
    apply (miss_needle_ora 112 (str "eer-assessment") "peer-assessment");
      try reflexivity; try assumption.
    unfold assessmentsXml.
    destruct (eqb_spec (ob_assessmentType b) (str "peer")); [contradiction|].
    repeat match goal with
           | |- context [if ?c then _ else _] => destruct c
           end;
      match goal with
      | |- miss _ ?s => let v := eval vm_compute in s in change s with v
      end; solve_miss_with fail idtac. }
  unfold includes in Htype. cbn [existsb] in Htype.
  destruct (eqb_spec (ob_assessmentType b) (str "self")) as [E|_].
  - rewrite Staff, Peer by (rewrite E; discriminate). symmetry. exact E.
  - destruct (eqb_spec (ob_assessmentType b) (str "peer")) as [E|_].
    + rewrite Staff by (rewrite E; discriminate).
      replace (contains (str "name=" ++ dq ++ str "peer-assessment" ++ dq)
                 (openResponseXml id b)) with true; [symmetry; exact E|].
      symmetry. unfold openResponseXml. rewrite E. behind_rubric.
    + destruct (eqb_spec (ob_assessmentType b) (str "staff")) as [E|_];
        [|discriminate].
      replace (contains (str "name=" ++ dq ++ str "staff-assessment" ++ dq)
                 (openResponseXml id b)) with true; [symmetry; exact E|].
      symmetry. unfold openResponseXml. rewrite E. behind_rubric.
Qed.

(** Import reads the open response block that Build has written. *)
Lemma parseOpenResponseBlock_written (files : JsMap.t jsstring)
  (st : OlxParser.state) :
  JsMap.has (openResponseBlocks (fst st)) id = false ->
  getFile files (str "openassessment/" ++ id ++ str ".xml")
  = Some (openResponseXml id b) ->
  ob_blockId b = id ->
  parseOpenResponseBlock files id st
  = (set_openResponseBlock (fst st) id (normalOpenResponseBlock b), snd st).
Proof.
  intros Hhas Hfile Hb. unfold parseOpenResponseBlock. rewrite Hhas, Hfile.
  rewrite ora_attributes, ora_description, ora_criteria, ora_assessment_type.
  destruct (name_text_parts _ Htitle) as [T1 T2].
  unfold attrs_object. cbn [fold_left fst snd].
  rewrite !decode_esc by assumption. read_object.
  rewrite !or_else_nonempty by assumption.
  unfold normalOpenResponseBlock. rewrite Hb. reflexivity.
Qed.

End OpenResponseFacts.

Section HtmlFacts.
Import Regex OlxParser XmlText RoundTrip Generators.

Lemma textToHtml_html (content : jsstring) :
  negb (nonempty content) || looks_like_html content = true ->
  textToHtml content = content.
Proof.
  unfold textToHtml. destruct content as [|c content]; [reflexivity|].
  cbn [nonempty negb orb]. intros ->. reflexivity.
Qed.

(** Import reads the text block that Build has written. *)
Lemma parseHtmlBlock_written (files : JsMap.t jsstring) (id : jsstring)
  (b : TextBlock) (st : OlxParser.state) :
  name_text id = true -> name_text (tb_title b) = true ->
  negb (nonempty (tb_content b)) || looks_like_html (tb_content b) = true ->
  JsMap.has (textBlocks (fst st)) id = false ->
  getFile files (str "html/" ++ id ++ str ".xml") = Some (htmlXml id b) ->
  getFile files (str "html/" ++ id ++ str ".html") = Some (htmlFile b) ->
  tb_blockId b = id ->
  parseHtmlBlock files id st
  = (set_textBlock (fst st) id (normalTextBlock b), snd st).
Proof.
  intros Hid Htitle Hcontent Hhas Hxml Hhtml Hb.
  destruct (name_text_parts _ Hid) as [I1 I2].
  destruct (name_text_parts _ Htitle) as [T1 T2].
  unfold parseHtmlBlock. rewrite Hhas, Hxml. unfold htmlXml.
  replace (str "<html " ++ attr "filename" id ++ str " "
           ++ attr "display_name" (tb_title b) ++ str "/>" ++ nl)
    with (str "<" ++ str "html" ++ str " "
          ++ attrs_text [(str "filename", esc id);
                         (str "display_name", esc (tb_title b))]
          ++ str "/>" ++ nl)
    by (unfold attr, attrs_text, attr_text; cbn [flat_map fst snd];
        rewrite <- !app_assoc; reflexivity).
  rewrite parseXmlAttributes_tag; try reflexivity; try discriminate;
    [| cbn [forallb]; rewrite !esc_attr_ok by reflexivity; reflexivity
     | right; reflexivity ].
  unfold attrs_object. cbn [fold_left fst snd].
  rewrite !decode_esc by assumption. read_object.
  rewrite !or_else_nonempty by assumption. rewrite Hhtml. unfold htmlFile.
  rewrite (textToHtml_html _ Hcontent), trim_app_ws by reflexivity.
  unfold normalTextBlock. rewrite Hb. reflexivity.
Qed.

End HtmlFacts.

Section VideoFacts.
Import Regex OlxParser XmlText RoundTrip Generators.
Context {P : Platform} {J : JsonLaws P}.

Lemma join_attrs (l : list (jsstring * jsstring)) :
  join (str " ") (List.map attr_text l) = attrs_text l.
Proof.
  destruct l as [|a l]; [reflexivity|]. cbn [attrs_text List.map].
  revert a. induction l as [|x l IH]; intros a.
  - cbn [List.map join flat_map]. rewrite app_nil_r. reflexivity.
  - cbn [List.map flat_map]. cbn [List.map] in IH.
    change (join (str " ") (attr_text a :: attr_text x :: List.map attr_text l))
      with (attr_text a ++ str " "
            ++ join (str " ") (attr_text x :: List.map attr_text l)).
    rewrite IH, <- !app_assoc. reflexivity.
Qed.

Lemma replaceAll_absent (c : Z) (pat rep s : jsstring) :
  forallb (fun x => negb (x =? c)) s = true ->
  replaceAll (c :: pat) rep s = s.
Proof.
  induction s as [|x s IH]; [reflexivity|]. cbn [forallb]. intros H.
  apply andb_true_iff in H as [Hx H]. apply negb_true_iff in Hx.
  rewrite replaceAll_cons_miss.
  - rewrite IH by assumption. reflexivity.
  - cbn [starts_with]. rewrite Z.eqb_sym, Hx. reflexivity.
Qed.

Lemma url_text_parts (u : jsstring) :
  url_text u = true -> forallb json_plain u = true /\ no_amp u = true.
Proof.
  unfold url_text, no_amp. intros H.
  split; (eapply forallb_weaken; [|exact H]); cbv beta; intros c Hc;
    apply andb_true_iff in Hc; tauto.
Qed.

(** The first source of the array of one URL. *)
Lemma firstSource_one (u : jsstring) :
  url_text u = true ->
  firstSource (str "[" ++ dq ++ u ++ dq ++ str "]") = u.
Proof.
  intros H. destruct (url_text_parts u H) as [H1 H2]. unfold firstSource.
  change (str "&quot;") with (38 :: str "quot;").
  rewrite replaceAll_absent.
  - rewrite JSON_parse_string_array by assumption. reflexivity.
  - unfold dq. change (str "[" ++ [34] ++ u ++ [34] ++ str "]")
      with (91 :: 34 :: u ++ [34; 93]).
    cbn [forallb]. rewrite forallb_app. unfold no_amp in H2. rewrite H2.
    reflexivity.
Qed.

Lemma firstSource_none : firstSource (str "[]") = [].
Proof.
  unfold firstSource.
  change (replaceAll (str "&quot;") dq (str "[]")) with (str "[]").
  rewrite JSON_parse_empty_array. reflexivity.
Qed.

Lemma esc_literal_attr_ok (name_ : string) (v : jsstring) :
  nonempty (str name_) = true ->
  forallb attr_name_unit (str name_) = true ->
  forallb (fun c => negb (c =? 34) && negb (c =? 62)) v = true ->
  attr_ok (str name_, v) = true.
Proof.
  intros H1 H2 H3. unfold attr_ok. cbn [fst snd]. rewrite H1, H2, H3.
  reflexivity.
Qed.

Lemma videoXml_form (id : jsstring) (b : VideoBlock) :
  videoXml id b
  = str "<" ++ str "video" ++ str " " ++ attrs_text (video_attrs id b)
    ++ str "/>" ++ nl.
Proof.
  unfold videoXml. rewrite <- join_attrs. unfold video_attrs.
  rewrite !esc_app.
  change (esc (str "1.00:")) with (str "1.00:").
  change (esc (str "[")) with (str "["). change (esc (str "]")) with (str "]").
  change (esc dq) with (str "&quot;"). change (esc (str "[]")) with (str "[]").
  change (esc []) with (@nil Z).
  destruct (nonempty (vb_youtubeId b)), (nonempty (vb_html5Url b));
    cbn [List.map app]; unfold attr_text, attr; cbn [fst snd];
    rewrite <- ?app_assoc; reflexivity.
Qed.

Lemma video_attrs_ok (id : jsstring) (b : VideoBlock) :
  forallb attr_ok (video_attrs id b) = true.
Proof.
  unfold video_attrs.
  destruct (nonempty (vb_youtubeId b)), (nonempty (vb_html5Url b));
    cbn [app forallb]; rewrite !esc_attr_ok by reflexivity; reflexivity.
Qed.

(** Import reads the video block that Build has written. *)
Lemma parseVideoBlock_written (files inline : JsMap.t jsstring)
  (id : jsstring) (b : VideoBlock) (st : OlxParser.state) :
  name_text id = true -> name_text (vb_title b) = true ->
  no_amp (vb_youtubeId b) = true -> url_text (vb_html5Url b) = true ->
  name_text (vb_startTime b) = true -> name_text (vb_endTime b) = true ->
  JsMap.has (videoBlocks (fst st)) id = false ->
  getFile files (str "video/" ++ id ++ str ".xml") = Some (videoXml id b) ->
  vb_blockId b = id ->
  parseVideoBlock files id inline st = (set_videoBlock (fst st) id b, snd st).
Proof.
  intros Hid Htitle Hyt Hurl Hstart Hend Hhas Hxml Hbid.
  repeat match goal with
         | H : name_text _ = true |- _ =>
           let H1 := fresh "N" in let H2 := fresh "A" in
           destruct (name_text_parts _ H) as [H1 H2]; clear H
         end.
  unfold parseVideoBlock. rewrite Hhas, Hxml, videoXml_form.
  rewrite parseXmlAttributes_tag; try reflexivity; try discriminate;
    [| apply video_attrs_ok | right; reflexivity ].
  unfold video_attrs.
  rewrite !or_else_nonempty by assumption.
  destruct b as [bid title yt url st0 et]. cbn [vb_blockId vb_title
    vb_youtubeId vb_html5Url vb_startTime vb_endTime] in *. subst bid.
  assert (U : no_amp (str "[" ++ dq ++ url ++ dq ++ str "]") = true).
  { destruct (url_text_parts _ Hurl) as [_ U]. unfold no_amp in *.
    change (str "[" ++ dq ++ url ++ dq ++ str "]")
      with (91 :: 34 :: url ++ [34; 93]).
    cbn [forallb]. rewrite forallb_app, U. reflexivity. }
  assert (Y : no_amp (str "1.00:" ++ yt) = true).
  { unfold no_amp in *. rewrite forallb_app, Hyt. reflexivity. }
  assert (E0 : no_amp [] = true) by reflexivity.
  assert (E1 : no_amp (str "[]") = true) by reflexivity.
  destruct (nonempty yt) eqn:Ey, (nonempty url) eqn:Eu;
    unfold attrs_object; cbn [app fold_left fst snd];
    rewrite !decode_esc by assumption; read_object;
    rewrite ?or_else_nonempty by assumption.
  all: rewrite ?Ey, ?firstSource_one, ?firstSource_none by assumption.
  all: cbn [negb andb].
  all: try (destruct yt; [|discriminate]); try (destruct url; [|discriminate]).
  all: reflexivity.
Qed.

End VideoFacts.

Section NodeFacts.
Import Regex OlxParser XmlText RoundTrip Generators Hierarchy.

Lemma esc_id (id : jsstring) : forallb id_unit id = true -> esc id = id.
Proof.
  intros H. apply esc_element_text. unfold element_text.
  eapply forallb_weaken; [|exact H]. cbv beta. intros c Hc.
  destruct (id_unit_plain c Hc) as [H1 [H2 [_ [H4 [H5 H6]]]]].
  unfold xml_special. rewrite H1, H2, H4, H5, H6. reflexivity.
Qed.

Lemma child_lines_form {A : Type} (tag : string) (f : A -> jsstring)
  (l : list A) :
  forallb (forallb id_unit) (List.map f l) = true ->
  flat_map (fun x => str "  <" ++ str tag ++ str " " ++ attr "url_name" (f x)
                     ++ str "/>" ++ nl) l
  = flat_map (child_line tag) (List.map f l).
Proof.
  induction l as [|x l IH]; [reflexivity|]. cbn [List.map forallb flat_map].
  intros H. apply andb_true_iff in H as [Hx H]. rewrite IH by assumption.
  unfold attr, child_line. rewrite (esc_id _ Hx), <- !app_assoc. reflexivity.
Qed.

(** The name of a node file and the ids of its children. *)
Lemma node_name (tag : string) (name_ rest fallback : jsstring) :
  str tag <> [] -> forallb is_word (str tag) = true ->
  name_text name_ = true ->
  prop_or
    (parseXmlAttributes
       (str "<" ++ str tag ++ str " " ++ attr "display_name" name_
        ++ str ">" ++ rest))
    "display_name" fallback
  = name_.
Proof.
  intros T1 T2 Hn. destruct (name_text_parts _ Hn) as [N1 N2].
  replace (attr "display_name" name_ ++ str ">" ++ rest)
    with (attrs_text [(str "display_name", esc name_)] ++ str ">" ++ rest)
    by (unfold attr, attrs_text, attr_text; cbn [flat_map fst snd];
        rewrite <- !app_assoc; reflexivity).
  rewrite parseXmlAttributes_tag; try assumption; try discriminate;
    [| cbn [forallb]; rewrite esc_attr_ok by reflexivity; reflexivity
     | left; reflexivity ].
  unfold attrs_object. cbn [fold_left fst snd].
  rewrite decode_esc by assumption. read_object.
  apply or_else_nonempty. assumption.
Qed.

Lemma chapter_name (ch : Chapter) (fallback : jsstring) :
  name_text (c_name ch) = true ->
  prop_or (parseXmlAttributes (chapterXml ch)) "display_name" fallback
  = c_name ch.
Proof. apply (node_name "chapter"); [discriminate | reflexivity]. Qed.

Lemma sequential_name (sq : Sequential) (fallback : jsstring) :
  name_text (s_name sq) = true ->
  prop_or (parseXmlAttributes (sequentialXml sq)) "display_name" fallback
  = s_name sq.
Proof. apply (node_name "sequential"); [discriminate | reflexivity]. Qed.

Lemma vertical_name (vt : Vertical) (fallback : jsstring) :
  name_text (v_name vt) = true ->
  prop_or (parseXmlAttributes (verticalXml vt)) "display_name" fallback
  = v_name vt.
Proof. apply (node_name "vertical"); [discriminate | reflexivity]. Qed.

Lemma chapter_children (ch : Chapter) :
  forallb (forallb id_unit) (List.map s_id (c_sequentials ch)) = true ->
  extractChildIds (chapterXml ch) "sequential"
  = List.map s_id (c_sequentials ch).
Proof.
  intros H. unfold chapterXml.
  change (flat_map _ (c_sequentials ch))
    with (flat_map (fun x => str "  <" ++ str "sequential" ++ str " "
                             ++ attr "url_name" (s_id x) ++ str "/>" ++ nl)
            (c_sequentials ch)).
  rewrite child_lines_form by assumption.
  match goal with
  | |- extractChildIds (?a ++ ?b ++ ?c ++ ?d ++ ?e ++ ?f) _ = _ =>
    replace (a ++ b ++ c ++ d ++ e ++ f)
      with ((a ++ b ++ c ++ d) ++ e ++ f)
      by (rewrite <- !app_assoc; reflexivity)
  end.
  apply extractChildIds_lines; [| | assumption].
  - unfold attr. solve_miss.
  - solve_miss.
Qed.

Lemma sequential_children (sq : Sequential) :
  forallb (forallb id_unit) (List.map v_id (s_verticals sq)) = true ->
  extractChildIds (sequentialXml sq) "vertical"
  = List.map v_id (s_verticals sq).
Proof.
  intros H. unfold sequentialXml.
  change (flat_map _ (s_verticals sq))
    with (flat_map (fun x => str "  <" ++ str "vertical" ++ str " "
                             ++ attr "url_name" (v_id x) ++ str "/>" ++ nl)
            (s_verticals sq)).
  rewrite child_lines_form by assumption.
  match goal with
  | |- extractChildIds (?a ++ ?b ++ ?c ++ ?d ++ ?e ++ ?f) _ = _ =>
    replace (a ++ b ++ c ++ d ++ e ++ f)
      with ((a ++ b ++ c ++ d) ++ e ++ f)
      by (rewrite <- !app_assoc; reflexivity)
  end.
  apply extractChildIds_lines; [| | assumption].
  - unfold attr. solve_miss.
  - solve_miss.
Qed.

Lemma course_children {P : Platform} (i : CourseInfo) (tree : list Chapter) :
  forallb (forallb id_unit) (List.map c_id tree) = true ->
  extractChildIds (courseRunXml i tree) "chapter" = List.map c_id tree.
Proof.
  intros H. unfold courseRunXml. cbv zeta.
  change (flat_map _ tree)
    with (flat_map (fun x => str "  <" ++ str "chapter" ++ str " "
                             ++ attr "url_name" (c_id x) ++ str "/>" ++ nl)
            tree).
  rewrite child_lines_form by assumption.
  match goal with
  | |- extractChildIds
         (?a ++ ?b ++ ?c ++ ?d ++ ?e ++ ?f ++ ?g ++ ?h ++ ?i ++ ?j ++ ?k ++ ?l)
         _ = _ =>
    replace (a ++ b ++ c ++ d ++ e ++ f ++ g ++ h ++ i ++ j ++ k ++ l)
      with ((a ++ b ++ c ++ d ++ e ++ f ++ g ++ h ++ i) ++ j ++ k ++ l)
      by (rewrite <- !app_assoc; reflexivity)
  end.
  apply extractChildIds_lines; [| | assumption].
  - unfold attr. solve_miss.
  - solve_miss.
Qed.

End NodeFacts.

Section VerticalFacts.
Import Regex OlxParser XmlText RoundTrip Generators Hierarchy.

Lemma blockTag_cases (b : BlockRef) :
  includes Parser.validTypes (br_type b) = true ->
  blockTag (br_type b) = str "html" \/ blockTag (br_type b) = str "video"
  \/ blockTag (br_type b) = str "problem"
  \/ blockTag (br_type b) = str "openassessment".
Proof.
  unfold includes, Parser.validTypes, blockTag. cbn [existsb].
  rewrite !(eqb_sym (br_type b)).
  destruct (eqb (str "text") (br_type b)); [auto|].
  destruct (eqb (str "video") (br_type b)); [auto|].
  destruct (eqb (str "problem") (br_type b)); [auto|].
  destruct (eqb (str "openresponse") (br_type b)); [auto|]. discriminate.
Qed.

Lemma block_line_hit (b : BlockRef) (rest : jsstring) :
  block_ok b = true ->
  matcher re_element
    (str "<" ++ blockTag (br_type b) ++ str " "
     ++ attr "url_name" (br_blockId b) ++ str "/>" ++ rest)
    [] matched_here
  = Some (rest, [(1%nat, blockTag (br_type b));
                 (2%nat, attr "url_name" (br_blockId b))]).
Proof.
  intros H. apply andb_true_iff in H as [Ht Hn].
  assert (T : blockTag (br_type b) <> []
              /\ forallb is_word (blockTag (br_type b)) = true).
  { destruct (blockTag_cases b Ht) as [-> | [-> | [-> | ->]]];
      (split; [discriminate | reflexivity]). }
  destruct T as [T1 T2].
  replace (attr "url_name" (br_blockId b))
    with ((str "url_name=" ++ dq ++ esc (br_blockId b)) ++ [34])
    by (unfold attr; rewrite <- !app_assoc; reflexivity).
  apply (element_hit (blockTag (br_type b)) _ [47; 62] rest T1 T2).
  - rewrite !forallb_app. apply andb_true_iff. split; [reflexivity|].
    apply andb_true_iff. split; [reflexivity|].
    eapply forallb_weaken; [|apply esc_no_special].
    intros c Hc. apply negb_true_iff in Hc. unfold xml_special in Hc.
    repeat (apply orb_false_iff in Hc as [Hc ?]).
    repeat match goal with E : (_ =? _) = false |- _ => rewrite E; clear E end.
    reflexivity.
  - right. reflexivity.
Qed.

Lemma block_attributes (b : BlockRef) :
  block_ok b = true ->
  readAttrs [] (attr "url_name" (br_blockId b))
  = [(str "url_name", br_blockId b)].
Proof.
  intros H. apply andb_true_iff in H as [_ Hn].
  destruct (name_text_parts _ Hn) as [_ N].
  replace (attr "url_name" (br_blockId b))
    with (attrs_text [(str "url_name", esc (br_blockId b))])
    by (unfold attr, attrs_text, attr_text; cbn [flat_map fst snd];
        rewrite app_nil_r; reflexivity).
  rewrite readAttrs_text
    by (cbn [forallb]; rewrite esc_attr_ok by reflexivity; reflexivity).
  unfold attrs_object. cbn [fold_left fst snd]. rewrite decode_esc by assumption.
  reflexivity.
Qed.

(** The blocks of the lines that Build writes for them. *)
Lemma extractBlocks_lines (footer : jsstring) :
  miss re_element footer ->
  forall (blocks : list BlockRef) (pre : jsstring),
    miss re_element pre ->
    forallb block_ok blocks = true ->
    extractBlocks
      (pre
       ++ flat_map
            (fun b => str "  <" ++ blockTag (br_type b) ++ str " "
                      ++ attr "url_name" (br_blockId b) ++ str "/>" ++ nl)
            blocks
       ++ footer)
    = List.map block_object blocks.
Proof.
  intros Hf. induction blocks as [|b blocks IH]; intros pre Hpre Hb.
  - unfold extractBlocks. rewrite exec_all_none; [reflexivity | | reflexivity].
    apply miss_app; assumption.
  - cbn [forallb] in Hb. apply andb_true_iff in Hb as [Hb Hbs].
    cbn [flat_map]. rewrite <- !app_assoc.
    change (str "  <" ++ ?x) with (str "  " ++ str "<" ++ x).
    rewrite (app_assoc pre (str "  ")).
    unfold extractBlocks.
    erewrite exec_all_hit; cycle 1.
    + apply miss_app; [assumption | solve_miss_with fail idtac].
    + apply (block_line_hit b); assumption.
    + rewrite !length_app. simpl. lia.
    + cbn [flat_map groups List.map].
      change (flat_map _ (exec_all re_element ?s)) with (extractBlocks s).
      rewrite (IH nl) by (try assumption; solve_miss_xml).
      change (capture [(1%nat, ?x); (2%nat, ?y)] 1) with x.
      change (capture [(1%nat, ?x); (2%nat, ?y)] 2) with y.
      rewrite (block_attributes b Hb).
      pose proof Hb as Hb'. apply andb_true_iff in Hb' as [Ht Hn].
      destruct (name_text_parts _ Hn) as [N _].
      unfold prop_or. cbn [JsMap.get JsMap.get_by]. decide_tests.
      rewrite or_else_nonempty, N by assumption.
      unfold block_object.
      destruct (blockTag_cases b Ht) as [-> | [-> | [-> | ->]]]; reflexivity.
Qed.

Lemma vertical_blocks (vt : Vertical) :
  forallb block_ok (v_blocks vt) = true ->
  extractBlocks (verticalXml vt) = List.map block_object (v_blocks vt).
Proof.
  intros H. unfold verticalXml, extractBlocks.
  replace (attr "display_name" (v_name vt))
    with ((str "display_name=" ++ dq ++ esc (v_name vt)) ++ [34])
    by (unfold attr; rewrite <- !app_assoc; reflexivity).
  change (str "<vertical " ++ ?x) with (60 :: str "vertical" ++ 32 :: x).
  set (rest := nl ++ flat_map _ (v_blocks vt) ++ str "</vertical>" ++ nl).
  set (inner := str "display_name=" ++ dq ++ esc (v_name vt)).
  change (str ">") with [62].
  erewrite exec_all_here; cycle 1.
  - apply (element_hit (str "vertical") inner [62] rest);
      [discriminate | reflexivity | | left; reflexivity].
    unfold inner.
    rewrite !forallb_app. apply andb_true_iff. split; [reflexivity|].
    apply andb_true_iff. split; [reflexivity|].
    eapply forallb_weaken; [|apply esc_no_special].
    intros c Hc. apply negb_true_iff in Hc. unfold xml_special in Hc.
    repeat (apply orb_false_iff in Hc as [Hc ?]).
    repeat match goal with E : (_ =? _) = false |- _ => rewrite E; clear E end.
    reflexivity.
  - clearbody rest inner. cbn [length]. rewrite length_app. cbn [length].
    rewrite !length_app. lia.
  - cbn [flat_map groups].
    change (capture [(1%nat, ?x); (2%nat, ?y)] 1) with x.
    change (eqb (str "vertical") (str "vertical")) with true. cbv iota.
    cbn [app].
    change (flat_map _ (exec_all re_element ?s)) with (extractBlocks s).
    unfold rest.
    apply (extractBlocks_lines (str "</vertical>" ++ nl));
      [solve_miss_xml | solve_miss_xml | assumption].
Qed.

End VerticalFacts.





(** * Properties of the code beside the claims *)

(** The platform of the examples parses the arrays of the video
    generator. *)
Lemma plain_string_array_cons (c : Z) (s cur : jsstring) :
  (c =? 34) || (c =? 92) || (c <? 32) = false ->
  Reference.plain_string_array (c :: s) cur
  = Reference.plain_string_array s (c :: cur).
Proof.
  intros Hc. assert (N : c <> 34) by (intros ->; discriminate).
  destruct c as [|p|p]; cbn [Reference.plain_string_array];
    try (rewrite Hc; reflexivity).
  do 6 (try (destruct p as [p|p|]; cbn [Reference.plain_string_array];
             try (rewrite Hc; reflexivity))).
  all: congruence.
Qed.

Lemma reference_string_array (u : jsstring) :
  forallb json_plain u = true ->
  forall cur,
    Reference.plain_string_array (u ++ [34; 93]) cur
    = Some (JArray [JString (rev cur ++ u)]).
Proof.
  induction u as [|c u IH]; intros H cur.
  - cbn. rewrite app_nil_r. reflexivity.
  - cbn [forallb] in H. apply andb_true_iff in H as [Hc H].
    unfold json_plain in Hc. apply negb_true_iff in Hc.
    cbn [app]. rewrite (plain_string_array_cons c _ cur Hc), (IH H).
    cbn [rev]. rewrite <- app_assoc. reflexivity.
Qed.

Lemma reference_json_laws : JsonLaws Reference.platform.
Proof.
  split; [reflexivity|]. intros u H.
  change (JSON_parse (str "[" ++ dq ++ u ++ dq ++ str "]"))
    with (Reference.plain_string_array (u ++ [34; 93]) []).
  apply (reference_string_array u H).
Qed.

(** ** The XML codec *)

(** X1. Decoding the five entities undoes the escaping of a text
    without ampersand: [decodeXmlEntities (escapeXml s)] is [s]. *)
Theorem decodeXmlEntities_undoes_escapeXml :
  forall s : jsstring,
    RoundTrip.no_amp s = true ->
    OlxParser.decodeXmlEntities (Generators.esc s) = s.
Proof. exact decode_esc. Qed.

Lemma decodeXmlEntities_undoes_escapeXml_witness :
  OlxParser.decodeXmlEntities
    (Generators.esc (str "a < b > 'c' " ++ dq ++ str "d" ++ dq))
  = str "a < b > 'c' " ++ dq ++ str "d" ++ dq.
Proof.
  apply (decodeXmlEntities_undoes_escapeXml
           (str "a < b > 'c' " ++ dq ++ str "d" ++ dq)).
  reflexivity.
Defined.



(** ** The files of the course tree *)

(** X3. Import reads from the chapter file that Build writes the name
    of the chapter and the ids of its sequentials, in their order: for
    a chapter whose name is not empty and holds no ampersand and whose
    sequentials have ids of lower-case letters, digits, underscores
    and hyphens. *)
Theorem chapter_file_read_back :
  forall (ch : Hierarchy.Chapter) (fallback : jsstring),
    RoundTrip.name_text (Hierarchy.c_name ch) = true ->
    forallb (forallb XmlText.id_unit)
      (List.map Hierarchy.s_id (Hierarchy.c_sequentials ch)) = true ->
    OlxParser.prop_or
      (OlxParser.parseXmlAttributes (Generators.chapterXml ch))
      "display_name" fallback
    = Hierarchy.c_name ch
    /\ OlxParser.extractChildIds (Generators.chapterXml ch) "sequential"
       = List.map Hierarchy.s_id (Hierarchy.c_sequentials ch).
Proof.
  intros ch fallback Hn Hids. split.
  - apply chapter_name. exact Hn.
  - apply chapter_children. exact Hids.
Qed.

Lemma chapter_file_read_back_witness :
  OlxParser.prop_or
    (OlxParser.parseXmlAttributes (Generators.chapterXml Written.chapter_node))
    "display_name" (str "chapter_1_00000000")
  = Hierarchy.c_name Written.chapter_node
  /\ OlxParser.extractChildIds (Generators.chapterXml Written.chapter_node)
       "sequential"
     = [str "1_1_welcome_01010101"].
Proof.
  apply (chapter_file_read_back Written.chapter_node
           (str "chapter_1_00000000")); reflexivity.
Defined.

(** X4. Import reads from the sequential file that Build writes the
    name of the sequential and the ids of its verticals, in their
    order, under the same conditions on the name and the ids. *)
Theorem sequential_file_read_back :
  forall (sq : Hierarchy.Sequential) (fallback : jsstring),
    RoundTrip.name_text (Hierarchy.s_name sq) = true ->
    forallb (forallb XmlText.id_unit)
      (List.map Hierarchy.v_id (Hierarchy.s_verticals sq)) = true ->
    OlxParser.prop_or
      (OlxParser.parseXmlAttributes (Generators.sequentialXml sq))
      "display_name" fallback
    = Hierarchy.s_name sq
    /\ OlxParser.extractChildIds (Generators.sequentialXml sq) "vertical"
       = List.map Hierarchy.v_id (Hierarchy.s_verticals sq).
Proof.
  intros sq fallback Hn Hids. split.
  - apply sequential_name. exact Hn.
  - apply sequential_children. exact Hids.
Qed.

Lemma sequential_file_read_back_witness :
  OlxParser.prop_or
    (OlxParser.parseXmlAttributes
       (Generators.sequentialXml Written.sequential_node))
    "display_name" []
  = str "1.1 Welcome"
  /\ OlxParser.extractChildIds
       (Generators.sequentialXml Written.sequential_node) "vertical"
     = [str "unit_1_1_1_0a0a0a0a"; str "unit_1_1_2_02020202"].
Proof.
  apply (sequential_file_read_back Written.sequential_node []); reflexivity.
Defined.

(** X5. Import reads from the course run file that Build writes the
    ids of the chapters, in their order, whatever the course info is:
    for chapters whose ids are of lower-case letters, digits,
    underscores and hyphens. *)
Theorem course_file_children_read_back :
  forall (P : Platform) (i : CourseInfo) (tree : list Hierarchy.Chapter),
    forallb (forallb XmlText.id_unit) (List.map Hierarchy.c_id tree) = true ->
    OlxParser.extractChildIds (Generators.courseRunXml i tree) "chapter"
    = List.map Hierarchy.c_id tree.
Proof. intros P i tree H. apply course_children. exact H. Qed.

Lemma course_file_children_read_back_witness :
  OlxParser.extractChildIds
    (Generators.courseRunXml (P := Reference.platform)
       (info Template.course) [Written.chapter_node; Written.chapter_node])
    "chapter"
  = [str "chapter_1_00000000"; str "chapter_1_00000000"].
Proof.
  apply (course_file_children_read_back Reference.platform
           (info Template.course)
           [Written.chapter_node; Written.chapter_node]).
  reflexivity.
Defined.

(** X6. Import reads from the vertical file that Build writes the name
    of the vertical and, in their order, one object per block that
    holds the tag of the block type and the block id: for a vertical
    whose name and block ids are not empty and hold no ampersand and
    whose block types are among text, video, problem and
    openresponse. *)
Theorem vertical_file_read_back :
  forall (vt : Hierarchy.Vertical) (fallback : jsstring),
    RoundTrip.name_text (Hierarchy.v_name vt) = true ->
    forallb XmlText.block_ok (Hierarchy.v_blocks vt) = true ->
    OlxParser.prop_or
      (OlxParser.parseXmlAttributes (Generators.verticalXml vt))
      "display_name" fallback
    = Hierarchy.v_name vt
    /\ OlxParser.extractBlocks (Generators.verticalXml vt)
       = List.map XmlText.block_object (Hierarchy.v_blocks vt).
Proof.
  intros vt fallback Hn Hb. split.
  - apply vertical_name. exact Hn.
  - apply vertical_blocks. exact Hb.
Qed.

Lemma vertical_file_read_back_witness :
  OlxParser.prop_or
    (OlxParser.parseXmlAttributes (Generators.verticalXml Written.vertical_node))
    "display_name" []
  = str "Unit 1.1.1 Overview"
  /\ OlxParser.extractBlocks (Generators.verticalXml Written.vertical_node)
     = [[(str "tag", str "html"); (str "url_name", str "welcome_text")];
        [(str "tag", str "video"); (str "url_name", str "lecture_1")];
        [(str "tag", str "problem"); (str "url_name", str "quiz_q1")];
        [(str "tag", str "openassessment");
         (str "url_name", str "reflection_1")]].
Proof.
  apply (vertical_file_read_back Written.vertical_node []); reflexivity.
Defined.

(** ** The files of the blocks *)

(** X7. Import reads the text block that Build has written: when the
    two files of the block are in the entry map and the block is not in
    the model yet, [parseHtmlBlock] sets the block with its id, its
    title and its content trimmed; for an id and a title that are not
    empty and hold no ampersand and a content that is empty or looks
    like HTML. *)
Theorem parseHtmlBlock_reads_written :
  forall (files : JsMap.t jsstring) (id : jsstring) (b : TextBlock)
         (st : OlxParser.state),
    RoundTrip.name_text id = true ->
    RoundTrip.name_text (tb_title b) = true ->
    negb (nonempty (tb_content b)) || looks_like_html (tb_content b) = true ->
    JsMap.has (textBlocks (fst st)) id = false ->
    OlxParser.getFile files (str "html/" ++ id ++ str ".xml")
    = Some (Generators.htmlXml id b) ->
    OlxParser.getFile files (str "html/" ++ id ++ str ".html")
    = Some (Generators.htmlFile b) ->
    tb_blockId b = id ->
    OlxParser.parseHtmlBlock files id st
    = (set_textBlock (fst st) id (RoundTrip.normalTextBlock b), snd st).
Proof. exact parseHtmlBlock_written. Qed.

Lemma parseHtmlBlock_reads_written_witness :
  OlxParser.parseHtmlBlock
    (Generators.generateHtmlBlocks
       [(str "welcome_text", Written.text_block)])
    (str "welcome_text") Written.start
  = (set_textBlock createCourseData (str "welcome_text")
       {| tb_blockId := str "welcome_text"; tb_title := str "Welcome <all>";
          tb_content := str "<h1>Welcome</h1><p>Key concepts.</p>" |},
     []).
Proof.
  apply (parseHtmlBlock_reads_written
           (Generators.generateHtmlBlocks
              [(str "welcome_text", Written.text_block)])
           (str "welcome_text") Written.text_block Written.start);
    reflexivity.
Defined.

(** X8. Import reads the video block that Build has written: when the
    file of the block is in the entry map and the block is not in the
    model yet, [parseVideoBlock] sets the very block; for an id, a
    title, a start and an end time that are not empty and hold no
    ampersand, a YouTube id without ampersand and a URL of code units
    that a JSON string holds as they are, without ampersand.  JSON.parse
    is assumed to read the empty array and the array of one such string. *)
Theorem parseVideoBlock_reads_written :
  forall (P : Platform) (J : JsonLaws P)
         (files inline : JsMap.t jsstring) (id : jsstring) (b : VideoBlock)
         (st : OlxParser.state),
    RoundTrip.name_text id = true ->
    RoundTrip.name_text (vb_title b) = true ->
    RoundTrip.no_amp (vb_youtubeId b) = true ->
    RoundTrip.url_text (vb_html5Url b) = true ->
    RoundTrip.name_text (vb_startTime b) = true ->
    RoundTrip.name_text (vb_endTime b) = true ->
    JsMap.has (videoBlocks (fst st)) id = false ->
    OlxParser.getFile files (str "video/" ++ id ++ str ".xml")
    = Some (Generators.videoXml id b) ->
    vb_blockId b = id ->
    OlxParser.parseVideoBlock files id inline st
    = (set_videoBlock (fst st) id b, snd st).
Proof. exact @parseVideoBlock_written. Qed.

Lemma parseVideoBlock_reads_written_witness :
  OlxParser.parseVideoBlock (P := Reference.platform)
    (Generators.generateVideoBlocks [(str "lecture_1", Written.video_block)])
    (str "lecture_1") [] Written.start
  = (set_videoBlock createCourseData (str "lecture_1") Written.video_block,
     []).
Proof.
  apply (parseVideoBlock_reads_written Reference.platform reference_json_laws
           (Generators.generateVideoBlocks
              [(str "lecture_1", Written.video_block)])
           [] (str "lecture_1") Written.video_block Written.start);
    reflexivity.
Defined.

(** X9. Import reads the problem block that Build has written: when the
    file of the block is in the entry map and the block is not in the
    model yet, [parseProblemBlock] sets the block with its id, title and
    show-answer setting, its choices in their order with their
    correctness, and the texts of the question, the choices, the hints
    and the explanation with their white space normalised; for a title
    and a show-answer setting that are not empty and hold no ampersand
    and texts without the five characters that [escapeXml] replaces. *)
Theorem parseProblemBlock_reads_written :
  forall (b : ProblemBlock),
    RoundTrip.name_text (pb_title b) = true ->
    RoundTrip.name_text (pb_showAnswer b) = true ->
    RoundTrip.element_text (pb_questionText b) = true ->
    forallb RoundTrip.choice_ok (pb_choices b) = true ->
    RoundTrip.element_text (pb_explanation b) = true ->
    forall (files : JsMap.t jsstring) (id : jsstring) (st : OlxParser.state),
      JsMap.has (problemBlocks (fst st)) id = false ->
      OlxParser.getFile files (str "problem/" ++ id ++ str ".xml")
      = Some (Generators.problemXml b) ->
      pb_blockId b = id ->
      OlxParser.parseProblemBlock files id st
      = (set_problemBlock (fst st) id (RoundTrip.normalProblemBlock b),
         snd st).
Proof. exact parseProblemBlock_written. Qed.

Lemma parseProblemBlock_reads_written_witness :
  OlxParser.parseProblemBlock
    (Generators.generateProblemBlocks
       [(str "quiz_q1", Written.problem_block)])
    (str "quiz_q1") Written.start
  = (set_problemBlock createCourseData (str "quiz_q1")
       {| pb_blockId := str "quiz_q1"; pb_title := str "Q1";
          pb_questionText := str "What is 2 + 2?";
          pb_choices :=
            [Template.choice "3" false "Too low";
             Template.choice "4" true "Correct!";
             Template.choice "5" false ""];
          pb_explanation := str "Basic addition: 2 + 2 = 4";
          pb_showAnswer := str "attempted" |},
     []).
Proof.
  apply (parseProblemBlock_reads_written Written.problem_block
           eq_refl eq_refl eq_refl eq_refl eq_refl
           (Generators.generateProblemBlocks
              [(str "quiz_q1", Written.problem_block)])
           (str "quiz_q1") Written.start);
    reflexivity.
Defined.

(** X10. Import reads the open response block that Build has written:
    when the file of the block is in the entry map and the block is not
    in the model yet, [parseOpenResponseBlock] sets the block with its
    id, title and assessment type, its criteria and their options in
    their order with their points, and the prompt, the criterion names
    and the option labels with their white space normalised; for an id
    without ampersand, a title that is not empty and holds no ampersand,
    neither of them the name of an assessment, texts without the five
    characters that [escapeXml] replaces, criterion names that are not
    blank, points from 0 below 2^53, and an assessment type among self,
    peer and staff. *)
Theorem parseOpenResponseBlock_reads_written :
  forall (id : jsstring) (b : OpenResponseBlock),
    RoundTrip.no_amp id = true ->
    RoundTrip.name_text (ob_title b) = true ->
    RoundTrip.element_text (ob_prompt b) = true ->
    forallb RoundTrip.criterion_ok (ob_criteria b) = true ->
    includes [str "self"; str "peer"; str "staff"] (ob_assessmentType b)
    = true ->
    includes RoundTrip.assessment_names id = false ->
    includes RoundTrip.assessment_names (ob_title b) = false ->
    forall (files : JsMap.t jsstring) (st : OlxParser.state),
      JsMap.has (openResponseBlocks (fst st)) id = false ->
      OlxParser.getFile files (str "openassessment/" ++ id ++ str ".xml")
      = Some (Generators.openResponseXml id b) ->
      ob_blockId b = id ->
      OlxParser.parseOpenResponseBlock files id st
      = (set_openResponseBlock (fst st) id
           (RoundTrip.normalOpenResponseBlock b),
         snd st).
Proof. exact parseOpenResponseBlock_written. Qed.

Lemma parseOpenResponseBlock_reads_written_witness :
  OlxParser.parseOpenResponseBlock
    (Generators.generateOpenResponseBlocks
       [(str "reflection_1", Written.open_response_block)])
    (str "reflection_1") Written.start
  = (set_openResponseBlock createCourseData (str "reflection_1")
       (RoundTrip.normalOpenResponseBlock Written.open_response_block),
     []).
Proof.
  apply (parseOpenResponseBlock_reads_written (str "reflection_1")
           Written.open_response_block
           eq_refl eq_refl eq_refl eq_refl eq_refl eq_refl eq_refl
           (Generators.generateOpenResponseBlocks
              [(str "reflection_1", Written.open_response_block)])
           Written.start);
    reflexivity.
Defined.

(** ** The entry map of the export *)

Section FoldSetFacts.
Context {A V : Type} (key : A -> jsstring) (val : A -> V).

Local Abbreviation write :=
  (fun (m : JsMap.t V) (e : A) => JsMap.set m (key e) (val e)).

(** A key that no element writes keeps its value. *)
Lemma get_fold_set_absent (l : list A) (k : jsstring) :
  (forall e, In e l -> key e <> k) ->
  forall a, JsMap.get (fold_left write l a) k = JsMap.get a k.
Proof.
  induction l as [|e l IH]; intros H a; [reflexivity|]. cbn [fold_left].
  rewrite IH by (intros e' He'; apply H; right; exact He').
  apply get_set_other. apply H. left. reflexivity.
Qed.

(** A key that an element writes holds the value of that element, when
    the elements of the same key agree on the value. *)
Lemma get_fold_set_present (l : list A) (x : A) (a : JsMap.t V) :
  In x l ->
  (forall e, In e l -> key e = key x -> val e = val x) ->
  JsMap.get (fold_left write l a) (key x) = Some (val x).
Proof.
  induction l as [|e l IH] using rev_ind; intros Hin Hval; [destruct Hin|].
  rewrite fold_left_app. cbn [fold_left].
  destruct (eqb_spec (key e) (key x)) as [E|N].
  - rewrite E, <- (Hval e); [apply get_set_same | | exact E].
    apply in_or_app. right. left. reflexivity.
  - rewrite get_set_other by exact N. apply IH.
    + apply in_app_or in Hin as [Hin|[->|[]]]; [exact Hin | contradiction].
    + intros e' He'. apply Hval. apply in_or_app. left. exact He'.
Qed.

(** The keys stay distinct. *)
Lemma keys_set (m : JsMap.t V) (k : jsstring) (v : V) :
  JsMap.keys (JsMap.set m k v)
  = if JsMap.has m k then JsMap.keys m else JsMap.keys m ++ [k].
Proof.
  unfold JsMap.keys, JsMap.set, JsMap.has, JsMap.get.
  induction m as [|[k' v'] m IH]; [reflexivity|].
  cbn [JsMap.set_by JsMap.get_by List.map fst].
  destruct (eqb k' k) eqn:E; [reflexivity|].
  cbn [List.map fst]. rewrite IH.
  destruct (JsMap.get_by eqb m k); reflexivity.
Qed.

Lemma has_In (m : JsMap.t V) (k : jsstring) :
  JsMap.has m k = true <-> In k (JsMap.keys m).
Proof.
  unfold JsMap.keys, JsMap.has, JsMap.get.
  induction m as [|[k' v'] m IH]; [split; [discriminate | intros []]|].
  cbn [JsMap.get_by List.map fst In].
  destruct (eqb_spec k' k) as [->|N].
  - split; auto.
  - rewrite IH. split; [auto | intros [C|C]; [contradiction | exact C]].
Qed.

Lemma set_NoDup (m : JsMap.t V) (k : jsstring) (v : V) :
  NoDup (JsMap.keys m) -> NoDup (JsMap.keys (JsMap.set m k v)).
Proof.
  intros H. rewrite keys_set. destruct (JsMap.has m k) eqn:E; [exact H|].
  apply NoDup_app; [exact H | repeat constructor; intros [] |].
  intros y Hy [<-|[]]. apply has_In in Hy. congruence.
Qed.

Lemma fold_set_NoDup (l : list A) (a : JsMap.t V) :
  NoDup (JsMap.keys a) -> NoDup (JsMap.keys (fold_left write l a)).
Proof.
  revert a. induction l as [|e l IH]; intros a H; [exact H|].
  cbn [fold_left]. apply IH, set_NoDup, H.
Qed.

End FoldSetFacts.

Section MergeFacts.
Import ReadBack.

Lemma get_merge (a g : JsMap.t jsstring) (k : jsstring) :
  NoDup (JsMap.keys g) ->
  JsMap.get (Main.merge a g) k = or_found (JsMap.get g k) (JsMap.get a k).
Proof.
  unfold Main.merge. revert a.
  induction g as [|[k' v'] g IH]; intros a H; [reflexivity|].
  cbn [fold_left fst snd]. unfold JsMap.keys in H. cbn [List.map fst] in H.
  apply NoDup_cons_iff in H as [Hk H].
  unfold JsMap.get at 2. cbn [JsMap.get_by].
  destruct (eqb_spec k' k) as [->|N].
  - rewrite (get_fold_set_absent fst snd).
    + rewrite get_set_same. reflexivity.
    + intros e He E. apply Hk. rewrite <- E. apply in_map. exact He.
  - rewrite (IH _ H). fold (JsMap.get g k).
    rewrite get_set_other by exact N. reflexivity.
Qed.

Lemma merge_NoDup (a g : JsMap.t jsstring) :
  NoDup (JsMap.keys a) -> NoDup (JsMap.keys (Main.merge a g)).
Proof. apply (fold_set_NoDup fst snd). Qed.

Lemma fold_left_flat_map {A B C : Type} (f : A -> C -> A) (g : B -> list C)
  (l : list B) (a : A) :
  fold_left (fun m x => fold_left f (g x) m) l a = fold_left f (flat_map g l) a.
Proof.
  revert a. induction l as [|x l IH]; intros a; [reflexivity|].
  cbn [fold_left flat_map]. rewrite fold_left_app. apply IH.
Qed.

Lemma starts_with_differs (p x k : jsstring) :
  starts_with p k = false -> p ++ x <> k.
Proof. intros H <-. rewrite starts_with_app in H. discriminate. Qed.

Lemma distinct_NoDup (l : list jsstring) :
  RoundTrip.distinct l = true <-> NoDup l.
Proof.
  induction l as [|x l IH]; [split; [constructor | reflexivity]|].
  cbn [RoundTrip.distinct]. rewrite andb_true_iff, negb_true_iff, IH.
  rewrite NoDup_cons_iff. split; intros [H1 H2]; (split; [|exact H2]).
  - intros C. apply includes_In in C. congruence.
  - destruct (includes l x) eqn:E; [|reflexivity].
    apply includes_In in E. contradiction.
Qed.

Lemma NoDup_map_eq {A : Type} (f : A -> jsstring) (l : list A) (x y : A) :
  NoDup (List.map f l) -> In x l -> In y l -> f x = f y -> x = y.
Proof.
  induction l as [|z l IH]; intros H Hx Hy E; [destruct Hx|].
  cbn [List.map] in H. apply NoDup_cons_iff in H as [Hz H].
  destruct Hx as [->|Hx], Hy as [->|Hy]; auto.
  - exfalso. apply Hz. rewrite E. apply in_map. exact Hy.
  - exfalso. apply Hz. rewrite <- E. apply in_map. exact Hx.
Qed.

End MergeFacts.

Section GeneratorLookups.
Import ReadBack Generators Hierarchy.

Lemma path_inj (p x y s : jsstring) : p ++ x ++ s = p ++ y ++ s -> x = y.
Proof. intros E. apply app_inv_head in E. apply app_inv_tail in E. exact E. Qed.

(** The path of an .xml file is not the path of an .html file. *)
Lemma xml_not_html (x y : jsstring) : x ++ str ".xml" <> y ++ str ".html".
Proof.
  intros E. apply (f_equal (@rev Z)) in E. rewrite !rev_app_distr in E.
  discriminate E.
Qed.

Lemma generateChapters_NoDup (tree : list Chapter) :
  NoDup (JsMap.keys (generateChapters tree)).
Proof. apply (fold_set_NoDup _ _ tree []). constructor. Qed.

Lemma generateChapters_outside (tree : list Chapter) (k : jsstring) :
  starts_with (str "chapter/") k = false ->
  JsMap.get (generateChapters tree) k = None.
Proof.
  intros H. unfold generateChapters.
  rewrite (get_fold_set_absent
             (fun ch => str "chapter/" ++ c_id ch ++ str ".xml") chapterXml);
    [reflexivity|].
  intros e _. apply starts_with_differs. exact H.
Qed.

Lemma generateChapters_file (tree : list Chapter) (ch : Chapter) :
  NoDup (List.map c_id tree) -> In ch tree ->
  JsMap.get (generateChapters tree) (str "chapter/" ++ c_id ch ++ str ".xml")
  = Some (chapterXml ch).
Proof.
  intros Hd Hin. unfold generateChapters.
  apply (get_fold_set_present
           (fun ch => str "chapter/" ++ c_id ch ++ str ".xml") chapterXml);
    [exact Hin|].
  intros e He E. apply path_inj in E.
  rewrite (NoDup_map_eq c_id tree e ch Hd He Hin E). reflexivity.
Qed.

Lemma generateSequentials_fold (tree : list Chapter) :
  generateSequentials tree
  = fold_left
      (fun files sq =>
         JsMap.set files (str "sequential/" ++ s_id sq ++ str ".xml")
           (sequentialXml sq))
      (flat_map c_sequentials tree) [].
Proof. unfold generateSequentials. apply fold_left_flat_map. Qed.

Lemma generateSequentials_NoDup (tree : list Chapter) :
  NoDup (JsMap.keys (generateSequentials tree)).
Proof.
  rewrite generateSequentials_fold. apply (fold_set_NoDup _ _ _ []).
  constructor.
Qed.

Lemma generateSequentials_outside (tree : list Chapter) (k : jsstring) :
  starts_with (str "sequential/") k = false ->
  JsMap.get (generateSequentials tree) k = None.
Proof.
  intros H. rewrite generateSequentials_fold.
  rewrite (get_fold_set_absent
             (fun sq => str "sequential/" ++ s_id sq ++ str ".xml")
             sequentialXml);
    [reflexivity|].
  intros e _. apply starts_with_differs. exact H.
Qed.

Lemma generateSequentials_file (tree : list Chapter) (sq : Sequential) :
  NoDup (List.map s_id (flat_map c_sequentials tree)) ->
  In sq (flat_map c_sequentials tree) ->
  JsMap.get (generateSequentials tree)
    (str "sequential/" ++ s_id sq ++ str ".xml")
  = Some (sequentialXml sq).
Proof.
  intros Hd Hin. rewrite generateSequentials_fold.
  apply (get_fold_set_present
           (fun sq => str "sequential/" ++ s_id sq ++ str ".xml")
           sequentialXml);
    [exact Hin|].
  intros e He E. apply path_inj in E.
  rewrite (NoDup_map_eq s_id _ e sq Hd He Hin E). reflexivity.
Qed.

Lemma generateVerticals_fold (tree : list Chapter) :
  generateVerticals tree
  = fold_left
      (fun files vt =>
         JsMap.set files (str "vertical/" ++ v_id vt ++ str ".xml")
           (verticalXml vt))
      (flat_map s_verticals (flat_map c_sequentials tree)) [].
Proof.
  unfold generateVerticals. rewrite <- fold_left_flat_map.
  rewrite <- (fold_left_flat_map
                (fun files sq =>
                   fold_left
                     (fun files vt =>
                        JsMap.set files
                          (str "vertical/" ++ v_id vt ++ str ".xml")
                          (verticalXml vt))
                     (s_verticals sq) files)
                c_sequentials).
  reflexivity.
Qed.

Lemma generateVerticals_NoDup (tree : list Chapter) :
  NoDup (JsMap.keys (generateVerticals tree)).
Proof.
  rewrite generateVerticals_fold. apply (fold_set_NoDup _ _ _ []).
  constructor.
Qed.

Lemma generateVerticals_outside (tree : list Chapter) (k : jsstring) :
  starts_with (str "vertical/") k = false ->
  JsMap.get (generateVerticals tree) k = None.
Proof.
  intros H. rewrite generateVerticals_fold.
  rewrite (get_fold_set_absent
             (fun vt => str "vertical/" ++ v_id vt ++ str ".xml") verticalXml);
    [reflexivity|].
  intros e _. apply starts_with_differs. exact H.
Qed.

Lemma generateVerticals_file (tree : list Chapter) (vt : Vertical) :
  NoDup (List.map v_id (flat_map s_verticals (flat_map c_sequentials tree))) ->
  In vt (flat_map s_verticals (flat_map c_sequentials tree)) ->
  JsMap.get (generateVerticals tree)
    (str "vertical/" ++ v_id vt ++ str ".xml")
  = Some (verticalXml vt).
Proof.
  intros Hd Hin. rewrite generateVerticals_fold.
  apply (get_fold_set_present
           (fun vt => str "vertical/" ++ v_id vt ++ str ".xml") verticalXml);
    [exact Hin|].
  intros e He E. apply path_inj in E.
  rewrite (NoDup_map_eq v_id _ e vt Hd He Hin E). reflexivity.
Qed.

End GeneratorLookups.

Section BlockLookups.
Import ReadBack Generators Hierarchy.

Lemma entry_unique {B : Type} (m : JsMap.t B) (e x : jsstring * B) :
  NoDup (JsMap.keys m) -> In e m -> In x m -> fst e = fst x -> e = x.
Proof. apply (NoDup_map_eq fst). Qed.

Lemma get_In {B : Type} (m : JsMap.t B) (k : jsstring) (b : B) :
  JsMap.get m k = Some b -> In (k, b) m.
Proof.
  unfold JsMap.get. induction m as [|[k' v'] m IH]; [discriminate|].
  cbn [JsMap.get_by]. destruct (eqb_spec k' k) as [->|N].
  - intros [= ->]. left. reflexivity.
  - intros H. right. apply IH. exact H.
Qed.

Lemma generateHtmlBlocks_fold (m : JsMap.t TextBlock) :
  generateHtmlBlocks m
  = fold_left (fun files p => JsMap.set files (fst p) (snd p))
      (flat_map
         (fun e => [(str "html/" ++ fst e ++ str ".xml",
                     htmlXml (fst e) (snd e));
                    (str "html/" ++ fst e ++ str ".html", htmlFile (snd e))])
         m)
      [].
Proof.
  unfold generateHtmlBlocks. rewrite <- fold_left_flat_map. reflexivity.
Qed.

Lemma generateHtmlBlocks_NoDup (m : JsMap.t TextBlock) :
  NoDup (JsMap.keys (generateHtmlBlocks m)).
Proof.
  rewrite generateHtmlBlocks_fold. apply (fold_set_NoDup _ _ _ []).
  constructor.
Qed.

Lemma generateHtmlBlocks_outside (m : JsMap.t TextBlock) (k : jsstring) :
  starts_with (str "html/") k = false ->
  JsMap.get (generateHtmlBlocks m) k = None.
Proof.
  intros H. rewrite generateHtmlBlocks_fold.
  rewrite (get_fold_set_absent fst snd); [reflexivity|].
  intros p Hp. apply in_flat_map in Hp as [e [_ [<-|[<-|[]]]]];
    apply starts_with_differs; exact H.
Qed.

Lemma generateHtmlBlocks_xml (m : JsMap.t TextBlock) (id : jsstring)
  (b : TextBlock) :
  NoDup (JsMap.keys m) -> In (id, b) m ->
  JsMap.get (generateHtmlBlocks m) (str "html/" ++ id ++ str ".xml")
  = Some (htmlXml id b).
Proof.
  intros Hd Hin. rewrite generateHtmlBlocks_fold.
  apply (get_fold_set_present fst snd _
           (str "html/" ++ id ++ str ".xml", htmlXml id b)).
  - apply in_flat_map. exists (id, b). split; [exact Hin | left; reflexivity].
  - intros p Hp E. apply in_flat_map in Hp as [e [He [<-|[<-|[]]]]];
      cbn [fst snd] in *.
    + apply path_inj in E.
      rewrite (entry_unique m e (id, b) Hd He Hin E). reflexivity.
    + apply app_inv_head in E. symmetry in E. apply xml_not_html in E.
      destruct E.
Qed.

Lemma generateHtmlBlocks_html (m : JsMap.t TextBlock) (id : jsstring)
  (b : TextBlock) :
  NoDup (JsMap.keys m) -> In (id, b) m ->
  JsMap.get (generateHtmlBlocks m) (str "html/" ++ id ++ str ".html")
  = Some (htmlFile b).
Proof.
  intros Hd Hin. rewrite generateHtmlBlocks_fold.
  apply (get_fold_set_present fst snd _
           (str "html/" ++ id ++ str ".html", htmlFile b)).
  - apply in_flat_map. exists (id, b).
    split; [exact Hin | right; left; reflexivity].
  - intros p Hp E. apply in_flat_map in Hp as [e [He [<-|[<-|[]]]]];
      cbn [fst snd] in *.
    + apply app_inv_head in E. apply xml_not_html in E. destruct E.
    + apply path_inj in E.
      rewrite (entry_unique m e (id, b) Hd He Hin E). reflexivity.
Qed.

Lemma generateVideoBlocks_NoDup (m : JsMap.t VideoBlock) :
  NoDup (JsMap.keys (generateVideoBlocks m)).
Proof. apply (fold_set_NoDup _ _ m []). constructor. Qed.

Lemma generateVideoBlocks_outside (m : JsMap.t VideoBlock) (k : jsstring) :
  starts_with (str "video/") k = false ->
  JsMap.get (generateVideoBlocks m) k = None.
Proof.
  intros H. unfold generateVideoBlocks.
  rewrite (get_fold_set_absent
             (fun e : jsstring * VideoBlock =>
                str "video/" ++ fst e ++ str ".xml")
             (fun e => videoXml (fst e) (snd e)));
    [reflexivity|].
  intros e _. apply starts_with_differs. exact H.
Qed.

Lemma generateVideoBlocks_file (m : JsMap.t VideoBlock) (id : jsstring)
  (b : VideoBlock) :
  NoDup (JsMap.keys m) -> In (id, b) m ->
  JsMap.get (generateVideoBlocks m) (str "video/" ++ id ++ str ".xml")
  = Some (videoXml id b).
Proof.
  intros Hd Hin. unfold generateVideoBlocks.
  apply (get_fold_set_present
           (fun e : jsstring * VideoBlock =>
              str "video/" ++ fst e ++ str ".xml")
           (fun e => videoXml (fst e) (snd e)) m (id, b));
    [exact Hin|].
  intros e He E. cbn [fst] in E. apply path_inj in E.
  rewrite (entry_unique m e (id, b) Hd He Hin E). reflexivity.
Qed.

Lemma generateProblemBlocks_NoDup (m : JsMap.t ProblemBlock) :
  NoDup (JsMap.keys (generateProblemBlocks m)).
Proof. apply (fold_set_NoDup _ _ m []). constructor. Qed.

Lemma generateProblemBlocks_outside (m : JsMap.t ProblemBlock)
  (k : jsstring) :
  starts_with (str "problem/") k = false ->
  JsMap.get (generateProblemBlocks m) k = None.
Proof.
  intros H. unfold generateProblemBlocks.
  rewrite (get_fold_set_absent
             (fun e : jsstring * ProblemBlock =>
                str "problem/" ++ fst e ++ str ".xml")
             (fun e => problemXml (snd e)));
    [reflexivity|].
  intros e _. apply starts_with_differs. exact H.
Qed.

Lemma generateProblemBlocks_file (m : JsMap.t ProblemBlock) (id : jsstring)
  (b : ProblemBlock) :
  NoDup (JsMap.keys m) -> In (id, b) m ->
  JsMap.get (generateProblemBlocks m) (str "problem/" ++ id ++ str ".xml")
  = Some (problemXml b).
Proof.
  intros Hd Hin. unfold generateProblemBlocks.
  apply (get_fold_set_present
           (fun e : jsstring * ProblemBlock =>
              str "problem/" ++ fst e ++ str ".xml")
           (fun e => problemXml (snd e)) m (id, b));
    [exact Hin|].
  intros e He E. cbn [fst] in E. apply path_inj in E.
  rewrite (entry_unique m e (id, b) Hd He Hin E). reflexivity.
Qed.

Lemma generateOpenResponseBlocks_NoDup (m : JsMap.t OpenResponseBlock) :
  NoDup (JsMap.keys (generateOpenResponseBlocks m)).
Proof. apply (fold_set_NoDup _ _ m []). constructor. Qed.

Lemma generateOpenResponseBlocks_outside (m : JsMap.t OpenResponseBlock)
  (k : jsstring) :
  starts_with (str "openassessment/") k = false ->
  JsMap.get (generateOpenResponseBlocks m) k = None.
Proof.
  intros H. unfold generateOpenResponseBlocks.
  rewrite (get_fold_set_absent
             (fun e : jsstring * OpenResponseBlock =>
                str "openassessment/" ++ fst e ++ str ".xml")
             (fun e => openResponseXml (fst e) (snd e)));
    [reflexivity|].
  intros e _. apply starts_with_differs. exact H.
Qed.

Lemma generateOpenResponseBlocks_file (m : JsMap.t OpenResponseBlock)
  (id : jsstring) (b : OpenResponseBlock) :
  NoDup (JsMap.keys m) -> In (id, b) m ->
  JsMap.get (generateOpenResponseBlocks m)
    (str "openassessment/" ++ id ++ str ".xml")
  = Some (openResponseXml id b).
Proof.
  intros Hd Hin. unfold generateOpenResponseBlocks.
  apply (get_fold_set_present
           (fun e : jsstring * OpenResponseBlock =>
              str "openassessment/" ++ fst e ++ str ".xml")
           (fun e => openResponseXml (fst e) (snd e)) m (id, b));
    [exact Hin|].
  intros e He E. cbn [fst] in E. apply path_inj in E.
  rewrite (entry_unique m e (id, b) Hd He Hin E). reflexivity.
Qed.

End BlockLookups.

Section ExportLookups.
Import ReadBack Generators Hierarchy.
Context {P : Platform}.

Lemma generateCourse_NoDup (i : CourseInfo) (tree : list Chapter) :
  NoDup (JsMap.keys (generateCourse i tree)).
Proof.
  unfold generateCourse. cbv zeta. repeat apply set_NoDup. constructor.
Qed.

Lemma generateCourse_outside (i : CourseInfo) (tree : list Chapter)
  (k : jsstring) :
  starts_with (str "course") k = false ->
  starts_with (str "policies/") k = false ->
  JsMap.get (generateCourse i tree) k = None.
Proof.
  intros H1 H2. unfold generateCourse. cbv zeta.
  rewrite !get_set_other; [reflexivity | | | |].
  - change (str "course.xml") with (str "course" ++ str ".xml").
    apply starts_with_differs. exact H1.
  - change (str "course/" ++ ?x) with (str "course" ++ str "/" ++ x).
    apply starts_with_differs. exact H1.
  - apply starts_with_differs. exact H2.
  - apply starts_with_differs. exact H2.
Qed.

Lemma generateCourse_course_xml (i : CourseInfo) (tree : list Chapter) :
  JsMap.get (generateCourse i tree) (str "course.xml")
  = Some (str "<course "
          ++ attr "url_name" (or_else (run i) (str "course_run")) ++ str " "
          ++ attr "org" (org i) ++ str " " ++ attr "course" (courseId i)
          ++ str "/>" ++ nl).
Proof.
  unfold generateCourse. cbv zeta.
  rewrite !get_set_other by (apply eqb_neq; reflexivity).
  apply get_set_same.
Qed.

Lemma generateCourse_run_xml (i : CourseInfo) (tree : list Chapter) :
  JsMap.get (generateCourse i tree)
    (str "course/" ++ or_else (run i) (str "course_run") ++ str ".xml")
  = Some (courseRunXml i tree).
Proof.
  unfold generateCourse. cbv zeta.
  rewrite !get_set_other by (apply eqb_neq; reflexivity).
  apply get_set_same.
Qed.

(** A lookup in the entry map of the export: the generators in the
    reverse of their order. *)
Lemma get_exportFiles (d : CourseData) (tree : list Chapter) (k : jsstring) :
  JsMap.get (Main.exportFiles d tree) k
  = or_found (JsMap.get (generateOpenResponseBlocks (openResponseBlocks d)) k)
      (or_found (JsMap.get (generateProblemBlocks (problemBlocks d)) k)
         (or_found (JsMap.get (generateVideoBlocks (videoBlocks d)) k)
            (or_found (JsMap.get (generateHtmlBlocks (textBlocks d)) k)
               (or_found (JsMap.get (generateVerticals tree) k)
                  (or_found (JsMap.get (generateSequentials tree) k)
                     (or_found (JsMap.get (generateChapters tree) k)
                        (JsMap.get (generateCourse (info d) tree) k))))))).
Proof.
  unfold Main.exportFiles. cbv zeta.
  rewrite get_merge by apply generateOpenResponseBlocks_NoDup.
  rewrite get_merge by apply generateProblemBlocks_NoDup.
  rewrite get_merge by apply generateVideoBlocks_NoDup.
  rewrite get_merge by apply generateHtmlBlocks_NoDup.
  rewrite get_merge by apply generateVerticals_NoDup.
  rewrite get_merge by apply generateSequentials_NoDup.
  rewrite get_merge by apply generateChapters_NoDup.
  rewrite get_merge by apply generateCourse_NoDup.
  destruct (JsMap.get (generateCourse (info d) tree) k); reflexivity.
Qed.

Lemma exportFiles_NoDup (d : CourseData) (tree : list Chapter) :
  NoDup (JsMap.keys (Main.exportFiles d tree)).
Proof.
  unfold Main.exportFiles. cbv zeta. repeat apply merge_NoDup. constructor.
Qed.

End ExportLookups.

(** Lookups of the paths of one kind: the generators of the other
    kinds do not write them. *)
Ltac other_generators :=
  rewrite get_exportFiles;
  rewrite ?generateOpenResponseBlocks_outside by reflexivity;
  rewrite ?generateProblemBlocks_outside by reflexivity;
  rewrite ?generateVideoBlocks_outside by reflexivity;
  rewrite ?generateHtmlBlocks_outside by reflexivity;
  rewrite ?generateVerticals_outside by reflexivity;
  rewrite ?generateSequentials_outside by reflexivity;
  rewrite ?generateChapters_outside by reflexivity;
  rewrite ?generateCourse_outside by reflexivity;
  cbn [ReadBack.or_found].

Section ExportFiles.
Import ReadBack Generators Hierarchy.
Context {P : Platform}.
Variables (d : CourseData) (tree : list Chapter).

Lemma exportFiles_course_xml :
  JsMap.get (Main.exportFiles d tree) (str "course.xml")
  = Some (str "<course "
          ++ attr "url_name" (or_else (run (info d)) (str "course_run"))
          ++ str " " ++ attr "org" (org (info d)) ++ str " "
          ++ attr "course" (courseId (info d)) ++ str "/>" ++ nl).
Proof. other_generators. apply generateCourse_course_xml. Qed.

Lemma exportFiles_run_xml :
  JsMap.get (Main.exportFiles d tree)
    (str "course/" ++ or_else (run (info d)) (str "course_run") ++ str ".xml")
  = Some (courseRunXml (info d) tree).
Proof. other_generators. apply generateCourse_run_xml. Qed.

Lemma exportFiles_chapter (ch : Chapter) :
  NoDup (List.map c_id tree) -> In ch tree ->
  JsMap.get (Main.exportFiles d tree)
    (str "chapter/" ++ c_id ch ++ str ".xml")
  = Some (chapterXml ch).
Proof.
  intros H1 H2. other_generators.
  rewrite generateChapters_file by assumption. reflexivity.
Qed.

Lemma exportFiles_sequential (sq : Sequential) :
  NoDup (List.map s_id (flat_map c_sequentials tree)) ->
  In sq (flat_map c_sequentials tree) ->
  JsMap.get (Main.exportFiles d tree)
    (str "sequential/" ++ s_id sq ++ str ".xml")
  = Some (sequentialXml sq).
Proof.
  intros H1 H2. other_generators.
  rewrite generateSequentials_file by assumption. reflexivity.
Qed.

Lemma exportFiles_vertical (vt : Vertical) :
  NoDup (List.map v_id (flat_map s_verticals (flat_map c_sequentials tree))) ->
  In vt (flat_map s_verticals (flat_map c_sequentials tree)) ->
  JsMap.get (Main.exportFiles d tree)
    (str "vertical/" ++ v_id vt ++ str ".xml")
  = Some (verticalXml vt).
Proof.
  intros H1 H2. other_generators.
  rewrite generateVerticals_file by assumption. reflexivity.
Qed.

Lemma exportFiles_html_xml (id : jsstring) (b : TextBlock) :
  NoDup (JsMap.keys (textBlocks d)) -> In (id, b) (textBlocks d) ->
  JsMap.get (Main.exportFiles d tree) (str "html/" ++ id ++ str ".xml")
  = Some (htmlXml id b).
Proof.
  intros H1 H2. other_generators.
  rewrite (generateHtmlBlocks_xml _ id b) by assumption. reflexivity.
Qed.

Lemma exportFiles_html_file (id : jsstring) (b : TextBlock) :
  NoDup (JsMap.keys (textBlocks d)) -> In (id, b) (textBlocks d) ->
  JsMap.get (Main.exportFiles d tree) (str "html/" ++ id ++ str ".html")
  = Some (htmlFile b).
Proof.
  intros H1 H2. other_generators.
  rewrite (generateHtmlBlocks_html _ id b) by assumption. reflexivity.
Qed.

Lemma exportFiles_video (id : jsstring) (b : VideoBlock) :
  NoDup (JsMap.keys (videoBlocks d)) -> In (id, b) (videoBlocks d) ->
  JsMap.get (Main.exportFiles d tree) (str "video/" ++ id ++ str ".xml")
  = Some (videoXml id b).
Proof.
  intros H1 H2. other_generators.
  rewrite (generateVideoBlocks_file _ id b) by assumption. reflexivity.
Qed.

Lemma exportFiles_problem (id : jsstring) (b : ProblemBlock) :
  NoDup (JsMap.keys (problemBlocks d)) -> In (id, b) (problemBlocks d) ->
  JsMap.get (Main.exportFiles d tree) (str "problem/" ++ id ++ str ".xml")
  = Some (problemXml b).
Proof.
  intros H1 H2. other_generators.
  rewrite (generateProblemBlocks_file _ id b) by assumption. reflexivity.
Qed.

Lemma exportFiles_open_response (id : jsstring) (b : OpenResponseBlock) :
  NoDup (JsMap.keys (openResponseBlocks d)) ->
  In (id, b) (openResponseBlocks d) ->
  JsMap.get (Main.exportFiles d tree)
    (str "openassessment/" ++ id ++ str ".xml")
  = Some (openResponseXml id b).
Proof.
  intros H1 H2. other_generators.
  rewrite (generateOpenResponseBlocks_file _ id b) by assumption. reflexivity.
Qed.

End ExportFiles.

(** ** The traversal of Import over the files of Build *)

Section BlockTraversal.
Import ReadBack Generators OlxParser Hierarchy.
Context {P : Platform} {J : JsonLaws P}.
Variables (d : CourseData) (tree : list Chapter).
Hypothesis Hblocks : blocks_ok d = true.

Local Abbreviation files := (Main.exportFiles d tree).

Lemma getFile_found (m : JsMap.t jsstring) (k v : jsstring) :
  JsMap.get m k = Some v -> nonempty v = true -> getFile m k = Some v.
Proof. unfold getFile. intros -> ->. reflexivity. Qed.

Lemma has_get {B : Type} (m : JsMap.t B) (k : jsstring) :
  JsMap.has m k = true -> exists b, JsMap.get m k = Some b.
Proof.
  unfold JsMap.has. destruct (JsMap.get m k) as [b|]; [|discriminate].
  exists b. reflexivity.
Qed.

Lemma blocks_ok_parts :
  (NoDup (JsMap.keys (textBlocks d))
   /\ forallb textBlock_ok (textBlocks d) = true)
  /\ (NoDup (JsMap.keys (videoBlocks d))
      /\ forallb videoBlock_ok (videoBlocks d) = true)
  /\ (NoDup (JsMap.keys (problemBlocks d))
      /\ forallb problemBlock_ok (problemBlocks d) = true)
  /\ (NoDup (JsMap.keys (openResponseBlocks d))
      /\ forallb openResponseBlock_ok (openResponseBlocks d) = true).
Proof.
  pose proof Hblocks as H. unfold blocks_ok in H.
  repeat (apply andb_true_iff in H as [H ?]).
  repeat split; try assumption; apply distinct_NoDup; assumption.
Qed.

Lemma import_text (id : jsstring) (st : state) :
  RoundTrip.name_text id = true ->
  JsMap.has (textBlocks d) id = true ->
  parseHtmlBlock files id st
  = ({| info := info (fst st); structure := structure (fst st);
        textBlocks :=
          readInto RoundTrip.normalTextBlock (textBlocks d)
            (textBlocks (fst st)) id;
        videoBlocks := videoBlocks (fst st);
        problemBlocks := problemBlocks (fst st);
        openResponseBlocks := openResponseBlocks (fst st) |}, snd st).
Proof.
  intros Hid Hhas. unfold readInto.
  destruct (JsMap.has (textBlocks (fst st)) id) eqn:E.
  - unfold parseHtmlBlock. rewrite E. destruct st as [[] ?]. reflexivity.
  - destruct (has_get _ _ Hhas) as [b Hb]. rewrite Hb.
    destruct blocks_ok_parts as [[Hd Hok] _].
    pose proof (get_In _ _ _ Hb) as Hin.
    pose proof (proj1 (forallb_forall _ _) Hok _ Hin) as Hbok.
    unfold textBlock_ok in Hbok. cbn [fst snd] in Hbok.
    repeat (apply andb_true_iff in Hbok as [Hbok ?]).
    apply eqb_eq in Hbok.
    rewrite (parseHtmlBlock_written files id b st); try assumption.
    + reflexivity.
    + apply getFile_found; [apply exportFiles_html_xml; assumption|].
      reflexivity.
    + apply getFile_found; [apply exportFiles_html_file; assumption|].
      unfold htmlFile, nl. destruct (textToHtml (tb_content b)); reflexivity.
Qed.

Lemma import_video (id : jsstring) (inline : JsMap.t jsstring) (st : state) :
  RoundTrip.name_text id = true ->
  JsMap.has (videoBlocks d) id = true ->
  parseVideoBlock files id inline st
  = ({| info := info (fst st); structure := structure (fst st);
        textBlocks := textBlocks (fst st);
        videoBlocks :=
          readInto (fun b => b) (videoBlocks d) (videoBlocks (fst st)) id;
        problemBlocks := problemBlocks (fst st);
        openResponseBlocks := openResponseBlocks (fst st) |}, snd st).
Proof.
  intros Hid Hhas. unfold readInto.
  destruct (JsMap.has (videoBlocks (fst st)) id) eqn:E.
  - unfold parseVideoBlock. rewrite E. destruct st as [[] ?]. reflexivity.
  - destruct (has_get _ _ Hhas) as [b Hb]. rewrite Hb.
    destruct blocks_ok_parts as [_ [[Hd Hok] _]].
    pose proof (get_In _ _ _ Hb) as Hin.
    pose proof (proj1 (forallb_forall _ _) Hok _ Hin) as Hbok.
    unfold videoBlock_ok in Hbok. cbn [fst snd] in Hbok.
    repeat (apply andb_true_iff in Hbok as [Hbok ?]).
    apply eqb_eq in Hbok.
    rewrite (parseVideoBlock_written files inline id b st); try assumption.
    + reflexivity.
    + apply getFile_found; [apply exportFiles_video; assumption|].
      reflexivity.
Qed.

Lemma import_problem (id : jsstring) (st : state) :
  JsMap.has (problemBlocks d) id = true ->
  parseProblemBlock files id st
  = ({| info := info (fst st); structure := structure (fst st);
        textBlocks := textBlocks (fst st);
        videoBlocks := videoBlocks (fst st);
        problemBlocks :=
          readInto RoundTrip.normalProblemBlock (problemBlocks d)
            (problemBlocks (fst st)) id;
        openResponseBlocks := openResponseBlocks (fst st) |}, snd st).
Proof.
  intros Hhas. unfold readInto.
  destruct (JsMap.has (problemBlocks (fst st)) id) eqn:E.
  - unfold parseProblemBlock. rewrite E. destruct st as [[] ?]. reflexivity.
  - destruct (has_get _ _ Hhas) as [b Hb]. rewrite Hb.
    destruct blocks_ok_parts as [_ [_ [[Hd Hok] _]]].
    pose proof (get_In _ _ _ Hb) as Hin.
    pose proof (proj1 (forallb_forall _ _) Hok _ Hin) as Hbok.
    unfold problemBlock_ok in Hbok. cbn [fst snd] in Hbok.
    repeat (apply andb_true_iff in Hbok as [Hbok ?]).
    apply eqb_eq in Hbok.
    rewrite (parseProblemBlock_written b) with (id := id); try assumption.
    + reflexivity.
    + apply getFile_found; [apply exportFiles_problem; assumption|].
      reflexivity.
Qed.

Lemma import_open_response (id : jsstring) (st : state) :
  RoundTrip.name_text id = true ->
  JsMap.has (openResponseBlocks d) id = true ->
  parseOpenResponseBlock files id st
  = ({| info := info (fst st); structure := structure (fst st);
        textBlocks := textBlocks (fst st);
        videoBlocks := videoBlocks (fst st);
        problemBlocks := problemBlocks (fst st);
        openResponseBlocks :=
          readInto RoundTrip.normalOpenResponseBlock (openResponseBlocks d)
            (openResponseBlocks (fst st)) id |}, snd st).
Proof.
  intros Hid Hhas. unfold readInto.
  destruct (name_text_parts _ Hid) as [_ Hamp].
  destruct (JsMap.has (openResponseBlocks (fst st)) id) eqn:E.
  - unfold parseOpenResponseBlock. rewrite E. destruct st as [[] ?].
    reflexivity.
  - destruct (has_get _ _ Hhas) as [b Hb]. rewrite Hb.
    destruct blocks_ok_parts as [_ [_ [_ [Hd Hok]]]].
    pose proof (get_In _ _ _ Hb) as Hin.
    pose proof (proj1 (forallb_forall _ _) Hok _ Hin) as Hbok.
    unfold openResponseBlock_ok in Hbok. cbn [fst snd] in Hbok.
    repeat (apply andb_true_iff in Hbok as [Hbok ?]).
    apply eqb_eq in Hbok.
    repeat match goal with
           | H : negb _ = true |- _ => apply negb_true_iff in H
           end.
    rewrite (parseOpenResponseBlock_written id b); try assumption.
    + reflexivity.
    + apply getFile_found; [apply exportFiles_open_response; assumption|].
      reflexivity.
Qed.

Lemma readBlock_row (b : BlockRef) (cn sn vn vid : jsstring) (st : state) :
  XmlText.block_ok b && block_resolves d b = true ->
  readBlock files cn sn vn vid st (XmlText.block_object b)
  = (importRow d (fst st)
       {| chapter := cn; sequential := sn; vertical := vn;
          blockType := br_type b; blockId := br_blockId b |},
     snd st).
Proof.
  intros H. apply andb_true_iff in H as [Hok Hres].
  unfold XmlText.block_ok in Hok. apply andb_true_iff in Hok as [Ht Hid].
  destruct (name_text_parts _ Hid) as [Hne _].
  destruct b as [t id]. cbn [br_type br_blockId] in *.
  unfold readBlock, XmlText.block_object. cbn [br_type br_blockId].
  unfold prop_or. cbn [JsMap.get JsMap.get_by]. decide_tests.
  rewrite (or_else_nonempty id) by assumption.
  unfold includes, Parser.validTypes in Ht. cbn [existsb] in Ht.
  unfold block_resolves in Hres. cbn [br_type br_blockId] in Hres.
  unfold importRow. cbn [blockType blockId].
  destruct (eqb_spec t (str "text")) as [->|N1].
  { change (blockTag (str "text")) with (str "html"). decide_tests.
    cbn [or_else]. decide_tests.
    rewrite (import_text id st Hid Hres). reflexivity. }
  destruct (eqb_spec t (str "video")) as [->|N2].
  { change (blockTag (str "video")) with (str "video"). decide_tests.
    cbn [or_else]. decide_tests.
    rewrite (import_video id _ st Hid Hres). reflexivity. }
  destruct (eqb_spec t (str "problem")) as [->|N3].
  { change (blockTag (str "problem")) with (str "problem"). decide_tests.
    cbn [or_else]. decide_tests.
    rewrite (import_problem id st Hres). reflexivity. }
  destruct (eqb_spec t (str "openresponse")) as [->|N4].
  { change (blockTag (str "openresponse")) with (str "openassessment").
    decide_tests. cbn [or_else]. decide_tests.
    rewrite (import_open_response id st Hid Hres). reflexivity. }
  discriminate Hres.
Qed.

End BlockTraversal.

Section TreeTraversal.
Import ReadBack Generators OlxParser Hierarchy.
Context {P : Platform} {J : JsonLaws P}.
Variables (d : CourseData) (tree : list Chapter).
Hypothesis Hblocks : blocks_ok d = true.
Hypothesis Hids : ids_ok tree = true.

Local Abbreviation files := (Main.exportFiles d tree).
Local Abbreviation all_sequentials := (flat_map c_sequentials tree).
Local Abbreviation all_verticals := (flat_map s_verticals all_sequentials).

Lemma ids_ok_parts :
  (forallb (forallb XmlText.id_unit) (List.map c_id tree) = true
   /\ NoDup (List.map c_id tree))
  /\ (forallb (forallb XmlText.id_unit) (List.map s_id all_sequentials) = true
      /\ NoDup (List.map s_id all_sequentials))
  /\ (forallb (forallb XmlText.id_unit) (List.map v_id all_verticals) = true
      /\ NoDup (List.map v_id all_verticals)).
Proof.
  pose proof Hids as H. unfold ids_ok, RoundTrip.ids_distinct in H.
  repeat match goal with
         | H : _ && _ = true |- _ => apply andb_true_iff in H as [? ?]
         end.
  repeat split; try assumption; apply distinct_NoDup; assumption.
Qed.

Lemma forallb_sub {A : Type} (p : jsstring -> bool) (f : A -> jsstring)
  (l sub : list A) :
  forallb p (List.map f l) = true -> incl sub l ->
  forallb p (List.map f sub) = true.
Proof.
  intros H Hsub. apply forallb_forall. intros x Hx.
  apply in_map_iff in Hx as [y [<- Hy]].
  apply (proj1 (forallb_forall _ _) H). apply in_map, Hsub, Hy.
Qed.

Lemma readBlocks_rows (cn sn vn vid : jsstring) (blocks : list BlockRef) :
  forallb (fun b => XmlText.block_ok b && block_resolves d b) blocks = true ->
  forall st,
    fold_left (readBlock files cn sn vn vid)
      (List.map XmlText.block_object blocks) st
    = (fold_left (importRow d)
         (List.map
            (fun b => {| chapter := cn; sequential := sn; vertical := vn;
                         blockType := br_type b; blockId := br_blockId b |})
            blocks)
         (fst st),
       snd st).
Proof.
  induction blocks as [|b blocks IH]; intros H st.
  - destruct st. reflexivity.
  - cbn [forallb] in H. apply andb_true_iff in H as [Hb H].
    cbn [List.map fold_left].
    rewrite (readBlock_row d tree Hblocks b cn sn vn vid st Hb).
    rewrite (IH H). reflexivity.
Qed.

Lemma readVertical_rows (ch : Chapter) (sq : Sequential) (vt : Vertical)
  (st : state) :
  In vt all_verticals -> vertical_ok d vt = true ->
  readVertical files (c_name ch) (s_name sq) st (v_id vt)
  = (fold_left (importRow d) (verticalRows ch sq vt) (fst st), snd st).
Proof.
  intros Hin Hok. unfold vertical_ok in Hok.
  apply andb_true_iff in Hok as [Hn Hb].
  destruct ids_ok_parts as [_ [_ [_ Hd]]].
  unfold readVertical.
  rewrite (getFile_found files _ (verticalXml vt))
    by (try reflexivity; apply exportFiles_vertical; assumption).
  rewrite (vertical_name vt _ Hn).
  rewrite vertical_blocks.
  - apply readBlocks_rows. exact Hb.
  - eapply forallb_weaken; [|exact Hb]. cbv beta. intros b H.
    apply andb_true_iff in H. tauto.
Qed.

Lemma readVerticals_rows (ch : Chapter) (sq : Sequential)
  (vts : list Vertical) :
  incl vts all_verticals -> forallb (vertical_ok d) vts = true ->
  forall st,
    fold_left (readVertical files (c_name ch) (s_name sq))
      (List.map v_id vts) st
    = (fold_left (importRow d) (flat_map (verticalRows ch sq) vts) (fst st),
       snd st).
Proof.
  induction vts as [|vt vts IH]; intros Hsub H st.
  - destruct st. reflexivity.
  - cbn [forallb] in H. apply andb_true_iff in H as [Hv H].
    cbn [List.map fold_left flat_map].
    rewrite readVertical_rows by (try assumption; apply Hsub; left; reflexivity).
    rewrite IH by (try assumption; intros x Hx; apply Hsub; right; exact Hx).
    rewrite fold_left_app. reflexivity.
Qed.

Lemma readSequential_rows (ch : Chapter) (sq : Sequential) (st : state) :
  In sq all_sequentials -> sequential_ok d sq = true ->
  readSequential files (c_name ch) st (s_id sq)
  = (fold_left (importRow d) (sequentialRows ch sq) (fst st), snd st).
Proof.
  intros Hin Hok. unfold sequential_ok in Hok.
  apply andb_true_iff in Hok as [Hn Hv].
  destruct ids_ok_parts as [_ [[_ Hd] [Hu _]]].
  assert (Hsub : incl (s_verticals sq) all_verticals).
  { intros vt Hvt. apply in_flat_map. exists sq. split; assumption. }
  unfold readSequential.
  rewrite (getFile_found files _ (sequentialXml sq))
    by (try reflexivity; apply exportFiles_sequential; assumption).
  rewrite (sequential_name sq _ Hn).
  rewrite sequential_children by (apply (forallb_sub _ _ _ _ Hu Hsub)).
  apply readVerticals_rows; assumption.
Qed.

Lemma readSequentials_rows (ch : Chapter) (sqs : list Sequential) :
  incl sqs all_sequentials -> forallb (sequential_ok d) sqs = true ->
  forall st,
    fold_left (readSequential files (c_name ch)) (List.map s_id sqs) st
    = (fold_left (importRow d) (flat_map (sequentialRows ch) sqs) (fst st),
       snd st).
Proof.
  induction sqs as [|sq sqs IH]; intros Hsub H st.
  - destruct st. reflexivity.
  - cbn [forallb] in H. apply andb_true_iff in H as [Hv H].
    cbn [List.map fold_left flat_map].
    rewrite readSequential_rows
      by (try assumption; apply Hsub; left; reflexivity).
    rewrite IH by (try assumption; intros x Hx; apply Hsub; right; exact Hx).
    rewrite fold_left_app. reflexivity.
Qed.

Lemma readChapter_rows (ch : Chapter) (st : state) :
  In ch tree -> chapter_ok d ch = true ->
  readChapter files st (c_id ch)
  = (fold_left (importRow d) (chapterRows ch) (fst st), snd st).
Proof.
  intros Hin Hok. unfold chapter_ok in Hok.
  apply andb_true_iff in Hok as [Hn Hv].
  destruct ids_ok_parts as [[_ Hd] [[Hu _] _]].
  assert (Hsub : incl (c_sequentials ch) all_sequentials).
  { intros sq Hsq. apply in_flat_map. exists ch. split; assumption. }
  unfold readChapter.
  rewrite (getFile_found files _ (chapterXml ch))
    by (try reflexivity; apply exportFiles_chapter; assumption).
  rewrite (chapter_name ch _ Hn).
  rewrite chapter_children by (apply (forallb_sub _ _ _ _ Hu Hsub)).
  apply readSequentials_rows; assumption.
Qed.

Lemma readChapters_rows (chs : list Chapter) :
  incl chs tree -> forallb (chapter_ok d) chs = true ->
  forall st,
    fold_left (readChapter files) (List.map c_id chs) st
    = (fold_left (importRow d) (flat_map chapterRows chs) (fst st), snd st).
Proof.
  induction chs as [|ch chs IH]; intros Hsub H st.
  - destruct st. reflexivity.
  - cbn [forallb] in H. apply andb_true_iff in H as [Hv H].
    cbn [List.map fold_left flat_map].
    rewrite readChapter_rows by (try assumption; apply Hsub; left; reflexivity).
    rewrite IH by (try assumption; intros x Hx; apply Hsub; right; exact Hx).
    rewrite fold_left_app. reflexivity.
Qed.

End TreeTraversal.

Section CourseTraversal.
Import ReadBack Generators OlxParser Hierarchy.
Context {P : Platform} {J : JsonLaws P}.
Variables (d : CourseData) (tree : list Chapter).
Hypothesis Hrun : RoundTrip.no_amp (run (info d)) = true.
Hypothesis Hblocks : blocks_ok d = true.
Hypothesis Hids : ids_ok tree = true.
Hypothesis Htree : tree_ok d tree = true.

Local Abbreviation files := (Main.exportFiles d tree).

Lemma readPolicy_blank (run_ : jsstring) (st : state) :
  blank (fst st) -> blank (fst (readPolicy files run_ st)).
Proof.
  intros H. unfold readPolicy.
  destruct (getFile files _); [|exact H].
  destruct (match JSON_parse _ with Some _ => _ | None => _ end);
    exact H.
Qed.

Lemma or_else_nil (s : jsstring) : or_else s [] = s.
Proof. destruct s; reflexivity. Qed.

Lemma course_run_read :
  prop_or
    (parseXmlAttributes
       (str "<course "
        ++ attr "url_name" (or_else (run (info d)) (str "course_run"))
        ++ str " " ++ attr "org" (org (info d)) ++ str " "
        ++ attr "course" (courseId (info d)) ++ str "/>" ++ nl))
    "url_name" []
  = or_else (run (info d)) (str "course_run").
Proof.
  set (r := or_else (run (info d)) (str "course_run")).
  assert (Hr : RoundTrip.no_amp r = true).
  { unfold r, or_else. destruct (nonempty (run (info d)));
      [exact Hrun | reflexivity]. }
  replace (str "<course " ++ attr "url_name" r ++ str " "
           ++ attr "org" (org (info d)) ++ str " "
           ++ attr "course" (courseId (info d)) ++ str "/>" ++ nl)
    with (str "<" ++ str "course" ++ str " "
          ++ XmlText.attrs_text
               [(str "url_name", esc r); (str "org", esc (org (info d)));
                (str "course", esc (courseId (info d)))]
          ++ str "/>" ++ nl)
    by (unfold attr, XmlText.attrs_text, XmlText.attr_text;
        cbn [flat_map fst snd]; rewrite <- !app_assoc; reflexivity).
  rewrite parseXmlAttributes_tag; try reflexivity; try discriminate;
    [| cbn [forallb]; rewrite !esc_attr_ok by reflexivity; reflexivity
     | right; reflexivity ].
  unfold XmlText.attrs_object. cbn [fold_left fst snd].
  rewrite (decode_esc r) by assumption. read_object.
  apply or_else_nil.
Qed.

Lemma parseOlx_rows :
  exists st0 : state,
    blank (fst st0)
    /\ parseOlx files
       = (fold_left (importRow d) (treeRows tree) (fst st0), snd st0).
Proof.
  unfold parseOlx.
  rewrite (getFile_found files (str "course.xml") _
             (exportFiles_course_xml d tree) eq_refl).
  cbv zeta. rewrite course_run_read.
  rewrite (getFile_found files _ _ (exportFiles_run_xml d tree) eq_refl).
  destruct (ids_ok_parts tree Hids) as [[Hu _] _].
  rewrite (course_children _ _ Hu).
  eexists. split; [|apply (readChapters_rows d tree Hblocks Hids tree)].
  - apply readPolicy_blank. repeat split.
  - apply incl_refl.
  - exact Htree.
Qed.

End CourseTraversal.

Section ImportRows.
Import ReadBack Hierarchy.

Lemma or_found_none {V : Type} (a : option V) : or_found a None = a.
Proof. destruct a; reflexivity. Qed.

Section OneMap.
Context {B : Type} (normal : B -> B) (source : JsMap.t B) (t : string).

Lemma get_readInto (model : JsMap.t B) (k' k : jsstring) :
  JsMap.get (readInto normal source model k') k
  = or_found (JsMap.get model k)
      (if eqb k' k then option_map normal (JsMap.get source k) else None).
Proof.
  unfold readInto, JsMap.has.
  destruct (eqb_spec k' k) as [->|N].
  - destruct (JsMap.get model k) as [x|] eqn:E.
    + rewrite E. reflexivity.
    + destruct (JsMap.get source k) as [b|].
      * rewrite get_set_same. reflexivity.
      * rewrite E. reflexivity.
  - rewrite or_found_none.
    destruct (JsMap.get model k'); [reflexivity|].
    destruct (JsMap.get source k'); [|reflexivity].
    apply get_set_other. exact N.
Qed.

(** The map after the rows: the blocks that it held, and the blocks of
    the source that a row of the type names. *)
Lemma get_readInto_rows (rows : list StructureRow) (k : jsstring) :
  forall model,
    JsMap.get
      (fold_left
         (fun m r =>
            if eqb (blockType r) (str t)
            then readInto normal source m (blockId r) else m)
         rows model) k
    = or_found (JsMap.get model k)
        (if named t rows k then option_map normal (JsMap.get source k)
         else None).
Proof.
  induction rows as [|r rows IH]; intros model.
  - cbn [fold_left named existsb]. symmetry. apply or_found_none.
  - cbn [fold_left]. rewrite IH. unfold named. cbn [existsb].
    fold (named t rows k).
    destruct (eqb (blockType r) (str t)); cbn [andb orb]; [|reflexivity].
    rewrite get_readInto.
    destruct (JsMap.get model k); [reflexivity|]. cbn [or_found].
    destruct (eqb (blockId r) k); cbn [orb]; [|reflexivity].
    destruct (option_map normal (JsMap.get source k)); [reflexivity|].
    destruct (named t rows k); reflexivity.
Qed.

End OneMap.

Variable d : CourseData.

Lemma importRows_structure (rows : list StructureRow) :
  forall data,
    structure (fold_left (importRow d) rows data) = structure data ++ rows.
Proof.
  induction rows as [|r rows IH]; intros data.
  - symmetry. apply app_nil_r.
  - cbn [fold_left]. rewrite IH. cbn [importRow structure].
    rewrite <- app_assoc. reflexivity.
Qed.

Lemma importRows_textBlocks (rows : list StructureRow) :
  forall data,
    textBlocks (fold_left (importRow d) rows data)
    = fold_left
        (fun m r =>
           if eqb (blockType r) (str "text")
           then readInto RoundTrip.normalTextBlock (textBlocks d) m (blockId r)
           else m)
        rows (textBlocks data).
Proof.
  induction rows as [|r rows IH]; intros data; [reflexivity|].
  cbn [fold_left]. rewrite IH. reflexivity.
Qed.

Lemma importRows_videoBlocks (rows : list StructureRow) :
  forall data,
    videoBlocks (fold_left (importRow d) rows data)
    = fold_left
        (fun m r =>
           if eqb (blockType r) (str "video")
           then readInto (fun b => b) (videoBlocks d) m (blockId r)
           else m)
        rows (videoBlocks data).
Proof.
  induction rows as [|r rows IH]; intros data; [reflexivity|].
  cbn [fold_left]. rewrite IH. reflexivity.
Qed.

Lemma importRows_problemBlocks (rows : list StructureRow) :
  forall data,
    problemBlocks (fold_left (importRow d) rows data)
    = fold_left
        (fun m r =>
           if eqb (blockType r) (str "problem")
           then readInto RoundTrip.normalProblemBlock (problemBlocks d) m
                  (blockId r)
           else m)
        rows (problemBlocks data).
Proof.
  induction rows as [|r rows IH]; intros data; [reflexivity|].
  cbn [fold_left]. rewrite IH. reflexivity.
Qed.

Lemma importRows_openResponseBlocks (rows : list StructureRow) :
  forall data,
    openResponseBlocks (fold_left (importRow d) rows data)
    = fold_left
        (fun m r =>
           if eqb (blockType r) (str "openresponse")
           then readInto RoundTrip.normalOpenResponseBlock
                  (openResponseBlocks d) m (blockId r)
           else m)
        rows (openResponseBlocks data).
Proof.
  induction rows as [|r rows IH]; intros data; [reflexivity|].
  cbn [fold_left]. rewrite IH. reflexivity.
Qed.

Lemma option_map_id {V : Type} (o : option V) : option_map (fun b => b) o = o.
Proof. destruct o; reflexivity. Qed.

End ImportRows.

(** Import of the files that Build generates.  For a course whose
    blocks Build and Import reproduce and whose run holds no ampersand,
    and a tree whose ids are distinct on every level and made of
    lower-case letters, digits, underscores and hyphens, whose names
    are not empty and hold no ampersand and whose block references
    resolve: the rows that [parseOlx] reads from the entry map of the
    export are the rows of the tree in the order of its traversal, and
    each content map holds exactly the blocks that a row of its type
    names, as Import normalises them. *)
Lemma parseOlx_export :
  forall (P : Platform) (J : JsonLaws P) (d : CourseData)
         (tree : list Hierarchy.Chapter),
    RoundTrip.no_amp (run (info d)) = true ->
    ReadBack.blocks_ok d = true ->
    ReadBack.ids_ok tree = true ->
    ReadBack.tree_ok d tree = true ->
    let data := fst (OlxParser.parseOlx (Main.exportFiles d tree)) in
    let rows := ReadBack.treeRows tree in
    structure data = rows
    /\ (forall k,
          JsMap.get (textBlocks data) k
          = if ReadBack.named "text" rows k
            then option_map RoundTrip.normalTextBlock
                   (JsMap.get (textBlocks d) k)
            else None)
    /\ (forall k,
          JsMap.get (videoBlocks data) k
          = if ReadBack.named "video" rows k
            then JsMap.get (videoBlocks d) k else None)
    /\ (forall k,
          JsMap.get (problemBlocks data) k
          = if ReadBack.named "problem" rows k
            then option_map RoundTrip.normalProblemBlock
                   (JsMap.get (problemBlocks d) k)
            else None)
    /\ (forall k,
          JsMap.get (openResponseBlocks data) k
          = if ReadBack.named "openresponse" rows k
            then option_map RoundTrip.normalOpenResponseBlock
                   (JsMap.get (openResponseBlocks d) k)
            else None).
Proof.
  intros P J d tree Hrun Hblocks Hids Htree data rows.
  destruct (parseOlx_rows d tree Hrun Hblocks Hids Htree)
    as [st0 [[B1 [B2 [B3 [B4 B5]]]] E]].
  unfold data. rewrite E. cbn [fst]. fold rows.
  split; [rewrite importRows_structure, B1; reflexivity|].
  split; [|split; [|split]]; intros k.
  - rewrite importRows_textBlocks, get_readInto_rows, B2. reflexivity.
  - rewrite importRows_videoBlocks, get_readInto_rows, B3, option_map_id.
    reflexivity.
  - rewrite importRows_problemBlocks, get_readInto_rows, B4. reflexivity.
  - rewrite importRows_openResponseBlocks, get_readInto_rows, B5.
    reflexivity.
Qed.

(** ** The rows of the tree *)

Section Grouping.
Import Hierarchy HierarchyInvariant ReadBack.

Lemma filter_split {A : Type} (p : A -> bool) (l : list A) :
  Permutation l (filter p l ++ filter (fun x => negb (p x)) l).
Proof.
  induction l as [|a l IH]; [constructor|]. cbn [filter].
  destruct (p a); cbn [negb app].
  - constructor. exact IH.
  - apply Permutation_cons_app. exact IH.
Qed.

Lemma flat_map_eq_in {A B : Type} (f g : A -> list B) (l : list A) :
  (forall x, In x l -> f x = g x) -> flat_map f l = flat_map g l.
Proof.
  induction l as [|a l IH]; intros H; [reflexivity|]. cbn [flat_map].
  rewrite (H a (or_introl eq_refl)), IH; [reflexivity|].
  intros x Hx. apply H. right. exact Hx.
Qed.

(** The rows grouped by the distinct values of a key are the rows. *)
Lemma grouped_by (key : StructureRow -> jsstring) (ks : list jsstring) :
  NoDup ks ->
  forall rows : list StructureRow,
    (forall r, In r rows -> In (key r) ks) ->
    Permutation
      (flat_map (fun k => filter (fun r => eqb (key r) k) rows) ks) rows.
Proof.
  induction 1 as [|k ks Hk Hks IH]; intros rows Hin.
  - destruct rows as [|r rows]; [constructor|].
    destruct (Hin r (or_introl eq_refl)).
  - cbn [flat_map].
    eapply Permutation_trans;
      [|apply Permutation_sym, (filter_split (fun r => eqb (key r) k) rows)].
    apply Permutation_app_head.
    eapply Permutation_trans;
      [|apply (IH (filter (fun r => negb (eqb (key r) k)) rows))].
    + apply Permutation_refl'. apply flat_map_eq_in. intros k' Hk'.
      rewrite filter_filter. apply filter_ext. intros r.
      destruct (eqb_spec (key r) k) as [E|N]; cbn [negb andb];
        [|reflexivity].
      destruct (eqb_spec (key r) k') as [E'|N']; [|reflexivity].
      exfalso. apply Hk. congruence.
    + intros r Hr. apply filter_In in Hr as [Hr Hn].
      destruct (Hin r Hr) as [E|H]; [|exact H].
      rewrite E, eqb_refl in Hn. discriminate.
Qed.

Lemma grouped_by_first (key : StructureRow -> jsstring)
  (rows : list StructureRow) :
  Permutation
    (flat_map (fun k => filter (fun r => eqb (key r) k) rows)
       (firstOccurrences (List.map key rows)))
    rows.
Proof.
  apply grouped_by; [apply firstOccurrences_NoDup|].
  intros r Hr. apply firstOccurrences_In, in_map, Hr.
Qed.

Lemma flat_map_perm {A B : Type} (f g : A -> list B) (l : list A) :
  (forall x, In x l -> Permutation (f x) (g x)) ->
  Permutation (flat_map f l) (flat_map g l).
Proof.
  induction l as [|a l IH]; intros H; [constructor|]. cbn [flat_map].
  apply Permutation_app; [apply H; left; reflexivity|].
  apply IH. intros x Hx. apply H. right. exact Hx.
Qed.

Variable idMap : JsMap.t jsstring.

(** The rows of the vertical of the specification are the rows of its
    name tuple. *)
Lemma specVertical_rows (c s v : jsstring) (rows : list StructureRow)
  (ch : Chapter) (sq : Sequential) :
  c_name ch = c -> s_name sq = s ->
  (forall r, In r rows -> chapter r = c /\ sequential r = s) ->
  verticalRows ch sq (specVertical idMap c s rows v)
  = filter (inVertical v) rows.
Proof.
  intros Hc Hs Hrows. unfold verticalRows, specVertical.
  cbn [v_blocks v_name]. rewrite map_map.
  rewrite <- (map_id (filter (inVertical v) rows)) at 2.
  apply map_ext_in. intros r Hr. apply filter_In in Hr as [Hr Hv].
  apply eqb_eq in Hv. destruct (Hrows r Hr) as [E1 E2].
  unfold rowOf, blockOf. cbn [br_type br_blockId v_name].
  rewrite Hc, Hs, <- E1, <- E2, <- Hv. destruct r. reflexivity.
Qed.

Lemma specSequential_rows (c s : jsstring) (rows : list StructureRow)
  (ch : Chapter) :
  c_name ch = c ->
  (forall r, In r rows -> chapter r = c) ->
  Permutation (sequentialRows ch (specSequential idMap c rows s))
              (filter (inSequential s) rows).
Proof.
  intros Hc Hrows. unfold sequentialRows, specSequential.
  cbv zeta. cbn [s_verticals]. rewrite flat_map_map.
  set (rs := filter (inSequential s) rows).
  eapply Permutation_trans; [|apply (grouped_by_first vertical rs)].
  apply Permutation_refl'. apply flat_map_eq_in. intros v _.
  apply specVertical_rows; [exact Hc | reflexivity|].
  intros r Hr. apply filter_In in Hr as [Hr Hs]. apply eqb_eq in Hs.
  split; [apply Hrows; exact Hr | exact Hs].
Qed.

Lemma specChapter_rows (c : jsstring) (rows : list StructureRow) :
  Permutation (chapterRows (specChapter idMap rows c))
              (filter (inChapter c) rows).
Proof.
  unfold chapterRows, specChapter. cbv zeta. cbn [c_sequentials].
  rewrite flat_map_map.
  set (rc := filter (inChapter c) rows).
  eapply Permutation_trans; [|apply (grouped_by_first sequential rc)].
  apply flat_map_perm. intros s _.
  apply specSequential_rows; [reflexivity|].
  intros r Hr. apply filter_In in Hr as [_ Hr]. apply eqb_eq in Hr. exact Hr.
Qed.

Lemma specHierarchy_rows (rows : list StructureRow) :
  Permutation (treeRows (specHierarchy idMap rows)) rows.
Proof.
  unfold treeRows, specHierarchy. rewrite flat_map_map.
  eapply Permutation_trans; [|apply (grouped_by_first chapter rows)].
  apply flat_map_perm. intros c _. apply specChapter_rows.
Qed.

Lemma buildHierarchy_rows (rows : list StructureRow) :
  Permutation (treeRows (buildHierarchy idMap rows)) rows.
Proof. rewrite buildHierarchy_spec. apply specHierarchy_rows. Qed.

End Grouping.

Section TreeOfRows.
Import Hierarchy HierarchyInvariant ReadBack.
Variables (idMap : JsMap.t jsstring) (d : CourseData).

Lemma first_key (key : StructureRow -> jsstring) (rows : list StructureRow)
  (k : jsstring) :
  In k (firstOccurrences (List.map key rows)) ->
  exists r, In r rows /\ key r = k.
Proof.
  intros H. apply firstOccurrences_In, in_map_iff in H as [r [E Hr]].
  exists r. split; assumption.
Qed.

Lemma row_ok_parts (r : StructureRow) :
  RoundTrip.row_ok d r = true ->
  RoundTrip.name_text (chapter r) = true
  /\ RoundTrip.name_text (sequential r) = true
  /\ RoundTrip.name_text (vertical r) = true
  /\ XmlText.block_ok (blockOf r) = true
  /\ block_resolves d (blockOf r) = true.
Proof.
  unfold RoundTrip.row_ok. intros H.
  do 5 (apply andb_true_iff in H as [H ?]).
  repeat split; try assumption.
  unfold XmlText.block_ok, blockOf. cbn [br_type br_blockId].
  apply andb_true_iff. split; assumption.
Qed.

Lemma specHierarchy_tree_ok (rows : list StructureRow) :
  forallb (RoundTrip.row_ok d) rows = true ->
  tree_ok d (specHierarchy idMap rows) = true.
Proof.
  intros H.
  assert (Hrow : forall r, In r rows -> RoundTrip.row_ok d r = true)
    by (apply forallb_forall; exact H).
  unfold tree_ok, specHierarchy. apply forallb_forall. intros ch Hch.
  apply in_map_iff in Hch as [c [<- Hc]].
  apply first_key in Hc as [r [Hr <-]].
  unfold chapter_ok, specChapter. cbv zeta. cbn [c_name c_sequentials].
  apply andb_true_iff. split; [apply (row_ok_parts r), Hrow, Hr|].
  apply forallb_forall. intros sq Hsq.
  apply in_map_iff in Hsq as [s [<- Hs]].
  apply first_key in Hs as [r1 [Hr1 <-]].
  apply filter_In in Hr1 as [Hr1 _].
  unfold sequential_ok, specSequential. cbv zeta. cbn [s_name s_verticals].
  apply andb_true_iff. split; [apply (row_ok_parts r1), Hrow, Hr1|].
  apply forallb_forall. intros vt Hvt.
  apply in_map_iff in Hvt as [v [<- Hv]].
  apply first_key in Hv as [r2 [Hr2 <-]].
  apply filter_In in Hr2 as [Hr2 _]. apply filter_In in Hr2 as [Hr2 _].
  unfold vertical_ok, specVertical. cbn [v_name v_blocks].
  apply andb_true_iff. split; [apply (row_ok_parts r2), Hrow, Hr2|].
  apply forallb_forall. intros b Hb.
  apply in_map_iff in Hb as [r3 [<- Hr3]].
  repeat (apply filter_In in Hr3 as [Hr3 _]).
  destruct (row_ok_parts r3 (Hrow r3 Hr3)) as [_ [_ [_ [B1 B2]]]].
  rewrite B1, B2. reflexivity.
Qed.

(** A row of a permutation of the rows names the same blocks. *)
Lemma named_perm (t : string) (rows rows' : list StructureRow)
  (k : jsstring) :
  Permutation rows rows' -> named t rows k = named t rows' k.
Proof.
  intros H. unfold named.
  induction H as [|x l l' H IH|x y l|l l' l'' H1 IH1 H2 IH2];
    cbn [existsb].
  - reflexivity.
  - rewrite IH. reflexivity.
  - rewrite !orb_assoc, (orb_comm (_ && _) (_ && _)). reflexivity.
  - congruence.
Qed.

End TreeOfRows.

(** ** The ids of the nodes *)

Section IdFacts.
Import XmlText.
Context {P : Platform}.

Lemma forallb_In {A : Type} (p : A -> bool) (l : list A) :
  forallb p l = true <-> (forall x, In x l -> p x = true).
Proof. apply forallb_forall. Qed.

Lemma forallb_firstn {A : Type} (p : A -> bool) (n : nat) (l : list A) :
  forallb p l = true -> forallb p (firstn n l) = true.
Proof.
  rewrite !forallb_forall. intros H x Hx. apply H.
  rewrite <- (firstn_skipn n l). apply in_or_app. left. exact Hx.
Qed.

Lemma forallb_rev {A : Type} (p : A -> bool) (l : list A) :
  forallb p (rev l) = forallb p l.
Proof.
  destruct (forallb p l) eqn:E.
  - rewrite forallb_forall in *. intros x Hx. apply E, in_rev, Hx.
  - destruct (forallb p (rev l)) eqn:E'; [|reflexivity].
    rewrite <- E. symmetry. rewrite forallb_forall in *.
    intros x Hx. apply E'. apply -> in_rev. exact Hx.
Qed.

Lemma replace_runs_units (p cls : Z -> bool) (rep s : jsstring) :
  forallb p rep = true -> forallb p s = true ->
  forall b, forallb p (replace_runs_at cls rep s b) = true.
Proof.
  intros Hrep. induction s as [|c s IH]; intros H b; [reflexivity|].
  cbn [forallb] in H. apply andb_true_iff in H as [Hc H].
  cbn [replace_runs_at]. destruct (cls c).
  - destruct b; [apply IH; exact H|].
    rewrite forallb_app, Hrep. apply IH. exact H.
  - cbn [forallb]. rewrite Hc. apply IH. exact H.
Qed.

(** [sanitizeUrlName] gives a text of lower-case letters, digits,
    underscores and hyphens of at most 60 code units. *)
Lemma sanitizeUrlName_units (s : jsstring) :
  forallb id_unit (sanitizeUrlName s) = true.
Proof.
  unfold sanitizeUrlName. cbv zeta.
  set (m := List.map _ (toLowerCase s)).
  assert (Hm : forallb id_unit m = true).
  { unfold m. apply forallb_forall. intros x Hx.
    apply in_map_iff in Hx as [c [<- _]]. unfold id_unit.
    destruct (is_lower c || is_digit c || (c =? 95) || (c =? 45)) eqn:E;
      [exact E | reflexivity]. }
  set (r := replace_runs _ _ m).
  assert (Hr : forallb id_unit r = true)
    by (apply replace_runs_units; [reflexivity | exact Hm]).
  set (r1 := match r with 95 :: t => t | _ => r end).
  assert (H1 : forallb id_unit r1 = true).
  { unfold r1. destruct r as [|c t]; [reflexivity|].
    cbn [forallb] in Hr. apply andb_true_iff in Hr as [Hc Ht].
    assert (X : forallb id_unit (c :: t) = true)
      by (cbn [forallb]; rewrite Hc, Ht; reflexivity).
    destruct c as [|p|p]; try exact X.
    do 7 (try (destruct p as [p|p|]; try exact X)). }
  apply forallb_firstn.
  destruct (rev r1) as [|c t] eqn:E; [exact H1|].
  assert (Ht : forallb id_unit (rev t) = true).
  { rewrite forallb_rev. rewrite <- forallb_rev, E in H1.
    cbn [forallb] in H1. apply andb_true_iff in H1. tauto. }
  destruct c as [|p|p]; try exact H1.
  do 7 (try (destruct p as [p|p|]; try exact H1)). exact Ht.
Qed.

Lemma sanitizeUrlName_length (s : jsstring) :
  (length (sanitizeUrlName s) <= 60)%nat.
Proof. unfold sanitizeUrlName. cbv zeta. apply firstn_le_length. Qed.

Lemma hex_digit_unit (n : Z) : id_unit (Json.hex_digit (n mod 16)) = true.
Proof.
  pose proof (Z.mod_pos_bound n 16 eq_refl) as [H1 H2].
  unfold Json.hex_digit, id_unit, is_lower, is_digit.
  destruct (Z.ltb_spec (n mod 16) 10) as [L|L].
  - assert (E : (48 <=? 48 + n mod 16) && (48 + n mod 16 <=? 57) = true).
    { apply andb_true_iff. split; apply Z.leb_le; lia. }
    rewrite E. rewrite orb_true_r. reflexivity.
  - assert (E : (97 <=? 87 + n mod 16) && (87 + n mod 16 <=? 122) = true).
    { apply andb_true_iff. split; apply Z.leb_le; lia. }
    rewrite E. reflexivity.
Qed.

Lemma generateId_units (bytes : list Z) :
  forallb id_unit (Main.generateId bytes) = true.
Proof.
  unfold Main.generateId. induction bytes as [|b bytes IH]; [reflexivity|].
  cbn [flat_map app forallb]. rewrite !hex_digit_unit, IH. reflexivity.
Qed.

Lemma generateId_length (bytes : list Z) :
  length (Main.generateId bytes) = (2 * length bytes)%nat.
Proof.
  unfold Main.generateId. induction bytes as [|b bytes IH]; [reflexivity|].
  cbn [flat_map app length]. rewrite IH. lia.
Qed.

Variable entropy : nat -> list Z.

Lemma freshId_units (name_ : jsstring) (n : nat) :
  forallb id_unit (Main.freshId entropy name_ n) = true
  /\ nonempty (Main.freshId entropy name_ n) = true.
Proof.
  unfold Main.freshId. split.
  - rewrite !forallb_app, sanitizeUrlName_units.
    rewrite forallb_firstn by apply generateId_units. reflexivity.
  - destruct (sanitizeUrlName name_); reflexivity.
Qed.

End IdFacts.

Section IdMapFacts.
Import XmlText Hierarchy HierarchyInvariant ReadBack.
Context {P : Platform}.
Variable entropy : nat -> list Z.

(** The ids that a lookup holds are texts of id units that are not
    empty. *)
Local Abbreviation good_ids :=
  (fun m : JsMap.t jsstring =>
     forall k v, JsMap.get m k = Some v ->
                 forallb id_unit v = true /\ nonempty v = true).

Lemma has_set_keeps {V : Type} (m : JsMap.t V) (k k' : jsstring) (v : V) :
  JsMap.has m k' = true -> JsMap.has (JsMap.set m k v) k' = true.
Proof.
  intros H. destruct (eqb_spec k k') as [->|N]; [apply has_set_same|].
  unfold JsMap.has. rewrite get_set_other by exact N. exact H.
Qed.

Section Assign.
Variables (key name_ : jsstring).

Local Abbreviation assign :=
  (fun st : JsMap.t jsstring * nat =>
     if negb (JsMap.has (fst st) key)
     then (JsMap.set (fst st) key (Main.freshId entropy name_ (snd st)),
           S (snd st))
     else st).

Lemma assign_good st : good_ids (fst st) -> good_ids (fst (assign st)).
Proof.
  intros H. cbv beta. destruct (JsMap.has (fst st) key); cbn [negb fst]; [exact H|].
  intros k v. destruct (eqb_spec key k) as [->|N].
  - rewrite get_set_same. intros [= <-]. apply freshId_units.
  - rewrite get_set_other by exact N. apply H.
Qed.

Lemma assign_has st : JsMap.has (fst (assign st)) key = true.
Proof.
  cbv beta. destruct (JsMap.has (fst st) key) eqn:E; cbn [negb fst];
    [exact E | apply has_set_same].
Qed.

Lemma assign_keeps st k :
  JsMap.has (fst st) k = true -> JsMap.has (fst (assign st)) k = true.
Proof.
  intros H. cbv beta. destruct (JsMap.has (fst st) key); cbn [negb fst];
    [exact H | apply has_set_keeps, H].
Qed.

End Assign.

Lemma assignIds_good st row :
  good_ids (fst st) -> good_ids (fst (Main.assignIds entropy st row)).
Proof.
  intros H. unfold Main.assignIds. cbv zeta.
  apply assign_good, assign_good, assign_good, H.
Qed.

Lemma assignIds_keeps st row k :
  JsMap.has (fst st) k = true ->
  JsMap.has (fst (Main.assignIds entropy st row)) k = true.
Proof.
  intros H. unfold Main.assignIds. cbv zeta.
  apply assign_keeps, assign_keeps, assign_keeps, H.
Qed.

Lemma assignIds_has st row :
  JsMap.has (fst (Main.assignIds entropy st row)) (str "ch:" ++ chapter row)
  = true
  /\ JsMap.has (fst (Main.assignIds entropy st row))
       (str "seq:" ++ chapter row ++ str "|" ++ sequential row) = true
  /\ JsMap.has (fst (Main.assignIds entropy st row))
       (str "vert:" ++ chapter row ++ str "|" ++ sequential row ++ str "|"
        ++ vertical row) = true.
Proof.
  unfold Main.assignIds. cbv zeta. split; [|split].
  - apply assign_keeps, assign_keeps, assign_has.
  - apply assign_keeps, assign_has.
  - apply assign_has.
Qed.

Lemma assigned_rows (rows : list StructureRow) :
  forall st,
    good_ids (fst st) ->
    let m := fst (fold_left (Main.assignIds entropy) rows st) in
    good_ids m
    /\ (forall k, JsMap.has (fst st) k = true -> JsMap.has m k = true)
    /\ (forall row, In row rows ->
          JsMap.has m (str "ch:" ++ chapter row) = true
          /\ JsMap.has m
               (str "seq:" ++ chapter row ++ str "|" ++ sequential row) = true
          /\ JsMap.has m
               (str "vert:" ++ chapter row ++ str "|" ++ sequential row
                ++ str "|" ++ vertical row) = true).
Proof.
  induction rows as [|r rows IH]; intros st H; cbv zeta.
  - cbn [fold_left]. split; [exact H|]. split; [auto | intros row []].
  - cbn [fold_left].
    destruct (IH (Main.assignIds entropy st r) (assignIds_good st r H))
      as [G [K R]].
    split; [exact G|]. split.
    + intros k Hk. apply K, assignIds_keeps, Hk.
    + intros row [<-|Hin]; [|apply R, Hin].
      destruct (assignIds_has st r) as [H1 [H2 H3]].
      repeat split; apply K; assumption.
Qed.

Lemma id_or_good (m : JsMap.t jsstring) (k name_ : jsstring) :
  good_ids m -> JsMap.has m k = true ->
  forallb id_unit (id_or m k name_) = true.
Proof.
  intros G H. unfold id_or, JsMap.has in *.
  destruct (JsMap.get m k) as [v|] eqn:E; [|discriminate].
  destruct (G k v E) as [U N]. unfold or_else. rewrite N. exact U.
Qed.

(** The ids of the tree of the rows, with the lookup that [handleFile]
    builds from the rows, are texts of id units. *)
Lemma built_ids_units (rows : list StructureRow) :
  let tree := specHierarchy (Main.buildIdMap entropy rows) rows in
  forallb (forallb id_unit) (List.map c_id tree) = true
  /\ forallb (forallb id_unit)
       (List.map s_id (flat_map c_sequentials tree)) = true
  /\ forallb (forallb id_unit)
       (List.map v_id (flat_map s_verticals (flat_map c_sequentials tree)))
     = true.
Proof.
  cbv zeta. unfold Main.buildIdMap.
  destruct (assigned_rows rows ([], O)) as [G [_ R]];
    [intros k v; discriminate|].
  cbv zeta in G, R. set (m := fst _) in *.
  assert (C : forall ch, In ch (specHierarchy m rows) ->
                exists r, In r rows /\ ch = specChapter m rows (chapter r)).
  { intros ch H. apply in_map_iff in H as [c [<- Hc]].
    apply first_key in Hc as [r [Hr <-]]. exists r. auto. }
  assert (S : forall sq, In sq (flat_map c_sequentials (specHierarchy m rows)) ->
                exists r, In r rows
                  /\ sq = specSequential m (chapter r)
                            (filter (inChapter (chapter r)) rows)
                            (sequential r)).
  { intros sq H. apply in_flat_map in H as [ch [Hch Hsq]].
    destruct (C ch Hch) as [r [Hr ->]]. cbn [specChapter c_sequentials] in Hsq.
    apply in_map_iff in Hsq as [s [<- Hs]].
    apply first_key in Hs as [r1 [Hr1 <-]].
    apply filter_In in Hr1 as [Hr1 E]. apply eqb_eq in E.
    exists r1. rewrite E. auto. }
  split; [|split]; apply forallb_forall; intros id Hid;
    apply in_map_iff in Hid as [x [<- Hx]].
  - destruct (C x Hx) as [r [Hr ->]]. cbn [specChapter c_id].
    apply id_or_good; [exact G | apply (R r Hr)].
  - destruct (S x Hx) as [r [Hr ->]]. cbn [specSequential s_id].
    apply id_or_good; [exact G | apply (R r Hr)].
  - apply in_flat_map in Hx as [sq [Hsq Hx]].
    destruct (S sq Hsq) as [r [Hr ->]].
    cbn [specSequential s_verticals] in Hx.
    apply in_map_iff in Hx as [v [<- Hv]].
    apply first_key in Hv as [r1 [Hr1 <-]].
    apply filter_In in Hr1 as [Hr1 E2]. apply eqb_eq in E2.
    apply filter_In in Hr1 as [Hr1 E1]. apply eqb_eq in E1.
    cbn [specVertical v_id]. apply id_or_good; [exact G|].
    rewrite <- E1, <- E2. unfold verticalId.
    destruct (R r1 Hr1) as [_ [_ H3]].
    rewrite <- !app_assoc. exact H3.
Qed.

End IdMapFacts.

(** ** Build, then Import *)

Section BuildImport.
Import Hierarchy HierarchyInvariant ReadBack.
Context {P : Platform} {G : GzipLaws P} {J : JsonLaws P}.
Variables (entropy : nat -> list Z) (clock : nat -> Z) (d : CourseData).
Hypothesis Hcourse : RoundTrip.course_ok d = true.

Local Abbreviation tree :=
  (buildHierarchy (Main.buildIdMap entropy (structure d)) (structure d)).

Hypothesis Hids : RoundTrip.ids_distinct tree = true.

Lemma course_ok_parts :
  RoundTrip.no_amp (run (info d)) = true
  /\ forallb (RoundTrip.row_ok d) (structure d) = true
  /\ blocks_ok d = true
  /\ (forall k b, JsMap.get (textBlocks d) k = Some b ->
        RoundTrip.referenced d "text" k = true)
  /\ (forall k b, JsMap.get (videoBlocks d) k = Some b ->
        RoundTrip.referenced d "video" k = true)
  /\ (forall k b, JsMap.get (problemBlocks d) k = Some b ->
        RoundTrip.referenced d "problem" k = true)
  /\ (forall k b, JsMap.get (openResponseBlocks d) k = Some b ->
        RoundTrip.referenced d "openresponse" k = true).
Proof.
  pose proof Hcourse as H. unfold RoundTrip.course_ok in H.
  do 9 (apply andb_true_iff in H as [H ?]).
  split; [exact H|]. split; [assumption|].
  assert (W : forall (B : Type) (p q : jsstring * B -> bool) (m : JsMap.t B),
            (forall e, p e = true -> q e = true) ->
            forallb p m = true -> forallb q m = true).
  { intros B p q m Hpq Hp. apply forallb_forall. intros e He.
    apply Hpq. apply (proj1 (forallb_forall _ _) Hp). exact He. }
  assert (R : forall (B : Type) (p : jsstring * B -> bool) (t : string)
                     (m : JsMap.t B),
            (forall e, p e = true -> RoundTrip.referenced d t (fst e) = true) ->
            forallb p m = true ->
            forall k b, JsMap.get m k = Some b ->
                        RoundTrip.referenced d t k = true).
  { intros B p t m Hp Hm k b E. apply get_In in E.
    apply (Hp (k, b)). apply (proj1 (forallb_forall _ _) Hm). exact E. }
  assert (T1 : forallb textBlock_ok (textBlocks d) = true).
  { eapply W; [|exact H6]. intros e He.
    unfold RoundTrip.textBlock_ok in He. unfold textBlock_ok.
    repeat (apply andb_true_iff in He as [He ?]).
    repeat match goal with
           | E : ?x = true |- context [?x] => rewrite E
           end.
    reflexivity. }
  assert (T2 : forallb videoBlock_ok (videoBlocks d) = true).
  { eapply W; [|exact H4]. intros e He.
    unfold RoundTrip.videoBlock_ok in He. unfold videoBlock_ok.
    repeat (apply andb_true_iff in He as [He ?]).
    repeat match goal with
           | E : ?x = true |- context [?x] => rewrite E
           end.
    reflexivity. }
  assert (T3 : forallb problemBlock_ok (problemBlocks d) = true).
  { eapply W; [|exact H2]. intros e He.
    unfold RoundTrip.problemBlock_ok in He. unfold problemBlock_ok.
    repeat (apply andb_true_iff in He as [He ?]).
    repeat match goal with
           | E : ?x = true |- context [?x] => rewrite E
           end.
    reflexivity. }
  assert (T4 : forallb openResponseBlock_ok (openResponseBlocks d) = true).
  { eapply W; [|exact H0]. intros e He.
    unfold RoundTrip.openResponseBlock_ok in He.
    unfold openResponseBlock_ok.
    repeat (apply andb_true_iff in He as [He ?]).
    repeat match goal with
           | E : ?x = true |- context [?x] => rewrite E
           end.
    reflexivity. }
  split; [|repeat split].
  - unfold blocks_ok. rewrite H7, T1, H5, T2, H3, T3, H1, T4. reflexivity.
  - eapply R; [|exact H6]. intros e He.
    unfold RoundTrip.textBlock_ok in He.
    repeat (apply andb_true_iff in He as [He ?]). assumption.
  - eapply R; [|exact H4]. intros e He.
    unfold RoundTrip.videoBlock_ok in He.
    repeat (apply andb_true_iff in He as [He ?]). assumption.
  - eapply R; [|exact H2]. intros e He.
    unfold RoundTrip.problemBlock_ok in He.
    repeat (apply andb_true_iff in He as [He ?]). assumption.
  - eapply R; [|exact H0]. intros e He.
    unfold RoundTrip.openResponseBlock_ok in He.
    repeat (apply andb_true_iff in He as [He ?]). assumption.
Qed.

Lemma built_tree_ok : ids_ok tree = true /\ tree_ok d tree = true.
Proof.
  destruct course_ok_parts as [_ [Hrows _]].
  rewrite buildHierarchy_spec in *. split.
  - unfold ids_ok.
    destruct (built_ids_units entropy (structure d)) as [U1 [U2 U3]].
    cbv zeta in U1, U2, U3. rewrite U1, U2, U3. exact Hids.
  - apply specHierarchy_tree_ok. exact Hrows.
Qed.

Lemma named_built (t : string) (k : jsstring) :
  named t (treeRows tree) k = RoundTrip.referenced d t k.
Proof. apply named_perm, buildHierarchy_rows. Qed.

End BuildImport.

Section RoundTripProof.
Import Hierarchy ReadBack.
Context {P : Platform} {G : GzipLaws P} {J : JsonLaws P}.
Variables (entropy : nat -> list Z) (clock : nat -> Z) (d : CourseData).

Local Abbreviation tree :=
  (buildHierarchy (Main.buildIdMap entropy (structure d)) (structure d)).

Lemma decode_encode :
  forallb ArchiveDomain.entry_ok (Main.exportFiles d tree) = true ->
  Main.decode (Main.encode entropy clock d)
  = Untar.Returned (OlxParser.parseOlx (Main.exportFiles d tree)).
Proof.
  intros H.
  unfold Main.decode, Main.encode, Untar.extractTarGz, Archive.generateTarGz,
    Archive.tarGzip.
  rewrite gunzip_gzip, extractTar_createTar;
    [reflexivity | apply exportFiles_NoDup | exact H].
Qed.

Lemma import_of_build :
  RoundTrip.course_ok d = true ->
  RoundTrip.ids_distinct tree = true ->
  let data := fst (OlxParser.parseOlx (Main.exportFiles d tree)) in
  Permutation (structure data) (structure d)
  /\ (forall k,
        JsMap.get (textBlocks data) k
        = option_map RoundTrip.normalTextBlock (JsMap.get (textBlocks d) k))
  /\ (forall k, JsMap.get (videoBlocks data) k = JsMap.get (videoBlocks d) k)
  /\ (forall k,
        JsMap.get (problemBlocks data) k
        = option_map RoundTrip.normalProblemBlock
            (JsMap.get (problemBlocks d) k))
  /\ (forall k,
        JsMap.get (openResponseBlocks data) k
        = option_map RoundTrip.normalOpenResponseBlock
            (JsMap.get (openResponseBlocks d) k)).
Proof.
  intros Hcourse Hids.
  destruct (built_tree_ok entropy d Hcourse Hids) as [I T].
  destruct (course_ok_parts d Hcourse)
    as [Hrun [Hrows [Hb [R1 [R2 [R3 R4]]]]]].
  destruct (parseOlx_export P J d tree Hrun Hb I T) as [S [B1 [B2 [B3 B4]]]].
  cbv zeta in *. split; [rewrite S; apply buildHierarchy_rows|].
  split; [|split; [|split]]; intros k.
  - rewrite B1, named_built.
    destruct (JsMap.get (textBlocks d) k) as [b|] eqn:E.
    + rewrite (R1 k b E). reflexivity.
    + destruct (RoundTrip.referenced d "text" k); reflexivity.
  - rewrite B2, named_built.
    destruct (JsMap.get (videoBlocks d) k) as [b|] eqn:E.
    + rewrite (R2 k b E). reflexivity.
    + destruct (RoundTrip.referenced d "video" k); reflexivity.
  - rewrite B3, named_built.
    destruct (JsMap.get (problemBlocks d) k) as [b|] eqn:E.
    + rewrite (R3 k b E). reflexivity.
    + destruct (RoundTrip.referenced d "problem" k); reflexivity.
  - rewrite B4, named_built.
    destruct (JsMap.get (openResponseBlocks d) k) as [b|] eqn:E.
    + rewrite (R4 k b E). reflexivity.
    + destruct (RoundTrip.referenced d "openresponse" k); reflexivity.
Qed.

End RoundTripProof.

(** ** The ids, the tree and the round trip *)

(** X11. [sanitizeUrlName] gives, for every text and whatever the
    platform's lower-casing does, a text of at most 60 code units, each
    of them a lower-case letter, a digit, an underscore or a hyphen. *)
Theorem sanitizeUrlName_safe :
  forall (P : Platform) (s : jsstring),
    forallb XmlText.id_unit (sanitizeUrlName s) = true
    /\ (length (sanitizeUrlName s) <= 60)%nat.
Proof.
  intros P s. split; [apply sanitizeUrlName_units|].
  apply sanitizeUrlName_length.
Qed.

(** X13. The ids that [handleFile] assigns to the nodes of the tree of
    the rows are texts of lower-case letters, digits, underscores and
    hyphens, on every level, whatever the names of the rows and the
    random bytes are: every node finds its id in the lookup (none falls
    back to its name), and no id needs escaping in a path or in an
    attribute. *)
Theorem assigned_ids_safe :
  forall (P : Platform) (entropy : nat -> list Z)
         (rows : list StructureRow),
    forallb (forallb XmlText.id_unit)
      (List.map Hierarchy.c_id
         (Hierarchy.buildHierarchy (Main.buildIdMap entropy rows) rows))
    = true
    /\ forallb (forallb XmlText.id_unit)
         (List.map Hierarchy.s_id
            (flat_map Hierarchy.c_sequentials
               (Hierarchy.buildHierarchy (Main.buildIdMap entropy rows)
                  rows)))
       = true
    /\ forallb (forallb XmlText.id_unit)
         (List.map Hierarchy.v_id
            (flat_map Hierarchy.s_verticals
               (flat_map Hierarchy.c_sequentials
                  (Hierarchy.buildHierarchy (Main.buildIdMap entropy rows)
                     rows))))
       = true.
Proof.
  intros P entropy rows. rewrite buildHierarchy_spec.
  apply (built_ids_units entropy rows).
Qed.

(** X14. The hierarchy builder keeps the rows: the rows of the tree,
    read in the order of its traversal with the names of their nodes,
    are a permutation of the input rows, so that no block reference is
    lost, duplicated or moved to another node. *)
Theorem buildHierarchy_keeps_rows :
  forall (idMap : JsMap.t jsstring) (rows : list StructureRow),
    Permutation
      (ReadBack.treeRows (Hierarchy.buildHierarchy idMap rows)) rows.
Proof. intros idMap rows. apply buildHierarchy_rows. Qed.



(** X16. Import of the files that Build generates.  For a course whose
    blocks Build and Import reproduce and whose run holds no ampersand,
    and a tree whose ids are distinct on every level and made of
    lower-case letters, digits, underscores and hyphens, whose names
    are not empty and hold no ampersand and whose block references
    resolve: the rows that [parseOlx] reads from the entry map of the
    export are the rows of the tree in the order of its traversal, and
    each content map holds exactly the blocks that a row of its type
    names, as Import normalises them. *)
Theorem parseOlx_reads_export :
  forall (P : Platform) (J : JsonLaws P) (d : CourseData)
         (tree : list Hierarchy.Chapter),
    RoundTrip.no_amp (run (info d)) = true ->
    ReadBack.blocks_ok d = true ->
    ReadBack.ids_ok tree = true ->
    ReadBack.tree_ok d tree = true ->
    structure (fst (OlxParser.parseOlx (Main.exportFiles d tree)))
    = ReadBack.treeRows tree
    /\ (forall k,
          JsMap.get
            (textBlocks (fst (OlxParser.parseOlx (Main.exportFiles d tree))))
            k
          = if ReadBack.named "text" (ReadBack.treeRows tree) k
            then option_map RoundTrip.normalTextBlock
                   (JsMap.get (textBlocks d) k)
            else None)
    /\ (forall k,
          JsMap.get
            (videoBlocks (fst (OlxParser.parseOlx (Main.exportFiles d tree))))
            k
          = if ReadBack.named "video" (ReadBack.treeRows tree) k
            then JsMap.get (videoBlocks d) k else None)
    /\ (forall k,
          JsMap.get
            (problemBlocks
               (fst (OlxParser.parseOlx (Main.exportFiles d tree))))
            k
          = if ReadBack.named "problem" (ReadBack.treeRows tree) k
            then option_map RoundTrip.normalProblemBlock
                   (JsMap.get (problemBlocks d) k)
            else None)
    /\ (forall k,
          JsMap.get
            (openResponseBlocks
               (fst (OlxParser.parseOlx (Main.exportFiles d tree))))
            k
          = if ReadBack.named "openresponse" (ReadBack.treeRows tree) k
            then option_map RoundTrip.normalOpenResponseBlock
                   (JsMap.get (openResponseBlocks d) k)
            else None).
Proof. exact parseOlx_export. Qed.

Lemma parseOlx_reads_export_witness :
  structure
    (fst (OlxParser.parseOlx (P := Reference.platform)
            (Main.exportFiles (P := Reference.platform) Written.course
               Written.tree)))
  = ReadBack.treeRows Written.tree.
Proof.
  apply (parseOlx_reads_export Reference.platform reference_json_laws
           Written.course Written.tree);
    vm_compute; reflexivity.
Defined.

(** X17. Build, then Import.  For a course in the domain of
    [RoundTrip.course_ok] (texts that the XML codec reproduces, rows
    that resolve, every block named by a row, distinct keys), when the
    ids that Build assigns are distinct on every level and the files of
    the export are in the domain of the archive codec: decoding the
    archive of the course returns a model whose rows are a permutation
    of the rows of the course and whose content maps hold, under every
    block id, the block of the course as Import normalises it (the
    content of a text block trimmed, the texts of a problem and of an
    open response block with their white space normalised, a video
    block as it is).  gunzipSync is assumed to undo gzipSync, and
    JSON.parse to read the arrays of [html5_sources]. *)
Theorem build_import_round_trip :
  forall (P : Platform) (G : GzipLaws P) (J : JsonLaws P)
         (entropy : nat -> list Z) (clock : nat -> Z) (d : CourseData),
    RoundTrip.course_ok d = true ->
    RoundTrip.ids_distinct
      (Hierarchy.buildHierarchy (Main.buildIdMap entropy (structure d))
         (structure d)) = true ->
    forallb ArchiveDomain.entry_ok
      (Main.exportFiles d
         (Hierarchy.buildHierarchy (Main.buildIdMap entropy (structure d))
            (structure d))) = true ->
    exists st : OlxParser.state,
      Main.decode (Main.encode entropy clock d) = Untar.Returned st
      /\ Permutation (structure (fst st)) (structure d)
      /\ (forall k,
            JsMap.get (textBlocks (fst st)) k
            = option_map RoundTrip.normalTextBlock
                (JsMap.get (textBlocks d) k))
      /\ (forall k,
            JsMap.get (videoBlocks (fst st)) k = JsMap.get (videoBlocks d) k)
      /\ (forall k,
            JsMap.get (problemBlocks (fst st)) k
            = option_map RoundTrip.normalProblemBlock
                (JsMap.get (problemBlocks d) k))
      /\ (forall k,
            JsMap.get (openResponseBlocks (fst st)) k
            = option_map RoundTrip.normalOpenResponseBlock
                (JsMap.get (openResponseBlocks d) k)).
Proof.
  intros P G J entropy clock d Hcourse Hids Hfiles.
  eexists. split; [apply (decode_encode entropy clock d Hfiles)|].
  apply (import_of_build entropy d Hcourse Hids).
Qed.

Lemma build_import_round_trip_witness :
  exists st : OlxParser.state,
    Main.decode (P := Reference.platform)
      (Main.encode (P := Reference.platform) Template.entropy
         ArchiveDomain.clock0 Written.course)
    = Untar.Returned st
    /\ Permutation (structure (fst st)) (structure Written.course)
    /\ (forall k,
          JsMap.get (textBlocks (fst st)) k
          = option_map RoundTrip.normalTextBlock
              (JsMap.get (textBlocks Written.course) k))
    /\ (forall k,
          JsMap.get (videoBlocks (fst st)) k
          = JsMap.get (videoBlocks Written.course) k)
    /\ (forall k,
          JsMap.get (problemBlocks (fst st)) k
          = option_map RoundTrip.normalProblemBlock
              (JsMap.get (problemBlocks Written.course) k))
    /\ (forall k,
          JsMap.get (openResponseBlocks (fst st)) k
          = option_map RoundTrip.normalOpenResponseBlock
              (JsMap.get (openResponseBlocks Written.course) k)).
Proof.
  apply (build_import_round_trip Reference.platform ReferenceFacts.gzip_laws
           reference_json_laws Template.entropy ArchiveDomain.clock0
           Written.course);
    vm_compute; reflexivity.
Defined.

(** ** The archive decoder on a negative size *)

Section NegativeSize.
Import Archive Untar UntarEdge.

Lemma paddedSize_back (size : Z) :
  -1024 < size <= -512 -> paddedSize size = -512.
Proof.
  intros H. unfold paddedSize.
  assert (E : - size / 512 = 1).
  { symmetry. apply (Z.div_unique (- size) 512 1 (- size - 512)); lia. }
  rewrite E. reflexivity.
Qed.

Lemma extractStep_back (h rest : list Z) (files : JsMap.t jsstring) :
  length h = 512%nat -> isZeroBlock h = false ->
  nonempty (readString h 0 100) = true ->
  -1024 < headerSize h <= -512 ->
  extractStep (h ++ rest) 0 files = Some (0, files).
Proof.
  intros L Z0 N S. unfold extractStep.
  assert (E : subarray (h ++ rest) 0 (0 + 512) = h).
  { replace 512 with (Z.of_nat (length h)) by (rewrite L; reflexivity).
    apply (subarray_at (h ++ rest) h rest 0); [lia | reflexivity]. }
  rewrite E, Z0, N. cbv zeta. cbn [negb].
  fold (headerSize h).
  assert (F : (0 <? headerSize h) = false) by (apply Z.ltb_ge; lia).
  rewrite F, andb_false_r, (paddedSize_back _ S). reflexivity.
Qed.

End NegativeSize.

(** X18. The archive decoder does not return on a negative size.  When
    the first block of the data is a header that is not all zero, has a
    name, and whose size field reads a number from -1023 to -512 (the
    octal text -1000 is one), [extractTar] adds the padded size -512 to
    the offset behind the header and is at offset 0 again with the same
    files: the loop has not returned after any number of rounds. *)
Theorem extractTar_loops_on_negative_size :
  forall (h rest : list Z),
    length h = 512%nat -> Untar.isZeroBlock h = false ->
    nonempty (Untar.readString h 0 100) = true ->
    -1024 < UntarEdge.headerSize h <= -512 ->
    Untar.extractStep (h ++ rest) 0 [] = Some (0, [])
    /\ forall steps : nat,
         Untar.extractLoop steps (h ++ rest) 0 [] = Untar.OutOfSteps.
Proof.
  intros h rest L Z0 N S.
  pose proof (extractStep_back h rest [] L Z0 N S) as E.
  split; [exact E|].
  induction steps as [|n IH]; [reflexivity|].
  cbn [Untar.extractLoop]. rewrite E, IH.
  destruct (0 + 512 <=? Z.of_nat (length (h ++ rest))) eqn:C; [reflexivity|].
  apply Z.leb_gt in C. rewrite length_app, L in C. lia.
Qed.

Lemma extractTar_loops_on_negative_size_witness :
  Untar.extractStep (UntarEdge.looping_header ++ repeat 0 1024) 0 []
  = Some (0, [])
  /\ forall steps : nat,
       Untar.extractLoop steps (UntarEdge.looping_header ++ repeat 0 1024)
         0 []
       = Untar.OutOfSteps.
Proof.
  apply (extractTar_loops_on_negative_size UntarEdge.looping_header
           (repeat 0 1024));
    [reflexivity | reflexivity | reflexivity |].
  vm_compute. split; [reflexivity | discriminate].
Defined.

(** ** What the workbook decoder stores *)

Section DecodedFacts.
Context {P : Platform}.
Import Parser Decoded.

Lemma or_else_filled (a b : jsstring) :
  nonempty b = true -> nonempty (or_else a b) = true.
Proof. intros H. unfold or_else. destruct (nonempty a) eqn:E; assumption. Qed.

Lemma forallb_snoc {A} (p : A -> bool) (l : list A) (x : A) :
  forallb p l = true -> p x = true -> forallb p (l ++ [x]) = true.
Proof. intros H1 H2. rewrite forallb_app, H1. cbn. rewrite H2. reflexivity. Qed.

Lemma forallb_set {V} (p : jsstring * V -> bool) (m : JsMap.t V)
  (k : jsstring) (v : V) :
  forallb p m = true -> p (k, v) = true -> forallb p (JsMap.set m k v) = true.
Proof.
  intros H Hk. induction m as [|[k' v'] m IH]; cbn.
  - rewrite Hk. reflexivity.
  - cbn in H. apply andb_true_iff in H as [H1 H2].
    destruct (eqb_spec k' k) as [->|N]; cbn.
    + rewrite Hk. exact H2.
    + rewrite H1. apply IH, H2.
Qed.

Lemma stored_push_error st e : stored st -> stored (push_error st e).
Proof. intros H. exact H. Qed.

Lemma readInfo_stored st sheet : stored st -> stored (readInfo st sheet).
Proof.
  intros H. unfold readInfo. cbv zeta.
  repeat match goal with
         | |- context [if ?c then _ else _] => destruct c
         end; exact H.
Qed.

Lemma structureRow_stored headers st row :
  stored st -> stored (structureRow headers st row).
Proof.
  intros H. unfold structureRow. cbv zeta.
  repeat match goal with
         | |- context [if ?c then _ else _] => destruct c eqn:?
         end; try exact H.
  destruct H as [H1 H2]. split; [|exact H2].
  cbn [fst structure push_structure]. apply forallb_snoc; [exact H1|].
  unfold row_complete. cbn [chapter sequential vertical blockId blockType].
  repeat match goal with
         | E : negb ?x = false |- _ => apply negb_false_iff in E; rewrite E
         end.
  reflexivity.
Qed.

Lemma textRow_stored headers st row :
  stored st -> stored (textRow headers st row).
Proof.
  intros H. unfold textRow. cbv zeta.
  repeat match goal with
         | |- context [if ?c then _ else _] => destruct c eqn:?
         end; try exact H.
  destruct H as [H1 [H2 H3]]. split; [exact H1|]. split; [|exact H3].
  cbn [fst textBlocks set_textBlock]. apply forallb_set; [exact H2|].
  unfold text_entry. cbn [fst snd tb_blockId tb_title].
  match goal with E : negb ?x = false |- _ =>
    apply negb_false_iff in E; rewrite E end.
  rewrite eqb_refl, or_else_filled by reflexivity. reflexivity.
Qed.

Lemma videoRow_stored headers st row :
  stored st -> stored (videoRow headers st row).
Proof.
  intros H. unfold videoRow. cbv zeta.
  repeat match goal with
         | |- context [if ?c then _ else _] => destruct c eqn:?
         end; try exact H.
  destruct H as [H1 [H2 [H3 H4]]]. split; [exact H1|]. split; [exact H2|].
  split; [|exact H4].
  cbn [fst videoBlocks set_videoBlock]. apply forallb_set; [exact H3|].
  unfold video_entry. cbn [fst snd vb_blockId vb_title vb_startTime vb_endTime].
  match goal with E : negb ?x = false |- _ =>
    apply negb_false_iff in E; rewrite E end.
  rewrite eqb_refl, !or_else_filled by reflexivity. reflexivity.
Qed.

Lemma readChoices_texts (r : JsMap.t jsstring) :
  forallb (fun c => nonempty (ch_text c)) (readChoices r) = true
  /\ (length (readChoices r) <= 6)%nat.
Proof.
  unfold readChoices.
  change 6%nat with (length choiceLetters).
  generalize choiceLetters as ls.
  induction ls as [|l ls [IH1 IH2]]; cbn [flat_map length]; [split; auto|].
  destruct (nonempty (objStr r (str "choice_" ++ l))) eqn:E;
    cbn [negb app forallb ch_text length].
  - rewrite E, IH1. split; [reflexivity | lia].
  - split; [exact IH1 | lia].
Qed.

Lemma problemsRow_stored headers st row :
  stored st -> stored (problemsRow headers st row).
Proof.
  intros H. unfold problemsRow, problemsRowObject. cbv zeta.
  repeat match goal with
         | |- context [if ?c then _ else _] => destruct c eqn:?
         end; try exact H.
  destruct H as [H1 [H2 [H3 [H4 H5]]]].
  split; [exact H1|]. split; [exact H2|]. split; [exact H3|].
  split; [|exact H5].
  cbn [fst problemBlocks set_problemBlock]. apply forallb_set; [exact H4|].
  unfold problem_entry.
  cbn [fst snd pb_blockId pb_title pb_showAnswer pb_choices].
  destruct (readChoices_texts (rowToObject row headers)) as [T L].
  repeat match goal with E : negb ?x = false |- _ =>
    apply negb_false_iff in E end.
  match goal with E : nonempty (objStr _ (str "block_id")) = true |- _ =>
    rewrite E, (or_else_filled _ _ E) end.
  match goal with E : existsb _ _ = true |- _ => rewrite E end.
  rewrite eqb_refl, T, or_else_filled by reflexivity.
  match goal with E : (_ <? 2)%nat = false |- _ =>
    apply Nat.ltb_ge in E; apply Nat.leb_le in E; rewrite E end.
  apply Nat.leb_le in L. rewrite L. reflexivity.
Qed.

Lemma split_at_length (sep : Z) (s : jsstring) :
  forall cur, (1 <= length (split_at sep s cur))%nat.
Proof.
  induction s as [|c s IH]; intros cur; cbn [split_at length]; [lia|].
  destruct (c =? sep); [cbn [length]; lia | apply IH].
Qed.

Lemma readCriteria_read (r : JsMap.t jsstring) (cs : list Z) :
  forallb criterion_read (readCriteria r cs) = true
  /\ (length (readCriteria r cs) <= length cs)%nat.
Proof.
  induction cs as [|c cs [IH1 IH2]]; cbn [readCriteria]; [split; auto|].
  cbv zeta.
  destruct (nonempty (objStr r (str "criterion_" ++ toString10 c
                                ++ str "_name"))) eqn:E1;
    cbn [negb orb]; [|split; [reflexivity | cbn [length]; lia]].
  destruct (nonempty (objStr r (str "criterion_" ++ toString10 c
                                ++ str "_options"))) eqn:E2;
    cbn [negb]; [|split; [reflexivity | cbn [length]; lia]].
  cbn [forallb length]. rewrite IH1. split; [|lia].
  unfold criterion_read. cbn [cr_name cr_options]. rewrite E1, length_map.
  pose proof (split_at_length 59
                (objStr r (str "criterion_" ++ toString10 c ++ str "_options"))
                []) as L.
  apply Nat.leb_le in L. unfold split. rewrite L. reflexivity.
Qed.

Lemma openResponseRow_stored headers st row :
  stored st -> stored (openResponseRow headers st row).
Proof.
  intros H. unfold openResponseRow. cbv zeta.
  repeat match goal with
         | |- context [if ?c then _ else _] => destruct c eqn:?
         end; try exact H.
  destruct H as [H1 [H2 [H3 [H4 H5]]]].
  split; [exact H1|]. split; [exact H2|]. split; [exact H3|].
  split; [exact H4|].
  cbn [fst openResponseBlocks set_openResponseBlock].
  apply forallb_set; [exact H5|].
  unfold open_response_entry.
  cbn [fst snd ob_blockId ob_title ob_assessmentType ob_criteria].
  match goal with E : negb ?x = false |- _ =>
    apply negb_false_iff in E; rewrite E, (or_else_filled _ _ E) end.
  destruct (readCriteria_read (rowToObject row headers)
              [1; 2; 3; 4; 5; 6; 7; 8; 9; 10]) as [T L].
  cbn [length] in L. apply Nat.leb_le in L.
  rewrite eqb_refl, T, L, or_else_filled by reflexivity. reflexivity.
Qed.

Lemma readSheet_stored wb name_ handler st :
  (forall headers st row, stored st -> stored (handler headers st row)) ->
  stored st -> stored (readSheet wb name_ handler st).
Proof.
  intros H Hst. unfold readSheet.
  destruct (findSheet wb (str name_)) as [sheet|]; [|exact Hst].
  apply (fold_left_invariant stored); [|exact Hst].
  intros a b. apply H.
Qed.

Lemma readSheets_stored wb : stored (readSheets wb).
Proof.
  unfold readSheets. cbv zeta.
  apply readSheet_stored; [apply openResponseRow_stored|].
  apply readSheet_stored; [apply problemsRow_stored|].
  apply readSheet_stored; [apply videoRow_stored|].
  apply readSheet_stored; [apply textRow_stored|].
  assert (H0 : stored
                 match findSheet wb (str "Course Info") with
                 | Some sheet => readInfo (createCourseData, []) sheet
                 | None =>
                   push_error (createCourseData, [])
                     (str "Missing sheet: " ++ quoted (str "Course Info"))
                 end).
  { destruct (findSheet wb (str "Course Info")).
    - apply readInfo_stored. repeat split.
    - repeat split. }
  set (st0 := match findSheet wb (str "Course Info") with
              | Some sheet => _ | None => _ end) in *.
  clearbody st0.
  destruct (findSheet wb (str "Structure")) as [sheet|].
  - apply (fold_left_invariant stored); [|exact H0].
    intros a b. apply structureRow_stored.
  - exact H0.
Qed.

Lemma row_complete_valid (rows : list StructureRow) :
  forallb row_complete rows = true -> Forall validType rows.
Proof.
  intros H. apply Forall_forall. intros row Hin.
  rewrite forallb_forall in H. specialize (H row Hin).
  unfold row_complete in H. apply andb_true_iff in H as [_ H]. exact H.
Qed.

Lemma no_errors_resolve wb :
  snd (parseWorkbook wb) = [] ->
  forallb (resolves (fst (parseWorkbook wb)))
          (structure (fst (parseWorkbook wb))) = true.
Proof.
  unfold parseWorkbook. cbn [fst snd]. intros E.
  rewrite crossValidate_valid in E by apply readSheets_valid.
  apply app_eq_nil in E as [_ E]. apply map_eq_nil in E.
  apply forallb_forall. intros row Hin.
  destruct (resolves (fst (readSheets wb)) row) eqn:R; [reflexivity|].
  exfalso.
  assert (In row (filter (fun row => negb (resolves (fst (readSheets wb)) row))
                    (structure (fst (readSheets wb))))) as Hf.
  { apply filter_In. rewrite R. auto. }
  rewrite E in Hf. exact Hf.
Qed.

End DecodedFacts.

Section ErrorFree.
Context {P : Platform}.
Import Parser Decoded.

Lemma fold_left_back {A B} (Q : A -> Prop) (f : A -> B -> A) (l : list B) :
  (forall a b, Q (f a b) -> Q a) -> forall a, Q (fold_left f l a) -> Q a.
Proof.
  intros H. induction l as [|b l IH]; intros a Ha; [exact Ha|].
  apply (H a b), IH, Ha.
Qed.

Lemma fold_left_same {A B C} (g : A -> C) (f : A -> B -> A) (l : list B) :
  (forall a b, g (f a b) = g a) -> forall a, g (fold_left f l a) = g a.
Proof.
  intros H. induction l as [|b l IH]; intros a; [reflexivity|].
  cbn [fold_left]. rewrite IH. apply H.
Qed.

Ltac errors_back :=
  intros E;
  repeat match goal with
         | H : _ ++ _ = [] |- _ => apply app_eq_nil in H as [H ?]
         end;
  try discriminate; try assumption.

Ltac by_branches unfolder :=
  unfolder; cbv zeta;
  repeat match goal with
         | |- context [if ?c then _ else _] => destruct c
         end; cbn [push_error fst snd].

Lemma structureRow_errors headers st row :
  snd (structureRow headers st row) = [] -> snd st = [].
Proof. by_branches ltac:(unfold structureRow); errors_back. Qed.

Lemma textRow_errors headers st row :
  snd (textRow headers st row) = [] -> snd st = [].
Proof. by_branches ltac:(unfold textRow); errors_back. Qed.

Lemma videoRow_errors headers st row :
  snd (videoRow headers st row) = [] -> snd st = [].
Proof. by_branches ltac:(unfold videoRow); errors_back. Qed.

Lemma problemsRow_errors headers st row :
  snd (problemsRow headers st row) = [] -> snd st = [].
Proof.
  by_branches ltac:(unfold problemsRow, problemsRowObject); errors_back.
Qed.

Lemma openResponseRow_errors headers st row :
  snd (openResponseRow headers st row) = [] -> snd st = [].
Proof. by_branches ltac:(unfold openResponseRow); errors_back. Qed.

Lemma structureRow_info headers st row :
  info (fst (structureRow headers st row)) = info (fst st).
Proof. by_branches ltac:(unfold structureRow); reflexivity. Qed.

Lemma textRow_info headers st row :
  info (fst (textRow headers st row)) = info (fst st).
Proof. by_branches ltac:(unfold textRow); reflexivity. Qed.

Lemma videoRow_info headers st row :
  info (fst (videoRow headers st row)) = info (fst st).
Proof. by_branches ltac:(unfold videoRow); reflexivity. Qed.

Lemma problemsRow_info headers st row :
  info (fst (problemsRow headers st row)) = info (fst st).
Proof.
  by_branches ltac:(unfold problemsRow, problemsRowObject); reflexivity.
Qed.

Lemma openResponseRow_info headers st row :
  info (fst (openResponseRow headers st row)) = info (fst st).
Proof. by_branches ltac:(unfold openResponseRow); reflexivity. Qed.

(** A sheet read without an error leaves the course information as it
    was, and there was no error before it. *)
Lemma readSheet_back wb name_ handler st (i : CourseInfo) :
  (forall headers st row, snd (handler headers st row) = [] -> snd st = []) ->
  (forall headers st row,
     info (fst (handler headers st row)) = info (fst st)) ->
  snd (readSheet wb name_ handler st) = [] ->
  snd st = []
  /\ info (fst (readSheet wb name_ handler st)) = info (fst st).
Proof.
  intros He Hi. unfold readSheet.
  destruct (findSheet wb (str name_)) as [sheet|]; [|auto].
  intros E. split.
  - revert E. apply (fold_left_back (fun st => snd st = [])).
    intros a b. apply He.
  - apply (fold_left_same (fun st => info (fst st))). intros a b. apply Hi.
Qed.

Lemma readInfo_complete st sheet :
  snd (readInfo st sheet) = [] ->
  info_complete (info (fst (readInfo st sheet))) = true.
Proof.
  unfold readInfo, info_complete. cbv zeta.
  cbn [run courseId org courseName].
  repeat match goal with
         | |- context [if nonempty ?c then _ else _] =>
           destruct (nonempty c) eqn:?
         end; cbn [push_error fst snd with_info info run courseId org
                   courseName andb];
    intros E;
    repeat match goal with
           | H : _ ++ _ = [] |- _ => apply app_eq_nil in H as [H ?]
           end;
    try discriminate;
    repeat match goal with H : nonempty _ = true |- _ => rewrite H end;
    reflexivity.
Qed.

Lemma readSheets_error_free wb :
  snd (readSheets wb) = [] ->
  info_complete (info (fst (readSheets wb))) = true.
Proof.
  unfold readSheets. cbv zeta. intros E.
  set (st1 := match findSheet wb (str "Course Info") with
              | Some sheet => readInfo (createCourseData, []) sheet
              | None => _ end) in *.
  set (st2 := match findSheet wb (str "Structure") with
              | Some sheet => _ | None => _ end) in *.
  destruct (readSheet_back _ _ _ _ (info (fst st1))
              openResponseRow_errors openResponseRow_info E) as [E5 ->].
  destruct (readSheet_back _ _ _ _ (info (fst st1))
              problemsRow_errors problemsRow_info E5) as [E4 ->].
  destruct (readSheet_back _ _ _ _ (info (fst st1))
              videoRow_errors videoRow_info E4) as [E3 ->].
  destruct (readSheet_back _ _ _ _ (info (fst st1))
              textRow_errors textRow_info E3) as [E2 ->].
  assert (E1 : snd st1 = [] /\ info (fst st2) = info (fst st1)).
  { subst st2. destruct (findSheet wb (str "Structure")) as [sheet|].
    - split.
      + revert E2. apply (fold_left_back (fun st => snd st = [])).
        intros a b. apply structureRow_errors.
      + apply (fold_left_same (fun st => info (fst st))).
        intros a b. apply structureRow_info.
    - cbn [push_error snd] in E2. apply app_eq_nil in E2 as [_ E2].
      discriminate. }
  destruct E1 as [E1 ->]. subst st1.
  destruct (findSheet wb (str "Course Info")) as [sheet|].
  - apply readInfo_complete, E1.
  - discriminate.
Qed.

End ErrorFree.

(** X19. Every row that the workbook decoder stores in the structure is
    complete: chapter, sequential, vertical and block id are not empty,
    and the block type, in lower case, is one of text, video, problem
    and openresponse.  Rows that miss a field add an error and are left
    out. *)
Theorem parseWorkbook_rows_complete :
  forall (P : Platform) (wb : Parser.Workbook),
    forallb Decoded.row_complete (structure (fst (Parser.parseWorkbook wb)))
    = true.
Proof.
  intros P wb. unfold Parser.parseWorkbook. cbn [fst].
  apply (readSheets_stored wb).
Qed.

(** X20. Every entry of the four content maps that the workbook decoder
    returns is stored under the id of its block, which is not empty, and
    has a title; a video has a start and an end time; a problem has from
    two to six choices, each with a text, of which one at least is
    correct, and a show-answer rule; an open response has an assessment
    type and at most ten criteria, each with a name and at least one
    option. *)
Theorem parseWorkbook_blocks_well_formed :
  forall (P : Platform) (wb : Parser.Workbook),
    let d := fst (Parser.parseWorkbook wb) in
    forallb Decoded.text_entry (textBlocks d) = true
    /\ forallb Decoded.video_entry (videoBlocks d) = true
    /\ forallb Decoded.problem_entry (problemBlocks d) = true
    /\ forallb Decoded.open_response_entry (openResponseBlocks d) = true.
Proof.
  intros P wb d. subst d. unfold Parser.parseWorkbook. cbn [fst].
  apply (readSheets_stored wb).
Qed.

(** X21. A workbook that the decoder reads without an error (the state
    in which the export is enabled) gives a model whose course name,
    organization, course id and run are not empty and in which every
    row of the structure names a block that the content map of its type
    holds. *)
Theorem parseWorkbook_error_free :
  forall (P : Platform) (wb : Parser.Workbook),
    snd (Parser.parseWorkbook wb) = [] ->
    let d := fst (Parser.parseWorkbook wb) in
    Decoded.info_complete (info d) = true
    /\ forallb (resolves d) (structure d) = true.
Proof.
  intros P wb E d. split; [|apply no_errors_resolve, E].
  subst d. unfold Parser.parseWorkbook in *. cbn [fst snd] in *.
  apply readSheets_error_free.
  rewrite crossValidate_valid in E by apply readSheets_valid.
  apply app_eq_nil in E as [E _]. exact E.
Qed.

Lemma parseWorkbook_error_free_witness :
  snd (Parser.parseWorkbook (P := Reference.platform) Decoded.complete) = []
  /\ Decoded.info_complete
       (info (fst (Parser.parseWorkbook (P := Reference.platform)
                     Decoded.complete))) = true
  /\ forallb
       (resolves (fst (Parser.parseWorkbook (P := Reference.platform)
                         Decoded.complete)))
       (structure (fst (Parser.parseWorkbook (P := Reference.platform)
                          Decoded.complete))) = true.
Proof.
  split; [reflexivity|].
  apply (parseWorkbook_error_free Reference.platform Decoded.complete).
  reflexivity.
Defined.

(** ** The node ids differ *)

Section SplitFacts.

(** A text is cut at the first occurrence of a code unit in one way. *)
Lemma split_unique (c : Z) (x y r r' : jsstring) :
  forallb (fun u => negb (u =? c)) x = true ->
  forallb (fun u => negb (u =? c)) y = true ->
  x ++ c :: r = y ++ c :: r' -> x = y /\ r = r'.
Proof.
  revert y. induction x as [|a x IH]; intros [|b y] Hx Hy E; cbn in *.
  - injection E as ->. auto.
  - injection E as <- _. rewrite Z.eqb_refl in Hy. discriminate.
  - injection E as -> _. rewrite Z.eqb_refl in Hx. discriminate.
  - injection E as -> E.
    apply andb_true_iff in Hx as [_ Hx]. apply andb_true_iff in Hy as [_ Hy].
    destruct (IH y Hx Hy E) as [-> ->]. auto.
Qed.

Lemma NoDup_map_in {A B} (f : A -> B) (l : list A) :
  (forall x y, In x l -> In y l -> f x = f y -> x = y) ->
  NoDup l -> NoDup (List.map f l).
Proof.
  intros H N. induction N as [|a l Ha N IH]; cbn; constructor.
  - intros C. apply in_map_iff in C as [b [E Hb]].
    apply Ha. rewrite (H a b); cbn; auto.
  - apply IH. intros x y Hx Hy. apply H; cbn; auto.
Qed.

Lemma NoDup_flat_map_in {A B} (g : A -> list B) (l : list A) :
  NoDup l ->
  (forall a, In a l -> NoDup (g a)) ->
  (forall a b x, In a l -> In b l -> In x (g a) -> In x (g b) -> a = b) ->
  NoDup (flat_map g l).
Proof.
  intros N. induction N as [|a l Ha N IH]; intros Hg Hx; cbn; [constructor|].
  apply NoDup_app.
  - apply Hg. left. reflexivity.
  - apply IH.
    + intros b Hb. apply Hg. right. exact Hb.
    + intros b c x Hb Hc. apply Hx; right; assumption.
  - intros x H1 H2. apply in_flat_map in H2 as [b [Hb H2]].
    apply Ha. rewrite (Hx a b x); cbn; auto.
Qed.

End SplitFacts.

Section FreshIds.
Import XmlText Hierarchy ReadBack IdDomain.
Context {P : Platform}.
Variable entropy : nat -> list Z.
Variable calls : nat.
Hypothesis suffixes : suffixes_distinct entropy calls = true.

Local Abbreviation suffix := (fun i => firstn 8 (Main.generateId (entropy i))).

Lemma hex_digit_not_underscore (n : Z) :
  negb (Json.hex_digit (n mod 16) =? 95) = true.
Proof.
  pose proof (Z.mod_pos_bound n 16 eq_refl) as [H1 H2].
  unfold Json.hex_digit. apply negb_true_iff, Z.eqb_neq.
  destruct (Z.ltb_spec (n mod 16) 10); lia.
Qed.

Lemma generateId_no_underscore (bytes : list Z) :
  forallb (fun u => negb (u =? 95)) (Main.generateId bytes) = true.
Proof.
  unfold Main.generateId. induction bytes as [|b bytes IH]; [reflexivity|].
  cbn [flat_map app forallb]. rewrite !hex_digit_not_underscore, IH.
  reflexivity.
Qed.

Lemma suffix_inj (i j : nat) :
  (i < calls)%nat -> (j < calls)%nat -> suffix i = suffix j -> i = j.
Proof.
  intros Hi Hj E. unfold suffixes_distinct in suffixes.
  apply distinct_NoDup in suffixes.
  apply (NoDup_map_eq (fun i => suffix i) (seq 0 calls) i j suffixes);
    [apply in_seq; lia | apply in_seq; lia | exact E].
Qed.

Lemma freshId_suffix (a b : jsstring) (i j : nat) :
  Main.freshId entropy a i = Main.freshId entropy b j -> suffix i = suffix j.
Proof.
  unfold Main.freshId. intros E.
  apply (f_equal (@rev Z)) in E. rewrite !rev_app_distr in E.
  cbn [str rev app] in E. rewrite <- !app_assoc in E. cbn [app] in E.
  apply split_unique in E as [E _].
  - apply (f_equal (@rev Z)) in E. rewrite !rev_involutive in E. exact E.
  - rewrite forallb_rev. apply forallb_firstn, generateId_no_underscore.
  - rewrite forallb_rev. apply forallb_firstn, generateId_no_underscore.
Qed.

Local Abbreviation fresh := (IdDomain.fresh entropy).

Section Assign.
Variables (key name_ : jsstring).

Local Abbreviation assign :=
  (fun st : JsMap.t jsstring * nat =>
     if negb (JsMap.has (fst st) key)
     then (JsMap.set (fst st) key (Main.freshId entropy name_ (snd st)),
           S (snd st))
     else st).

Lemma assign_fresh st :
  fresh (fst st) (snd st) -> (snd st < calls)%nat ->
  fresh (fst (assign st)) (snd (assign st))
  /\ (snd (assign st) <= S (snd st))%nat.
Proof.
  intros [F I] L. cbv beta.
  destruct (JsMap.has (fst st) key) eqn:E; cbn [negb fst snd];
    [split; [split; assumption | lia]|].
  split; [|lia]. split.
  - intros k v. destruct (eqb_spec key k) as [->|N].
    + rewrite get_set_same. intros [= <-]. exists name_, (snd st). auto.
    + rewrite get_set_other by exact N. intros G.
      destruct (F k v G) as [a [i [Hi ->]]]. exists a, i. split; [lia | auto].
  - assert (New : forall k v, key <> k ->
              JsMap.get (fst st) k = Some v ->
              v <> Main.freshId entropy name_ (snd st)).
    { intros k v N G C. destruct (F k v G) as [a [i [Hi ->]]].
      apply freshId_suffix, suffix_inj in C; lia. }
    intros k1 k2 v.
    destruct (eqb_spec key k1) as [<-|N1], (eqb_spec key k2) as [<-|N2];
      rewrite ?get_set_same, ?get_set_other by assumption.
    + reflexivity.
    + intros [= <-] G. exfalso. apply (New k2 _ N2 G). reflexivity.
    + intros G [= <-]. exfalso. apply (New k1 _ N1 G). reflexivity.
    + apply I.
Qed.

End Assign.

Lemma fresh_more m n n' : fresh m n -> (n <= n')%nat -> fresh m n'.
Proof.
  intros [F I] L. split; [|exact I]. intros k v G.
  destruct (F k v G) as [a [i [Hi E]]]. exists a, i. split; [lia | exact E].
Qed.

Lemma assignIds_fresh st row :
  fresh (fst st) (snd st) -> (snd st + 3 <= calls)%nat ->
  fresh (fst (Main.assignIds entropy st row))
        (snd (Main.assignIds entropy st row))
  /\ (snd (Main.assignIds entropy st row) <= snd st + 3)%nat.
Proof.
  intros F L. unfold Main.assignIds. cbv zeta.
  set (k1 := str "ch:" ++ chapter row).
  set (k2 := str "seq:" ++ chapter row ++ str "|" ++ sequential row).
  set (k3 := str "vert:" ++ _).
  destruct (assign_fresh k1 (chapter row) st F) as [F1 L1]; [lia|].
  cbv beta in F1, L1. set (st1 := if negb (JsMap.has (fst st) k1) then _ else _) in *.
  destruct (assign_fresh k2 (sequential row) st1 F1) as [F2 L2]; [lia|].
  cbv beta in F2, L2.
  set (st2 := if negb (JsMap.has (fst st1) k2) then _ else _) in *.
  destruct (assign_fresh k3 (vertical row) st2 F2) as [F3 L3]; [lia|].
  cbv beta in F3, L3. split; [exact F3 | lia].
Qed.

Lemma assigned_fresh (rows : list StructureRow) :
  forall st,
    fresh (fst st) (snd st) -> (snd st + 3 * length rows <= calls)%nat ->
    fresh (fst (fold_left (Main.assignIds entropy) rows st))
          (snd (fold_left (Main.assignIds entropy) rows st)).
Proof.
  induction rows as [|r rows IH]; intros st F L; [exact F|].
  cbn [fold_left]. cbn [length] in L.
  destruct (assignIds_fresh st r F) as [F1 L1]; [lia|].
  apply IH; [exact F1 | lia].
Qed.

End FreshIds.

Section DistinctIds.
Import XmlText Hierarchy ReadBack IdDomain.
Context {P : Platform}.
Variable entropy : nat -> list Z.
Variable rows : list StructureRow.
Hypothesis unambiguous : keys_unambiguous rows = true.
Hypothesis suffixes : suffixes_distinct entropy (3 * length rows) = true.

Local Abbreviation m := (Main.buildIdMap entropy rows).
Local Abbreviation chapters := (firstOccurrences (List.map chapter rows)).
Local Abbreviation sequentialsOf :=
  (fun c => firstOccurrences
              (List.map sequential (filter (inChapter c) rows))).
Local Abbreviation verticalsOf :=
  (fun c s =>
     firstOccurrences
       (List.map vertical
          (filter (inSequential s) (filter (inChapter c) rows)))).

Lemma map_of_flat_map {A B C} (f : B -> C) (g : A -> list B) (l : list A) :
  List.map f (flat_map g l) = flat_map (fun x => List.map f (g x)) l.
Proof.
  induction l as [|a l IH]; [reflexivity|].
  cbn [flat_map]. rewrite map_app, IH. reflexivity.
Qed.

Lemma sequential_ids_spec (idMap : JsMap.t jsstring) :
  List.map s_id (flat_map c_sequentials (specHierarchy idMap rows))
  = flat_map (fun c => List.map (sequentialId idMap c) (sequentialsOf c))
      chapters.
Proof.
  unfold specHierarchy. rewrite flat_map_map, map_of_flat_map.
  apply flat_map_ext. intros c. cbn [specChapter c_sequentials].
  rewrite map_map. reflexivity.
Qed.

Lemma vertical_ids_spec (idMap : JsMap.t jsstring) :
  List.map v_id
    (flat_map s_verticals (flat_map c_sequentials (specHierarchy idMap rows)))
  = flat_map
      (fun c =>
         flat_map (fun s => List.map (verticalId idMap c s) (verticalsOf c s))
           (sequentialsOf c))
      chapters.
Proof.
  unfold specHierarchy.
  rewrite flat_map_flat_map, flat_map_map, map_of_flat_map.
  apply flat_map_ext. intros c. cbn [specChapter c_sequentials].
  rewrite flat_map_map, map_of_flat_map.
  apply flat_map_ext. intros s. cbn [specSequential s_verticals].
  rewrite map_map. reflexivity.
Qed.

(** The rows behind the names of the tree. *)
Lemma chapter_row (c : jsstring) :
  In c chapters -> exists r, In r rows /\ chapter r = c.
Proof. apply first_key. Qed.

Lemma sequential_row (c s : jsstring) :
  In s (sequentialsOf c) ->
  exists r, In r rows /\ chapter r = c /\ sequential r = s.
Proof.
  intros H. apply first_key in H as [r [Hr E]].
  apply filter_In in Hr as [Hr Ec]. apply eqb_eq in Ec.
  exists r. auto.
Qed.

Lemma vertical_row (c s v : jsstring) :
  In v (verticalsOf c s) ->
  exists r, In r rows /\ chapter r = c /\ sequential r = s /\ vertical r = v.
Proof.
  intros H. apply first_key in H as [r [Hr E]].
  apply filter_In in Hr as [Hr Es]. apply eqb_eq in Es.
  apply filter_In in Hr as [Hr Ec]. apply eqb_eq in Ec.
  exists r. auto.
Qed.

Lemma row_no_bar (r : StructureRow) :
  In r rows ->
  forallb (fun u => negb (u =? 124)) (chapter r) = true
  /\ forallb (fun u => negb (u =? 124)) (sequential r) = true.
Proof.
  intros H. unfold keys_unambiguous in unambiguous.
  rewrite forallb_forall in unambiguous.
  apply unambiguous, andb_true_iff in H. exact H.
Qed.

(** The lookup of the rows: every key of a row is there, with an id
    that is not empty, and no two keys hold the same id. *)
Lemma built_lookup :
  (forall k, JsMap.has m k = true ->
     forall name_, exists v,
       JsMap.get m k = Some v /\ id_or m k name_ = v)
  /\ (forall k1 k2 v,
        JsMap.get m k1 = Some v -> JsMap.get m k2 = Some v -> k1 = k2)
  /\ (forall row, In row rows ->
        JsMap.has m (str "ch:" ++ chapter row) = true
        /\ JsMap.has m
             (str "seq:" ++ chapter row ++ str "|" ++ sequential row) = true
        /\ JsMap.has m
             (str "vert:" ++ chapter row ++ str "|" ++ sequential row
              ++ str "|" ++ vertical row) = true).
Proof.
  unfold Main.buildIdMap.
  destruct (assigned_rows entropy rows ([], O)) as [G [_ R]];
    [intros k v; discriminate|].
  cbv zeta in G, R.
  destruct (assigned_fresh entropy (3 * length rows) suffixes rows ([], O))
    as [_ I]; [split; intros; discriminate | cbn [snd]; lia |].
  split; [|split; [exact I | exact R]].
  intros k H name_. apply has_get in H as [v Hv]. exists v.
  split; [exact Hv|]. unfold id_or. rewrite Hv.
  destruct (G k v Hv) as [_ N]. unfold or_else. rewrite N. reflexivity.
Qed.

Lemma id_or_inj (k1 k2 n1 n2 : jsstring) :
  JsMap.has m k1 = true -> JsMap.has m k2 = true ->
  id_or m k1 n1 = id_or m k2 n2 -> k1 = k2.
Proof.
  destruct built_lookup as [V [I _]]. intros H1 H2 E.
  destruct (V k1 H1 n1) as [v1 [G1 E1]], (V k2 H2 n2) as [v2 [G2 E2]].
  rewrite E1, E2 in E. subst v2. apply (I k1 k2 v1 G1 G2).
Qed.

Lemma chapter_ids_differ (c1 c2 : jsstring) :
  In c1 chapters -> In c2 chapters ->
  chapterId m c1 = chapterId m c2 -> c1 = c2.
Proof.
  destruct built_lookup as [_ [_ R]]. intros H1 H2 E.
  apply chapter_row in H1 as [r1 [Hr1 <-]], H2 as [r2 [Hr2 <-]].
  apply id_or_inj in E; [|apply (R r1 Hr1) | apply (R r2 Hr2)].
  apply app_inv_head in E. exact E.
Qed.

Lemma sequential_ids_differ (c1 c2 s1 s2 : jsstring) :
  In c1 chapters -> In s1 (sequentialsOf c1) ->
  In c2 chapters -> In s2 (sequentialsOf c2) ->
  sequentialId m c1 s1 = sequentialId m c2 s2 -> c1 = c2 /\ s1 = s2.
Proof.
  destruct built_lookup as [_ [_ R]]. intros _ H1 _ H2 E.
  apply sequential_row in H1 as [r1 [Hr1 [<- <-]]].
  apply sequential_row in H2 as [r2 [Hr2 [<- <-]]].
  apply id_or_inj in E; [|apply (R r1 Hr1) | apply (R r2 Hr2)].
  apply app_inv_head in E. cbn [str app] in E.
  apply split_unique in E; [exact E | apply row_no_bar, Hr1
                            | apply row_no_bar, Hr2].
Qed.

Lemma vertical_ids_differ (c1 c2 s1 s2 v1 v2 : jsstring) :
  In s1 (sequentialsOf c1) -> In v1 (verticalsOf c1 s1) ->
  In s2 (sequentialsOf c2) -> In v2 (verticalsOf c2 s2) ->
  verticalId m c1 s1 v1 = verticalId m c2 s2 v2 ->
  c1 = c2 /\ s1 = s2 /\ v1 = v2.
Proof.
  destruct built_lookup as [_ [_ R]]. intros _ H1 _ H2 E.
  apply vertical_row in H1 as [r1 [Hr1 [<- [<- <-]]]].
  apply vertical_row in H2 as [r2 [Hr2 [<- [<- <-]]]].
  unfold verticalId in E.
  apply id_or_inj in E.
  - apply app_inv_head in E. rewrite <- !app_assoc in E. cbn [str app] in E.
    apply split_unique in E as [E1 E];
      [| apply row_no_bar, Hr1 | apply row_no_bar, Hr2].
    apply split_unique in E as [E2 E];
      [| apply row_no_bar, Hr1 | apply row_no_bar, Hr2].
    auto.
  - rewrite <- !app_assoc. apply (R r1 Hr1).
  - rewrite <- !app_assoc. apply (R r2 Hr2).
Qed.

Lemma built_ids_distinct :
  RoundTrip.ids_distinct (specHierarchy m rows) = true.
Proof.
  unfold RoundTrip.ids_distinct.
  apply andb_true_iff; split; [apply andb_true_iff; split|];
    apply distinct_NoDup.
  - unfold specHierarchy. rewrite map_map.
    change (NoDup (List.map (chapterId m) chapters)).
    apply NoDup_map_in; [|apply firstOccurrences_NoDup].
    intros x y. apply chapter_ids_differ.
  - rewrite sequential_ids_spec.
    apply NoDup_flat_map_in; [apply firstOccurrences_NoDup | |].
    + intros c Hc. apply NoDup_map_in; [|apply firstOccurrences_NoDup].
      intros x y Hx Hy E.
      apply (sequential_ids_differ c c x y Hc Hx Hc Hy E).
    + intros a b x Ha Hb Hx Hy.
      apply in_map_iff in Hx as [s1 [<- H1]].
      apply in_map_iff in Hy as [s2 [E H2]]. symmetry in E.
      apply (sequential_ids_differ a b s1 s2 Ha H1 Hb H2 E).
  - rewrite vertical_ids_spec.
    apply NoDup_flat_map_in; [apply firstOccurrences_NoDup | |].
    + intros c Hc.
      apply NoDup_flat_map_in; [apply firstOccurrences_NoDup | |].
      * intros s Hs. apply NoDup_map_in; [|apply firstOccurrences_NoDup].
        intros x y Hx Hy E.
        apply (vertical_ids_differ c c s s x y Hs Hx Hs Hy E).
      * intros a b x Ha Hb Hx Hy.
        apply in_map_iff in Hx as [v1 [<- H1]].
        apply in_map_iff in Hy as [v2 [E H2]]. symmetry in E.
        apply (vertical_ids_differ c c a b v1 v2 Ha H1 Hb H2 E).
    + intros a b x Ha Hb Hx Hy.
      apply in_flat_map in Hx as [s1 [Hs1 Hx]].
      apply in_flat_map in Hy as [s2 [Hs2 Hy]].
      apply in_map_iff in Hx as [v1 [<- H1]].
      apply in_map_iff in Hy as [v2 [E H2]]. symmetry in E.
      apply (vertical_ids_differ a b s1 s2 v1 v2 Hs1 H1 Hs2 H2 E).
Qed.

End DistinctIds.

(** X22. The ids that [handleFile] gives to the nodes differ on every
    level: no two chapters, no two sequentials and no two verticals of
    the tree have the same id, when no chapter or sequential name holds
    a vertical bar (the separator of the lookup keys) and the random
    digits of the calls of [generateId], three for a row at most, differ
    in their first eight. *)
Theorem handleFile_ids_distinct :
  forall (P : Platform) (entropy : nat -> list Z) (rows : list StructureRow),
    IdDomain.keys_unambiguous rows = true ->
    IdDomain.suffixes_distinct entropy (3 * length rows) = true ->
    RoundTrip.ids_distinct
      (Hierarchy.buildHierarchy (Main.buildIdMap entropy rows) rows) = true.
Proof.
  intros P entropy rows K S. rewrite buildHierarchy_spec.
  apply built_ids_distinct; assumption.
Qed.

Lemma handleFile_ids_distinct_witness :
  RoundTrip.ids_distinct
    (Hierarchy.buildHierarchy
       (Main.buildIdMap (P := Reference.platform) Template.entropy
          (structure Written.course))
       (structure Written.course)) = true.
Proof.
  apply (handleFile_ids_distinct Reference.platform Template.entropy
           (structure Written.course)); reflexivity.
Defined.

(** ** Paragraphs *)

Section ParagraphFacts.

Lemma split_paragraphs_first (s : jsstring) :
  forall skipping cur,
    exists p ps, split_paragraphs skipping s cur = p :: ps.
Proof.
  induction s as [|c r IH]; intros skipping cur; cbn [split_paragraphs];
    [eauto|].
  destruct (skipping && (c =? 10)); [apply IH|].
  destruct r as [|d r']; [apply IH|].
  destruct ((c =? 10) && (d =? 10)); [eauto | apply IH].
Qed.

Lemma paragraphs_html (text : jsstring) :
  exists rest,
    join [10]
      (List.map
         (fun p => str "<p>" ++ replaceAll [10] (str "<br/>") p ++ str "</p>")
         (split_paragraphs false text []))
    = str "<p>" ++ rest.
Proof.
  destruct (split_paragraphs_first text false []) as [p [ps ->]].
  cbn [List.map join]. destruct (List.map _ ps) as [|q qs].
  - eexists. reflexivity.
  - eexists. rewrite <- !app_assoc. reflexivity.
Qed.

End ParagraphFacts.

(** X23. What [textToHtml] returns is empty or looks like HTML already,
    so that the function returns it as it is: converting a text twice
    gives what converting it once gives. *)
Theorem textToHtml_idempotent :
  forall text : jsstring,
    (textToHtml text = [] \/ looks_like_html (textToHtml text) = true)
    /\ textToHtml (textToHtml text) = textToHtml text.
Proof.
  intros text.
  assert (H : textToHtml text = []
              \/ looks_like_html (textToHtml text) = true).
  { unfold textToHtml. destruct (nonempty text); cbn [negb]; [|auto].
    destruct (looks_like_html text) eqn:E; [auto|].
    right. destruct (paragraphs_html text) as [rest ->]. reflexivity. }
  split; [exact H|].
  destruct H as [-> | H]; [reflexivity|].
  set (h := textToHtml text) in *. clearbody h. unfold textToHtml.
  destruct h as [|c r]; [reflexivity|].
  cbn [nonempty negb]. rewrite H. reflexivity.
Qed.

(** ** The blocks of an archive *)

Section ArchiveBlocks.
Import Archive.

Lemma insert_sorted_length (x : jsstring) (l : list jsstring) :
  length (insert_sorted x l) = S (length l).
Proof.
  induction l as [|y l IH]; [reflexivity|].
  cbn [insert_sorted]. destruct (str_leb x y); cbn [length]; [|rewrite IH];
    reflexivity.
Qed.

Lemma sort_length (l : list jsstring) : length (sort l) = length l.
Proof.
  unfold sort. induction l as [|x l IH]; [reflexivity|].
  cbn [fold_right]. rewrite insert_sorted_length. cbn [length].
  f_equal. exact IH.
Qed.

Lemma paddedSize_blocks (size : Z) : paddedSize size mod 512 = 0.
Proof. unfold paddedSize. apply Z.mod_mul. discriminate. Qed.

Lemma concat_headers_length {A} (f : nat * A -> list Z) (l : list (nat * A)) :
  (forall x, length (f x) = 512%nat) ->
  Z.of_nat (length (concat (List.map f l))) = 512 * Z.of_nat (length l).
Proof.
  intros H. induction l as [|x l IH]; [reflexivity|].
  cbn [List.map concat length]. rewrite length_app, H. lia.
Qed.

Lemma concat_files_length (clock : nat -> Z) (l : list (nat * Entry)) :
  Z.of_nat
    (length
       (concat
          (List.map
             (fun ne =>
                createTarHeader (clock (fst ne)) (e_name (snd ne))
                  (Z.of_nat (length (e_data (snd ne)))) false
                ++ padded (e_data (snd ne)))
             l)))
  = fold_right Z.add 0
      (List.map
         (fun ne => 512 + paddedSize (Z.of_nat (length (e_data (snd ne))))) l).
Proof.
  induction l as [|x l IH]; [reflexivity|].
  cbn [List.map concat fold_right]. rewrite !length_app, !Nat2Z.inj_add, IH.
  rewrite createTarHeader_length, padded_length. lia.
Qed.

Lemma sizes_combine (n : nat) (entries : list Entry) :
  List.map
    (fun ne : nat * Entry =>
       512 + paddedSize (Z.of_nat (length (e_data (snd ne)))))
    (combine (seq n (length entries)) entries)
  = List.map
      (fun e => 512 + paddedSize (Z.of_nat (length (e_data e)))) entries.
Proof.
  revert n. induction entries as [|e entries IH]; intros n; [reflexivity|].
  cbn [length seq combine List.map snd]. rewrite IH. reflexivity.
Qed.

Lemma sizes_blocks (l : list Z) :
  Forall (fun x => x mod 512 = 0) l -> fold_right Z.add 0 l mod 512 = 0.
Proof.
  induction 1 as [|x l Hx _ IH]; [reflexivity|].
  cbn [fold_right]. rewrite Z.add_mod, Hx, IH by discriminate. reflexivity.
Qed.

End ArchiveBlocks.

(** X24. An archive that [createTar] writes is a whole number of blocks
    of 512 bytes: one header block for every directory of the entry
    names, for every entry one header block and its data padded to
    whole blocks, and at the end two blocks of zeros. *)
Theorem createTar_whole_blocks :
  forall (clock : nat -> Z) (entries : list Archive.Entry),
    Z.of_nat (length (Archive.createTar clock entries))
    = 512 * Z.of_nat (length (Archive.collectDirs entries))
      + fold_right Z.add 0
          (List.map
             (fun e =>
                512 + Archive.paddedSize
                        (Z.of_nat (length (Archive.e_data e))))
             entries)
      + 1024
    /\ Z.of_nat (length (Archive.createTar clock entries)) mod 512 = 0
    /\ skipn (length (Archive.createTar clock entries) - 1024)
         (Archive.createTar clock entries)
       = repeat 0 1024.
Proof.
  intros clock entries.
  assert (L : Z.of_nat (length (Archive.createTar clock entries))
              = 512 * Z.of_nat (length (Archive.collectDirs entries))
                + fold_right Z.add 0
                    (List.map
                       (fun e =>
                          512 + Archive.paddedSize
                                  (Z.of_nat (length (Archive.e_data e))))
                       entries)
                + 1024).
  { unfold Archive.createTar. cbv zeta.
    rewrite !length_app, !Nat2Z.inj_add, repeat_length.
    rewrite concat_headers_length by (intros x; apply createTarHeader_length).
    rewrite length_combine, length_seq, Nat.min_id, sort_length.
    rewrite concat_files_length, sizes_combine. lia. }
  split; [exact L|]. split.
  - rewrite L.
    rewrite Z.add_mod, (Z.add_mod (512 * _)), Z.mul_comm, Z.mod_mul
      by discriminate.
    rewrite sizes_blocks; [reflexivity|].
    apply Forall_forall. intros x Hx. apply in_map_iff in Hx as [e [<- _]].
    rewrite Z.add_mod, paddedSize_blocks by discriminate. reflexivity.
  - unfold Archive.createTar. cbv zeta. rewrite app_assoc.
    rewrite length_app, repeat_length, Nat.add_sub.
    rewrite skipn_app, skipn_all, Nat.sub_diag. reflexivity.
Qed.

(** ** Element texts are read as they are written *)

Section EscapedText.
Import Regex OlxParser XmlText RoundTrip Generators.

Lemma problem_label_escaped (b : ProblemBlock) :
  elementText "label" (problemXml b)
  = normalizeSpace (esc (pb_questionText b)).
Proof.
  unfold problemXml.
  match goal with
  | |- elementText _ (?h1 ++ ?a1 ++ ?sp ++ ?a2 ++ ?gt ++ ?n1 ++ ?m ++ ?n2
                      ++ str "  <label>" ++ ?q ++ str "</label>" ++ ?r) = _ =>
    replace (h1 ++ a1 ++ sp ++ a2 ++ gt ++ n1 ++ m ++ n2
             ++ str "  <label>" ++ q ++ str "</label>" ++ r)
      with ((h1 ++ a1 ++ sp ++ a2 ++ gt ++ n1 ++ m ++ n2 ++ str "  ")
            ++ str "<" ++ str "label" ++ str ">" ++ q
            ++ (str "</" ++ str "label" ++ str ">") ++ r)
      by (rewrite <- !app_assoc; reflexivity)
  end.
  apply elementText_found; [solve_miss_xml | auto with plain].
Qed.

End EscapedText.

(** X25. Import does not decode the entities of an element text: the
    question that [parseProblemBlock] reads from the file that
    [generateProblemBlocks] writes for a block is the escaped text of
    the question, white space normalised, whatever the question and the
    rest of the block are.  A question with an ampersand, an angle
    bracket or a quote comes back with the entity in its place. *)
Theorem parseProblemBlock_question_escaped :
  forall (files : JsMap.t jsstring) (id : jsstring) (b : ProblemBlock)
         (st : OlxParser.state),
    JsMap.has (problemBlocks (fst st)) id = false ->
    OlxParser.getFile files (str "problem/" ++ id ++ str ".xml")
    = Some (Generators.problemXml b) ->
    option_map pb_questionText
      (JsMap.get (problemBlocks (fst (OlxParser.parseProblemBlock files id st)))
         id)
    = Some (RoundTrip.normalizeSpace (Generators.esc (pb_questionText b))).
Proof.
  intros files id b st Hhas Hfile.
  unfold OlxParser.parseProblemBlock. rewrite Hhas, Hfile. cbv zeta.
  cbn [fst problemBlocks set_problemBlock]. rewrite get_set_same.
  cbn [option_map pb_questionText]. rewrite problem_label_escaped.
  reflexivity.
Qed.

Lemma parseProblemBlock_question_escaped_witness :
  option_map pb_questionText
    (JsMap.get
       (problemBlocks
          (fst (OlxParser.parseProblemBlock Escaped.files (str "order")
                  Written.start)))
       (str "order"))
  = Some (str "Is 2 &lt; 3 &amp; 4 &gt; 1?").
Proof.
  exact (parseProblemBlock_question_escaped Escaped.files (str "order")
           Escaped.question_block Written.start eq_refl eq_refl).
Defined.

(** ** The statistics and the tree *)

Section StatsFacts.
Import Hierarchy IdDomain Stats.
Variable rows : list StructureRow.

Local Abbreviation chapters := (firstOccurrences (List.map chapter rows)).
Local Abbreviation sequentialsOf :=
  (fun c => firstOccurrences
              (List.map sequential (filter (inChapter c) rows))).
Local Abbreviation verticalsOf :=
  (fun c s =>
     firstOccurrences
       (List.map vertical
          (filter (inSequential s) (filter (inChapter c) rows)))).

Lemma same_elements_length (l1 l2 : list jsstring) :
  NoDup l1 -> NoDup l2 -> (forall x, In x l1 <-> In x l2) ->
  length l1 = length l2.
Proof.
  intros N1 N2 H. apply Permutation_length, NoDup_Permutation; assumption.
Qed.

Lemma flat_map_length_eq {A B C} (f : A -> list B) (g : A -> list C)
  (l : list A) :
  (forall a, length (f a) = length (g a)) ->
  length (flat_map f l) = length (flat_map g l).
Proof.
  intros H. induction l as [|a l IH]; [reflexivity|].
  cbn [flat_map]. rewrite !length_app, H, IH. reflexivity.
Qed.

(** The nodes of the tree, counted by their names. *)
Lemma sequential_nodes (idMap : JsMap.t jsstring) :
  length (flat_map c_sequentials (specHierarchy idMap rows))
  = length
      (flat_map (fun c => List.map (fun s => c ++ str "|" ++ s)
                            (sequentialsOf c))
         chapters).
Proof.
  rewrite <- (length_map s_id), sequential_ids_spec.
  apply flat_map_length_eq. intros c. rewrite !length_map. reflexivity.
Qed.

Lemma vertical_nodes (idMap : JsMap.t jsstring) :
  length
    (flat_map s_verticals (flat_map c_sequentials (specHierarchy idMap rows)))
  = length
      (flat_map
         (fun c =>
            flat_map
              (fun s => List.map (fun v => c ++ str "|" ++ s ++ str "|" ++ v)
                          (verticalsOf c s))
              (sequentialsOf c))
         chapters).
Proof.
  rewrite <- (length_map v_id), vertical_ids_spec.
  apply flat_map_length_eq. intros c.
  apply flat_map_length_eq. intros s. rewrite !length_map. reflexivity.
Qed.

Lemma row_chapter (r : StructureRow) : In r rows -> In (chapter r) chapters.
Proof. intros H. apply firstOccurrences_In, in_map, H. Qed.

Lemma row_sequential (r : StructureRow) :
  In r rows -> In (sequential r) (sequentialsOf (chapter r)).
Proof.
  intros H. apply firstOccurrences_In, in_map, filter_In.
  split; [exact H | apply eqb_refl].
Qed.

Lemma row_vertical (r : StructureRow) :
  In r rows -> In (vertical r) (verticalsOf (chapter r) (sequential r)).
Proof.
  intros H. apply firstOccurrences_In, in_map, filter_In.
  split; [|apply eqb_refl]. apply filter_In. split; [exact H | apply eqb_refl].
Qed.

Hypothesis unambiguous : keys_unambiguous rows = true.

Lemma chapter_no_bar (c : jsstring) :
  In c chapters -> forallb (fun u => negb (u =? 124)) c = true.
Proof.
  intros H. apply chapter_row in H as [r [Hr <-]].
  apply (row_no_bar rows unambiguous r Hr).
Qed.

Lemma sequential_no_bar (c s : jsstring) :
  In s (sequentialsOf c) -> forallb (fun u => negb (u =? 124)) s = true.
Proof.
  intros H. apply sequential_row in H as [r [Hr [_ <-]]].
  apply (row_no_bar rows unambiguous r Hr).
Qed.

Lemma sequentialCount_nodes (idMap : JsMap.t jsstring) :
  sequentialCount rows
  = length (flat_map c_sequentials (specHierarchy idMap rows)).
Proof.
  rewrite sequential_nodes. unfold sequentialCount, setSize.
  apply same_elements_length; [apply firstOccurrences_NoDup | |].
  - apply NoDup_flat_map_in; [apply firstOccurrences_NoDup | |].
    + intros c _. apply NoDup_map_in; [|apply firstOccurrences_NoDup].
      intros x y _ _ E. apply app_inv_head in E. injection E as E. exact E.
    + intros a b x Ha Hb Hx Hy.
      apply in_map_iff in Hx as [s1 [<- _]].
      apply in_map_iff in Hy as [s2 [E _]]. symmetry in E.
      cbn [str app] in E.
      apply split_unique in E as [E _];
        [exact E | apply chapter_no_bar, Ha | apply chapter_no_bar, Hb].
  - intros x. rewrite firstOccurrences_In, in_map_iff, in_flat_map. split.
    + intros [r [<- Hr]]. exists (chapter r). split; [apply row_chapter, Hr|].
      apply in_map_iff. exists (sequential r).
      split; [reflexivity | apply row_sequential, Hr].
    + intros [c [Hc Hx]]. apply in_map_iff in Hx as [s [<- Hs]].
      apply sequential_row in Hs as [r [Hr [<- <-]]]. exists r. auto.
Qed.

Lemma verticalCount_nodes (idMap : JsMap.t jsstring) :
  verticalCount rows
  = length
      (flat_map s_verticals
         (flat_map c_sequentials (specHierarchy idMap rows))).
Proof.
  rewrite vertical_nodes. unfold verticalCount, setSize.
  apply same_elements_length; [apply firstOccurrences_NoDup | |].
  - apply NoDup_flat_map_in; [apply firstOccurrences_NoDup | |].
    + intros c Hc.
      apply NoDup_flat_map_in; [apply firstOccurrences_NoDup | |].
      * intros s _. apply NoDup_map_in; [|apply firstOccurrences_NoDup].
        intros x y _ _ E. apply app_inv_head in E. cbn [str app] in E.
        injection E as E. apply app_inv_head in E. injection E as E. exact E.
      * intros a b x Ha Hb Hx Hy.
        apply in_map_iff in Hx as [v1 [<- _]].
        apply in_map_iff in Hy as [v2 [E _]]. symmetry in E.
        apply app_inv_head in E. cbn [str app] in E. injection E as E.
        apply split_unique in E as [E _];
          [exact E | apply (sequential_no_bar c), Ha
           | apply (sequential_no_bar c), Hb].
    + intros a b x Ha Hb Hx Hy.
      apply in_flat_map in Hx as [s1 [_ Hx]].
      apply in_flat_map in Hy as [s2 [_ Hy]].
      apply in_map_iff in Hx as [v1 [<- _]].
      apply in_map_iff in Hy as [v2 [E _]]. symmetry in E.
      cbn [str app] in E.
      apply split_unique in E as [E _];
        [exact E | apply chapter_no_bar, Ha | apply chapter_no_bar, Hb].
  - intros x. rewrite firstOccurrences_In, in_map_iff, in_flat_map. split.
    + intros [r [<- Hr]]. exists (chapter r). split; [apply row_chapter, Hr|].
      apply in_flat_map. exists (sequential r).
      split; [apply row_sequential, Hr|].
      apply in_map_iff. exists (vertical r).
      split; [reflexivity | apply row_vertical, Hr].
    + intros [c [Hc Hx]]. apply in_flat_map in Hx as [s [Hs Hx]].
      apply in_map_iff in Hx as [v [<- Hv]].
      apply vertical_row in Hv as [r [Hr [<- [<- <-]]]]. exists r. auto.
Qed.

End StatsFacts.

(** X26. The statistics that [updateStats] shows count the nodes of the
    tree that [buildHierarchy] builds from the same rows, whatever the
    id lookup: the number of chapters is the number of chapter nodes;
    and when no chapter or sequential name holds a vertical bar, the
    numbers of subsections and of units are the numbers of sequential
    and of vertical nodes. *)
Theorem updateStats_counts_nodes :
  forall (idMap : JsMap.t jsstring) (rows : list StructureRow),
    let tree := Hierarchy.buildHierarchy idMap rows in
    Stats.chapterCount rows = length tree
    /\ (IdDomain.keys_unambiguous rows = true ->
        Stats.sequentialCount rows
        = length (flat_map Hierarchy.c_sequentials tree)
        /\ Stats.verticalCount rows
           = length
               (flat_map Hierarchy.s_verticals
                  (flat_map Hierarchy.c_sequentials tree))).
Proof.
  intros idMap rows tree. subst tree. rewrite buildHierarchy_spec. split.
  - unfold Hierarchy.specHierarchy. rewrite length_map. reflexivity.
  - intros K. split.
    + apply sequentialCount_nodes, K.
    + apply verticalCount_nodes, K.
Qed.

Lemma updateStats_counts_nodes_witness :
  IdDomain.keys_unambiguous (structure Written.course) = true
  /\ Stats.sequentialCount (structure Written.course)
     = length (flat_map Hierarchy.c_sequentials Written.tree)
  /\ Stats.verticalCount (structure Written.course)
     = length
         (flat_map Hierarchy.s_verticals
            (flat_map Hierarchy.c_sequentials Written.tree)).
Proof.
  split; [reflexivity|].
  apply (updateStats_counts_nodes
           (Main.buildIdMap (P := Reference.platform) Template.entropy
              (structure Written.course))
           (structure Written.course)).
  reflexivity.
Defined.

(** ** The archive decoder on sizes that are not negative *)

Section ReturnFacts.
Import Archive Untar UntarEdge.

(** A round of the loop at a block passes the header at least, and
    stops at a block. *)
Lemma extractStep_forward (data : list Z) (k : nat) (offset' : Z)
  (files files' : JsMap.t jsstring) :
  sizes_nonnegative data = true ->
  512 * Z.of_nat k + 512 <= Z.of_nat (length data) ->
  extractStep data (512 * Z.of_nat k) files = Some (offset', files') ->
  exists k', offset' = 512 * Z.of_nat k' /\ (k < k')%nat.
Proof.
  intros H L. unfold extractStep. cbv zeta.
  destruct (isZeroBlock _); [discriminate|].
  destruct (negb (nonempty _)); [discriminate|].
  intros [= <- _].
  fold (headerSize
          (subarray data (512 * Z.of_nat k) (512 * Z.of_nat k + 512))).
  unfold sizes_nonnegative in H. rewrite forallb_forall in H.
  assert (K : (k < length data / 512)%nat).
  { apply (Nat.div_le_lower_bound (length data) 512 (S k)); lia. }
  specialize (H k). rewrite in_seq in H. apply Z.leb_le in H; [|lia].
  set (size := headerSize _) in *. clearbody size.
  pose proof (paddedSize_bounds size H) as B. unfold paddedSize in *.
  exists (S k + Z.to_nat (- (- size / 512)))%nat. split; lia.
Qed.

Lemma extractLoop_returns (data : list Z) :
  sizes_nonnegative data = true ->
  forall (n k : nat) (files : JsMap.t jsstring),
    Z.of_nat (length data) < 512 * (Z.of_nat k + Z.of_nat n + 1) ->
    exists files',
      extractLoop (S n) data (512 * Z.of_nat k) files = Returned files'.
Proof.
  intros H. induction n as [|n IH]; intros k files L; cbn [extractLoop].
  - destruct (Z.leb_spec (512 * Z.of_nat k + 512) (Z.of_nat (length data)));
      [lia | eauto].
  - destruct (Z.leb_spec (512 * Z.of_nat k + 512) (Z.of_nat (length data)))
      as [C|C]; [|eauto].
    destruct (extractStep data (512 * Z.of_nat k) files)
      as [[offset' files']|] eqn:E; [|eauto].
    destruct (extractStep_forward _ _ _ _ _ H C E) as [k' [-> K]].
    apply IH. lia.
Qed.

End ReturnFacts.

(** X27. The archive decoder returns when no size is negative: if no
    block of 512 bytes of the data, read as a header, has a size field
    that parses to a number below zero, every round of [extractTar]
    moves the offset forward by a whole number of blocks, one at least,
    and the loop ends with the map of the files within as many rounds as
    the data has bytes, and one more. *)
Theorem extractTar_returns :
  forall data : list Z,
    UntarEdge.sizes_nonnegative data = true ->
    exists files, Untar.extractTar data = Untar.Returned files.
Proof.
  intros data H. unfold Untar.extractTar.
  apply (extractLoop_returns data H (length data) 0 []). lia.
Qed.

Lemma extractTar_returns_witness :
  exists files,
    Untar.extractTar
      (Archive.createTar ArchiveDomain.clock0
         [{| Archive.e_name := str "course/about-us.xml";
             Archive.e_data := str "<a-b/>" |}])
    = Untar.Returned files.
Proof.
  apply (extractTar_returns
           (Archive.createTar ArchiveDomain.clock0
              [{| Archive.e_name := str "course/about-us.xml";
                  Archive.e_data := str "<a-b/>" |}])).
  vm_compute. reflexivity.
Defined.

(** ** Stripping tags *)

Section StripFacts.
Import Regex OlxParser Stripped.

Local Abbreviation not_lt := (fun c : Z => negb (c =? 60)).
Local Abbreviation not_gt := (fun c : Z => negb (c =? 62)).
Local Abbreviation bracket := (fun c : Z => (c =? 60) || (c =? 62)).

Lemma first_unit (c : Z) (s : jsstring) :
  forallb (fun x => negb (x =? c)) s = true
  \/ exists a t, s = a ++ c :: t /\ forallb (fun x => negb (x =? c)) a = true.
Proof.
  induction s as [|x s IH]; [left; reflexivity|].
  destruct (Z.eqb_spec x c) as [->|N].
  - right. exists [], s. auto.
  - apply Z.eqb_neq in N. destruct IH as [IH | [a [t [-> Ha]]]].
    + left. cbn [forallb]. rewrite N, IH. reflexivity.
    + right. exists (x :: a), t. cbn [forallb]. rewrite N, Ha. auto.
Qed.

Lemma no_gt_existsb (s : jsstring) :
  forallb not_gt s = true -> existsb (fun x => x =? 62) s = false.
Proof.
  induction s as [|c s IH]; [reflexivity|]. cbn [forallb existsb].
  intros H. apply andb_true_iff in H as [Hc H].
  apply negb_true_iff in Hc. rewrite Hc, IH by exact H. reflexivity.
Qed.

Lemma no_gt_no_tag (s : jsstring) : forallb not_gt s = true -> no_tag s = true.
Proof.
  induction s as [|c s IH]; [reflexivity|]. cbn [forallb no_tag].
  intros H. apply andb_true_iff in H as [_ H].
  rewrite (no_gt_existsb s H), IH by exact H. cbn [negb].
  rewrite orb_true_r. reflexivity.
Qed.

Lemma no_tag_behind (a s : jsstring) :
  forallb not_lt a = true -> no_tag (a ++ s) = no_tag s.
Proof.
  induction a as [|c a IH]; [reflexivity|]. cbn [forallb app no_tag].
  intros H. apply andb_true_iff in H as [Hc H]. rewrite Hc, IH by exact H.
  reflexivity.
Qed.

(** The pattern of a tag at a [<] that a [>] follows. *)
Lemma tag_hit_any (b c : jsstring) :
  forallb not_gt b = true ->
  matcher re_tag (60 :: b ++ 62 :: c) [] matched_here = Some (c, []).
Proof.
  intros Hb. unfold re_tag, chr, notchr. cbn [seq_of].
  rewrite matcher_cat, matcher_chr_cons. cbv beta. rewrite Z.eqb_refl.
  rewrite matcher_cat, matcher_star_chr.
  apply star_greedy_run; [exact Hb | reflexivity | reflexivity].
Qed.

(** The pattern of a tag in a text without [>]. *)
Lemma tag_none (t : jsstring) :
  forallb not_gt t = true -> matcher re_tag t [] matched_here = None.
Proof.
  intros H. destruct t as [|c t]; [reflexivity|].
  unfold re_tag, chr, notchr. cbn [seq_of].
  rewrite matcher_cat, matcher_chr_cons. cbv beta.
  destruct (c =? 60); [|reflexivity].
  cbn [forallb] in H. apply andb_true_iff in H as [_ H].
  rewrite matcher_cat, matcher_star_chr. rewrite <- (app_nil_r t).
  apply star_greedy_back; [exact H | | reflexivity].
  intros a1 a2 E N. destruct a2 as [|x a2]; [contradiction|].
  subst t. rewrite forallb_app in H. apply andb_true_iff in H as [_ H].
  cbn [forallb] in H. apply andb_true_iff in H as [Hx _].
  apply negb_true_iff in Hx. cbn [app]. rewrite matcher_chr_cons.
  cbv beta. rewrite Hx. reflexivity.
Qed.

Lemma search_from_no_gt (t : jsstring) :
  forallb not_gt t = true ->
  forall passed, search_from re_tag passed t = None.
Proof.
  induction t as [|c t IH]; intros H passed.
  - reflexivity.
  - cbn [search_from]. rewrite (tag_none (c :: t) H).
    cbn [forallb] in H. apply andb_true_iff in H as [_ H]. apply IH, H.
Qed.

Lemma exec_all_search_none (r : regex) (s : jsstring) :
  search r s = None -> exec_all r s = [].
Proof.
  intros H. unfold exec_all. cbn [exec_all_from]. rewrite H. reflexivity.
Qed.

Lemma replace_all_open (rep a t : jsstring) :
  forallb not_lt a = true -> forallb not_gt t = true ->
  replace_all re_tag rep (a ++ 60 :: t) = a ++ 60 :: t.
Proof.
  intros Ha Ht. unfold replace_all.
  rewrite exec_all_search_none; [reflexivity|].
  unfold search. rewrite search_from_miss
    by (apply miss_plain; [apply begins_lt_tag | exact Ha]).
  apply search_from_no_gt. cbn [forallb]. rewrite Ht. reflexivity.
Qed.

Lemma replace_all_no_tag (n : nat) :
  forall s, (length s <= n)%nat ->
            no_tag (replace_all re_tag (str " ") s) = true.
Proof.
  induction n as [|n IH]; intros s L.
  - destruct s; [reflexivity | cbn [length] in L; lia].
  - destruct (first_unit 60 s) as [H | [a [t [-> Ha]]]].
    + rewrite replace_all_none;
        [| apply miss_plain; [apply begins_lt_tag | exact H] | reflexivity].
      rewrite <- (app_nil_r s). rewrite no_tag_behind by exact H. reflexivity.
    + destruct (first_unit 62 t) as [H | [b [c [-> Hb]]]].
      * rewrite replace_all_open by assumption.
        rewrite no_tag_behind by exact Ha. apply no_gt_no_tag.
        cbn [forallb]. rewrite H. reflexivity.
      * rewrite (replace_all_hit re_tag (str " ") a (60 :: b ++ 62 :: c) c []).
        -- rewrite app_assoc, no_tag_behind.
           ++ apply IH. rewrite length_app in L. cbn [length] in L.
              rewrite length_app in L. cbn [length] in L. lia.
           ++ rewrite forallb_app, Ha. reflexivity.
        -- apply miss_plain; [apply begins_lt_tag | exact Ha].
        -- apply tag_hit_any, Hb.
        -- cbn [length]. rewrite length_app. cbn [length]. lia.
Qed.

(** Only the brackets of a text decide. *)
Lemma existsb_brackets (s : jsstring) :
  existsb (fun x => x =? 62) (filter bracket s)
  = existsb (fun x => x =? 62) s.
Proof.
  induction s as [|c s IH]; [reflexivity|]. cbn [filter existsb].
  destruct (c =? 60) eqn:E1, (c =? 62) eqn:E2; cbn [orb existsb];
    rewrite ?E2, IH; reflexivity.
Qed.

Lemma no_tag_brackets (s : jsstring) : no_tag (filter bracket s) = no_tag s.
Proof.
  induction s as [|c s IH]; [reflexivity|]. cbn [filter no_tag].
  destruct (c =? 60) eqn:E1, (c =? 62) eqn:E2; cbn [orb negb no_tag];
    rewrite ?E1, ?existsb_brackets, IH; reflexivity.
Qed.

Lemma is_ws_bracket (c : Z) : is_ws c = true -> bracket c = false.
Proof.
  intros H. cbv beta.
  destruct (Z.eqb_spec c 60) as [->|_]; [discriminate H|].
  destruct (Z.eqb_spec c 62) as [->|_]; [discriminate H|]. reflexivity.
Qed.

Lemma brackets_replace_runs (s : jsstring) :
  forall b,
    filter bracket (replace_runs_at is_ws (str " ") s b) = filter bracket s.
Proof.
  induction s as [|c s IH]; intros b; [reflexivity|].
  cbn [replace_runs_at filter]. destruct (is_ws c) eqn:W.
  - rewrite (is_ws_bracket c W).
    destruct b; [apply IH | cbn [str app filter]; apply IH].
  - cbn [filter]. rewrite IH. reflexivity.
Qed.

Lemma brackets_trimStart (s : jsstring) :
  filter bracket (trimStart s) = filter bracket s.
Proof.
  induction s as [|c s IH]; [reflexivity|]. cbn [trimStart filter].
  destruct (is_ws c) eqn:W; [|reflexivity].
  rewrite (is_ws_bracket c W). exact IH.
Qed.

Lemma filter_rev {A} (p : A -> bool) (l : list A) :
  filter p (rev l) = rev (filter p l).
Proof.
  induction l as [|x l IH]; [reflexivity|]. cbn [rev filter].
  rewrite filter_app, IH. cbn [filter].
  destruct (p x); [reflexivity | apply app_nil_r].
Qed.

Lemma brackets_trim (s : jsstring) :
  filter bracket (trim s) = filter bracket s.
Proof.
  unfold trim, trimEnd.
  rewrite filter_rev, brackets_trimStart, filter_rev, rev_involutive.
  apply brackets_trimStart.
Qed.

(** Tags replaced, white space normalised: no tag is left. *)
Lemma stripped_no_tag (html : jsstring) :
  no_tag (trim (replace_runs is_ws (str " ")
                  (replace_all re_tag (str " ") html))) = true.
Proof.
  unfold replace_runs.
  rewrite <- no_tag_brackets, brackets_trim, brackets_replace_runs.
  rewrite no_tag_brackets.
  apply (replace_all_no_tag (length html)). lia.
Qed.

Lemma no_tag_firstn (n : nat) (s : jsstring) :
  no_tag s = true -> no_tag (firstn n s ++ [8230]) = true.
Proof.
  revert n. induction s as [|c s IH]; intros n H.
  - destruct n; reflexivity.
  - destruct n as [|n]; [reflexivity|].
    cbn [no_tag] in H. apply andb_true_iff in H as [Hc H].
    cbn [firstn app no_tag]. rewrite IH by exact H.
    rewrite andb_true_r. destruct (c =? 60); [|reflexivity].
    cbn [negb orb] in *. apply negb_true_iff in Hc. apply negb_true_iff.
    rewrite existsb_app. cbn [existsb]. change (8230 =? 62) with false.
    cbn [orb]. rewrite orb_false_r.
    destruct (existsb (fun x => x =? 62) (firstn n s)) eqn:E; [|reflexivity].
    apply existsb_exists in E as [x [Hx E]].
    assert (T : existsb (fun x => x =? 62) s = true).
    { apply existsb_exists. exists x. split; [|exact E].
      rewrite <- (firstn_skipn n s). apply in_or_app. left. exact Hx. }
    congruence.
Qed.

End StripFacts.

(** X28. What [stripTags] returns holds no tag: no [<] of the result has
    a [>] behind it, so the pattern of a tag matches nowhere in it,
    whatever the text was.  (A [<] that nothing closes, and a [>] that
    nothing opens, stay.) *)
Theorem stripTags_no_tag :
  forall html : jsstring,
    Stripped.no_tag (OlxParser.stripTags html) = true.
Proof. intros html. apply stripped_no_tag. Qed.

(** X29. The text that the preview shows for the content of a text
    block, [truncate(stripHtml(content), max)], holds no tag, and has
    [max] code units and the ellipsis at most; the preview inserts it
    as it is, without escaping. *)
Theorem preview_text_no_tag :
  forall (content : jsstring) (max : Z),
    Stripped.no_tag (Preview.truncate (Preview.stripHtml content) max) = true
    /\ Z.of_nat (length (Preview.truncate (Preview.stripHtml content) max))
       <= Z.max max 0 + 1.
Proof.
  intros content max. unfold Preview.truncate.
  pose proof (stripped_no_tag content) as H.
  fold (Preview.stripHtml content) in H.
  destruct (nonempty (Preview.stripHtml content)); cbn [negb];
    [|split; [reflexivity | cbn [length]; lia]].
  destruct (Z.leb_spec (Z.of_nat (length (Preview.stripHtml content))) max).
  - split; [exact H | lia].
  - split; [apply no_tag_firstn, H|].
    rewrite length_app, length_firstn. cbn [length]. lia.
Qed.

(** ** The course information that Import reads back *)

Section InfoKept.
Import Regex OlxParser.
Context {P : Platform}.
Variable files : JsMap.t jsstring.

Ltac same_info unfolder :=
  unfolder; cbv zeta;
  repeat match goal with
         | |- context [if ?c then _ else _] => destruct c
         | |- context [match getFile ?f ?p with _ => _ end] =>
           destruct (getFile f p)
         end; reflexivity.

Lemma parseHtmlBlock_info id st :
  info (fst (parseHtmlBlock files id st)) = info (fst st).
Proof. same_info ltac:(unfold parseHtmlBlock). Qed.

Lemma parseVideoBlock_info id inline st :
  info (fst (parseVideoBlock files id inline st)) = info (fst st).
Proof.
  unfold parseVideoBlock. cbv zeta.
  destruct (JsMap.has (videoBlocks (fst st)) id); reflexivity.
Qed.

Lemma parseProblemBlock_info id st :
  info (fst (parseProblemBlock files id st)) = info (fst st).
Proof.
  unfold parseProblemBlock.
  destruct (JsMap.has (problemBlocks (fst st)) id); [reflexivity|].
  destruct (getFile files _); reflexivity.
Qed.

Lemma parseOpenResponseBlock_info id st :
  info (fst (parseOpenResponseBlock files id st)) = info (fst st).
Proof.
  unfold parseOpenResponseBlock.
  destruct (JsMap.has (openResponseBlocks (fst st)) id); [reflexivity|].
  destruct (getFile files _); reflexivity.
Qed.

Lemma readBlock_info c s v vid st block :
  info (fst (readBlock files c s v vid st block)) = info (fst st).
Proof.
  unfold readBlock. cbv zeta.
  repeat match goal with
         | |- context [if ?c then _ else _] => destruct c
         end; cbn [fst push_structure info warn];
    auto using parseHtmlBlock_info, parseVideoBlock_info,
      parseProblemBlock_info, parseOpenResponseBlock_info.
Qed.

Lemma readVertical_info c s st vid :
  info (fst (readVertical files c s st vid)) = info (fst st).
Proof.
  unfold readVertical. destruct (getFile files _); [|reflexivity].
  cbv zeta. apply (fold_left_same (fun st => info (fst st))).
  intros a b. apply readBlock_info.
Qed.

Lemma readSequential_info c st sid :
  info (fst (readSequential files c st sid)) = info (fst st).
Proof.
  unfold readSequential. destruct (getFile files _); [|reflexivity].
  cbv zeta. apply (fold_left_same (fun st => info (fst st))).
  intros a b. apply readVertical_info.
Qed.

Lemma readChapter_info st cid :
  info (fst (readChapter files st cid)) = info (fst st).
Proof.
  unfold readChapter. destruct (getFile files _); [|reflexivity].
  cbv zeta. apply (fold_left_same (fun st => info (fst st))).
  intros a b. apply readSequential_info.
Qed.

(** The policy file leaves the identity and the dates, and a name that
    is not empty. *)
Lemma readPolicy_info run_ st :
  let i := info (fst st) in
  let i' := info (fst (readPolicy files run_ st)) in
  org i' = org i /\ courseId i' = courseId i /\ run i' = run i
  /\ startDate i' = startDate i /\ endDate i' = endDate i
  /\ (nonempty (courseName i) = true -> courseName i' = courseName i).
Proof.
  cbv zeta. unfold readPolicy.
  destruct (getFile files _); [|repeat split].
  destruct (match JSON_parse _ with Some _ => _ | None => _ end);
    [|repeat split].
  cbv zeta. cbn [fst with_info info org courseId run startDate endDate
                 courseName].
  repeat split. intros N. rewrite N. cbn [negb andb].
  destruct (member _ _) as [[]|]; reflexivity.
Qed.

End InfoKept.

Section InfoRead.
Import Regex OlxParser XmlText RoundTrip Generators InfoDomain.
Context {P : Platform}.
Variables (d : CourseData) (tree : list Hierarchy.Chapter).
Hypothesis Hinfo : info_ok (info d) = true.

Local Abbreviation files := (Main.exportFiles d tree).
Local Abbreviation run_ := (or_else (run (info d)) (str "course_run")).

Lemma info_ok_parts :
  no_amp (run (info d)) = true /\ no_amp (org (info d)) = true
  /\ no_amp (courseId (info d)) = true /\ no_amp (courseName (info d)) = true
  /\ no_amp (language (info d)) = true
  /\ no_amp (formatEdxDate (startDate (info d))) = true
  /\ no_amp (formatEdxDate (endDate (info d))) = true.
Proof.
  unfold info_ok in Hinfo.
  repeat match goal with
         | H : _ && _ = true |- _ => apply andb_true_iff in H as [? ?]
         end.
  repeat split; assumption.
Qed.

Lemma course_xml_attributes :
  parseXmlAttributes
    (str "<course " ++ attr "url_name" run_ ++ str " "
     ++ attr "org" (org (info d)) ++ str " "
     ++ attr "course" (courseId (info d)) ++ str "/>" ++ nl)
  = attrs_object [(str "url_name", esc run_); (str "org", esc (org (info d)));
                  (str "course", esc (courseId (info d)))].
Proof.
  replace (str "<course " ++ attr "url_name" run_ ++ str " "
           ++ attr "org" (org (info d)) ++ str " "
           ++ attr "course" (courseId (info d)) ++ str "/>" ++ nl)
    with (str "<" ++ str "course" ++ str " "
          ++ attrs_text
               [(str "url_name", esc run_); (str "org", esc (org (info d)));
                (str "course", esc (courseId (info d)))]
          ++ str "/>" ++ nl)
    by (unfold attr, attrs_text, attr_text;
        cbn [flat_map fst snd]; rewrite <- !app_assoc; reflexivity).
  apply parseXmlAttributes_tag; try reflexivity; try discriminate;
    [| right; reflexivity].
  cbn [forallb]. rewrite !esc_attr_ok by reflexivity. reflexivity.
Qed.

Local Abbreviation run_attrs := (InfoDomain.run_attrs (info d)).

Lemma run_xml_attributes :
  parseXmlAttributes (courseRunXml (info d) tree) = attrs_object run_attrs.
Proof.
  unfold courseRunXml. cbv zeta.
  match goal with
  | |- parseXmlAttributes (_ ++ _ ++ _ ++ _ ++ _ ++ _ ++ _ ++ _ ++ ?rest) = _ =>
    set (r := rest)
  end.
  replace (str "<course " ++ attr "display_name" (courseName (info d))
           ++ str " " ++ attr "language" (language (info d))
           ++ (if selfPaced (info d)
               then str " self_paced=" ++ dq ++ str "true" ++ dq else [])
           ++ (if nonempty (startDate (info d))
               then str " " ++ attr "start"
                                 (formatEdxDate (startDate (info d)))
               else [])
           ++ (if nonempty (endDate (info d))
               then str " " ++ attr "end" (formatEdxDate (endDate (info d)))
               else [])
           ++ str ">" ++ r)
    with (str "<" ++ str "course" ++ str " " ++ attrs_text run_attrs
          ++ str ">" ++ r).
  - apply parseXmlAttributes_tag; try reflexivity; try discriminate.
    + unfold InfoDomain.run_attrs. cbv zeta.
      destruct (selfPaced (info d)), (nonempty (startDate (info d))),
        (nonempty (endDate (info d)));
        cbn [app forallb]; rewrite ?esc_attr_ok by reflexivity; reflexivity.
    + left. reflexivity.
  - unfold InfoDomain.run_attrs, attr, attrs_text, attr_text. cbv zeta.
    destruct (selfPaced (info d)), (nonempty (startDate (info d))),
      (nonempty (endDate (info d)));
      cbn [app flat_map fst snd]; rewrite <- ?app_assoc; reflexivity.
Qed.

Lemma formatEdxDate_empty (s : jsstring) :
  nonempty s = false -> formatEdxDate s = [].
Proof. intros H. unfold formatEdxDate. rewrite H. reflexivity. Qed.

(** The course information after the two course files. *)
Lemma run_xml_read :
  let attrs := attrs_object run_attrs in
  prop_or attrs "display_name" [] = courseName (info d)
  /\ prop_or attrs "start" [] = formatEdxDate (startDate (info d))
  /\ prop_or attrs "end" [] = formatEdxDate (endDate (info d)).
Proof.
  destruct info_ok_parts as [_ [_ [_ [Hn [Hl [Hs He]]]]]].
  cbv zeta. unfold InfoDomain.run_attrs. cbv zeta.
  destruct (selfPaced (info d)),
    (nonempty (startDate (info d))) eqn:S,
    (nonempty (endDate (info d))) eqn:E;
    cbn [app]; unfold attrs_object; cbn [fold_left fst snd];
    rewrite ?decode_esc by assumption;
    rewrite ?(formatEdxDate_empty _ S), ?(formatEdxDate_empty _ E);
    read_object; rewrite ?or_else_nil; repeat split; reflexivity.
Qed.

Lemma course_xml_read :
  let attrs :=
    attrs_object [(str "url_name", esc run_); (str "org", esc (org (info d)));
                  (str "course", esc (courseId (info d)))] in
  prop_or attrs "url_name" [] = run_
  /\ prop_or attrs "org" [] = org (info d)
  /\ prop_or attrs "course" [] = courseId (info d).
Proof.
  destruct info_ok_parts as [Hr [Ho [Hc _]]].
  assert (Hr' : no_amp run_ = true).
  { unfold or_else. destruct (nonempty (run (info d)));
      [exact Hr | reflexivity]. }
  cbv zeta. unfold attrs_object. cbn [fold_left fst snd].
  rewrite !decode_esc by assumption.
  read_object. rewrite !or_else_nil. repeat split; reflexivity.
Qed.

Lemma parseOlx_info :
  let i := info (fst (parseOlx files)) in
  org i = org (info d) /\ courseId i = courseId (info d) /\ run i = run_
  /\ startDate i = formatEdxDate (startDate (info d))
  /\ endDate i = formatEdxDate (endDate (info d))
  /\ (nonempty (courseName (info d)) = true ->
      courseName i = courseName (info d)).
Proof.
  cbv zeta. unfold parseOlx.
  rewrite (getFile_found files (str "course.xml") _
             (exportFiles_course_xml d tree) eq_refl).
  cbv zeta. rewrite course_xml_attributes.
  destruct course_xml_read as [R [O C]]. cbv zeta in R, O, C.
  rewrite R, O, C.
  rewrite (getFile_found files _ _ (exportFiles_run_xml d tree) eq_refl).
  rewrite run_xml_attributes.
  destruct run_xml_read as [N [S E]]. cbv zeta in N, S, E.
  cbn [fst snd with_info info createCourseData courseName org courseId run
       language startDate endDate selfPaced].
  rewrite N, S, E.
  assert (F : forall l st,
            info (fst (fold_left (readChapter files) l st)) = info (fst st)).
  { intros l st. apply (fold_left_same (fun st => info (fst st))).
    intros a b. apply readChapter_info. }
  rewrite F.
  match goal with
  | |- context [readPolicy ?f ?r ?st] =>
    pose proof (readPolicy_info f r st) as K
  end.
  cbv zeta in K.
  cbn [fst snd with_info info courseName org courseId run startDate endDate]
    in K.
  exact K.
Qed.

End InfoRead.

(** X30. Import reads the identity of the course back from the files of
    Build, whatever the tree and the blocks are: the organization and
    the course id as they were, the run (course_run for an empty one),
    the name when it is not empty, and the two dates as
    [formatEdxDate] has written them (the empty text for a date that is
    empty or not parseable); for fields without ampersand.  The policy
    file does not change these fields, whether it can be parsed or
    not. *)
Theorem parseOlx_reads_course_info :
  forall (P : Platform) (d : CourseData) (tree : list Hierarchy.Chapter),
    InfoDomain.info_ok (info d) = true ->
    let i := info (fst (OlxParser.parseOlx (Main.exportFiles d tree))) in
    org i = org (info d)
    /\ courseId i = courseId (info d)
    /\ run i = or_else (run (info d)) (str "course_run")
    /\ startDate i = formatEdxDate (startDate (info d))
    /\ endDate i = formatEdxDate (endDate (info d))
    /\ (nonempty (courseName (info d)) = true ->
        courseName i = courseName (info d)).
Proof. intros P d tree H. apply parseOlx_info, H. Qed.

Lemma parseOlx_reads_course_info_witness :
  startDate
    (info
       (fst (OlxParser.parseOlx (P := Reference.platform)
               (Main.exportFiles (P := Reference.platform) Written.course
                  Written.tree))))
  = str "2024-01-15T00:00:00Z".
Proof.
  destruct (parseOlx_reads_course_info Reference.platform Written.course
              Written.tree eq_refl) as [_ [_ [_ [S _]]]].
  rewrite S. reflexivity.
Defined.

(** ** The rows that Import returns *)

Section ImportedRows.
Import Regex OlxParser Parser Imported.
Context {P : Platform}.
Variable files : JsMap.t jsstring.

Lemma includes_snoc (l : list jsstring) (w x : jsstring) :
  includes l x = true -> includes (l ++ [w]) x = true.
Proof.
  intros H. apply includes_In. apply in_or_app. left.
  apply includes_In, H.
Qed.

Lemma includes_last (l : list jsstring) (w : jsstring) :
  includes (l ++ [w]) w = true.
Proof. apply includes_In, in_or_app. right. left. reflexivity. Qed.

Lemma grows_refl st : grows st st.
Proof. repeat split; auto. Qed.

Lemma grows_trans st1 st2 st3 : grows st1 st2 -> grows st2 st3 -> grows st1 st3.
Proof.
  intros [T1 [V1 [Q1 [O1 W1]]]] [T2 [V2 [Q2 [O2 W2]]]].
  repeat split; auto.
Qed.

Lemma grows_warn st w : grows st (warn st w).
Proof.
  repeat split; auto. intros x. cbn [warn snd]. apply includes_snoc.
Qed.

Lemma resolves_grows st st' row :
  grows st st' -> resolves (fst st) row = true -> resolves (fst st') row = true.
Proof.
  intros [T [V [Q [O _]]]]. unfold resolves. cbv zeta.
  repeat match goal with
         | |- context [if ?c then _ else _] => destruct c
         end; auto.
Qed.

Lemma accounted_grows st st' row :
  grows st st' -> accounted st row = true -> accounted st' row = true.
Proof.
  intros G H. unfold accounted in *.
  apply andb_true_iff in H as [H H3]. apply andb_true_iff in H as [H1 H2].
  rewrite H1. cbn [andb]. apply andb_true_iff. split.
  - apply orb_true_iff in H2 as [H2|H2]; apply orb_true_iff.
    + left. apply (resolves_grows _ _ _ G H2).
    + right. destruct G as [_ [_ [_ [_ W]]]]. apply W, H2.
  - destruct (eqb (blockType row) (str "text")
              || eqb (blockType row) (str "video")); [|reflexivity].
    apply (resolves_grows _ _ _ G H3).
Qed.

(** The block parsers. *)
Lemma parseHtmlBlock_grows id st :
  (grows st (parseHtmlBlock files id st)
   /\ structure (fst (parseHtmlBlock files id st)) = structure (fst st))
  /\ JsMap.has (textBlocks (fst (parseHtmlBlock files id st))) id = true.
Proof.
  unfold parseHtmlBlock.
  destruct (JsMap.has (textBlocks (fst st)) id) eqn:E;
    [split; [split; [apply grows_refl | reflexivity] | exact E]|].
  cbv zeta. split; [|apply has_set_same].
  split; [|reflexivity]. repeat split; auto. intros k. apply has_set_keeps.
Qed.

Lemma parseVideoBlock_grows id inline st :
  (grows st (parseVideoBlock files id inline st)
   /\ structure (fst (parseVideoBlock files id inline st)) = structure (fst st))
  /\ JsMap.has (videoBlocks (fst (parseVideoBlock files id inline st))) id
     = true.
Proof.
  unfold parseVideoBlock.
  destruct (JsMap.has (videoBlocks (fst st)) id) eqn:E;
    [split; [split; [apply grows_refl | reflexivity] | exact E]|].
  cbv zeta. split; [|apply has_set_same].
  split; [|reflexivity]. repeat split; auto. intros k. apply has_set_keeps.
Qed.

Lemma parseProblemBlock_grows id st :
  (grows st (parseProblemBlock files id st)
   /\ structure (fst (parseProblemBlock files id st)) = structure (fst st))
  /\ (JsMap.has (problemBlocks (fst (parseProblemBlock files id st))) id
      = true
      \/ includes (snd (parseProblemBlock files id st))
           (str "Problem file not found: problem/" ++ id ++ str ".xml")
         = true).
Proof.
  unfold parseProblemBlock.
  destruct (JsMap.has (problemBlocks (fst st)) id) eqn:E;
    [split; [split; [apply grows_refl | reflexivity] | left; exact E]|].
  destruct (getFile files _).
  - cbv zeta. split; [|left; apply has_set_same].
    split; [|reflexivity]. repeat split; auto. intros k. apply has_set_keeps.
  - split; [split; [apply grows_warn | reflexivity]
           | right; apply includes_last].
Qed.

Lemma parseOpenResponseBlock_grows id st :
  (grows st (parseOpenResponseBlock files id st)
   /\ structure (fst (parseOpenResponseBlock files id st)) = structure (fst st))
  /\ (JsMap.has
        (openResponseBlocks (fst (parseOpenResponseBlock files id st))) id
      = true
      \/ includes (snd (parseOpenResponseBlock files id st))
           (str "Open response file not found: openassessment/" ++ id
            ++ str ".xml")
         = true).
Proof.
  unfold parseOpenResponseBlock.
  destruct (JsMap.has (openResponseBlocks (fst st)) id) eqn:E;
    [split; [split; [apply grows_refl | reflexivity] | left; exact E]|].
  destruct (getFile files _).
  - cbv zeta. split; [|left; apply has_set_same].
    split; [|reflexivity]. repeat split; auto. intros k. apply has_set_keeps.
  - split; [split; [apply grows_warn | reflexivity]
           | right; apply includes_last].
Qed.

Local Abbreviation all_accounted :=
  (fun st : state => forallb (accounted st) (structure (fst st)) = true).

Lemma all_accounted_grows st st' :
  grows st st' /\ structure (fst st') = structure (fst st) ->
  all_accounted st -> all_accounted st'.
Proof.
  intros [G S] H. cbv beta in *. rewrite S.
  apply forallb_forall. intros row Hin. rewrite forallb_forall in H.
  apply (accounted_grows st st' row G). apply H, Hin.
Qed.

Lemma warn_accounted st w : all_accounted st -> all_accounted (warn st w).
Proof.
  apply all_accounted_grows. split; [apply grows_warn | reflexivity].
Qed.

(** A row is pushed behind the rows of a state that holds its block. *)
Lemma push_accounted (st : state) (row : StructureRow) :
  all_accounted st ->
  accounted (push_structure (fst st) row, snd st) row = true ->
  all_accounted (push_structure (fst st) row, snd st).
Proof.
  intros H Hrow. cbv beta in *. cbn [fst push_structure structure].
  rewrite forallb_app. cbn [forallb]. rewrite Hrow.
  rewrite andb_true_r. apply forallb_forall. intros r Hin.
  rewrite forallb_forall in H.
  apply (accounted_grows st); [|apply H, Hin].
  repeat split; auto.
Qed.

Ltac literal_tests :=
  repeat match goal with
         | |- context [eqb (str ?a) (str ?b)] =>
           let v := eval vm_compute in (eqb (str a) (str b)) in
           change (eqb (str a) (str b)) with v
         end;
  cbv iota; cbn [orb andb].

Lemma readBlock_accounted c s v vid st block :
  all_accounted st -> all_accounted (readBlock files c s v vid st block).
Proof.
  intros H. unfold readBlock. cbv zeta.
  set (id := prop_or block "url_name" []).
  destruct (eqb (prop_or block "tag" []) (str "html")).
  { destruct (parseHtmlBlock_grows id st) as [G K].
    apply push_accounted; [apply (all_accounted_grows _ _ G H)|].
    unfold accounted, resolves.
    cbn [fst snd blockType blockId push_structure textBlocks].
    literal_tests.
    rewrite K. reflexivity. }
  destruct (eqb (prop_or block "tag" []) (str "video")).
  { destruct (parseVideoBlock_grows id block st) as [G K].
    apply push_accounted; [apply (all_accounted_grows _ _ G H)|].
    unfold accounted, resolves.
    cbn [fst snd blockType blockId push_structure videoBlocks].
    literal_tests.
    rewrite K. reflexivity. }
  destruct (eqb (prop_or block "tag" []) (str "problem")).
  { destruct (parseProblemBlock_grows id st) as [G K].
    apply push_accounted; [apply (all_accounted_grows _ _ G H)|].
    unfold accounted, resolves, missingWarning.
    cbn [fst snd blockType blockId push_structure problemBlocks].
    literal_tests.
    destruct K as [K|K]; rewrite K; [reflexivity|].
    rewrite orb_true_r. reflexivity. }
  destruct (eqb (prop_or block "tag" []) (str "openassessment")).
  { destruct (parseOpenResponseBlock_grows id st) as [G K].
    apply push_accounted; [apply (all_accounted_grows _ _ G H)|].
    unfold accounted, resolves, missingWarning.
    cbn [fst snd blockType blockId push_structure openResponseBlocks].
    literal_tests.
    destruct K as [K|K]; rewrite K; [reflexivity|].
    rewrite orb_true_r. reflexivity. }
  destruct (_ || _); [exact H|].
  apply warn_accounted, H.
Qed.

Lemma readVertical_accounted c s st vid :
  all_accounted st -> all_accounted (readVertical files c s st vid).
Proof.
  intros H. unfold readVertical. destruct (getFile files _).
  - cbv zeta. apply (fold_left_invariant all_accounted); [|exact H].
    intros a b. apply readBlock_accounted.
  - apply warn_accounted, H.
Qed.

Lemma readSequential_accounted c st sid :
  all_accounted st -> all_accounted (readSequential files c st sid).
Proof.
  intros H. unfold readSequential. destruct (getFile files _).
  - cbv zeta. apply (fold_left_invariant all_accounted); [|exact H].
    intros a b. apply readVertical_accounted.
  - apply warn_accounted, H.
Qed.

Lemma readChapter_accounted st cid :
  all_accounted st -> all_accounted (readChapter files st cid).
Proof.
  intros H. unfold readChapter. destruct (getFile files _).
  - cbv zeta. apply (fold_left_invariant all_accounted); [|exact H].
    intros a b. apply readSequential_accounted.
  - apply warn_accounted, H.
Qed.

Lemma readPolicy_structure run_ st :
  structure (fst (readPolicy files run_ st)) = structure (fst st).
Proof.
  unfold readPolicy. destruct (getFile files _); [|reflexivity].
  destruct (match JSON_parse _ with Some _ => _ | None => _ end);
    reflexivity.
Qed.

Lemma parseOlx_accounted : all_accounted (parseOlx files).
Proof.
  unfold parseOlx. destruct (getFile files (str "course.xml"));
    [|reflexivity].
  cbv zeta. apply (fold_left_invariant all_accounted).
  - intros a b. apply readChapter_accounted.
  - cbv beta. rewrite readPolicy_structure.
    destruct (getFile files _); reflexivity.
Qed.

End ImportedRows.

(** X12. Every row that Import returns is accounted for, whatever the
    files of the archive are: its type is one of text, video, problem
    and openresponse, and the model holds its block in the map of its
    type, or the warnings name the missing file of the block.  A text or
    video row always has its block; a problem or open-response row whose
    file is missing stays in the structure without a block. *)
Theorem parseOlx_rows_accounted :
  forall (P : Platform) (files : JsMap.t jsstring),
    forallb (Imported.accounted (OlxParser.parseOlx files))
      (structure (fst (OlxParser.parseOlx files))) = true.
Proof. intros P files. apply parseOlx_accounted. Qed.
